(* ===== verification/_CoqProject ===== *)
-Q . S2P
Prelude.v
GoStrings.v
Base64.v
Security.v
Types.v
Policy.v
DpiParse.v
DpiEngine.v
DpiService.v
FrpManager.v
FrpDrain.v
FrpConn.v
Config.v
ConfigFile.v
FrpTls.v
NodePorts.v
NodeSettings.v
Pki.v
EdgeStore.v
EdgeIdentity.v
ControllerDB.v
NodeDirectory.v
IdentityPage.v
DBInvariant.v
IdentityView.v
CacheIndex.v
BaselineApply.v
ControllerLink.v
NodeFault.v
EdgeServer.v
EdgePorts.v
EdgeQueue.v
EdgeCommands.v
CommandLog.v
SystemSettings.v
SettingsRestart.v
AdminAccess.v
Enrollment.v
ClusterJoin.v
NodeTelemetry.v
EventFlow.v
EdgeLink.v
SyncPhase.v
ClusterSync.v
WireCodec.v
ClusterRun.v
ClusterLive.v
