(* ===== verification/Prelude.v ===== *)
(** * MeowFRP server: a verification development

    The program is a control server for FRP tunnels.  A _controller_ owns the
    accounts, tokens, policies and bans in a central database; an _edge_ keeps a
    synchronized copy in a local SQLite file; both run an FRP server with the
    same core: a client authenticates, asks for ports (bootstrap), gets a lease
    with a runtime token, and opens proxies under it, while the core tracks
    connections, inspects their first bytes and fences new registrations during
    faults.  Names below are paths under [src/internal].

    ** Files

    Common:
    - [Prelude], [GoStrings], [Base64], [Types]: record update, time, byte slices,
      Go strings and encodings, and the structs of [db/store.go] that the parts
      exchange.
    - [Config], [ConfigFile]: [config], the configuration, its layers and its file.
    - [Security]: [security], tokens and signed sessions.

    A node and its FRP server:
    - [Policy]: [policy/engine.go], the hook interface as a class.
    - [DpiParse], [DpiEngine]: [dpiengine/composite.go] and [engine.go], the byte
      parsers and the engine with one state per flow.  An index or slice out of
      range is [None], so a [Some] result means that the code does not panic.
    - [DpiService]: [dpi/service.go] over any engine that meets the class
      [DpiEngine.Engine].
    - [FrpManager]: [frpcore/manager.go] and [admission.go] as one record and one
      function per method.  [FrpDrain] has the registrations of concurrent
      proxies and the read-write lock of the admission fence as a step relation;
      [FrpConn] has the connection tables.
    - [FrpTls]: [frptls/identity.go], the certificate of the FRP transport.
    - [NodePorts], [NodeSettings]: port rules, request validators and settings of
      [httpapi/node_runtime.go], [handlers_client.go], [handlers_edge_client.go]
      and [advanced_settings.go].

    An edge:
    - [EdgeStore], [EdgeQueue]: the tables of [edgestate] and the methods on them;
      [EdgeIdentity] has the theorems on identity snapshots.
    - [NodeFault]: [httpapi/node_fault.go], the fault state of either mode.
    - [EdgeServer]: the edge's client handlers, lease release and FRP plugin;
      [EdgePorts] runs them in any order.
    - [EdgeCommands], [CommandLog]: the commands an edge executes for its
      controller, and its log of them.

    The controller's database:
    - [ControllerDB], [NodeDirectory], [IdentityPage]: the methods of [db.Store],
      one finite map per table.
    - [DBInvariant]: the administrators' requests, the integrity they keep and the
      outbox of changed users.

    The cluster:
    - [ControllerLink], [EdgeLink]: the two sides of the control stream
      ([cluster/server.go], [push.go], [identity_transfer.go], [fault.go] and
      [client.go]), one function per critical section or goroutine step.
    - [IdentityView], [CacheIndex], [BaselineApply], [SyncPhase]: what a message
      carries, the durable index of cached users, and the phases of a connection.
    - [ClusterSync]: both sides with both stores as one step relation;
      [ClusterRun] executes it, with the encoding of [WireCodec], and
      [ClusterLive] shows that a synchronization can complete.
    - [NodeTelemetry], [EventFlow]: reports and events from the edge.
    - [Pki], [Enrollment], [ClusterJoin]: the certificate authority and how a node
      joins.

    Administration:
    - [SystemSettings]: authentication, login and the system settings of
      [handlers_system_auth.go]; [SettingsRestart] and [AdminAccess] have the
      theorems.

    ** What the theorems show

    - Synchronization: in every reachable state a synchronized edge holds what the
      database wants, or the user is pending ([ClusterSync.synced_edge_exact],
      [ClusterSync.quiescent_edge_refines]); the two programs can always get there
      ([ClusterLive.synchronization_completes]); no transaction changes a user
      without marking the nodes that have to know ([DBInvariant.outbox_complete]),
      and every request keeps the integrity of the database.  The deletion of a
      node is such a request; it cuts the connection of the node only after its
      transaction, and the theorems speak of connections opened since.
    - Snapshots: leases after a snapshot, rotation, revisions, the window of a
      cache reset, and that a paged baseline is the same as one snapshot.
    - Events and commands: an acknowledged event is stored once, a logged command is
      answered once, settings never go back to an older revision.
    - Joining: an enrolled edge and its controller accept each other, also after
      the authority was prepared again, and a token admits one node.
    - Administration: a token that is accepted was issued and has not expired;
      settings survive a restart; the file of a configuration is never half
      written.
    - Parsers: no panic, termination, round trips with encoded ClientHello
      messages and HTTP requests, the exact meaning of the tunnel test.
    - Inspection: fragments are reassembled, each tunnel is reported once, the
      service blocks what the policy says and fails closed while it has none.
    - Admission: under every interleaving a client's count is the number of its
      registered proxies; a drain only goes down; a fault drains every client
      with a known lease; a closed fence admits nothing; a revoked lease stays
      out.
    - Connections: bans and terminations remove and close exactly their traffic;
      tables stay within bounds; a handshake certificate is a trusted one.
    - Ports: what a validator accepts, stated without its order of checks, and
      that both validators accept the same; then, over every sequence of edge
      events, that two live leases never hold the same port, and that a proxy is
      only admitted under a lease that holds it.
    - Faults: after a database outage under ten seconds the server is as before and
      the connected edges are only told so; a longer one drains every remembered
      client.
    - Some theorems state where the code does not do what it means to:
      [DpiEngine.flow_states_unbounded], [FrpConn.block_check_race],
      [Config.Load_env_bypasses_validation],
      [EdgePorts.untrimmed_bootstrap_unusable],
      [EdgeLink.reconnect_never_resets],
      [ClusterJoin.server_certificate_kept] and
      [NodeFault.drain_outlives_session].

    ** Bounds and parameters

    The loops of the parsers that are not structural take fuel, the length of the
    buffer; each iteration advances, and the theorems show that the fuel is never
    used up.  A Go [int] is a [Z]; wrap-around is written out where a counter can
    reach it (the connection ids are [uint64]).  Floating-point comparisons of
    the tunnel test are exact fractions.  Parameters stand for what is not in the
    sources: the inspection engine and the policy provider where a theorem holds
    for all of them, hashes and signatures, JSON and X.509 encodings with their
    round trips as laws, address parsing, the calendar, the text of driver errors,
    and SQLite's [julianday], of which only monotonicity is assumed.  Clock
    readings, random tokens and the outcome of each statement or file system call
    are arguments.

    ** Not modelled

    The controller's own clients (their handlers, leases and FRP plugin; only their
    status and deletion are in [ControllerDB]), the audit log, migrations, first
    setup and repair of the database, the authority kept in separate files, gRPC,
    HTTP and TLS as transports, the third-party FRP server and its start, the web
    interface, and process start-up.  Cryptography is symbolic.  Disk failures
    inside the identity tables of the edge store are not modelled. *)
From stdpp Require Import gmap strings list fin_maps pretty.
From Stdlib Require Import ZArith Lia.
Local Open Scope Z_scope.
#[export] Set Warnings "-clear-no-such-hyp".

(** ** Record update

    [Eta R] rebuilds a record from its projections.  [Setter p] replaces the
    field [p]; its instances are computed from [Eta] by abstracting the
    projection, so that a record needs one instance and every field gets the
    [r <| p := v |>] notation. *)
Class Eta (R : Type) := eta : R → R.
Class Setter {R T : Type} (p : R → T) := upd : (T → T) → R → R.
Global Arguments upd {R T} p {_} _ _ : simpl nomatch.

Ltac make_setter p :=
  let f := fresh "f" in
  let r := fresh "r" in
  lazymatch type of p with
  | ?R → ?T =>
      refine (fun (f : T → T) (r : R) => _);
      let e := constr:(_ : Eta R) in
      let body := eval hnf in (e r) in
      let body := eval pattern (p r) in body in
      lazymatch body with
      | ?F _ => let new := eval cbv beta in (F (f (p r))) in exact new
      end
  end.

#[export] Hint Extern 1 (Setter ?p) => (unfold Setter; make_setter p) : typeclass_instances.

Notation "r <| p := v |>" := (upd p (λ _, v) r)
  (at level 1, left associativity, p at level 0, v at level 99).

(** ** Automation

    [deex] opens existentials and conjunctions, [bools] turns boolean
    hypotheses into propositions, [ifs] splits the tests of the goal. *)
Create HintDb meow.
Create Rewrite HintDb len.

Ltac deex :=
  repeat match goal with
  | H : ∃ _, _ |- _ => destruct H
  | H : _ ∧ _ |- _ => destruct H
  end.

Ltac bools :=
  repeat match goal with
  | H : negb _ = true |- _ => apply negb_true_iff in H
  | H : negb _ = false |- _ => apply negb_false_iff in H
  | H : _ && _ = true |- _ => apply andb_true_iff in H as [? ?]
  | H : _ || _ = false |- _ => apply orb_false_iff in H as [? ?]
  | H : bool_decide _ = true |- _ => apply bool_decide_eq_true in H
  | H : bool_decide _ = false |- _ => apply bool_decide_eq_false in H
  end.

Ltac ifs :=
  repeat match goal with
  | |- context [if ?b then _ else _] =>
      lazymatch type of b with
      | bool => destruct b eqn:?
      | _ => destruct b
      end
  end.

(** ** Machine integers and time

    Go's [int] and [int64] are 64-bit; values that the code only compares or
    copies are kept as [Z].  A [time.Time] is the count of nanoseconds since
    the Unix epoch, and its zero value is 1 January of year 1. *)
Abbreviation time := Z (only parsing).
Abbreviation duration := Z (only parsing).

Definition zero_time : time := -62135596800000000000.
Definition IsZero (t : time) : bool := bool_decide (t = zero_time).

Definition Second : duration := 1000000000.
Definition Millisecond : duration := 1000000.
Definition Minute : duration := 60 * Second.
Definition Hour : duration := 60 * Minute.

Definition maxInt64 : Z := 2 ^ 63 - 1.
Definition minInt64 : Z := - 2 ^ 63.
Definition wrap_uint64 (x : Z) : Z := x `mod` 2 ^ 64.
Definition wrap_byte (x : Z) : Z := x `mod` 256.

(** [t.Sub(u)] saturates at the bounds of [time.Duration]. *)
Definition Sub (t u : time) : duration := Z.max minInt64 (Z.min maxInt64 (t - u)).

(** [t.After(u)] and [t.Before(u)]. *)
Definition After (t u : time) : bool := bool_decide (u < t).
Definition Before (t u : time) : bool := bool_decide (t < u).

Lemma Sub_gt (t u : time) (d : duration) :
  (minInt64 ≤ d < maxInt64) → (d < Sub t u) ↔ (d < t - u).
Proof. unfold Sub. lia. Qed.

Lemma Sub_le (t u : time) (d : duration) :
  (minInt64 ≤ d < maxInt64) → (Sub t u ≤ d) ↔ (t - u ≤ d).
Proof. unfold Sub. lia. Qed.

(** ** Byte slices

    A Go [[]byte] is a list of integers, [is_byte] bounds its elements.
    Indexing and slicing panic outside of the bounds: they return [None], and
    so does every function that uses them (the option monad).  A model that
    never returns [None] is free of such panics.  A slice expression whose
    bound exceeds the length but not the capacity does not panic in Go; here it
    does, so the absence of panics also says that no byte beyond the length is
    read. *)
Definition is_byte (b : Z) : Prop := (0 ≤ b < 256).
Abbreviation bytes := (list Z) (only parsing).

Definition len {A} (l : list A) : Z := Z.of_nat (length l).

Definition idx (l : bytes) (i : Z) : option Z :=
  if bool_decide (i < 0) then None else l !! Z.to_nat i.

Definition slice {A} (l : list A) (a b : Z) : option (list A) :=
  if bool_decide (0 ≤ a ∧ a ≤ b ∧ b ≤ len l)
  then Some (take (Z.to_nat (b - a)) (drop (Z.to_nat a) l))
  else None.

(** [binary.BigEndian.Uint16] and [Uint32] of the bytes at [i]. *)
Definition be16 (l : bytes) (i : Z) : option Z :=
  h ← idx l i; b ← idx l (i + 1); Some (h * 256 + b).

Definition be32 (l : bytes) (i : Z) : option Z :=
  h ← be16 l i; b ← be16 l (i + 2); Some (h * 65536 + b).

(** [bytes.HasPrefix]. *)
Fixpoint has_prefix (p l : bytes) : bool :=
  match p, l with
  | [], _ => true
  | x :: p, y :: l => bool_decide (x = y) && has_prefix p l
  | _ :: _, [] => false
  end.

(** [bytes.Index], [-1] when absent. *)
Fixpoint index_from (p l : bytes) (i : Z) : Z :=
  if has_prefix p l then i
  else match l with
       | [] => -1
       | _ :: l => index_from p l (i + 1)
       end.
Definition index (l p : bytes) : Z := index_from p l 0.

Lemma len_nonneg {A} (l : list A) : (0 ≤ len l).
Proof. unfold len. lia. Qed.

Lemma len_app {A} (l k : list A) : len (l ++ k) = (len l + len k).
Proof. unfold len. rewrite length_app. lia. Qed.

Lemma len_cons {A} (x : A) (l : list A) : len (x :: l) = (1 + len l).
Proof. unfold len. simpl. lia. Qed.

Lemma len_nil {A} : len (@nil A) = 0.
Proof. done. Qed.

Lemma len_0 {A} (l : list A) : len l = 0 → l = [].
Proof. destruct l; [done|]. rewrite len_cons. pose proof (len_nonneg l). lia. Qed.

#[export] Hint Rewrite @len_app @len_cons @len_nil : len.
#[export] Hint Resolve len_nonneg : meow.

(** [lens] makes the lengths of concatenations explicit before [lia]. *)
Ltac lens :=
  autorewrite with len in *;
  repeat match goal with
  | |- context [len ?l] =>
      lazymatch goal with
      | _ : (0 ≤ len l) |- _ => fail
      | _ => pose proof (len_nonneg l)
      end
  | _ : context [len ?l] |- _ =>
      lazymatch goal with
      | _ : (0 ≤ len l) |- _ => fail
      | _ => pose proof (len_nonneg l)
      end
  end;
  try lia.

Lemma idx_is_Some l i : (0 ≤ i < len l) → ∃ b, idx l i = Some b.
Proof.
  intros Hi. unfold idx. rewrite bool_decide_false by lia.
  apply lookup_lt_is_Some_2. unfold len in Hi. lia.
Qed.

Lemma idx_Some_bound l i b : idx l i = Some b → (0 ≤ i < len l).
Proof.
  unfold idx. case_bool_decide; [done|]. intros Hb%lookup_lt_Some. unfold len. lia.
Qed.

Lemma idx_byte l i b : Forall is_byte l → idx l i = Some b → is_byte b.
Proof.
  unfold idx. case_bool_decide; [done|]. intros Hl Hb.
  by eapply (Forall_lookup_1 is_byte).
Qed.

Lemma idx_app_l l k i : (i < len l) → idx (l ++ k) i = idx l i.
Proof.
  intros Hi. unfold idx. case_bool_decide; [done|].
  apply lookup_app_l. unfold len in Hi. lia.
Qed.

Lemma idx_app_r l k i : (len l ≤ i) → idx (l ++ k) i = idx k (i - len l).
Proof.
  unfold idx, len. intros Hi. rewrite !bool_decide_false by lia.
  rewrite lookup_app_r by lia. f_equal. lia.
Qed.

Lemma idx_0 x l : idx (x :: l) 0 = Some x.
Proof. done. Qed.

Lemma idx_cons x l i : (0 < i) → idx (x :: l) i = idx l (i - 1).
Proof.
  intros Hi. apply (idx_app_r [x] l i). unfold len. simpl. lia.
Qed.

Lemma slice_is_Some {A} (l : list A) a b :
  (0 ≤ a ≤ b) → (b ≤ len l) →
  slice l a b = Some (take (Z.to_nat (b - a)) (drop (Z.to_nat a) l)).
Proof. intros ??. unfold slice. by rewrite bool_decide_true by lia. Qed.

Lemma slice_len {A} (l k : list A) a b : slice l a b = Some k → len k = (b - a).
Proof.
  unfold slice, len. case_bool_decide; [|done]. intros [= <-].
  rewrite length_take, length_drop. lia.
Qed.

Lemma slice_split {A} (l k : list A) a b :
  slice l a b = Some k → ∃ p q, l = p ++ k ++ q ∧ len p = a.
Proof.
  unfold slice. case_bool_decide as Hb; [|done]. intros [= <-].
  exists (take (Z.to_nat a) l), (drop (Z.to_nat (b - a)) (drop (Z.to_nat a) l)).
  rewrite !take_drop. split; [done|]. unfold len in *. rewrite length_take. lia.
Qed.

Lemma slice_app {A} (p k q : list A) a b :
  len p = a → len k = (b - a) → slice (p ++ k ++ q) a b = Some k.
Proof.
  intros Hp Hk. rewrite slice_is_Some by (rewrite ?len_app; lens).
  unfold len in *. f_equal.
  replace (Z.to_nat a) with (length p) by lia.
  rewrite drop_app_length.
  replace (Z.to_nat (b - a)) with (length k) by lia.
  apply take_app_length.
Qed.

Lemma be16_is_Some l i : (0 ≤ i) → (i + 1 < len l) → ∃ v, be16 l i = Some v.
Proof.
  intros ??. unfold be16.
  destruct (idx_is_Some l i) as [x ->]; [lia|].
  destruct (idx_is_Some l (i + 1)) as [y ->]; [lia|]. simpl. eauto.
Qed.

Lemma be16_range l i v :
  Forall is_byte l → be16 l i = Some v → (0 ≤ v < 65536).
Proof.
  intros Hl. unfold be16. destruct (idx l i) as [x|] eqn:Hx; [|done].
  destruct (idx l (i + 1)) as [y|] eqn:Hy; [|done]. simpl. intros [= <-].
  apply idx_byte in Hx, Hy; [|done..]. unfold is_byte in *. lia.
Qed.

Lemma be32_is_Some l i : (0 ≤ i) → (i + 3 < len l) → ∃ v, be32 l i = Some v.
Proof.
  intros ??. unfold be32.
  destruct (be16_is_Some l i) as [x ->]; [lia..|].
  destruct (be16_is_Some l (i + 2)) as [y ->]; [lia..|]. simpl. eauto.
Qed.

Lemma has_prefix_spec p l : has_prefix p l = true ↔ ∃ k, l = p ++ k.
Proof.
  revert l. induction p as [|x p IH]; intros l; simpl; [by split; eauto|].
  destruct l as [|y l]; [by split; [|intros [? ?]]|].
  rewrite andb_true_iff, bool_decide_eq_true, IH. split.
  - intros [-> [k ->]]. by exists k.
  - intros [k [= -> ->]]. eauto.
Qed.

Lemma has_prefix_app p k : has_prefix p (p ++ k) = true.
Proof. apply has_prefix_spec. eauto. Qed.

Lemma index_from_range p l i :
  index_from p l i = -1 ∨ (i ≤ index_from p l i ≤ i + len l - len p).
Proof.
  revert i. induction l as [|x l IH]; intros i; cbn [index_from];
    destruct (has_prefix p _) eqn:E; try (by left).
  - apply has_prefix_spec in E as [k Hk]. destruct p; [|done]. right. lens.
  - apply has_prefix_spec in E as [k ->]. right. lens.
  - destruct (IH (i + 1)) as [?|?]; [by left|right; lens].
Qed.

Lemma index_range l p : index l p = -1 ∨ (0 ≤ index l p ≤ len l - len p).
Proof. unfold index. pose proof (index_from_range p l 0). lia. Qed.

(** *** Reading a concatenation

    [at_pos l i s]: the rest of [l] from position [i] on is [s].  The lemmas
    move a reading position over a concatenation, which is how a parser is run
    on an encoder's output. *)
Definition at_pos (l : bytes) (i : Z) (s : bytes) : Prop := ∃ p, l = p ++ s ∧ len p = i.

Lemma at_pos_0 l : at_pos l 0 l.
Proof. by exists []. Qed.

Lemma at_pos_skip l i j k s : at_pos l i (k ++ s) → j = i + len k → at_pos l j s.
Proof.
  intros (p & -> & <-) ->. exists (p ++ k). rewrite <-app_assoc. by rewrite len_app.
Qed.

Lemma at_pos_skip1 l i j x s : at_pos l i (x :: s) → j = i + 1 → at_pos l j s.
Proof. intros. by eapply (at_pos_skip l i j [x]). Qed.

Lemma at_pos_nonneg l i s : at_pos l i s → 0 ≤ i.
Proof. intros (p & _ & <-). apply len_nonneg. Qed.

Lemma at_pos_len l i s : at_pos l i s → i + len s = len l.
Proof. intros (p & -> & <-). by rewrite len_app. Qed.

Lemma at_pos_idx l i x s : at_pos l i (x :: s) → idx l i = Some x.
Proof. intros (p & -> & <-). rewrite idx_app_r by lia. by rewrite Z.sub_diag. Qed.

Lemma at_pos_be16 l i x y s : at_pos l i (x :: y :: s) → be16 l i = Some (x * 256 + y).
Proof.
  intros H. unfold be16. rewrite (at_pos_idx _ _ _ _ H). simpl.
  by rewrite (at_pos_idx l (i + 1) y s) by (eapply at_pos_skip1; eauto).
Qed.

Lemma at_pos_slice l i j k s : at_pos l i (k ++ s) → j = i + len k → slice l i j = Some k.
Proof. intros (p & -> & <-) ->. apply slice_app; lia. Qed.

Lemma at_pos_app l i s t : at_pos l i s → at_pos (l ++ t) i (s ++ t).
Proof. intros (p & -> & <-). exists p. by rewrite app_assoc. Qed.

(** [n] as two and three big-endian bytes. *)
Definition enc16 (n : Z) : bytes := [n / 256; n `mod` 256].
Definition enc24 (n : Z) : bytes := [n / 65536; (n / 256) `mod` 256; n `mod` 256].

Lemma enc16_value n : (n / 256) * 256 + n `mod` 256 = n.
Proof. pose proof (Z.div_mod n 256). lia. Qed.

Lemma enc24_value n :
  0 ≤ n →
  Z.lor (Z.lor (Z.shiftl (n / 65536) 16) (Z.shiftl ((n / 256) `mod` 256) 8)) (n `mod` 256) = n.
Proof.
  intros Hn. rewrite !Z.shiftl_mul_pow2 by lia.
  pose proof (Z.mod_pos_bound n 256). pose proof (Z.mod_pos_bound (n / 256) 256).
  assert (∀ a b k, 0 ≤ k → 0 ≤ b < 2 ^ k → Z.lor (a * 2 ^ k) b = a * 2 ^ k + b) as Hor.
  { intros a b k Hk Hb. rewrite <-Z.shiftl_mul_pow2 by lia.
    rewrite <-Z.lxor_lor, <-Z.add_nocarry_lxor; [done|..]; apply Z.bits_inj'; intros m Hm;
      rewrite Z.land_spec, Z.shiftl_spec, Z.bits_0 by lia;
      (destruct (decide (m < k)); [by rewrite (Z.testbit_neg_r _ (m - k)) by lia|]);
      (rewrite <-(Z.mod_small b (2 ^ k)), Z.mod_pow2_bits_high by lia); apply andb_false_r. }
  replace (n / 65536) with (n / 256 / 256) by (rewrite Z.div_div by lia; done).
  replace (2 ^ 16) with (256 * 2 ^ 8) by done. rewrite Z.mul_assoc.
  replace (Z.lor (n / 256 / 256 * 256 * 2 ^ 8) ((n / 256) `mod` 256 * 2 ^ 8))
    with (n / 256 * 2 ^ 8).
  { rewrite Hor by lia. pose proof (Z.div_mod n 256). lia. }
  rewrite <-!(Z.shiftl_mul_pow2 _ 8), <-Z.shiftl_lor by lia. f_equal.
  rewrite Z.shiftl_mul_pow2, Hor by lia. pose proof (Z.div_mod (n / 256) 256). lia.
Qed.

Lemma at_pos_enc16 l i n s : at_pos l i (enc16 n ++ s) → be16 l i = Some n.
Proof. intros H. rewrite (at_pos_be16 _ _ _ _ _ H). by rewrite enc16_value. Qed.

Lemma enc16_len n : len (enc16 n) = 2.
Proof. done. Qed.

Lemma enc24_len n : len (enc24 n) = 3.
Proof. done. Qed.

Lemma enc16_bytes n : 0 ≤ n < 65536 → Forall is_byte (enc16 n).
Proof.
  intros. unfold enc16, is_byte. repeat constructor; try apply Z.mod_pos_bound; try lia.
  - apply Z.div_pos; lia.
  - apply Z.div_lt_upper_bound; lia.
Qed.

#[export] Hint Rewrite enc16_len enc24_len : len.

(** ** Lists *)

Lemma filter_fmap {A B} (f : A → B) (P : B → Prop) `{∀ x, Decision (P x)} (l : list A) :
  filter P (f <$> l) = f <$> filter (λ x, P (f x)) l.
Proof.
  induction l as [|x l IH]; [done|]. rewrite fmap_cons, !filter_cons.
  case_decide; by rewrite IH.
Qed.

(** ** Finite maps *)

Lemma map_size_filter_split {A} (P : string * A → Prop) `{∀ x, Decision (P x)} (m : gmap string A) :
  size m = (size (filter P m) + size (filter (λ x, ¬ P x) m))%nat.
Proof.
  rewrite <-(map_filter_union_complement P m) at 1.
  apply map_size_disj_union, map_disjoint_filter_complement.
Qed.
