(* ===== verification/GoStrings.v ===== *)
(** * Strings of the Go standard library

    A Go string is a byte string, here a [string] of 8-bit characters.  This
    file models what the sources use of [strings], [strconv], [fmt] and [net]:
    trimming, lower-casing, prefixes, splitting and joining, decimal numbers,
    [net.SplitHostPort] and [net.JoinHostPort], with the lemmas that make the
    composite map keys of the code ("token:client", "lease\x00proxy")
    injective. *)
From Stdlib Require Import ZArith Lia Ascii String.
From stdpp Require Import gmap strings list fin_maps pretty.
From S2P Require Import Prelude.
Local Open Scope Z_scope.

(** The byte of a character and back. *)
Definition ord (c : ascii) : Z := Z.of_N (Ascii.N_of_ascii c).
Definition chr (b : Z) : ascii := Ascii.ascii_of_N (Z.to_N b).

(** [[]byte(s)] and [string(b)]. *)
Fixpoint bytes_of_string (s : string) : bytes :=
  match s with
  | EmptyString => []
  | String c s => ord c :: bytes_of_string s
  end.
Fixpoint string_of_bytes (l : bytes) : string :=
  match l with
  | [] => EmptyString
  | b :: l => String (chr b) (string_of_bytes l)
  end.

(** [len(s)]. *)
Definition slen (s : string) : Z := Z.of_nat (String.length s).

Lemma chr_ord c : chr (ord c) = c.
Proof. unfold chr, ord. rewrite N2Z.id. apply Ascii.ascii_N_embedding. Qed.

Lemma ord_chr b : is_byte b → ord (chr b) = b.
Proof.
  intros Hb. unfold ord, chr. rewrite Ascii.N_ascii_embedding; unfold is_byte in *; lia.
Qed.

Lemma ord_byte c : is_byte (ord c).
Proof.
  unfold ord, is_byte. pose proof (Ascii.N_ascii_bounded c). lia.
Qed.

Lemma string_of_bytes_of_string s : string_of_bytes (bytes_of_string s) = s.
Proof. induction s as [|c s IH]; simpl; [done|]. by rewrite chr_ord, IH. Qed.

Lemma bytes_of_string_of_bytes l :
  Forall is_byte l → bytes_of_string (string_of_bytes l) = l.
Proof. induction 1; simpl; [done|]. by rewrite ord_chr, IHForall. Qed.

Lemma bytes_of_string_bytes s : Forall is_byte (bytes_of_string s).
Proof. induction s; simpl; constructor; auto using ord_byte. Qed.

Lemma bytes_of_string_len s : len (bytes_of_string s) = slen s.
Proof.
  induction s as [|c s IH]; [done|]. simpl. rewrite len_cons, IH. unfold slen.
  simpl. lia.
Qed.

(** [strings.TrimSpace]: a space is a rune of Unicode's White_Space, whose
    UTF-8 encodings have one, two or three bytes. *)
Definition is_space1 (a : Z) : bool :=
  bool_decide (9 ≤ a ≤ 13) || bool_decide (a = 32).
Definition is_space2 (a b : Z) : bool :=
  bool_decide (a = 0xC2) && (bool_decide (b = 0x85) || bool_decide (b = 0xA0)).
Definition is_space3 (a b c : Z) : bool :=
  (bool_decide (a = 0xE1) && bool_decide (b = 0x9A) && bool_decide (c = 0x80)) ||
  (bool_decide (a = 0xE2) && bool_decide (b = 0x80) &&
     (bool_decide (0x80 ≤ c ≤ 0x8A) || bool_decide (c = 0xA8) ||
      bool_decide (c = 0xA9) || bool_decide (c = 0xAF))) ||
  (bool_decide (a = 0xE2) && bool_decide (b = 0x81) && bool_decide (c = 0x9F)) ||
  (bool_decide (a = 0xE3) && bool_decide (b = 0x80) && bool_decide (c = 0x80)).

(** Drop the leading spaces, for encodings read in the order given by
    [two] and [three]. *)
Fixpoint trim_with (two : Z → Z → bool) (three : Z → Z → Z → bool) (s : string) : string :=
  match s with
  | EmptyString => EmptyString
  | String a s1 =>
      if is_space1 (ord a) then trim_with two three s1
      else match s1 with
           | EmptyString => s
           | String b s2 =>
               if two (ord a) (ord b) then trim_with two three s2
               else match s2 with
                    | EmptyString => s
                    | String c s3 =>
                        if three (ord a) (ord b) (ord c) then trim_with two three s3
                        else s
                    end
           end
  end.
Definition trim_left : string → string := trim_with is_space2 is_space3.
Definition trim_right (s : string) : string :=
  String.rev (trim_with (λ b a, is_space2 a b) (λ c b a, is_space3 a b c) (String.rev s)).
Definition TrimSpace (s : string) : string := trim_right (trim_left s).

(** [strings.ToLower] on the letters whose lower case is ASCII: A to Z, the
    dotted capital I (U+0130) and the Kelvin sign (U+212A).  Other non-ASCII
    letters are left alone: the code compares the result with ASCII names
    only, and neither their lower case nor they are ASCII. *)
Definition lower_byte (a : Z) : Z :=
  if bool_decide (65 ≤ a ≤ 90) then a + 32 else a.
Fixpoint ToLower (s : string) : string :=
  match s with
  | EmptyString => EmptyString
  | String a s1 =>
      match s1 with
      | String b s2 =>
          if bool_decide (ord a = 0xC4 ∧ ord b = 0xB0)
          then String (chr 105) (ToLower s2)
          else match s2 with
               | String c s3 =>
                   if bool_decide (ord a = 0xE2 ∧ ord b = 0x84 ∧ ord c = 0xAA)
                   then String (chr 107) (ToLower s3)
                   else String (chr (lower_byte (ord a))) (ToLower s1)
               | EmptyString => String (chr (lower_byte (ord a))) (ToLower s1)
               end
      | EmptyString => String (chr (lower_byte (ord a))) (ToLower s1)
      end
  end.

(** [strings.CutPrefix]: [None] when [p] is not a prefix. *)
Fixpoint cut_prefix (p s : string) : option string :=
  match p, s with
  | EmptyString, _ => Some s
  | String a p, String b s => if bool_decide (a = b) then cut_prefix p s else None
  | String _ _, EmptyString => None
  end.
Definition HasPrefix (s p : string) : bool := bool_decide (is_Some (cut_prefix p s)).
Definition TrimPrefix (s p : string) : string := default s (cut_prefix p s).
Definition HasSuffix (s p : string) : bool := HasPrefix (String.rev s) (String.rev p).
Definition TrimSuffix (s p : string) : string :=
  String.rev (TrimPrefix (String.rev s) (String.rev p)).

(** [fmt.Sprintf("%d", x)] and [strconv.FormatInt(x, 10)]. *)
Definition fmt_d (x : Z) : string := pretty x.

(** ** Separators

    The code builds map keys by joining fields with a separator.  A key
    determines its fields when the fields on one side of each separator do not
    contain it. *)
Fixpoint no_char (c : ascii) (s : string) : bool :=
  match s with
  | EmptyString => true
  | String a s => negb (bool_decide (a = c)) && no_char c s
  end.

Lemma string_app_cons x (a b : string) : String x a +:+ b = String x (a +:+ b).
Proof. done. Qed.

Lemma string_app_nil_l (a : string) : "" +:+ a = a.
Proof. done. Qed.

Lemma string_app_nil_r (a : string) : a +:+ "" = a.
Proof. induction a as [|x a IH]; [done|]. by rewrite string_app_cons, IH. Qed.

Lemma string_app_assoc (a b c : string) : (a +:+ b) +:+ c = a +:+ (b +:+ c).
Proof. induction a as [|x a IH]; [done|]. by rewrite !string_app_cons, IH. Qed.

Lemma string_app_length (a b : string) :
  String.length (a +:+ b) = (String.length a + String.length b)%nat.
Proof. induction a as [|x a IH]; [done|]. rewrite string_app_cons. simpl. by rewrite IH. Qed.

Lemma no_char_app c s t : no_char c (s +:+ t) = no_char c s && no_char c t.
Proof.
  induction s as [|a s IH]; [done|]. rewrite string_app_cons. simpl. by rewrite IH, andb_assoc.
Qed.

(** The field before the first separator. *)
Lemma sep_inj_l c (a b x y : string) :
  no_char c a = true → no_char c b = true →
  a +:+ String c x = b +:+ String c y → a = b ∧ x = y.
Proof.
  revert b. induction a as [|d a IH]; intros [|e b] Ha Hb;
    rewrite ?string_app_cons, ?string_app_nil_l; simpl in Ha, Hb; bools; intros Heq; inversion Heq;
    subst; try done.
  destruct (IH b) as [-> ->]; done.
Qed.

(** The field after the last separator. *)
Lemma sep_inj_r c (a b x y : string) :
  no_char c a = true → no_char c b = true →
  x +:+ String c a = y +:+ String c b → x = y ∧ a = b.
Proof.
  revert y. induction x as [|d x IH]; intros [|e y] Ha Hb;
    rewrite ?string_app_cons, ?string_app_nil_l; intros Heq.
  - by injection Heq.
  - injection Heq as <- ->. rewrite no_char_app in Ha. simpl in Ha.
    rewrite bool_decide_true in Ha by done. simpl in Ha. by rewrite andb_false_r in Ha.
  - injection Heq as -> <-. rewrite no_char_app in Hb. simpl in Hb.
    rewrite bool_decide_true in Hb by done. simpl in Hb. by rewrite andb_false_r in Hb.
  - injection Heq as -> Heq. destruct (IH y) as [-> ->]; done.
Qed.

(** ** Decimal numbers *)

Lemma fmt_d_inj x y : fmt_d x = fmt_d y → x = y.
Proof. apply (inj pretty). Qed.

Definition is_decimal_char (c : ascii) : bool :=
  bool_decide (c = chr 45) || bool_decide (48 ≤ ord c ≤ 57).

Lemma pretty_N_char_decimal n : is_decimal_char (pretty_N_char n) = true.
Proof. destruct n as [|[[[[|[]|]|[]|]|[[]|[]|]|]|[[[]|[]|]|[[]|[]|]|]|]]; vm_compute; done. Qed.

Lemma pretty_N_go_no_char c x s :
  is_decimal_char c = false → no_char c s = true → no_char c (pretty_N_go x s) = true.
Proof.
  intros Hc. revert s. induction (N.lt_wf_0 x) as [x _ IH]; intros s Hs.
  destruct (decide (x = 0%N)) as [->|Hx]; [by rewrite pretty_N_go_0|].
  rewrite pretty_N_go_step by lia. apply IH.
  - apply N.div_lt; lia.
  - simpl. rewrite Hs, andb_true_r. apply negb_true_iff, bool_decide_eq_false.
    intros Heq. pose proof (pretty_N_char_decimal (x `mod` 10)) as H. congruence.
Qed.

(** A decimal number has digits and a sign only. *)
Lemma fmt_d_no_char c x : is_decimal_char c = false → no_char c (fmt_d x) = true.
Proof.
  intros Hc. assert (∀ n : N, no_char c (pretty n) = true) as HN.
  { intros n. unfold pretty, pretty_N. destruct (decide _); [|by apply pretty_N_go_no_char].
    simpl. rewrite bool_decide_false; [done|]. intros <-. done. }
  unfold fmt_d, pretty, pretty_Z. destruct x as [|x|x].
  - simpl. rewrite bool_decide_false; [done|]. intros <-. done.
  - apply HN.
  - rewrite no_char_app. apply andb_true_iff. split; [|apply HN].
    simpl. rewrite bool_decide_false; [done|]. intros <-. done.
Qed.

(** ** Substrings and characters *)

(** [strings.IndexByte] and [strings.LastIndexByte]. *)
Fixpoint index_char (c : ascii) (s : string) : option nat :=
  match s with
  | EmptyString => None
  | String a s => if bool_decide (a = c) then Some O else S <$> index_char c s
  end.
Fixpoint last_index_char (c : ascii) (s : string) : option nat :=
  match s with
  | EmptyString => None
  | String a s =>
      match last_index_char c s with
      | Some i => Some (S i)
      | None => if bool_decide (a = c) then Some O else None
      end
  end.
(** [s[:n]] and [s[n:]]. *)
Fixpoint str_take (n : nat) (s : string) : string :=
  match n, s with
  | S n, String a s => String a (str_take n s)
  | _, _ => EmptyString
  end.
Fixpoint str_drop (n : nat) (s : string) : string :=
  match n, s with
  | S n, String _ s => str_drop n s
  | _, _ => s
  end.

Definition has_char (c : ascii) (s : string) : bool := negb (no_char c s).
Definition starts_with (c : ascii) (s : string) : bool :=
  match s with String a _ => bool_decide (a = c) | EmptyString => false end.

(** [net.SplitHostPort]; [None] is any of its errors. *)
Definition SplitHostPort (hostport : string) : option (string * string) :=
  i ← last_index_char ":" hostport;
  '(host, j, k) ←
    (if starts_with "[" hostport then
       fin ← index_char "]" hostport;
       if bool_decide (S fin = i) then Some (str_drop 1 (str_take fin hostport), 1, S fin)%nat
       else None
     else
       let host := str_take i hostport in
       if has_char ":" host then None else Some (host, O, O));
  if has_char "[" (str_drop j hostport) || has_char "]" (str_drop k hostport) then None
  else Some (host, str_drop (S i) hostport).

(** [net.JoinHostPort]. *)
Definition JoinHostPort (host port : string) : string :=
  if has_char ":" host then "[" +:+ host +:+ "]:" +:+ port else host +:+ ":" +:+ port.

(** [strings.Split] by one character. *)
Fixpoint split_char (c : ascii) (s : string) : list string :=
  match s with
  | EmptyString => [""%string]
  | String a s =>
      if bool_decide (a = c) then ""%string :: split_char c s
      else match split_char c s with
           | [] => [String a EmptyString]
           | w :: ws => String a w :: ws
           end
  end.

(** [strconv.Atoi]: the number and whether there was an error; a syntax
    error gives 0, an overflow the nearest bound. *)
Definition digit_of (c : ascii) : option Z :=
  if bool_decide (48 ≤ ord c ≤ 57) then Some (ord c - 48) else None.
Fixpoint digits_value (acc : Z) (s : string) : option Z :=
  match s with
  | EmptyString => Some acc
  | String c s => d ← digit_of c; digits_value (acc * 10 + d) s
  end.
Definition Atoi (s : string) : Z * bool :=
  let '(sign, body) :=
    match s with
    | String c rest => if bool_decide (c = chr 45) then (-1, rest)
                       else if bool_decide (c = chr 43) then (1, rest) else (1, s)
    | EmptyString => (1, s)
    end in
  if bool_decide (body = ""%string) then (0, true) else
  match digits_value 0 body with
  | None => (0, true)
  | Some v =>
      let v := sign * v in
      if bool_decide (maxInt64 < v) then (maxInt64, true)
      else if bool_decide (v < minInt64) then (minInt64, true)
      else (v, false)
  end.

(** [strconv.Atoi] reads what is printed. *)
Lemma digit_of_pretty (n : N) : (n < 10)%N → digit_of (pretty_N_char n) = Some (Z.of_N n).
Proof. destruct n as [|[[[[|[]|]|[]|]|[[]|[]|]|]|[[[]|[]|]|[[]|[]|]|]|]]; intros H; try lia; by vm_compute. Qed.
Lemma digits_value_pretty x s : digits_value 0 (pretty_N_go x s) = digits_value (Z.of_N x) s.
Proof.
  revert s. induction (N.lt_wf_0 x) as [x _ IH]; intros s. destruct (decide (x = 0%N)) as [->|Hx]; [by rewrite pretty_N_go_0|].
  rewrite pretty_N_go_step by lia. rewrite IH by (apply N.div_lt; lia). cbn. rewrite digit_of_pretty by (apply N.mod_lt; lia). cbn.
  f_equal. pose proof (N.div_mod x 10 ltac:(lia)). lia.
Qed.
Lemma pretty_go_nonempty x s : s ≠ ""%string → pretty_N_go x s ≠ ""%string.
Proof.
  revert s. induction (N.lt_wf_0 x) as [x _ IH]; intros s Hs. destruct (decide (x = 0%N)) as [->|Hx]; [by rewrite pretty_N_go_0|].
  rewrite pretty_N_go_step by lia. by apply IH; [apply N.div_lt; lia|].
Qed.
Lemma Atoi_fmt_d n : minInt64 ≤ n ≤ maxInt64 → Atoi (fmt_d n) = (n, false).
Proof.
  intros Hn. unfold fmt_d, pretty, pretty_Z. destruct n as [|p|p]; [done| |].
  - change (pretty p) with (pretty_N_go (N.pos p) ""). rewrite pretty_N_go_step by lia.
    set (t := pretty_N_go _ _). assert (Ht : t ≠ ""%string) by by apply pretty_go_nonempty.
    assert (Hv : digits_value 0 t = Some (Z.pos p)).
    { unfold t. rewrite <- pretty_N_go_step by lia. by rewrite digits_value_pretty. }
    unfold Atoi. destruct t as [|c t]; [done|].
    rewrite !bool_decide_eq_false_2 by (intros ->; cbn in Hv; discriminate). rewrite bool_decide_eq_false_2 by done. rewrite Hv.
    rewrite !bool_decide_eq_false_2 by lia. done.
  - change (Atoi (String (chr 45) (pretty_N_go (N.pos p) "")) = (Z.neg p, false)). unfold Atoi. rewrite bool_decide_eq_true_2 by done.
    rewrite bool_decide_eq_false_2 by (rewrite pretty_N_go_step by lia; by apply pretty_go_nonempty).
    rewrite digits_value_pretty. cbn [digits_value]. rewrite !bool_decide_eq_false_2 by lia. done.
Qed.

Lemma no_char_index c s : no_char c s = true → index_char c s = None.
Proof.
  induction s as [|a s IH]; simpl; [done|]. intros [Ha Hs]%andb_true_iff. bools.
  rewrite bool_decide_false by done. by rewrite IH.
Qed.

Lemma no_char_last_index c s : no_char c s = true → last_index_char c s = None.
Proof.
  induction s as [|a s IH]; simpl; [done|]. intros [Ha Hs]%andb_true_iff. bools.
  rewrite IH by done. by rewrite bool_decide_false by done.
Qed.

Lemma last_index_char_sep c a b :
  no_char c b = true → last_index_char c (a +:+ String c b) = Some (String.length a).
Proof.
  intros Hb. induction a as [|x a IH].
  - rewrite string_app_nil_l. simpl. rewrite no_char_last_index by done.
    by rewrite bool_decide_true by done.
  - rewrite string_app_cons. simpl. by rewrite IH.
Qed.

Lemma index_char_sep c a b :
  no_char c a = true → index_char c (a +:+ String c b) = Some (String.length a).
Proof.
  induction a as [|x a IH]; intros Ha.
  - rewrite string_app_nil_l. simpl. by rewrite bool_decide_true by done.
  - simpl in Ha. apply andb_true_iff in Ha as [Hx Ha]. bools.
    rewrite string_app_cons. simpl. rewrite bool_decide_false by done. by rewrite IH.
Qed.

Lemma str_take_app a b : str_take (String.length a) (a +:+ b) = a.
Proof.
  induction a as [|x a IH]; [by destruct b|]. rewrite string_app_cons. simpl. by rewrite IH.
Qed.

Lemma str_drop_app a b : str_drop (String.length a) (a +:+ b) = b.
Proof. induction a as [|x a IH]; [done|]. rewrite string_app_cons. simpl. by rewrite IH. Qed.

Lemma str_drop_app_cons a c b : str_drop (S (String.length a)) (a +:+ String c b) = b.
Proof. induction a as [|x a IH]; [done|]. rewrite string_app_cons. simpl. apply IH. Qed.

(** A host and a port without brackets and colons come back from the joined
    address. *)
Lemma SplitHostPort_Join host port :
  no_char ":" host = true → no_char "[" host = true → no_char "]" host = true →
  no_char ":" port = true → no_char "[" port = true → no_char "]" port = true →
  SplitHostPort (JoinHostPort host port) = Some (host, port).
Proof.
  intros Hh1 Hh2 Hh3 Hp1 Hp2 Hp3. unfold JoinHostPort, has_char. rewrite Hh1. simpl.
  change (host +:+ ":" +:+ port) with (host +:+ String ":" port).
  unfold SplitHostPort. rewrite last_index_char_sep by done. simpl.
  assert (starts_with "[" (host +:+ String ":" port) = false) as ->.
  { destruct host as [|a host]; [done|]. rewrite string_app_cons. simpl in *. bools.
    by apply bool_decide_eq_false. }
  unfold has_char. rewrite str_take_app, Hh1. simpl.
  rewrite !no_char_app, Hh2, Hh3. simpl. rewrite Hp2, Hp3. simpl.
  f_equal. f_equal. apply (str_drop_app_cons host ":" port).
Qed.

Lemma SplitHostPort_Join6 host port :
  no_char "[" host = true → no_char "]" host = true → has_char ":" host = true →
  no_char ":" port = true → no_char "[" port = true → no_char "]" port = true →
  SplitHostPort (JoinHostPort host port) = Some (host, port).
Proof.
  intros Hh2 Hh3 Hh1 Hp1 Hp2 Hp3. unfold JoinHostPort. rewrite Hh1.
  assert ("[" +:+ host +:+ "]:" +:+ port = (("[" +:+ host) +:+ "]") +:+ String ":" port) as ->.
  { by rewrite !string_app_assoc. }
  unfold SplitHostPort. rewrite last_index_char_sep by done. cbn [mbind option_bind].
  change (starts_with "[" ((("[" +:+ host) +:+ "]") +:+ String ":" port)) with true. cbn iota.
  rewrite !string_app_assoc.
  change ("]" +:+ String ":" port) with (String "]" (String ":" port)).
  change ("[" +:+ host +:+ String "]" (String ":" port))
    with (("[" +:+ host) +:+ String "]" (String ":" port)).
  rewrite index_char_sep by (rewrite no_char_app; by rewrite Hh3).
  cbn [mbind option_bind].
  rewrite !string_app_length, bool_decide_true by (simpl; lia). cbn [mbind option_bind].
  rewrite <-(string_app_length "[" host), str_take_app.
  change (str_drop 1 ("[" +:+ host)) with host. unfold has_char.
  change (str_drop 1 (("[" +:+ host) +:+ String "]" (String ":" port)))
    with (host +:+ String "]" (String ":" port)).
  rewrite str_drop_app_cons, no_char_app, Hh2. simpl. rewrite Hp2, Hp3. simpl. f_equal. f_equal.

  replace (String.length host + 1)%nat with (S (String.length host)) by lia.
  change (str_drop (S (S (String.length host))) (host +:+ String "]" (String ":" port)) = port).
  clear. induction host as [|x host IH]; [done|]. rewrite string_app_cons. simpl. apply IH.
Qed.

(** ** Trimming *)

Lemma rev_app_app s t u : String.rev_app (String.rev_app s t) u = String.rev_app t (s +:+ u).
Proof. revert t. induction s as [|c s IH]; intros t; [done|]. cbn. by rewrite IH. Qed.
Lemma string_rev_rev s : String.rev (String.rev s) = s.
Proof. unfold String.rev. rewrite rev_app_app. cbn. apply string_app_nil_r. Qed.
Lemma rev_app_onto s u : String.rev_app s u = String.rev s +:+ u.
Proof.
  rewrite <- (string_rev_rev s). generalize (String.rev s). clear s. intros s. rewrite string_rev_rev.
  unfold String.rev. rewrite rev_app_app. done.
Qed.
Lemma string_rev_app s t : String.rev (s +:+ t) = String.rev t +:+ String.rev s.
Proof.
  unfold String.rev at 1. rewrite <- rev_app_onto. unfold String.rev. generalize ""%string as u.
  induction s as [|c s IH]; intros u; cbn; [done|]. apply IH.
Qed.

(** Trimming removes what it finds at the start, and then there is nothing to trim. *)
Section trim.
Context (two : Z → Z → bool) (three : Z → Z → Z → bool).
Definition starts_blank (s : string) : bool :=
  match s with
  | EmptyString => false
  | String a s1 =>
      is_space1 (ord a) ||
      match s1 with
      | EmptyString => false
      | String b s2 => two (ord a) (ord b) || match s2 with EmptyString => false | String c _ => three (ord a) (ord b) (ord c) end
      end
  end.
Lemma trim_with_fixed s : starts_blank s = false → trim_with two three s = s.
Proof.
  destruct s as [|a [|b [|c s]]]; cbn; [done|..].
  - by intros [-> _]%orb_false_iff.
  - by intros [-> [-> _]%orb_false_iff]%orb_false_iff.
  - by intros [-> [-> ->]%orb_false_iff]%orb_false_iff.
Qed.
Lemma starts_blank_app s t : starts_blank (s +:+ t) = false → starts_blank s = false.
Proof.
  destruct s as [|a [|b [|c s]]]; cbn; [done|..].
  - by intros [-> _]%orb_false_iff.
  - by intros [-> [-> _]%orb_false_iff]%orb_false_iff.
  - by intros [-> [-> ->]%orb_false_iff]%orb_false_iff.
Qed.
Lemma trim_with_spec s : starts_blank (trim_with two three s) = false ∧ ∃ p, s = p +:+ trim_with two three s.
Proof.
  remember (String.length s) as k eqn:Hk. revert s Hk. induction (lt_wf k) as [k _ IH]. intros s ->.
  assert (Hsub : ∀ p s', s = p +:+ s' → (String.length s' < String.length s)%nat →
    starts_blank (trim_with two three s') = false ∧ ∃ p, s = p +:+ trim_with two three s').
  { intros p s' -> Hlen. destruct (IH _ Hlen s' eq_refl) as [Hb [q Hq]]. split; [done|]. exists (p +:+ q). by rewrite string_app_assoc, <- Hq. }
  assert (Hself : starts_blank s = false → starts_blank s = false ∧ ∃ p, s = p +:+ s) by (intros ?; split; [done|by exists ""%string]).
  destruct s as [|a s1]; [by apply Hself|]. cbn [trim_with].
  destruct (is_space1 (ord a)) eqn:H1; [apply (Hsub (String a "")); [done|cbn; lia]|].
  destruct s1 as [|b s2]; [apply Hself; cbn; by rewrite H1|].
  destruct (two (ord a) (ord b)) eqn:H2; [apply (Hsub (String a (String b ""))); [done|cbn; lia]|].
  destruct s2 as [|c s3]; [apply Hself; cbn; by rewrite H1, H2|].
  destruct (three (ord a) (ord b) (ord c)) eqn:H3; [apply (Hsub (String a (String b (String c "")))); [done|cbn; lia]|].
  apply Hself. cbn. by rewrite H1, H2, H3.
Qed.
End trim.

Lemma TrimSpace_trimmed s : TrimSpace (TrimSpace s) = TrimSpace s.
Proof.
  unfold TrimSpace. generalize (proj1 (trim_with_spec is_space2 is_space3 s)). fold (trim_left s). generalize (trim_left s). clear s.
  intros s Hs. unfold trim_right at 2 3. set (two := λ b a, is_space2 a b). set (three := λ c b a, is_space3 a b c).
  destruct (trim_with_spec two three (String.rev s)) as [Hb [p Hp]]. set (r := trim_with two three (String.rev s)) in *.
  assert (Hpre : s = String.rev r +:+ String.rev p) by (by rewrite <- string_rev_app, <- Hp, string_rev_rev).
  rewrite Hpre in Hs. apply starts_blank_app in Hs. unfold trim_left. rewrite (trim_with_fixed _ _ _ Hs).
  unfold trim_right. rewrite string_rev_rev. f_equal. exact (trim_with_fixed _ _ _ Hb).
Qed.
