(* ===== verification/Base64.v ===== *)
(** * Base64

    [encoding/base64] as the program uses it: the raw URL alphabet of tokens and
    the padded standard alphabet of keys and certificates in the configuration,
    with their round trips. *)
From Stdlib Require Import ZArith Lia Ascii String.
From stdpp Require Import gmap strings list.
From S2P Require Import Prelude GoStrings.
Local Open Scope Z_scope.

(** ** The encodings *)

(** [url] chooses the alphabet of the last two digits. *)

Definition b64_char (url : bool) (d : Z) : ascii :=
  if bool_decide (d < 26) then chr (65 + d)
  else if bool_decide (d < 52) then chr (97 + (d - 26))
  else if bool_decide (d < 62) then chr (48 + (d - 52))
  else if bool_decide (d = 62) then chr (if url then 45 else 43) else chr (if url then 95 else 47).
Definition b64_value (url : bool) (c : ascii) : option Z :=
  let x := ord c in
  if bool_decide (65 ≤ x ≤ 90) then Some (x - 65)
  else if bool_decide (97 ≤ x ≤ 122) then Some (x - 97 + 26)
  else if bool_decide (48 ≤ x ≤ 57) then Some (x - 48 + 52)
  else if bool_decide (x = if url then 45 else 43) then Some 62
  else if bool_decide (x = if url then 95 else 47) then Some 63 else None.

Fixpoint raw_encode (l : bytes) : string :=
  match l with
  | a :: b :: c :: l =>
      String (b64_char true (a / 4)) (String (b64_char true (a `mod` 4 * 16 + b / 16))
        (String (b64_char true (b `mod` 16 * 4 + c / 64)) (String (b64_char true (c `mod` 64)) (raw_encode l))))
  | [a; b] =>
      String (b64_char true (a / 4)) (String (b64_char true (a `mod` 4 * 16 + b / 16))
        (String (b64_char true (b `mod` 16 * 4)) EmptyString))
  | [a] => String (b64_char true (a / 4)) (String (b64_char true (a `mod` 4 * 16)) EmptyString)
  | [] => EmptyString
  end.
(** Trailing bits are ignored; a single character of a quantum is an error. *)
Fixpoint raw_decode (s : string) : option bytes :=
  match s with
  | String w (String x (String y (String z s))) =>
      w ← b64_value true w; x ← b64_value true x; y ← b64_value true y; z ← b64_value true z; l ← raw_decode s;
      Some (w * 4 + x / 16 :: x `mod` 16 * 16 + y / 4 :: y `mod` 4 * 64 + z :: l)
  | String w (String x (String y EmptyString)) =>
      w ← b64_value true w; x ← b64_value true x; y ← b64_value true y; Some [w * 4 + x / 16; x `mod` 16 * 16 + y / 4]
  | String w (String x EmptyString) => w ← b64_value true w; x ← b64_value true x; Some [w * 4 + x / 16]
  | String _ EmptyString => None
  | EmptyString => Some []
  end.

Definition pad : ascii := chr 61.
Fixpoint std_encode (l : bytes) : string :=
  match l with
  | a :: b :: c :: l =>
      String (b64_char false (a / 4)) (String (b64_char false (a `mod` 4 * 16 + b / 16))
        (String (b64_char false (b `mod` 16 * 4 + c / 64)) (String (b64_char false (c `mod` 64)) (std_encode l))))
  | [a; b] =>
      String (b64_char false (a / 4)) (String (b64_char false (a `mod` 4 * 16 + b / 16))
        (String (b64_char false (b `mod` 16 * 4)) (String pad EmptyString)))
  | [a] => String (b64_char false (a / 4)) (String (b64_char false (a `mod` 4 * 16)) (String pad (String pad EmptyString)))
  | [] => EmptyString
  end.
(** Padding ends the text. *)
Fixpoint std_decode (s : string) : option bytes :=
  match s with
  | String w (String x (String y (String z s))) =>
      w ← b64_value false w; x ← b64_value false x;
      if bool_decide (y = pad) && bool_decide (z = pad) && bool_decide (s = ""%string) then Some [w * 4 + x / 16]
      else
        y ← b64_value false y;
        if bool_decide (z = pad) && bool_decide (s = ""%string) then Some [w * 4 + x / 16; x `mod` 16 * 16 + y / 4]
        else
          z ← b64_value false z; l ← std_decode s;
          Some (w * 4 + x / 16 :: x `mod` 16 * 16 + y / 4 :: y `mod` 4 * 64 + z :: l)
  | EmptyString => Some []
  | _ => None
  end.
(** Line breaks are skipped. *)
Fixpoint skip_newlines (s : string) : string :=
  match s with
  | EmptyString => EmptyString
  | String c s => if bool_decide (ord c = 10) || bool_decide (ord c = 13) then skip_newlines s else String c (skip_newlines s)
  end.
Definition EncodeToString (s : string) : string := raw_encode (bytes_of_string s).
Definition DecodeString (s : string) : option string := string_of_bytes <$> raw_decode (skip_newlines s).
Definition StdEncodeToString (s : string) : string := std_encode (bytes_of_string s).
Definition StdDecodeString (s : string) : option string := string_of_bytes <$> std_decode (skip_newlines s).

(** ** Round trips *)

(** Visible ASCII characters. *)
Definition visible (c : ascii) : Prop := 33 ≤ ord c < 128.
Definition digit_ok (url : bool) (d : Z) : Prop :=
  b64_value url (b64_char url d) = Some d ∧ visible (b64_char url d) ∧ b64_char url d ≠ ":"%char ∧ b64_char url d ≠ pad.
#[local] Instance digit_ok_dec url d : Decision (digit_ok url d).
Proof. unfold digit_ok, visible. apply _. Defined.
Lemma b64_digit url d : 0 ≤ d < 64 → digit_ok url d.
Proof.
  intros Hd. assert (H : Forall (digit_ok url) (seqZ 0 64)).
  { destruct url; apply (bool_decide_unpack _); vm_compute; exact I. }
  rewrite Forall_forall in H. apply H, elem_of_seqZ. lia.
Qed.
Lemma b64_value_char url d : 0 ≤ d < 64 → b64_value url (b64_char url d) = Some d.
Proof. intros Hd. apply (b64_digit url d Hd). Qed.
Lemma b64_char_pad url d : 0 ≤ d < 64 → bool_decide (b64_char url d = pad) = false.
Proof. intros Hd. apply bool_decide_eq_false_2, (b64_digit url d Hd). Qed.

Lemma three_induction {A} (P : list A → Prop) :
  P [] → (∀ a, P [a]) → (∀ a b, P [a; b]) → (∀ a b c l, P l → P (a :: b :: c :: l)) → ∀ l, P l.
Proof.
  intros H0 H1 H2 H3. fix IH 1. intros [|a [|b [|c l]]]; [done|done|done|]. apply H3, IH.
Qed.
Ltac byte_arith := unfold is_byte in *; Z.to_euclidean_division_equations; lia.
Lemma raw_round_trip l : Forall is_byte l → raw_decode (raw_encode l) = Some l.
Proof.
  induction l as [|a|a b|a b c l IH] using three_induction; [done|..]; rewrite ?Forall_cons.
  - intros [Ha _]. cbn [raw_encode raw_decode]. rewrite !b64_value_char by byte_arith. cbn. do 2 f_equal. byte_arith.
  - intros (Ha & Hb & _). cbn [raw_encode raw_decode]. rewrite !b64_value_char by byte_arith. cbn. do 2 f_equal; [|f_equal]; byte_arith.
  - intros (Ha & Hb & Hc & Hl). cbn [raw_encode raw_decode]. rewrite !b64_value_char by byte_arith. cbn. rewrite (IH Hl). cbn.
    do 2 f_equal; [|f_equal; [|f_equal]]; byte_arith.
Qed.
Lemma std_round_trip l : Forall is_byte l → std_decode (std_encode l) = Some l.
Proof.
  induction l as [|a|a b|a b c l IH] using three_induction; [done|..]; rewrite ?Forall_cons.
  - intros [Ha _]. cbn [std_encode std_decode]. rewrite !b64_value_char by byte_arith. rewrite !bool_decide_eq_true_2 by done.
    cbn. do 2 f_equal. byte_arith.
  - intros (Ha & Hb & _). cbn [std_encode std_decode]. rewrite !b64_value_char, b64_char_pad by byte_arith.
    rewrite !(bool_decide_eq_true_2 (pad = pad)), (bool_decide_eq_true_2 (""%string = ""%string)) by done.
    cbn. do 2 f_equal; [|f_equal]; byte_arith.
  - intros (Ha & Hb & Hc & Hl). cbn [std_encode std_decode]. rewrite !b64_value_char, !b64_char_pad by byte_arith. cbn. rewrite (IH Hl). cbn.
    do 2 f_equal; [|f_equal; [|f_equal]]; byte_arith.
Qed.

(** The characters of an encoding. *)
Fixpoint chars (p : ascii → Prop) (s : string) : Prop := match s with EmptyString => True | String c s => p c ∧ chars p s end.
Lemma chars_mono (p q : ascii → Prop) s : (∀ c, p c → q c) → chars p s → chars q s.
Proof. intros H. induction s as [|c s IH]; [done|]. intros [Hc Hs]. split; auto. Qed.
Definition b64_alphabet (c : ascii) : Prop := visible c ∧ c ≠ ":"%char.
Lemma b64_alphabet_char url d : 0 ≤ d < 64 → b64_alphabet (b64_char url d).
Proof. intros Hd. destruct (b64_digit url d Hd) as (_ & ? & ? & _). done. Qed.
Lemma b64_alphabet_pad : b64_alphabet pad.
Proof. split; [apply (bool_decide_unpack _); vm_compute; exact I|done]. Qed.
Lemma raw_encode_chars l : Forall is_byte l → chars b64_alphabet (raw_encode l).
Proof.
  induction l as [|a|a b|a b c l IH] using three_induction; [done|..]; rewrite ?Forall_cons.
  - intros [Ha _]. cbn. split; [|split; [|done]]; apply b64_alphabet_char; byte_arith.
  - intros (Ha & Hb & _). cbn. split; [|split; [|split; [|done]]]; apply b64_alphabet_char; byte_arith.
  - intros (Ha & Hb & Hc & Hl). cbn. split; [|split; [|split; [|split; [|by apply IH]]]]; apply b64_alphabet_char; byte_arith.
Qed.
Lemma std_encode_chars l : Forall is_byte l → chars b64_alphabet (std_encode l).
Proof.
  pose proof b64_alphabet_pad as Hpad.
  induction l as [|a|a b|a b c l IH] using three_induction; [done|..]; rewrite ?Forall_cons.
  - intros [Ha _]. cbn. split; [|split; [|done]]; apply b64_alphabet_char; byte_arith.
  - intros (Ha & Hb & _). cbn. split; [|split; [|split; [|done]]]; apply b64_alphabet_char; byte_arith.
  - intros (Ha & Hb & Hc & Hl). cbn. split; [|split; [|split; [|split; [|by apply IH]]]]; apply b64_alphabet_char; byte_arith.
Qed.
Lemma skip_newlines_none s : chars b64_alphabet s → skip_newlines s = s.
Proof.
  induction s as [|c s IH]; [done|]. intros [[Hv _] Hs]. unfold visible in Hv. cbn. rewrite !bool_decide_eq_false_2 by lia. cbn. by rewrite IH.
Qed.
Lemma Decode_Encode s : DecodeString (EncodeToString s) = Some s.
Proof.
  unfold DecodeString, EncodeToString. pose proof (bytes_of_string_bytes s) as Hb.
  rewrite skip_newlines_none by by apply raw_encode_chars. rewrite raw_round_trip by done. cbn. by rewrite string_of_bytes_of_string.
Qed.
Lemma StdDecode_Encode s : StdDecodeString (StdEncodeToString s) = Some s.
Proof.
  unfold StdDecodeString, StdEncodeToString. pose proof (bytes_of_string_bytes s) as Hb.
  rewrite skip_newlines_none by by apply std_encode_chars. rewrite std_round_trip by done. cbn. by rewrite string_of_bytes_of_string.
Qed.
Lemma StdEncode_empty s : StdEncodeToString s = ""%string → s = ""%string.
Proof. intros H. pose proof (StdDecode_Encode s) as Hd. rewrite H in Hd. by injection Hd. Qed.
Lemma EncodeToString_no_colon s : no_char ":" (EncodeToString s) = true.
Proof.
  pose proof (raw_encode_chars _ (bytes_of_string_bytes s)) as H. unfold EncodeToString. revert H. generalize (raw_encode (bytes_of_string s)).
  intros t. induction t as [|c t IH]; [done|]. intros [(_ & ?) Ht]. cbn. rewrite IH by done. by rewrite bool_decide_eq_false_2.
Qed.
Lemma Encode_inj s t : EncodeToString s = EncodeToString t → s = t.
Proof. intros H. assert (H' : DecodeString (EncodeToString s) = DecodeString (EncodeToString t)) by congruence. rewrite !Decode_Encode in H'. congruence. Qed.

(** Trimming leaves a text of visible characters. *)
Lemma chars_rev_app p s t : chars p s → chars p t → chars p (String.rev_app s t).
Proof. revert t. induction s as [|c s IH]; intros t; [done|]. intros [Hc Hs] Ht. by apply IH. Qed.
Lemma trim_with_visible two three s :
  (∀ a b, 33 ≤ a < 128 → two a b = false) → (∀ a b c, 33 ≤ a < 128 → three a b c = false) → chars visible s → trim_with two three s = s.
Proof.
  intros H2 H3. destruct s as [|a [|b [|c s]]]; [done|..]; intros (Ha & Hs); unfold visible in Ha;
    assert (H1 : is_space1 (ord a) = false) by (unfold is_space1; rewrite !bool_decide_eq_false_2 by lia; done); cbn [trim_with]; rewrite H1; [done|..].
  - by rewrite H2.
  - by rewrite H2, H3.
Qed.
Lemma TrimSpace_visible s : chars visible s → TrimSpace s = s.
Proof.
  intros Hs. unfold TrimSpace, trim_left, trim_right.
  rewrite (trim_with_visible _ _ s); [|..|done].
  2: { intros a b Ha. unfold is_space2. rewrite bool_decide_eq_false_2 by lia. done. }
  2: { intros a b c Ha. unfold is_space3. rewrite !(bool_decide_eq_false_2 (a = _)) by lia. done. }
  rewrite trim_with_visible; [apply string_rev_rev|..|by apply chars_rev_app].
  - intros a b Ha. unfold is_space2. rewrite !(bool_decide_eq_false_2 (a = _)) by lia. by rewrite andb_comm.
  - intros a b c Ha. unfold is_space3. rewrite !(bool_decide_eq_false_2 (a = _)), (bool_decide_eq_false_2 (_ ≤ a ≤ _)) by lia.
    by rewrite ?andb_false_r.
Qed.
Lemma TrimSpace_encoded p s : chars visible p → TrimSpace (p +:+ EncodeToString s) = p +:+ EncodeToString s.
Proof.
  intros Hp. apply TrimSpace_visible. induction p as [|c p IH].
  - apply (chars_mono b64_alphabet); [by intros c [? _]|]. apply raw_encode_chars, bytes_of_string_bytes.
  - destruct Hp as [Hc Hp]. rewrite string_app_cons. split; [done|by apply IH].
Qed.
