(* ===== verification/Security.v ===== *)
(** * Tokens and sessions

    [internal/security/security.go]: opaque tokens, the signed tokens of an
    administrator's browser and signed sessions, over the raw URL alphabet of
    [encoding/base64].  The keyed hash is an argument, as is what the random
    source gives; password hashing is bcrypt's and left to its users.

    The theorems are the round trips: what is signed is read back, for exactly as
    long as it is valid, and a token that carries an issued signature carries the
    issued content. *)
From Stdlib Require Import ZArith Lia Ascii String.
From stdpp Require Import gmap strings list pretty.
From S2P Require Import Prelude GoStrings Base64.
Local Open Scope Z_scope.

(** ** Tokens *)

Definition Unix (t : time) : Z := t / Second.
Definition join (sep : string) (l : list string) : string :=
  match l with [] => ""%string | s :: l => foldl (λ acc s, acc +:+ sep +:+ s) s l end.

Section security.
(** [sha256.Sum256] and HMAC with it: 32 bytes of a key and a message. *)
Context (sha256 : string → string) (hmac_sha256 : string → string → string).
(** The errors of [encoding/base64] and [strconv]. *)
Context (base64_error number_error : string → string).

Definition hex_digit (d : Z) : ascii := if bool_decide (d < 10) then chr (48 + d) else chr (97 + (d - 10)).
Fixpoint hex (l : bytes) : string :=
  match l with [] => EmptyString | b :: l => String (hex_digit (b / 16)) (String (hex_digit (b `mod` 16)) (hex l)) end.
Definition TokenHash (token : string) : string := hex (bytes_of_string (sha256 token)).
Definition TokenPrefix (token : string) : string := if bool_decide (slen token ≤ 12) then token else str_take 12 token.
(** [raw] is 32 random bytes or the error of the random source. *)
Definition NewOpaqueToken (raw : string + string) (prefix : string) : string + (string * string) :=
  match raw with
  | inl err => inl err
  | inr raw => let plain := prefix +:+ EncodeToString raw in inr (plain, TokenHash plain)
  end.

Definition ParseInt (s : string) : string + Z := let '(n, err) := Atoi s in if err : bool then inl (number_error s) else inr n.

Definition adminBrowserSignature (body adminTokenHash secret : string) : string :=
  EncodeToString (hmac_sha256 (secret +:+ ":" +:+ adminTokenHash) body).
Definition NewAdminBrowserToken (userID : Z) (adminTokenHash secret : string) (ttl : duration) (now : time) (nonceRaw : string + string) :
    string + (string * time) :=
  match nonceRaw with
  | inl err => inl err
  | inr nonceRaw =>
      let expires := now + ttl in
      let nonce := EncodeToString nonceRaw in
      let body := join ":" ["adm"%string; fmt_d userID; fmt_d (Unix now); fmt_d (Unix expires); nonce] in
      let sig := adminBrowserSignature body adminTokenHash secret in
      inr ("ast_" +:+ EncodeToString (body +:+ ":" +:+ sig), expires)
  end.
Definition decodeAdminBrowserToken (value : string) : string + list string :=
  let value := TrimSpace value in
  if negb (HasPrefix value "ast_") then inl "invalid admin token prefix"%string
  else match DecodeString (TrimPrefix value "ast_") with
  | None => inl (base64_error (TrimPrefix value "ast_"))
  | Some decoded =>
      let parts := split_char ":" decoded in
      if negb (bool_decide (length parts = 6%nat)) || negb (bool_decide (parts !! 0%nat = Some "adm"%string))
      then inl "invalid admin token format"%string
      else inr parts
  end.
Definition part (parts : list string) (i : nat) : string := default ""%string (parts !! i).
Definition AdminBrowserTokenUserID (value : string) : string + Z :=
  match decodeAdminBrowserToken value with inl err => inl err | inr parts => ParseInt (part parts 1) end.
Definition ParseAdminBrowserToken (value adminTokenHash secret : string) (now : time) : string + (Z * time) :=
  match decodeAdminBrowserToken value with
  | inl err => inl err
  | inr parts =>
      let body := join ":" (take 5 parts) in
      let expected := adminBrowserSignature body adminTokenHash secret in
      if negb (bool_decide (expected = part parts 5)) then inl "invalid admin token signature"%string
      else match ParseInt (part parts 1) with
      | inl err => inl err
      | inr userID =>
          match ParseInt (part parts 3) with
          | inl err => inl err
          | inr expiresUnix =>
              let expiresAt := expiresUnix * Second in
              if After now expiresAt then inl "admin token expired"%string else inr (userID, expiresAt)
          end
      end
  end.

Definition SignSession (secret : string) (userID : Z) (ttl : duration) (now : time) : string :=
  let expires := Unix (now + ttl) in
  let body := fmt_d userID +:+ ":" +:+ fmt_d expires in
  let sig := EncodeToString (hmac_sha256 secret body) in
  EncodeToString (body +:+ ":" +:+ sig).
Definition ParseSession (secret value : string) (now : time) : string + Z :=
  match DecodeString value with
  | None => inl (base64_error value)
  | Some decoded =>
      match split_char ":" decoded with
      | [p0; p1; p2] =>
          let body := p0 +:+ ":" +:+ p1 in
          let expected := EncodeToString (hmac_sha256 secret body) in
          if negb (bool_decide (expected = p2)) then inl "invalid session signature"%string
          else match ParseInt p1 with
          | inl err => inl err
          | inr expires => if bool_decide (expires < Unix now) then inl "session expired"%string else ParseInt p0
          end
      | _ => inl "invalid session format"%string
      end
  end.
End security.

Lemma TrimSpace_token s : TrimSpace ("ast_" +:+ EncodeToString s) = "ast_" +:+ EncodeToString s.
Proof. apply TrimSpace_encoded. do 4 (split; [apply (bool_decide_unpack _); vm_compute; exact I|]). done. Qed.
Lemma string_app_inj_l (s t u : string) : s +:+ t = s +:+ u → t = u.
Proof. induction s as [|c s IH]; [done|]. rewrite !string_app_cons. intros [= H]. by apply IH. Qed.
Lemma split_no_char c s : no_char c s = true → split_char c s = [s].
Proof.
  induction s as [|a s IH]; [done|]. cbn. intros [Ha Hs]%andb_true_iff. rewrite IH by done. apply negb_true_iff in Ha.
  apply bool_decide_eq_false in Ha. by rewrite bool_decide_eq_false_2.
Qed.
Lemma split_sep c s t : no_char c s = true → split_char c (s +:+ String c t) = s :: split_char c t.
Proof.
  induction s as [|a s IH]; cbn [no_char].
  - intros _. rewrite string_app_nil_l. cbn [split_char]. by rewrite bool_decide_eq_true_2.
  - intros [Ha Hs]%andb_true_iff. rewrite string_app_cons. cbn [split_char]. rewrite IH by done. apply negb_true_iff in Ha. apply bool_decide_eq_false in Ha.
    by rewrite bool_decide_eq_false_2.
Qed.
Lemma split_parts c s : Forall (λ w, no_char c w = true) (split_char c s).
Proof.
  induction s as [|a s IH]; cbn; [by repeat constructor|]. case_bool_decide as Ha; [by constructor|].
  destruct (split_char c s) as [|w ws]; [by repeat constructor; cbn; rewrite bool_decide_eq_false_2|].
  apply Forall_cons in IH as [Hw Hws]. constructor; [|done]. cbn. by rewrite bool_decide_eq_false_2.
Qed.
Lemma split_colon s t : no_char ":" s = true → split_char ":" (s +:+ (":" +:+ t)) = s :: split_char ":" t.
Proof. exact (split_sep ":" s t). Qed.
Lemma fmt_no_colon n : no_char ":" (fmt_d n) = true.
Proof. by apply fmt_d_no_char. Qed.


Section tokens.
Context (hmac_sha256 : string → string → string) (base64_error number_error : string → string).
Abbreviation Sign := (SignSession hmac_sha256).
Abbreviation Parse := (ParseSession hmac_sha256 base64_error number_error).

Lemma ParseInt_fmt n : minInt64 ≤ n ≤ maxInt64 → ParseInt number_error (fmt_d n) = inr n.
Proof. intros Hn. unfold ParseInt. by rewrite Atoi_fmt_d. Qed.

(** A session is read back while it is valid. *)
Theorem session_round_trip secret userID ttl now now' :
  minInt64 ≤ userID ≤ maxInt64 → minInt64 ≤ Unix (now + ttl) ≤ maxInt64 →
  Parse secret (Sign secret userID ttl now) now' = if bool_decide (Unix (now + ttl) < Unix now') then inl "session expired"%string else inr userID.
Proof.
  intros Hu He. unfold ParseSession, SignSession. rewrite Decode_Encode, !string_app_assoc.
  rewrite !split_colon by apply fmt_no_colon. rewrite split_no_char by apply EncodeToString_no_colon.
  rewrite bool_decide_eq_true_2 by done. cbn [negb]. rewrite !ParseInt_fmt by done. done.
Qed.

Definition session_body (i : Z * duration * time) : string := fmt_d i.1.1 +:+ ":" +:+ fmt_d (Unix (i.2 + i.1.2)).
(** A session is bound to what was signed. If a session is accepted and its signature is that of a session which the
    server issued, of which it is not a collision of the keyed hash, then it was issued for the same user and
    has not expired; whatever else the text contains. *)
Theorem session_bound secret (issued : list (Z * duration * time)) value now userID p0 p1 sig :
  (∀ i, i ∈ issued → hmac_sha256 secret (p0 +:+ ":" +:+ p1) = hmac_sha256 secret (session_body i) → p0 +:+ ":" +:+ p1 = session_body i) →
  Forall (λ i, minInt64 ≤ i.1.1 ≤ maxInt64 ∧ minInt64 ≤ Unix (i.2 + i.1.2) ≤ maxInt64) issued →
  Parse secret value now = inr userID → split_char ":" <$> DecodeString value = Some [p0; p1; sig] →
  sig ∈ (λ i, EncodeToString (hmac_sha256 secret (session_body i))) <$> issued →
  ∃ i, i ∈ issued ∧ i.1.1 = userID ∧ Unix now ≤ Unix (i.2 + i.1.2).
Proof.
  intros Hinj Hrange Hp Hv (i & Hsig & Hi)%list_elem_of_fmap. rewrite Forall_forall in Hrange. destruct (Hrange i Hi) as [Hu He].
  unfold ParseSession in Hp. destruct (DecodeString value) as [decoded|]; [|done]. cbn in Hv. injection Hv as Hv. rewrite Hv in Hp.
  case_bool_decide as Hmac; [|done]. cbn [negb] in Hp. rewrite Hsig in Hmac. apply Encode_inj, Hinj in Hmac; [|done]. unfold session_body in Hmac.
  assert (Hsplit : split_char ":" (p0 +:+ ":" +:+ p1) = [fmt_d i.1.1; fmt_d (Unix (i.2 + i.1.2))]).
  { rewrite Hmac, split_colon by apply fmt_no_colon. by rewrite split_no_char by apply fmt_no_colon. }
  assert (Hparts : no_char ":" p0 = true ∧ no_char ":" p1 = true).
  { pose proof (split_parts ":" decoded) as Hf. rewrite Hv, !Forall_cons in Hf. naive_solver. }
  destruct Hparts as [H0 H1]. rewrite split_colon, split_no_char in Hsplit by done. injection Hsplit as -> ->.
  rewrite !ParseInt_fmt in Hp by done. case_bool_decide as Hx; [done|]. injection Hp as <-. exists i. split_and!; [done..|lia].
Qed.

(** *** Administrator tokens *)

Abbreviation NewAdmin := (NewAdminBrowserToken hmac_sha256).
Abbreviation ParseAdmin := (ParseAdminBrowserToken hmac_sha256 base64_error number_error).

Lemma ast_prefix t : HasPrefix ("ast_" +:+ t) "ast_" = true ∧ TrimPrefix ("ast_" +:+ t) "ast_" = t.
Proof. done. Qed.
Lemma decode_admin_parts a b c d e :
  Forall (λ w, no_char ":" w = true) [a; b; c; d; e] →
  decodeAdminBrowserToken base64_error ("ast_" +:+ EncodeToString (join ":" ["adm"%string; a; b; c; d] +:+ ":" +:+ e)) =
    inr ["adm"%string; a; b; c; d; e].
Proof.
  rewrite !Forall_cons. intros (Ha & Hb & Hc & Hd & He & _). unfold decodeAdminBrowserToken.
  rewrite TrimSpace_token. destruct (ast_prefix (EncodeToString (join ":" ["adm"%string; a; b; c; d] +:+ ":" +:+ e))) as [-> ->]. cbn [negb].
  rewrite Decode_Encode. unfold join. cbn [foldl]. rewrite !string_app_assoc, !split_colon by done. by rewrite split_no_char.
Qed.

Lemma decode_admin_inv value parts :
  decodeAdminBrowserToken base64_error value = inr parts →
  ∃ a b c d e, parts = ["adm"%string; a; b; c; d; e] ∧ Forall (λ w, no_char ":" w = true) parts.
Proof.
  unfold decodeAdminBrowserToken. destruct (negb _); [done|]. destruct (DecodeString _) as [decoded|]; [|done].
  destruct (negb _ || negb _) eqn:E; [done|]. intros [= <-]. apply orb_false_iff in E as [E1 E2].
  apply negb_false_iff, bool_decide_eq_true in E1. apply negb_false_iff, bool_decide_eq_true in E2.
  pose proof (split_parts ":" decoded) as Hf. destruct (split_char ":" decoded) as [|x [|a [|b [|c [|d [|e [|]]]]]]]; try done.
  injection E2 as ->. naive_solver.
Qed.

(** The times that a token of an administrator can carry. *)
Definition token_times (userID : Z) (ttl : duration) (now : time) : Prop :=
  minInt64 ≤ userID ≤ maxInt64 ∧ minInt64 ≤ Unix (now + ttl) ≤ maxInt64.
Definition admin_body (userID : Z) (ttl : duration) (now : time) (nonce : string) : string :=
  join ":" ["adm"%string; fmt_d userID; fmt_d (Unix now); fmt_d (Unix (now + ttl)); EncodeToString nonce].

(** A token is read back until its last whole second has passed. *)
Theorem admin_token_round_trip userID hash secret ttl now nonce token expires now' :
  token_times userID ttl now → NewAdmin userID hash secret ttl now (inr nonce) = inr (token, expires) →
  ParseAdmin token hash secret now' =
    if After now' (Unix expires * Second) then inl "admin token expired"%string else inr (userID, Unix expires * Second).
Proof.
  intros [Hu He] Hn.
  assert (Ht : token = "ast_" +:+ EncodeToString (admin_body userID ttl now nonce +:+ ":" +:+
                         adminBrowserSignature hmac_sha256 (admin_body userID ttl now nonce) hash secret) ∧ expires = now + ttl).
  { unfold NewAdminBrowserToken in Hn. injection Hn as Ht He'. split; symmetry; [exact Ht|exact He']. }
  destruct Ht as [-> ->]. unfold ParseAdminBrowserToken, admin_body. rewrite decode_admin_parts by (repeat constructor; first [apply fmt_no_colon|apply EncodeToString_no_colon]).
  cbn [take]. unfold part. cbn [lookup list_lookup default from_option id]. rewrite bool_decide_eq_true_2 by done. cbn [negb].
  by rewrite !ParseInt_fmt.
Qed.

Record issued_token := mkIssued { it_hash : string; it_user : Z; it_ttl : duration; it_now : time; it_nonce : string }.
Definition issued_body (i : issued_token) : string := admin_body (it_user i) (it_ttl i) (it_now i) (it_nonce i).
Definition issued_signature (secret : string) (i : issued_token) : string := adminBrowserSignature hmac_sha256 (issued_body i) (it_hash i) secret.

(** An administrator's token is bound to what was signed. Take any value that the server accepts as the token of an
    administrator with a given token hash, and whose signature is one that the server issued with the same secret, for
    any administrator and token hash, the value being no collision of the keyed hash. Then that token was issued for this
    user under this token hash and has not expired: no field can be exchanged, and a token that was issued before the
    token hash changed is refused. *)
Theorem admin_token_bound secret (issued : list issued_token) value hash now userID expiresAt parts :
  decodeAdminBrowserToken base64_error value = inr parts →
  Forall (λ i, token_times (it_user i) (it_ttl i) (it_now i) ∧
               (hmac_sha256 (secret +:+ ":" +:+ hash) (join ":" (take 5 parts)) = hmac_sha256 (secret +:+ ":" +:+ it_hash i) (issued_body i) →
                secret +:+ ":" +:+ hash = secret +:+ ":" +:+ it_hash i ∧ join ":" (take 5 parts) = issued_body i)) issued →
  ParseAdmin value hash secret now = inr (userID, expiresAt) → part parts 5 ∈ issued_signature secret <$> issued →
  ∃ i, i ∈ issued ∧ it_hash i = hash ∧ it_user i = userID ∧ expiresAt = Unix (it_now i + it_ttl i) * Second ∧ now ≤ it_now i + it_ttl i.
Proof.
  intros Hd Hi Hp (i & Hsig & Hin)%list_elem_of_fmap. rewrite Forall_forall in Hi. destruct (Hi i Hin) as [[Hu He] Hcol].
  unfold ParseAdminBrowserToken in Hp. rewrite Hd in Hp. case_bool_decide as Hmac; [|done]. cbn [negb] in Hp. rewrite Hsig in Hmac.
  apply Encode_inj, Hcol in Hmac as [Hkey Hbody]. destruct (decode_admin_inv _ _ Hd) as (a & b & c & d & e & -> & Hf).
  rewrite !Forall_cons in Hf. destruct Hf as (_ & Ha & Hb & Hc & Hdd & _). cbn [take] in Hbody. unfold issued_body, admin_body, join in Hbody.
  cbn [foldl] in Hbody. rewrite !string_app_assoc in Hbody. apply (f_equal (split_char ":")) in Hbody.
  rewrite !split_colon, !split_no_char in Hbody by (done || apply fmt_no_colon || apply EncodeToString_no_colon). injection Hbody as -> -> -> ->.
  unfold part in Hp. cbn [lookup list_lookup default from_option id] in Hp. rewrite !ParseInt_fmt in Hp by done. unfold After in Hp.
  case_bool_decide as Hx; [done|]. injection Hp as <- <-. exists i. split_and!; [done|..|done|done|].
  - apply string_app_inj_l, string_app_inj_l in Hkey. done.
  - pose proof (Z.mul_div_le (it_now i + it_ttl i) Second ltac:(by vm_compute)). unfold Unix in Hx. lia.
Qed.
End tokens.
