(* ===== verification/Types.v ===== *)
(** * Records of the data model

    The structs of [internal/db/store.go] that the components exchange: users,
    access tokens, resource policies, clients, runtime leases and proxy
    allocations.  A nil [*time.Time] is [None]. *)
From Stdlib Require Import ZArith Lia Ascii String.
From stdpp Require Import gmap strings list.
From S2P Require Import Prelude.
Local Open Scope Z_scope.

Record User := mkUser {
  u_ID : Z; u_Username : string; u_DisplayName : string; u_PasswordHash : string;
  u_Role : string; u_Status : string; u_BanReason : string; u_CreatedAt : time; u_UpdatedAt : time }.
#[export] Instance eta_user : Eta User := λ r,
  mkUser (u_ID r) (u_Username r) (u_DisplayName r) (u_PasswordHash r) (u_Role r) (u_Status r)
    (u_BanReason r) (u_CreatedAt r) (u_UpdatedAt r).

Record AccessToken := mkAccessToken {
  t_ID : Z; t_UserID : Z; t_Name : string; t_TokenHash : string; t_TokenPrefix : string;
  t_PlainToken : string; t_Status : string; t_BanReason : string; t_MaxProxyCount : Z;
  t_ExpiresAt : option time; t_CreatedAt : time; t_UpdatedAt : time }.
#[export] Instance eta_token : Eta AccessToken := λ r,
  mkAccessToken (t_ID r) (t_UserID r) (t_Name r) (t_TokenHash r) (t_TokenPrefix r)
    (t_PlainToken r) (t_Status r) (t_BanReason r) (t_MaxProxyCount r) (t_ExpiresAt r)
    (t_CreatedAt r) (t_UpdatedAt r).

Record UserResourcePolicy := mkResourcePolicy {
  rp_UserID : Z; rp_PortStart : Z; rp_PortEnd : Z; rp_MaxPorts : Z;
  rp_AllowedProtocols : list string; rp_Enabled : bool }.
#[export] Instance eta_rp : Eta UserResourcePolicy := λ r,
  mkResourcePolicy (rp_UserID r) (rp_PortStart r) (rp_PortEnd r) (rp_MaxPorts r)
    (rp_AllowedProtocols r) (rp_Enabled r).

Record Client := mkClient {
  c_ID : Z; c_UserID : Z; c_TokenID : Z; c_ClientID : string; c_Status : string;
  c_BanReason : string; c_FrpcAddr : string; c_FRPCRunning : bool; c_LastSeenAt : option time }.
#[export] Instance eta_client : Eta Client := λ r,
  mkClient (c_ID r) (c_UserID r) (c_TokenID r) (c_ClientID r) (c_Status r) (c_BanReason r)
    (c_FrpcAddr r) (c_FRPCRunning r) (c_LastSeenAt r).

Record RuntimeLease := mkLease {
  l_ID : Z; l_LeaseID : string; l_UserID : Z; l_TokenID : Z; l_ClientID : string;
  l_RuntimeTokenHash : string; l_Status : string; l_ExpiresAt : time }.
#[export] Instance eta_lease : Eta RuntimeLease := λ r,
  mkLease (l_ID r) (l_LeaseID r) (l_UserID r) (l_TokenID r) (l_ClientID r)
    (l_RuntimeTokenHash r) (l_Status r) (l_ExpiresAt r).
Definition empty_lease : RuntimeLease := mkLease 0 "" 0 0 "" "" "" zero_time.

Record ProxyAllocationInput := mkAllocInput {
  pa_ProxyName : string; pa_ProxyType : string; pa_LocalIP : string; pa_LocalPort : Z;
  pa_RemotePort : Z; pa_Domain : string; pa_Subdomain : string }.
#[export] Instance eta_pa : Eta ProxyAllocationInput := λ r,
  mkAllocInput (pa_ProxyName r) (pa_ProxyType r) (pa_LocalIP r) (pa_LocalPort r)
    (pa_RemotePort r) (pa_Domain r) (pa_Subdomain r).

Record PortGrant := mkGrant {
  g_ID : Z; g_TokenID : Z; g_Protocol : string; g_RemotePortStart : Z; g_RemotePortEnd : Z;
  g_MaxCount : Z; g_Domain : string; g_Subdomain : string; g_Enabled : bool }.
