(* ===== verification/Policy.v ===== *)
(** * Policy hooks

    [internal/policy/engine.go]: the decisions and inputs of the policy engine,
    the [Engine] interface the HTTP handlers call before a client bootstraps,
    logs in to frps or creates a proxy, and the no-op engine the server installs.
    The [context.Context] argument carries only deadlines and is left out. *)
From Stdlib Require Import ZArith Lia Ascii String.
From stdpp Require Import gmap strings list.
From S2P Require Import Prelude.
Local Open Scope Z_scope.

Definition DecisionAction := string.
Definition ActionAllow : DecisionAction := "allow".
Definition ActionDeny : DecisionAction := "deny".
Definition ActionThrottle : DecisionAction := "throttle".
Definition ActionDisconnect : DecisionAction := "disconnect".
Definition ActionBanClient : DecisionAction := "ban_client".
Definition ActionBanToken : DecisionAction := "ban_token".

Record Decision := mkDecision { Action : DecisionAction; Reason : string }.
Definition Allow : Decision := mkDecision ActionAllow "".

Record BootstrapInput := mkBootstrapInput {
  bi_UserID : Z; bi_TokenID : Z; bi_ClientID : string }.
Record FrpLoginInput := mkFrpLoginInput {
  li_UserID : Z; li_TokenID : Z; li_ClientID : string; li_LeaseID : string; li_RunID : string }.
Record ProxyCreateInput := mkProxyCreateInput {
  pi_UserID : Z; pi_TokenID : Z; pi_ClientID : string; pi_LeaseID : string;
  pi_ProxyName : string; pi_ProxyType : string; pi_RemotePort : Z;
  pi_Domain : string; pi_Subdomain : string }.
Record ProxyEvent := mkProxyEvent {
  pe_LeaseID : string; pe_ProxyName : string; pe_ProxyType : string;
  pe_RemotePort : Z; pe_Reason : string }.
Record PolicyTrafficSample := mkPolicySample {
  pt_LeaseID : string; pt_ProxyName : string; pt_RemoteAddr : string;
  pt_BytesIn : Z; pt_BytesOut : Z }.
Record SecurityEvent := mkSecurityEvent {
  se_Scope : string; se_Target : string; se_Reason : string }.

(** The interface; the two notifications answer nothing. *)
Class PolicyEngine := {
  BeforeClientBootstrap : BootstrapInput → Decision;
  BeforeFrpLogin : FrpLoginInput → Decision;
  BeforeProxyCreate : ProxyCreateInput → Decision;
  OnProxyStarted : ProxyEvent → unit;
  OnProxyClosed : ProxyEvent → unit;
  OnTrafficSample : PolicyTrafficSample → Decision;
  OnSecurityEvent : SecurityEvent → Decision }.

Definition NoopPolicy : PolicyEngine := {|
  BeforeClientBootstrap _ := Allow;
  BeforeFrpLogin _ := Allow;
  BeforeProxyCreate _ := Allow;
  OnProxyStarted _ := tt;
  OnProxyClosed _ := tt;
  OnTrafficSample _ := Allow;
  OnSecurityEvent _ := Allow |}.
