(* ===== verification/DpiParse.v ===== *)
(** * Protocol parsers of the traffic inspection engine

    The pure byte parsers of [internal/dpiengine/composite.go]: the HTTP Host
    header ([ParseHTTPHost]), the server name of a TLS ClientHello
    ([parseTLSClientHelloSNI] and its helpers), the QUIC Initial test, and the
    tests of the encrypted tunnel heuristic.  Every function that indexes or
    slices runs in the option monad: [None] is a panic.

    Loops take as fuel a bound on their remaining iterations, computed from
    the positions the code compares; the theorems show that it is enough. *)
From Stdlib Require Import ZArith Lia Ascii String.
From stdpp Require Import gmap strings list fin_maps pretty.
From S2P Require Import Prelude GoStrings.
Local Open Scope Z_scope.

Definition maxInspectBytes : Z := 8192.

(** ** HTTP *)

(** [for i < limit && p(data[i]) { i++ }]. *)
Fixpoint advance_loop (p : Z → bool) (data : bytes) (limit : Z) (fuel : nat) (i : Z) : option Z :=
  if bool_decide (i < limit) then
    match fuel with
    | O => None
    | S fuel =>
        b ← idx data i;
        if p b then advance_loop p data limit fuel (i + 1) else Some i
    end
  else Some i.
Definition advance (p : Z → bool) (data : bytes) (i limit : Z) : option Z :=
  advance_loop p data limit (Z.to_nat (limit - i)) i.

Definition is_line_byte (b : Z) : bool := negb (bool_decide (b = 13)) && negb (bool_decide (b = 10)).
Definition is_blank (b : Z) : bool := bool_decide (b = 32) || bool_decide (b = 9).
Definition is_value_byte (b : Z) : bool :=
  negb (bool_decide (b = 32) || bool_decide (b = 9) || bool_decide (b = 58)).

Definition equalFoldByte (actual expectedLower : Z) : bool :=
  let actual := if bool_decide (65 ≤ actual) && bool_decide (actual ≤ 90)
                then wrap_byte (actual + 32) else actual in
  bool_decide (actual = expectedLower).

Definition hostValueStart (data : bytes) (lineStart lineEnd : Z) : option Z :=
  if bool_decide (lineEnd - lineStart < 5) then Some (-1)
  else
    b0 ← idx data lineStart;
    if negb (equalFoldByte b0 104) then Some (-1) else
    b1 ← idx data (lineStart + 1);
    if negb (equalFoldByte b1 111) then Some (-1) else
    b2 ← idx data (lineStart + 2);
    if negb (equalFoldByte b2 115) then Some (-1) else
    b3 ← idx data (lineStart + 3);
    if negb (equalFoldByte b3 116) then Some (-1) else
    b4 ← idx data (lineStart + 4);
    if negb (bool_decide (b4 = 58)) then Some (-1)
    else advance is_blank data (lineStart + 5) lineEnd.

Definition http_prefixes : list bytes :=
  bytes_of_string <$> ["GET "; "POST "; "PUT "; "HEAD "; "DELETE "; "PATCH "; "OPTIONS "; "CONNECT "]%string.

Definition looksLikeHTTP (data : bytes) : bool :=
  existsb (λ prefix, has_prefix prefix data) http_prefixes.

(** The line after the one that ends at [lineEnd]: the byte at [lineEnd] is
    skipped, and a newline after a carriage return with it. *)
Definition next_line (data : bytes) (limit lineEnd : Z) : option Z :=
  let lineStart := lineEnd + 1 in
  if bool_decide (lineStart < limit) then
    b ← idx data (lineStart - 1);
    if bool_decide (b = 13) then
      c ← idx data lineStart;
      Some (if bool_decide (c = 10) then lineStart + 1 else lineStart)
    else Some lineStart
  else Some lineStart.

(** The loop over the header lines. *)
Fixpoint host_lines (data : bytes) (limit : Z) (fuel : nat) (lineStart : Z) : option bytes :=
  if bool_decide (lineStart < limit) then
    match fuel with
    | O => None
    | S fuel =>
        lineEnd ← advance is_line_byte data lineStart limit;
        valueStart ← hostValueStart data lineStart lineEnd;
        if bool_decide (0 ≤ valueStart) then
          valueEnd ← advance is_value_byte data valueStart lineEnd;
          if bool_decide (valueStart < valueEnd) then slice data valueStart valueEnd
          else Some []
        else
          lineStart ← next_line data limit lineEnd;
          host_lines data limit fuel lineStart
    end
  else Some [].

Definition crlf2 : bytes := [13; 10; 13; 10].

(** Where the header section ends: at the blank line, or at byte 4096. *)
Definition http_limit (data : bytes) : option Z :=
  let limit := if bool_decide (4096 < len data) then 4096 else len data in
  head ← slice data 0 limit;
  Some (if bool_decide (0 ≤ index head crlf2) then index head crlf2 else limit).

Definition ParseHTTPHost (data : bytes) : option bytes :=
  if bool_decide (len data < 16) || negb (looksLikeHTTP data) then Some []
  else
    limit ← http_limit data;
    host_lines data limit (Z.to_nat limit) 0.

(** ** TLS *)

Definition parseSNIExtension (data : bytes) : option bytes :=
  if bool_decide (len data < 5) then Some [] else
  listLen ← be16 data 0;
  let pos := 2 in
  let stop := if bool_decide (len data < pos + listLen) then len data else pos + listLen in
  if bool_decide (stop < pos + 3) then Some [] else
  nameType ← idx data pos;
  nameLen ← be16 data (pos + 1);
  let pos := pos + 3 in
  if bool_decide (nameType = 0) && bool_decide (0 < nameLen) && bool_decide (pos + nameLen ≤ stop)
  then slice data pos (pos + nameLen)
  else Some [].

(** The loop over the extensions; each takes at least four bytes. *)
Fixpoint extensions_loop (record : bytes) (stop : Z) (fuel : nat) (pos : Z) : option bytes :=
  if bool_decide (pos + 4 ≤ stop) then
    match fuel with
    | O => None
    | S fuel =>
        extType ← be16 record pos;
        extDataLen ← be16 record (pos + 2);
        let pos := pos + 4 in
        if bool_decide (stop < pos + extDataLen) then Some []
        else if bool_decide (extType = 0) then
          ext ← slice record pos (pos + extDataLen);
          parseSNIExtension ext
        else extensions_loop record stop fuel (pos + extDataLen)
    end
  else Some [].

Definition parseClientHelloRecord (record : bytes) : option bytes :=
  if bool_decide (len record < 4) then Some [] else
  handshake ← idx record 0;
  if negb (bool_decide (handshake = 1)) then Some [] else
  l1 ← idx record 1; l2 ← idx record 2; l3 ← idx record 3;
  let hsLen := Z.lor (Z.lor (Z.shiftl l1 16) (Z.shiftl l2 8)) l3 in
  if bool_decide (len record - 4 < hsLen) then Some [] else
  let pos := 4 in
  if bool_decide (4 + hsLen < pos + 34) then Some [] else
  let pos := pos + 34 in
  if bool_decide (len record ≤ pos) then Some [] else
  sidLen ← idx record pos;
  let pos := pos + (1 + sidLen) in
  if bool_decide (len record < pos + 2) then Some [] else
  csLen ← be16 record pos;
  let pos := pos + (2 + csLen) in
  if bool_decide (len record ≤ pos) then Some [] else
  compLen ← idx record pos;
  let pos := pos + (1 + compLen) in
  if bool_decide (len record < pos + 2) then Some [] else
  extLen ← be16 record pos;
  let pos := pos + 2 in
  let stop := if bool_decide (len record < pos + extLen) then len record else pos + extLen in
  extensions_loop record stop (length record) pos.

(** The loop over the records of the buffer; every iteration advances. *)
Fixpoint records_loop (buffer : bytes) (fuel : nat) (offset : Z) : option bytes :=
  if bool_decide (offset + 5 ≤ len buffer) then
    match fuel with
    | O => None
    | S fuel =>
        contentType ← idx buffer offset;
        if negb (bool_decide (contentType = 0x16)) then records_loop buffer fuel (offset + 1) else
        version ← be16 buffer (offset + 1);
        if bool_decide (version < 0x0301) then records_loop buffer fuel (offset + 1) else
        recordLen ← be16 buffer (offset + 3);
        if bool_decide (recordLen ≤ 0) || bool_decide (16384 < recordLen)
        then records_loop buffer fuel (offset + 1) else
        if bool_decide (len buffer < offset + 5 + recordLen) then Some [] else
        record ← slice buffer (offset + 5) (offset + 5 + recordLen);
        sni ← parseClientHelloRecord record;
        if bool_decide (sni ≠ []) then Some sni
        else records_loop buffer fuel (offset + (5 + recordLen))
    end
  else Some [].

Definition parseTLSClientHelloSNI (buffer : bytes) : option bytes :=
  records_loop buffer (length buffer) 0.

(** ** QUIC *)

Definition IsQUICInitial (data : bytes) : option bool :=
  if bool_decide (len data < 20) then Some false else
  first ← idx data 0;
  if bool_decide (Z.land first 0x80 = 0) || bool_decide (Z.land first 0x40 = 0) then Some false else
  let packetType := Z.shiftr (Z.land first 0x30) 4 in
  if negb (bool_decide (packetType = 0)) then Some false else
  version ← be32 data 1;
  Some (bool_decide (version = 1)).

(** ** The encrypted tunnel heuristic

    The code computes averages in [float64] and compares them with constants.
    Here they are fractions, compared by cross-multiplication: division and
    rounding are monotone, and for payloads shorter than 2^40 bytes two
    different fractions differ by more than the rounding, so each comparison
    has the same outcome. *)
Definition fraction : Type := Z * Z.
Definition frac_ge (x : fraction) (p q : Z) : bool := bool_decide (p * x.2 ≤ q * x.1).
Definition frac_le (x : fraction) (p q : Z) : bool := bool_decide (q * x.1 ≤ p * x.2).
Definition frac_gt (x : fraction) (p q : Z) : bool := bool_decide (p * x.2 < q * x.1).

(** [for value := b; value != 0; value >>= 1]; a byte is 0 after 8 shifts. *)
Fixpoint bits_loop (fuel : nat) (value count : Z) : Z :=
  match fuel with
  | O => count
  | S fuel =>
      if bool_decide (value = 0) then count
      else bits_loop fuel (Z.shiftr value 1) (count + Z.land value 1)
  end.
Definition bitsInByte (b : Z) : Z := bits_loop 8 b 0.

Definition calcAvgPopcount (data : bytes) : fraction :=
  (foldl (λ total b, total + bitsInByte b) 0 data, len data).

Definition calcPrintableRatio (data : bytes) : fraction :=
  (100 * foldl (λ count b, if bool_decide (0x20 ≤ b) && bool_decide (b ≤ 0x7e)
                           then count + 1 else count) 0 data, len data).

(** [counter] is the array of the 256 byte counts. *)
Definition count_bytes (data : bytes) : list Z :=
  foldl (λ counter b, alter (λ n, n + 1) (Z.to_nat b) counter) (replicate 256 0) data.
Definition unique_bytes (data : bytes) : Z :=
  foldl (λ unique count, if bool_decide (0 < count) then unique + 1 else unique) 0 (count_bytes data).

Definition isUniformDistribution (data : bytes) : bool :=
  if bool_decide (len data < 20) then false
  else bool_decide (15 ≤ unique_bytes data) && frac_gt (unique_bytes data, len data) 3 10.

Definition hasProtocolStructure (data : bytes) : option bool :=
  if bool_decide (len data < 4) then Some false else
  b0 ← idx data 0; b1 ← idx data 1; b2 ← idx data 2; b3 ← idx data 3;
  let same := (if bool_decide (b1 = b0) then 1 else 0) +
              (if bool_decide (b2 = b0) then 1 else 0) +
              (if bool_decide (b3 = b0) then 1 else 0) in
  if bool_decide (2 ≤ same) then Some true
  else Some (bool_decide (b1 = wrap_byte (b0 + 1)) && bool_decide (b2 = wrap_byte (b1 + 1))).

Definition isKnownProtocol (data : bytes) : option bool :=
  if bool_decide (len data < 5) then Some false else
  if has_prefix (bytes_of_string "SSH-") data then Some true else
  b0 ← idx data 0; b1 ← idx data 1; b4 ← idx data 4;
  if bool_decide (3 ≤ len data) && bool_decide (b0 = 0x03) && bool_decide (b1 = 0x00) then Some true else
  if has_prefix [0x4a; 0x00; 0x00; 0x00; 0x0a] data then Some true else
  if bool_decide (8 ≤ len data) && bool_decide (b0 = 0x12) && bool_decide (b1 = 0x01) then Some true else
  Some (bool_decide (8 ≤ len data) && bool_decide (b0 = 0x00) && bool_decide (b4 = 0x00)).

Definition looksLikeTLS (data : bytes) : option bool :=
  if bool_decide (len data < 3) then Some false else
  b0 ← idx data 0; b1 ← idx data 1; b2 ← idx data 2;
  Some (bool_decide (0x14 ≤ b0) && bool_decide (b0 ≤ 0x17) && bool_decide (b1 = 0x03) &&
        bool_decide (b2 ≤ 0x04)).

Definition isLikelyEncryptedTunnel (data : bytes) : option bool :=
  let avgPop := calcAvgPopcount data in
  let printableRatio := calcPrintableRatio data in
  if frac_ge avgPop 34 10 && frac_le avgPop 46 10 && frac_le printableRatio 35 1 &&
     isUniformDistribution data then
    b0 ← idx data 0;
    if bool_decide (b0 = 0x00) then Some false else
    structured ← hasProtocolStructure data;
    if structured : bool then Some false else
    known ← isKnownProtocol data;
    Some (negb known)
  else Some false.

(** ** Lemmas: scanning *)

Lemma advance_loop_spec p data limit fuel i :
  0 ≤ i → limit ≤ len data → (Z.to_nat (limit - i) ≤ fuel)%nat →
  ∃ j, advance_loop p data limit fuel i = Some j ∧ i ≤ j ≤ Z.max i limit ∧
       (∀ k b, i ≤ k < j → idx data k = Some b → p b = true).
Proof.
  revert i. induction fuel as [|fuel IH]; intros i Hi Hlim Hfuel; simpl; case_bool_decide; try lia;
    try (eexists; split; [done|split; [lia|intros; lia]]).
  destruct (idx_is_Some data i) as [b Hb]; [lia|]. rewrite Hb. simpl.
  destruct (p b) eqn:Hp; [|eexists; split; [done|split; [lia|intros; lia]]].
  destruct (IH (i + 1)) as (j & -> & Hj & Hall); [lia..|].
  exists j. split; [done|]. split; [lia|]. intros k c Hk Hc.
  destruct (decide (k = i)) as [->|]; [congruence|]. eapply Hall; [|done]. lia.
Qed.

Lemma advance_spec p data i limit :
  0 ≤ i → limit ≤ len data →
  ∃ j, advance p data i limit = Some j ∧ i ≤ j ≤ Z.max i limit ∧
       (∀ k b, i ≤ k < j → idx data k = Some b → p b = true).
Proof. intros. by apply advance_loop_spec. Qed.

(** Scanning a run of bytes that satisfy [p], up to the limit or to a byte
    that does not. *)
Lemma advance_loop_run p data limit fuel i run rest :
  at_pos data i (run ++ rest) → Forall (λ b, p b = true) run →
  i + len run ≤ limit ≤ len data → (Z.to_nat (limit - i) ≤ fuel)%nat →
  (i + len run < limit → ∃ b rest', rest = b :: rest' ∧ p b = false) →
  advance_loop p data limit fuel i = Some (i + len run).
Proof.
  revert fuel i. induction run as [|x run IH]; intros fuel i Hat Hrun Hlim Hfuel Hstop.
  - destruct fuel; simpl in *; case_bool_decide; lens; try (f_equal; lia).
    destruct Hstop as (b & rest' & -> & Hb); [lia|].
    rewrite (at_pos_idx _ _ _ _ Hat). simpl. rewrite Hb. f_equal. lia.
  - inv Hrun. rewrite len_cons in *. pose proof (len_nonneg run).
    destruct fuel as [|fuel]; [lia|]. simpl. rewrite bool_decide_true by lia.
    rewrite (at_pos_idx _ _ _ _ Hat). simpl. rewrite H1.
    rewrite IH; [f_equal; lia| |done|lia|lia|].
    + eapply at_pos_skip1; [exact Hat|lia].
    + intros. apply Hstop. lia.
Qed.

Lemma advance_run p data i limit run rest :
  at_pos data i (run ++ rest) → Forall (λ b, p b = true) run →
  i + len run ≤ limit ≤ len data →
  (i + len run < limit → ∃ b rest', rest = b :: rest' ∧ p b = false) →
  advance p data i limit = Some (i + len run).
Proof. intros. by eapply advance_loop_run. Qed.

(** ** Lemmas: HTTP *)

(** [hostValueStart] reads inside the line, and answers [-1] or a position
    of the line. *)
Lemma hostValueStart_spec data s e :
  0 ≤ s → e ≤ len data →
  ∃ v, hostValueStart data s e = Some v ∧ (v = -1 ∨ s + 5 ≤ v ≤ e).
Proof.
  intros Hs He. unfold hostValueStart. case_bool_decide; [eauto|].
  destruct (idx_is_Some data s) as [? ->]; [lia|].
  destruct (idx_is_Some data (s + 1)) as [? ->]; [lia|].
  destruct (idx_is_Some data (s + 2)) as [? ->]; [lia|].
  destruct (idx_is_Some data (s + 3)) as [? ->]; [lia|].
  destruct (idx_is_Some data (s + 4)) as [? ->]; [lia|]. simpl.
  repeat (case_match; [by eauto|]).
  destruct (advance_spec is_blank data (s + 5) e) as (j & -> & ? & _); [lia..|].
  eexists. split; [done|]. right. lia.
Qed.

Lemma next_line_spec data limit e :
  0 ≤ e → limit ≤ len data →
  ∃ s, next_line data limit e = Some s ∧ e + 1 ≤ s ≤ e + 2.
Proof.
  intros. unfold next_line. case_bool_decide; [|eexists; split; [done|lia]].
  destruct (idx_is_Some data (e + 1 - 1)) as [? ->]; [lia|].
  destruct (idx_is_Some data (e + 1)) as [? ->]; [lia|]. simpl.
  repeat case_bool_decide; eexists; (split; [done|lia]).
Qed.

(** What a host found in [data] is: a non-empty run of its bytes without
    line ends, blanks and colons. *)
Definition host_of (data host : bytes) : Prop :=
  host = [] ∨
  (∃ p q, data = p ++ host ++ q) ∧
  Forall (λ b, is_line_byte b = true ∧ is_value_byte b = true) host.

Lemma slice_Forall_idx (P : Z → Prop) l a b k :
  slice l a b = Some k → (∀ i x, a ≤ i < b → idx l i = Some x → P x) → Forall P k.
Proof.
  intros Hk HP. pose proof (slice_len _ _ _ _ Hk) as Hlen.
  apply slice_split in Hk as (p & q & -> & Hp).
  apply Forall_lookup_2. intros i x Hx. pose proof (lookup_lt_Some _ _ _ Hx).
  apply (HP (a + Z.of_nat i)); [unfold len in *; lia|].
  rewrite idx_app_r by lia. rewrite idx_app_l by (unfold len in *; lia).
  unfold idx. rewrite bool_decide_false by lia.
  replace (Z.to_nat (a + Z.of_nat i - len p)) with i by lia. done.
Qed.

Lemma host_lines_spec data limit fuel s :
  0 ≤ s → limit ≤ len data → (Z.to_nat (limit - s) ≤ fuel)%nat →
  ∃ host, host_lines data limit fuel s = Some host ∧ host_of data host.
Proof.
  revert s. induction fuel as [|fuel IH]; intros s Hs Hlim Hfuel; simpl; case_bool_decide; try lia;
    try (eexists; split; [done|by left]).
  destruct (advance_spec is_line_byte data s limit) as (e & -> & He & Hline); [lia..|]. simpl.
  destruct (hostValueStart_spec data s e) as (v & -> & Hv); [lia..|]. simpl.
  case_bool_decide as Hv0.
  - destruct (advance_spec is_value_byte data v e) as (w & -> & Hw & Hval); [lia..|]. simpl.
    case_bool_decide; [|eexists; split; [done|by left]].
    rewrite slice_is_Some by lia. eexists. split; [done|]. right.
    pose proof (slice_is_Some data v w ltac:(lia) ltac:(lia)) as Hsl. split.
    + apply slice_split in Hsl as (p & q & ? & _). eauto.
    + eapply slice_Forall_idx; [exact Hsl|]. intros i x Hi Hx.
      split; [eapply Hline|eapply Hval]; eauto; lia.
  - destruct (next_line_spec data limit e) as (s' & -> & ?); [lia..|]. simpl.
    apply IH; lia.
Qed.

Lemma http_limit_spec data :
  ∃ limit, http_limit data = Some limit ∧ 0 ≤ limit ≤ len data ∧ limit ≤ 4096.
Proof.
  unfold http_limit. pose proof (len_nonneg data).
  set (n := if bool_decide (4096 < len data) then 4096 else len data).
  assert (0 ≤ n ≤ len data ∧ n ≤ 4096) as [? ?] by (unfold n; case_bool_decide; lia).
  pose proof (slice_is_Some data 0 n ltac:(lia) ltac:(lia)) as Hsl.
  rewrite Hsl. simpl. apply slice_len in Hsl. eexists. split; [done|].
  pose proof (index_range (take (Z.to_nat (n - 0)) (drop (Z.to_nat 0) data)) crlf2) as Hi.
  change (len crlf2) with 4 in Hi. simpl in *. case_bool_decide; lia.
Qed.

Lemma ParseHTTPHost_total data : ∃ host, ParseHTTPHost data = Some host.
Proof.
  unfold ParseHTTPHost. case_match; [eauto|].
  destruct (http_limit_spec data) as (limit & -> & ? & ?). simpl.
  destruct (host_lines_spec data limit (Z.to_nat limit) 0) as (host & -> & _); [lia..|]. eauto.
Qed.

(** [ParseHTTPHost] never panics and always returns, on any payload; what
    it returns is empty or a contiguous run of payload bytes without line
    ends, blanks or colons. *)
Theorem ParseHTTPHost_sound (data : bytes) :
  ∃ host, ParseHTTPHost data = Some host ∧ host_of data host.
Proof.
  unfold ParseHTTPHost. case_match; [eexists; split; [done|by left]|].
  destruct (http_limit_spec data) as (limit & -> & ? & ?). simpl.
  apply host_lines_spec; lia.
Qed.

(** *** Requests as a client writes them *)

Definition crlf : bytes := [13; 10].
Definition render_lines (ls : list bytes) : bytes := ls ≫= λ l, l ++ crlf.

(** A header line other than Host: non-empty, without line ends, and not
    beginning with [host:] in any case. *)
Definition host_name (l : bytes) : bool :=
  match l with
  | h :: o :: s :: t :: c :: _ =>
      equalFoldByte h 104 && equalFoldByte o 111 && equalFoldByte s 115 && equalFoldByte t 116 &&
      bool_decide (c = 58)
  | _ => false
  end.
Definition line_ok (l : bytes) : Prop := l ≠ [] ∧ Forall (λ b, is_line_byte b = true) l.

(** [name], blanks, the host and what follows it on the line: nothing, or a
    blank or colon and the rest. *)
Record host_line := HostLine {
  hl_name : bytes; hl_blanks : bytes; hl_host : bytes; hl_tail : bytes }.
Definition render_host_line (h : host_line) : bytes :=
  hl_name h ++ hl_blanks h ++ hl_host h ++ hl_tail h.
Definition host_line_ok (h : host_line) : Prop :=
  length (hl_name h) = 5%nat ∧ host_name (hl_name h) = true ∧
  Forall (λ b, is_blank b = true) (hl_blanks h) ∧
  hl_host h ≠ [] ∧
  Forall (λ b, is_line_byte b = true ∧ is_value_byte b = true) (hl_host h) ∧
  Forall (λ b, is_line_byte b = true) (hl_tail h) ∧
  match hl_tail h with [] => True | b :: _ => is_value_byte b = false end.

Lemma host_line_line_ok h : host_line_ok h → line_ok (render_host_line h).
Proof.
  intros (Hn & Hname & Hb & Hh & Hhost & Ht & _). unfold render_host_line. split.
  { destruct (hl_name h); done. }
  repeat apply Forall_app_2; [| | |done].
  - destruct (hl_name h) as [|n0 [|n1 [|n2 [|n3 [|n4 [|]]]]]]; try done.
    unfold host_name, equalFoldByte, wrap_byte in Hname. unfold is_line_byte.
    bools. repeat constructor; apply andb_true_iff;
      rewrite !negb_true_iff, !bool_decide_eq_false;
      split; intros ->; simpl in *; congruence.
  - eapply Forall_impl; [done|]. intros b. unfold is_blank, is_line_byte.
    repeat case_bool_decide; try done; lia.
  - eapply Forall_impl; [done|]. by intros b [? ?].
Qed.

(** The blank line is not found before the end of the last line. *)
Lemma index_from_line l rest i :
  Forall (λ b, is_line_byte b = true) l →
  index_from crlf2 (l ++ rest) i = index_from crlf2 rest (i + len l).
Proof.
  intros Hl. revert i. induction Hl as [|b l Hb Hl IH]; intros i; simpl.
  { f_equal. rewrite len_nil. lia. }
  unfold is_line_byte in Hb. bools.
  rewrite (bool_decide_false (13 = b)) by lia. simpl. rewrite IH, len_cons. f_equal. lia.
Qed.

Lemma index_from_crlf l rest i :
  line_ok l → index_from crlf2 (crlf ++ l ++ rest) i = index_from crlf2 (l ++ rest) (i + 2).
Proof.
  intros [Hne Hl]. destruct l as [|b l]; [done|]. inv Hl. unfold is_line_byte in *. bools.
  simpl. rewrite (bool_decide_false (13 = b)) by lia. simpl.
  replace (i + 1 + 1) with (i + 2) by lia. done.
Qed.

Lemma index_from_lines ls last rest i :
  Forall line_ok ls → line_ok last →
  index_from crlf2 (render_lines ls ++ last ++ rest) i =
  index_from crlf2 rest (i + len (render_lines ls ++ last)).
Proof.
  intros Hls Hlast. revert i. induction Hls as [|l ls Hl Hls IH]; intros i.
  { change (render_lines []) with (@nil Z). rewrite !app_nil_l. by apply index_from_line, Hlast. }
  cbn [render_lines mbind list_bind]. fold (render_lines ls).
  rewrite <-!app_assoc. rewrite index_from_line by apply Hl.
  transitivity (index_from crlf2 (render_lines ls ++ last ++ rest) (i + len l + 2)).
  - destruct Hls as [|l' ls' Hl' Hls'].
    + change (render_lines []) with (@nil Z). rewrite app_nil_l. by apply index_from_crlf.
    + cbn [render_lines mbind list_bind]. rewrite <-!app_assoc. by apply index_from_crlf.
  - rewrite IH. f_equal. rewrite !len_app. change (len crlf) with 2. lia.
Qed.

Lemma http_limit_lines ls last rest :
  Forall line_ok ls → line_ok last → len (render_lines ls ++ last) ≤ 4096 →
  ∃ limit, http_limit (render_lines ls ++ last ++ rest) = Some limit ∧
           len (render_lines ls ++ last) ≤ limit ≤ len (render_lines ls ++ last ++ rest).
Proof.
  intros Hls Hlast Hlen. rewrite app_assoc. set (body := render_lines ls ++ last) in *.
  destruct (http_limit_spec (body ++ rest)) as (limit & Hlimit & ? & ?).
  exists limit. split; [done|]. split; [|lia].
  unfold http_limit in Hlimit. revert Hlimit.
  set (n := if bool_decide (4096 < len (body ++ rest)) then 4096 else len (body ++ rest)).
  assert (len body ≤ n ≤ len (body ++ rest)) as Hn.
  { unfold n. case_bool_decide; lens. }
  pose proof (len_nonneg body).
  rewrite slice_is_Some by lia. simpl. rewrite drop_0.
  rewrite take_app_ge by (unfold len in *; lia).
  set (rest' := take _ rest). intros [= <-].
  unfold index, body. rewrite <-app_assoc, index_from_lines by done. fold body.
  pose proof (index_from_range crlf2 rest' (0 + len body)).
  clear H H0. case_bool_decide; lia.
Qed.

Lemma line_advance data s l rest limit :
  at_pos data s (l ++ crlf ++ rest) → Forall (λ b, is_line_byte b = true) l →
  s + len l ≤ limit ≤ len data →
  advance is_line_byte data s limit = Some (s + len l).
Proof. intros. eapply advance_run; eauto. Qed.

(** A line that is not a Host header has no value. *)
Lemma hostValueStart_other data s l rest :
  at_pos data s (l ++ rest) → host_name l = false →
  hostValueStart data s (s + len l) = Some (-1).
Proof.
  intros Hat Hname. unfold hostValueStart. case_bool_decide as H5; [done|].
  destruct l as [|b0 [|b1 [|b2 [|b3 [|b4 l]]]]]; try (exfalso; lens; fail).
  simpl in Hat, Hname.
  pose proof (at_pos_skip1 _ _ (s + 1) _ _ Hat ltac:(lia)) as Hat1.
  pose proof (at_pos_skip1 _ _ (s + 2) _ _ Hat1 ltac:(lia)) as Hat2.
  pose proof (at_pos_skip1 _ _ (s + 3) _ _ Hat2 ltac:(lia)) as Hat3.
  pose proof (at_pos_skip1 _ _ (s + 4) _ _ Hat3 ltac:(lia)) as Hat4.
  rewrite (at_pos_idx _ _ _ _ Hat), (at_pos_idx _ _ _ _ Hat1), (at_pos_idx _ _ _ _ Hat2),
    (at_pos_idx _ _ _ _ Hat3), (at_pos_idx _ _ _ _ Hat4). simpl.
  destruct (equalFoldByte b0 104), (equalFoldByte b1 111), (equalFoldByte b2 115),
    (equalFoldByte b3 116), (bool_decide (b4 = 58)); done.
Qed.

(** The value of a Host header starts after the blanks. *)
Lemma hostValueStart_host data s h rest :
  at_pos data s (render_host_line h ++ rest) → host_line_ok h →
  hostValueStart data s (s + len (render_host_line h)) =
  Some (s + 5 + len (hl_blanks h)).
Proof.
  intros Hat (Hn & Hname & Hb & Hh & Hhost & Ht & _).
  pose proof (at_pos_len _ _ _ Hat) as Hlen.
  unfold hostValueStart, render_host_line in *.
  destruct (hl_name h) as [|b0 [|b1 [|b2 [|b3 [|b4 [|]]]]]]; try done.
  rewrite bool_decide_false by lens. rewrite <-!app_assoc in Hat. simpl in Hat, Hname.
  pose proof (at_pos_skip1 _ _ (s + 1) _ _ Hat ltac:(lia)) as Hat1.
  pose proof (at_pos_skip1 _ _ (s + 2) _ _ Hat1 ltac:(lia)) as Hat2.
  pose proof (at_pos_skip1 _ _ (s + 3) _ _ Hat2 ltac:(lia)) as Hat3.
  pose proof (at_pos_skip1 _ _ (s + 4) _ _ Hat3 ltac:(lia)) as Hat4.
  pose proof (at_pos_skip1 _ _ (s + 5) _ _ Hat4 ltac:(lia)) as Hat5.
  rewrite (at_pos_idx _ _ _ _ Hat), (at_pos_idx _ _ _ _ Hat1), (at_pos_idx _ _ _ _ Hat2),
    (at_pos_idx _ _ _ _ Hat3), (at_pos_idx _ _ _ _ Hat4). simpl.
  repeat (apply andb_true_iff in Hname as [Hname ->]). rewrite Hname. simpl.
  eapply advance_run; [exact Hat5|done|lens|]. intros _.
  destruct (hl_host h) as [|x host]; [done|]. inv Hhost. eexists _, _. split; [done|].
  destruct H1 as [_ Hx]. unfold is_value_byte in Hx. unfold is_blank.
  by destruct (bool_decide (x = 32)), (bool_decide (x = 9)).
Qed.

Lemma host_lines_other data limit fuel s l rest :
  at_pos data s (l ++ crlf ++ rest) → line_ok l → host_name l = false →
  s + len l + 2 < limit ≤ len data → (Z.to_nat (limit - s) ≤ S fuel)%nat →
  host_lines data limit (S fuel) s = host_lines data limit fuel (s + len l + 2).
Proof.
  intros Hat [Hne Hl] Hname Hlim Hfuel. cbn [host_lines].
  assert (0 < len l). { destruct l; [done|lens]. }
  rewrite bool_decide_true by lia.
  rewrite (line_advance _ _ _ _ _ Hat) by (done || lia). simpl.
  rewrite (hostValueStart_other _ _ _ _ Hat) by done. simpl.
  unfold next_line. rewrite bool_decide_true by lia.
  pose proof (at_pos_skip _ _ (s + len l) _ _ Hat ltac:(lia)) as Hcr.
  replace (s + len l + 1 - 1) with (s + len l) by lia.
  rewrite (at_pos_idx _ _ _ _ Hcr). simpl.
  rewrite (at_pos_idx _ (s + len l + 1) 10 rest) by (eapply at_pos_skip1; [exact Hcr|lia]). simpl.
  f_equal. lia.
Qed.

Lemma host_lines_host data limit fuel s h rest :
  at_pos data s (render_host_line h ++ crlf ++ rest) → host_line_ok h →
  s + len (render_host_line h) ≤ limit ≤ len data →
  host_lines data limit (S fuel) s = Some (hl_host h).
Proof.
  intros Hat Hok Hlim. cbn [host_lines].
  destruct (host_line_line_ok h Hok) as [Hne Hl].
  pose proof (at_pos_nonneg _ _ _ Hat).
  assert (0 < len (render_host_line h)). { destruct (render_host_line h); [done|lens]. }
  rewrite bool_decide_true by lia.
  rewrite (line_advance _ _ _ _ _ Hat) by (done || lia). simpl.
  rewrite (hostValueStart_host _ _ _ _ Hat) by done. simpl.
  rewrite bool_decide_true by lens.
  destruct Hok as (Hn & Hname & Hb & Hh & Hhost & Ht & Htail).
  unfold render_host_line in *. rewrite <-!app_assoc in Hat.
  assert (len (hl_name h) = 5) as Hn5 by (unfold len; lia).
  apply (at_pos_skip _ _ (s + 5)) in Hat; [|lia].
  apply (at_pos_skip _ _ (s + 5 + len (hl_blanks h))) in Hat; [|lia].
  assert (0 < len (hl_host h)). { destruct (hl_host h); [done|lens]. }
  rewrite (advance_run _ _ _ _ _ _ Hat); [..|lens|].
  - simpl. rewrite bool_decide_true by lia. by eapply at_pos_slice.
  - eapply Forall_impl; [done|]. by intros b [? ?].
  - intros. destruct (hl_tail h) as [|x tl]; [exfalso; lens|]. simpl. eauto.
Qed.

Lemma host_lines_render data limit fuel s ls h rest :
  at_pos data s (render_lines ls ++ render_host_line h ++ crlf ++ rest) →
  Forall (λ l, line_ok l ∧ host_name l = false) ls → host_line_ok h →
  s + len (render_lines ls ++ render_host_line h) ≤ limit ≤ len data →
  (Z.to_nat (limit - s) ≤ fuel)%nat →
  host_lines data limit fuel s = Some (hl_host h).
Proof.
  intros Hat Hls Hok. revert fuel s Hat.
  assert (0 < len (render_host_line h)).
  { destruct (host_line_line_ok h Hok) as [Hne _]. destruct (render_host_line h); [done|lens]. }
  induction Hls as [|l ls [Hl Hname] Hls IH]; intros fuel s Hat Hlim Hfuel;
    (destruct fuel as [|fuel]; [exfalso; lens|]).
  - change (render_lines []) with (@nil Z) in *. rewrite app_nil_l in *.
    by eapply host_lines_host.
  - cbn [render_lines mbind list_bind] in *. fold (render_lines ls) in *.
    rewrite <-!app_assoc in Hat. rewrite !len_app in Hlim. change (len crlf) with 2 in Hlim.
    erewrite host_lines_other; [|done..|lens|lia].
    apply IH; [|lens|lens].
    rewrite app_assoc in Hat. eapply at_pos_skip; [exact Hat|].
    rewrite len_app. change (len crlf) with 2. lia.
Qed.

(** A request: the request line and headers, the Host line, what follows. *)
Definition render_request (ls : list bytes) (h : host_line) (rest : bytes) : bytes :=
  render_lines ls ++ render_host_line h ++ crlf ++ rest.
Definition request_ok (ls : list bytes) (h : host_line) : Prop :=
  (∃ l ls', ls = l :: ls' ∧ looksLikeHTTP l = true) ∧
  Forall (λ l, line_ok l ∧ host_name l = false) ls ∧ host_line_ok h ∧
  len (render_lines ls ++ render_host_line h) ≤ 4096.

Lemma looksLikeHTTP_app l k : looksLikeHTTP l = true → looksLikeHTTP (l ++ k) = true.
Proof.
  unfold looksLikeHTTP. rewrite !existsb_exists. intros (p & Hp & Hl).
  exists p. split; [done|]. apply has_prefix_spec in Hl as [t ->].
  rewrite <-app_assoc. apply has_prefix_app.
Qed.

Lemma looksLikeHTTP_len l : looksLikeHTTP l = true → 4 ≤ len l.
Proof.
  unfold looksLikeHTTP. rewrite existsb_exists. intros (p & Hp & Hl).
  apply has_prefix_spec in Hl as [t ->]. rewrite len_app. pose proof (len_nonneg t).
  assert (Forall (λ p, 4 ≤ len p) http_prefixes) as Hall by (repeat constructor; vm_compute; done).
  rewrite Forall_forall in Hall. specialize (Hall p).
  rewrite list_elem_of_In in Hall. specialize (Hall Hp). lia.
Qed.

Lemma ParseHTTPHost_request ls h rest :
  request_ok ls h → 16 ≤ len (render_request ls h rest) →
  ParseHTTPHost (render_request ls h rest) = Some (hl_host h).
Proof.
  intros ((l & ls' & -> & Hhttp) & Hls & Hok & Hlen) H16.
  unfold ParseHTTPHost. rewrite bool_decide_false by lia.
  assert (looksLikeHTTP (render_request (l :: ls') h rest) = true) as ->.
  { unfold render_request. cbn [render_lines mbind list_bind]. rewrite <-!app_assoc.
    by apply looksLikeHTTP_app. }
  simpl. pose proof (host_line_line_ok h Hok) as Hline.
  destruct (http_limit_lines (l :: ls') (render_host_line h) (crlf ++ rest))
    as (limit & Heq & Hlimit); [|done..|].
  { eapply Forall_impl; [done|]. by intros ? [? ?]. }
  fold (render_request (l :: ls') h rest) in Heq, Hlimit.
  rewrite Heq. simpl.
  eapply host_lines_render; [apply at_pos_0|done|done|lia|lia].
Qed.

(** every well-formed HTTP request whose Host header ends within the first
    4096 bytes has its host recovered: the value, without the blanks before it
    and without a port or blanks after it, whatever the other headers and the
    body are. *)
Theorem ParseHTTPHost_render ls h rest :
  request_ok ls h → 16 ≤ len (render_request ls h rest) →
  ParseHTTPHost (render_request ls h rest) = Some (hl_host h).
Proof. apply ParseHTTPHost_request. Qed.

Lemma ParseHTTPHost_render_witness :
  request_ok [bytes_of_string "GET / HTTP/1.1"; bytes_of_string "Accept: */*"]
    (HostLine (bytes_of_string "hOsT:") [32] (bytes_of_string "example.com") (bytes_of_string ":8080")) ∧
  ParseHTTPHost (render_request [bytes_of_string "GET / HTTP/1.1"; bytes_of_string "Accept: */*"]
    (HostLine (bytes_of_string "hOsT:") [32] (bytes_of_string "example.com") (bytes_of_string ":8080"))
    (bytes_of_string "body")) = Some (bytes_of_string "example.com").
Proof.
  assert (request_ok [bytes_of_string "GET / HTTP/1.1"; bytes_of_string "Accept: */*"]
    (HostLine (bytes_of_string "hOsT:") [32] (bytes_of_string "example.com")
       (bytes_of_string ":8080"))) as H.
  { split; [by eexists _, _|]. split; [|split].
    - repeat constructor; done.
    - repeat split; done || (repeat constructor; done).
    - vm_compute. done. }
  split; [exact H|].
  apply (ParseHTTPHost_render _ _ _ H). vm_compute. done.
Defined.

(** ** Lemmas: TLS *)

Definition infix (k l : bytes) : Prop := ∃ p q, l = p ++ k ++ q.

Lemma slice_infix l k a b : slice l a b = Some k → infix k l.
Proof. intros (p & q & ? & _)%slice_split. by exists p, q. Qed.

Lemma infix_trans a b c : infix a b → infix b c → infix a c.
Proof.
  intros (p & q & ->) (p' & q' & ->). exists (p' ++ p), (q ++ q'). by rewrite !app_assoc.
Qed.

Lemma infix_nil l : infix [] l.
Proof. by exists [], l. Qed.

Lemma infix_bytes k l : infix k l → Forall is_byte l → Forall is_byte k.
Proof. intros (p & q & ->) [_ [? _]%Forall_app]%Forall_app. done. Qed.

#[export] Hint Resolve infix_nil slice_infix : meow.

Lemma parseSNIExtension_spec data :
  Forall is_byte data → ∃ sni, parseSNIExtension data = Some sni ∧ infix sni data.
Proof.
  intros Hb. unfold parseSNIExtension. case_bool_decide; [eauto with meow|].
  destruct (be16_is_Some data 0) as [n Hn]; [lia..|]. rewrite Hn. simpl.
  pose proof (be16_range _ _ _ Hb Hn).
  set (stop := if bool_decide (len data < 2 + n) then len data else 2 + n).
  assert (stop ≤ len data) by (unfold stop; case_bool_decide; lia).
  case_bool_decide; [eauto with meow|].
  destruct (idx_is_Some data 2) as [t ->]; [lia|]. simpl.
  destruct (be16_is_Some data (2 + 1)) as [m Hm]; [lia..|]. rewrite Hm. simpl.
  case_match eqn:E; [|eauto with meow]. bools.
  rewrite slice_is_Some by lia. eexists. split; [done|].
  eapply slice_infix, slice_is_Some; lia.
Qed.

Lemma extensions_loop_spec record stop fuel pos :
  Forall is_byte record → 0 ≤ pos → stop ≤ len record → (Z.to_nat (stop - pos) ≤ fuel)%nat →
  ∃ sni, extensions_loop record stop fuel pos = Some sni ∧ infix sni record.
Proof.
  intros Hb. revert pos. induction fuel as [|fuel IH]; intros pos Hpos Hstop Hfuel; simpl;
    case_bool_decide; eauto with meow; try lia.
  destruct (be16_is_Some record pos) as [t ->]; [lia..|]. simpl.
  destruct (be16_is_Some record (pos + 2)) as [n Hn]; [lia..|]. rewrite Hn. simpl.
  pose proof (be16_range _ _ _ Hb Hn).
  repeat case_bool_decide; eauto with meow; [|apply IH; lia].
  pose proof (slice_is_Some record (pos + 4) (pos + 4 + n) ltac:(lia) ltac:(lia)) as Hsl.
  rewrite Hsl. simpl. apply slice_infix in Hsl.
  destruct (parseSNIExtension_spec _ (infix_bytes _ _ Hsl Hb)) as (sni & -> & ?).
  eexists. split; [done|]. by eapply infix_trans.
Qed.

Lemma parseClientHelloRecord_spec record :
  Forall is_byte record → ∃ sni, parseClientHelloRecord record = Some sni ∧ infix sni record.
Proof.
  intros Hb. unfold parseClientHelloRecord.
  case_bool_decide; [eauto with meow|].
  destruct (idx_is_Some record 0) as [h ->]; [lia|]. simpl.
  destruct (negb _); [eauto with meow|].
  destruct (idx_is_Some record 1) as [l1 ->]; [lia|].
  destruct (idx_is_Some record 2) as [l2 ->]; [lia|].
  destruct (idx_is_Some record 3) as [l3 ->]; [lia|]. simpl.
  do 3 (case_bool_decide; [eauto with meow|]).
  destruct (idx_is_Some record (4 + 34)) as [sid Hsid]; [lia|]. rewrite Hsid. simpl.
  pose proof (idx_byte _ _ _ Hb Hsid) as [? ?]. case_bool_decide; [eauto with meow|].
  destruct (be16_is_Some record (4 + 34 + (1 + sid))) as [cs Hcs]; [lia..|]. rewrite Hcs. simpl.
  pose proof (be16_range _ _ _ Hb Hcs). case_bool_decide; [eauto with meow|].
  destruct (idx_is_Some record (4 + 34 + (1 + sid) + (2 + cs))) as [cm Hcm]; [lia|]. rewrite Hcm. simpl.
  pose proof (idx_byte _ _ _ Hb Hcm) as [? ?]. case_bool_decide; [eauto with meow|].
  destruct (be16_is_Some record (4 + 34 + (1 + sid) + (2 + cs) + (1 + cm))) as [e He]; [lia..|].
  rewrite He. simpl. pose proof (be16_range _ _ _ Hb He).
  apply extensions_loop_spec; [done|lia|case_bool_decide; lia|].
  unfold len in *. case_bool_decide; lia.
Qed.

Lemma records_loop_spec buffer fuel offset :
  Forall is_byte buffer → 0 ≤ offset → (Z.to_nat (len buffer - offset) ≤ fuel)%nat →
  ∃ sni, records_loop buffer fuel offset = Some sni ∧ infix sni buffer.
Proof.
  intros Hb. revert offset. induction fuel as [|fuel IH]; intros o Ho Hfuel; simpl;
    case_bool_decide; eauto with meow; try lia.
  destruct (idx_is_Some buffer o) as [c ->]; [lia|]. simpl.
  destruct (negb _); [apply IH; lia|].
  destruct (be16_is_Some buffer (o + 1)) as [v ->]; [lia..|]. simpl.
  case_bool_decide; [apply IH; lia|].
  destruct (be16_is_Some buffer (o + 3)) as [n Hn]; [lia..|]. rewrite Hn. simpl.
  case_match eqn:E; [apply IH; lia|]. bools. case_bool_decide; [eauto with meow|].
  pose proof (slice_is_Some buffer (o + 5) (o + 5 + n) ltac:(lia) ltac:(lia)) as Hsl.
  rewrite Hsl. simpl. apply slice_infix in Hsl.
  destruct (parseClientHelloRecord_spec _ (infix_bytes _ _ Hsl Hb)) as (sni & -> & ?). simpl.
  case_bool_decide; [|apply IH; lia].
  eexists. split; [done|]. by eapply infix_trans.
Qed.

(** C33: on any byte buffer, of any length and content, the ClientHello parser
    neither panics nor loops, and the server name it returns is a contiguous
    run of the buffer's bytes. *)
Theorem parseTLSClientHelloSNI_sound (buffer : bytes) :
  Forall is_byte buffer → ∃ sni, parseTLSClientHelloSNI buffer = Some sni ∧ infix sni buffer.
Proof. intros. apply records_loop_spec; [done|lia|unfold len; lia]. Qed.

Lemma parseTLSClientHelloSNI_sound_witness :
  ∃ sni, parseTLSClientHelloSNI [0x16; 3; 1; 0; 4; 1; 255; 255; 255] = Some sni ∧
         infix sni [0x16; 3; 1; 0; 4; 1; 255; 255; 255].
Proof.
  apply parseTLSClientHelloSNI_sound. repeat constructor; done.
Defined.

(** *** ClientHello messages as a client writes them (RFC 8446 and RFC 6066) *)

Record client_hello := ClientHello {
  ch_record_version : Z;
  ch_version : bytes;
  ch_random : bytes;
  ch_session : bytes;
  ch_suites : bytes;
  ch_compression : bytes;
  ch_before : list (Z * bytes);
  ch_sni : bytes;
  ch_after : list (Z * bytes) }.

Definition encode_ext (e : Z * bytes) : bytes := enc16 e.1 ++ enc16 (len e.2) ++ e.2.
Definition encode_exts (es : list (Z * bytes)) : bytes := es ≫= encode_ext.
Definition encode_sni (name : bytes) : bytes :=
  enc16 (3 + len name) ++ [0] ++ enc16 (len name) ++ name.
Definition all_exts (h : client_hello) : bytes :=
  encode_exts (ch_before h) ++ encode_ext (0, encode_sni (ch_sni h)) ++ encode_exts (ch_after h).
Definition encode_body (h : client_hello) : bytes :=
  ch_version h ++ ch_random h ++ [len (ch_session h)] ++ ch_session h ++
  enc16 (len (ch_suites h)) ++ ch_suites h ++ [len (ch_compression h)] ++ ch_compression h ++
  enc16 (len (all_exts h)) ++ all_exts h.
Definition encode_handshake (h : client_hello) : bytes :=
  [1] ++ enc24 (len (encode_body h)) ++ encode_body h.
Definition encode_hello (h : client_hello) : bytes :=
  [0x16] ++ enc16 (ch_record_version h) ++ enc16 (len (encode_handshake h)) ++ encode_handshake h.

Definition client_hello_ok (h : client_hello) : Prop :=
  0x0301 ≤ ch_record_version h < 65536 ∧
  len (ch_version h) = 2 ∧ len (ch_random h) = 32 ∧
  Forall (λ e, e.1 ≠ 0) (ch_before h) ∧ ch_sni h ≠ [] ∧
  len (encode_handshake h) ≤ 16384.

Lemma parseSNIExtension_encode name :
  name ≠ [] → parseSNIExtension (encode_sni name) = Some name.
Proof.
  intros Hne. unfold parseSNIExtension.
  assert (0 < len name) by (destruct name; [done|lens]).
  assert (len (encode_sni name) = 5 + len name) as Hlen.
  { unfold encode_sni. rewrite !len_app, !enc16_len. change (len [0]) with 1. lia. }
  pose proof (at_pos_0 (encode_sni name)) as H0. unfold encode_sni in H0 at 2.
  generalize dependent (encode_sni name). intros e Hlen H0.
  rewrite Hlen, bool_decide_false by lia.
  rewrite (at_pos_enc16 _ _ _ _ H0). simpl.
  pose proof (at_pos_skip _ _ 2 _ _ H0 ltac:(done)) as H2.
  rewrite (bool_decide_false (5 + len name < 2 + (3 + len name))) by lia.
  rewrite bool_decide_false by lia.
  rewrite (at_pos_idx _ _ _ _ H2). simpl.
  pose proof (at_pos_skip1 _ _ (2 + 1) _ _ H2 ltac:(done)) as H3.
  rewrite (at_pos_enc16 _ _ _ _ H3). simpl.
  rewrite !bool_decide_true by lia. simpl.
  pose proof (at_pos_skip _ _ (2 + 3) _ _ H3 ltac:(done)) as H5.
  rewrite <-(app_nil_r name) in H5. by eapply at_pos_slice.
Qed.

Lemma encode_ext_len e : len (encode_ext e) = 4 + len e.2.
Proof. unfold encode_ext. rewrite !len_app, !enc16_len. lia. Qed.

Lemma extensions_loop_encode record stop fuel pos before name after rest :
  at_pos record pos (encode_exts before ++ encode_ext (0, encode_sni name) ++ after ++ rest) →
  Forall (λ e : Z * bytes, e.1 ≠ 0) before → name ≠ [] →
  stop = pos + len (encode_exts before ++ encode_ext (0, encode_sni name) ++ after) →
  (Z.to_nat (stop - pos) ≤ fuel)%nat →
  extensions_loop record stop fuel pos = Some name.
Proof.
  intros Hat Hbefore Hne Hstop. revert fuel pos Hat Hstop.
  induction Hbefore as [|[t d] before Ht _ IH]; intros fuel pos Hat Hstop Hfuel;
    (destruct fuel as [|fuel]; [exfalso; rewrite !len_app, !encode_ext_len in Hstop; lens|]).
  - cbn [encode_exts mbind list_bind] in *. rewrite app_nil_l in *.
    rewrite len_app, encode_ext_len in Hstop. cbn [snd] in Hstop.
    unfold encode_ext in Hat. cbn [fst snd] in Hat. rewrite <-!app_assoc in Hat.
    cbn [extensions_loop]. rewrite bool_decide_true by lens.
    rewrite (at_pos_enc16 _ _ _ _ Hat). simpl.
    apply (at_pos_skip _ _ (pos + 2)) in Hat; [|done].
    rewrite (at_pos_enc16 _ _ _ _ Hat). simpl.
    apply (at_pos_skip _ _ (pos + 4)) in Hat; [|rewrite enc16_len; lia].
    rewrite bool_decide_false by lens.
    erewrite at_pos_slice by (exact Hat || lia). simpl. by apply parseSNIExtension_encode.
  - cbn [encode_exts mbind list_bind] in *. fold (encode_exts before) in *.
    rewrite <-!app_assoc in Hat. rewrite <-app_assoc, len_app, encode_ext_len in Hstop.
    cbn [snd] in Hstop. pose proof (len_nonneg d).
    pose proof (len_nonneg (encode_exts before ++ encode_ext (0, encode_sni name) ++ after)).
    cbn [extensions_loop]. rewrite bool_decide_true by lia.
    unfold encode_ext in Hat at 1. cbn [fst snd] in Hat. rewrite <-!app_assoc in Hat.
    rewrite (at_pos_enc16 _ _ _ _ Hat). simpl.
    apply (at_pos_skip _ _ (pos + 2)) in Hat; [|done].
    rewrite (at_pos_enc16 _ _ _ _ Hat). simpl.
    apply (at_pos_skip _ _ (pos + 4)) in Hat; [|rewrite enc16_len; lia].
    rewrite bool_decide_false by lia. rewrite bool_decide_false by done.
    apply (at_pos_skip _ _ (pos + 4 + len d)) in Hat; [|done].
    apply IH; [done|lia|lia].
Qed.

Lemma parseClientHelloRecord_encode h :
  client_hello_ok h → parseClientHelloRecord (encode_handshake h) = Some (ch_sni h).
Proof.
  intros (Hver & Hv & Hr & Hbefore & Hne & Hsmall). unfold parseClientHelloRecord.
  pose proof (at_pos_0 (encode_handshake h)) as Hat. unfold encode_handshake in Hat at 2.
  assert (len (encode_handshake h) = 4 + len (encode_body h)) as Hlen.
  { unfold encode_handshake. rewrite !len_app, enc24_len. change (len [1]) with 1. lia. }
  assert (len (encode_body h) = 34 + (1 + len (ch_session h) + (2 + len (ch_suites h)) +
    (1 + len (ch_compression h)) + (2 + len (all_exts h)))) as Hbody.
  { unfold encode_body. rewrite !len_app, !enc16_len, Hv, Hr, !len_cons, !len_nil. lia. }
  pose proof (len_nonneg (ch_session h)). pose proof (len_nonneg (ch_suites h)).
  pose proof (len_nonneg (ch_compression h)). pose proof (len_nonneg (all_exts h)).
  generalize dependent (encode_handshake h). intros r Hsmall Hat Hlen.
  rewrite bool_decide_false by lia.
  rewrite (at_pos_idx _ _ _ _ Hat). simpl.
  apply (at_pos_skip1 _ _ 1) in Hat; [|done]. rewrite (at_pos_idx _ _ _ _ Hat).
  apply (at_pos_skip1 _ _ 2) in Hat; [|done]. rewrite (at_pos_idx _ _ _ _ Hat).
  apply (at_pos_skip1 _ _ 3) in Hat; [|done]. rewrite (at_pos_idx _ _ _ _ Hat). simpl.
  apply (at_pos_skip1 _ _ 4) in Hat; [|done].
  rewrite enc24_value by lia. rewrite !bool_decide_false by lia.
  unfold encode_body in Hat. rewrite app_assoc in Hat.
  apply (at_pos_skip _ _ (4 + 34)) in Hat; [|rewrite len_app; lia].
  rewrite (at_pos_idx _ _ _ _ Hat). simpl. rewrite bool_decide_false by lia.
  apply (at_pos_skip1 _ _ (4 + 34 + 1)) in Hat; [|done].
  apply (at_pos_skip _ _ (4 + 34 + (1 + len (ch_session h)))) in Hat; [|lia].
  rewrite (at_pos_enc16 _ _ _ _ Hat). simpl. rewrite bool_decide_false by lia.
  rewrite app_assoc in Hat.
  apply (at_pos_skip _ _ (4 + 34 + (1 + len (ch_session h)) + (2 + len (ch_suites h)))) in Hat;
    [|rewrite len_app, enc16_len; lia].
  rewrite (at_pos_idx _ _ _ _ Hat). simpl. rewrite bool_decide_false by lia.
  pose proof (at_pos_skip _ _ (4 + 34 + (1 + len (ch_session h)) + (2 + len (ch_suites h)) +
    (1 + len (ch_compression h))) (len (ch_compression h) :: ch_compression h) _ Hat
    ltac:(rewrite len_cons; lia)) as Hext.
  rewrite (at_pos_enc16 _ _ _ _ Hext). simpl. rewrite bool_decide_false by lia.
  eapply extensions_loop_encode; [|exact Hbefore|exact Hne| |unfold len in *; lia].
  - rewrite app_nil_r. fold (all_exts h). eapply at_pos_skip; [exact Hext|]. rewrite enc16_len. lia.
  - fold (all_exts h). lia.
Qed.

Lemma encode_hello_len h : len (encode_hello h) = 5 + len (encode_handshake h).
Proof. unfold encode_hello. rewrite !len_app, !enc16_len. change (len [0x16]) with 1. lia. Qed.

Lemma encode_handshake_len h :
  client_hello_ok h → 43 ≤ len (encode_handshake h).
Proof.
  intros (? & Hv & Hr & _). unfold encode_handshake, encode_body.
  rewrite !len_app, !enc16_len, enc24_len, Hv, Hr, !len_cons, !len_nil. lens.
Qed.

(** One step of the record loop at the header of a ClientHello record. *)
Lemma records_loop_header h buffer fuel offset rest :
  client_hello_ok h →
  at_pos buffer offset ([0x16] ++ enc16 (ch_record_version h) ++
                        enc16 (len (encode_handshake h)) ++ rest) →
  records_loop buffer (S fuel) offset =
    (if bool_decide (len buffer < offset + 5 + len (encode_handshake h)) then Some [] else
     record ← slice buffer (offset + 5) (offset + 5 + len (encode_handshake h));
     sni ← parseClientHelloRecord record;
     if bool_decide (sni ≠ []) then Some sni
     else records_loop buffer fuel (offset + (5 + len (encode_handshake h)))).
Proof.
  intros Hok Hat. pose proof (encode_handshake_len h Hok).
  destruct Hok as (Hver & _ & _ & _ & _ & Hsmall).
  pose proof (at_pos_len _ _ _ Hat) as Hlen.
  rewrite !len_app, !enc16_len in Hlen. change (len [0x16]) with 1 in Hlen.
  generalize dependent (len (encode_handshake h)). intros n Hsmall Hat Hn.
  cbn [records_loop]. rewrite bool_decide_true by lens.
  rewrite (at_pos_idx _ _ _ _ Hat). simpl.
  apply (at_pos_skip1 _ _ (offset + 1)) in Hat; [|done].
  rewrite (at_pos_enc16 _ _ _ _ Hat). simpl. rewrite bool_decide_false by lia.
  apply (at_pos_skip _ _ (offset + 3)) in Hat; [|rewrite enc16_len; lia].
  rewrite (at_pos_enc16 _ _ _ _ Hat). simpl.
  by rewrite (bool_decide_false (n ≤ 0)), (bool_decide_false (16384 < n)) by lia.
Qed.

Lemma records_loop_encode h rest fuel :
  client_hello_ok h →
  records_loop (encode_hello h ++ rest) (S fuel) 0 = Some (ch_sni h).
Proof.
  intros Hok. pose proof (encode_hello_len h) as Hlen.
  assert (at_pos (encode_hello h ++ rest) 0 ([0x16] ++ enc16 (ch_record_version h) ++
     enc16 (len (encode_handshake h)) ++ encode_handshake h ++ rest)) as Hat.
  { exists []. by rewrite app_nil_l. }
  erewrite records_loop_header by eauto.
  rewrite bool_decide_false by lens.
  rewrite 2!app_assoc in Hat. apply (at_pos_skip _ _ (0 + 5)) in Hat; [|done].
  erewrite at_pos_slice by (exact Hat || lia). simpl.
  rewrite parseClientHelloRecord_encode by done. simpl.
  rewrite bool_decide_true; [done|]. apply Hok.
Qed.

(** C22: the parser is a left inverse of the ClientHello encoding: for every
    hello with a server name, whatever its session, cipher suites, extensions
    before and after the server name, and whatever follows the record, the
    parser returns exactly that name. *)
Theorem parseTLSClientHelloSNI_encode h rest :
  client_hello_ok h → parseTLSClientHelloSNI (encode_hello h ++ rest) = Some (ch_sni h).
Proof.
  intros Hok. unfold parseTLSClientHelloSNI.
  pose proof (encode_hello_len h). pose proof (len_nonneg (encode_handshake h)).
  destruct (length (encode_hello h ++ rest)) as [|n] eqn:E; [|by apply records_loop_encode].
  rewrite length_app in E. unfold len in *. lia.
Qed.

(** A hello used by the witnesses: GREASE-like extension first, then the name. *)
Definition sample_hello : client_hello :=
  ClientHello 0x0301 [3; 3] (repeat 7 32) (repeat 9 32) [0x13; 0x01] [0]
    [(0x0a0a, []); (0x002b, [2; 3; 4])] (bytes_of_string "meow.example") [(0x0010, [0; 0])].

Lemma sample_hello_ok : client_hello_ok sample_hello.
Proof. repeat split; done || (repeat constructor; done). Qed.

Lemma parseTLSClientHelloSNI_encode_witness :
  client_hello_ok sample_hello ∧
  parseTLSClientHelloSNI (encode_hello sample_hello ++ [1; 2; 3]) = Some (bytes_of_string "meow.example").
Proof.
  split; [repeat split; done || (repeat constructor; done)|].
  apply (parseTLSClientHelloSNI_encode sample_hello [1; 2; 3]).
  repeat split; done || (repeat constructor; done).
Defined.

(** A record that has not arrived completely yields nothing. *)
Lemma parseTLSClientHelloSNI_prefix h k k' :
  client_hello_ok h → encode_hello h = k ++ k' → k' ≠ [] →
  parseTLSClientHelloSNI k = Some [].
Proof.
  intros Hok Hk Hne. unfold parseTLSClientHelloSNI.
  pose proof (encode_hello_len h) as Hlen. rewrite Hk, len_app in Hlen.
  assert (0 < len k') by (destruct k'; [done|lens]).
  destruct (decide (len k < 5)) as [Hs|Hl].
  - destruct (length k); cbn [records_loop]; rewrite bool_decide_false by lia; done.
  - assert (∃ rest, k = ([0x16] ++ enc16 (ch_record_version h) ++
                         enc16 (len (encode_handshake h))) ++ rest) as [rest Hrest].
    { unfold encode_hello in Hk. rewrite 2!app_assoc in Hk.
      exists (drop 5 k). rewrite <-(take_drop 5 k) at 1. f_equal.
      apply (f_equal (take 5)) in Hk. rewrite take_app_length' in Hk by done.
      rewrite take_app_le in Hk by (unfold len in Hl; lia). done. }
    destruct (length k) as [|fuel] eqn:E; [unfold len in *; lia|].
    erewrite (records_loop_header h); [|done|].
    + rewrite bool_decide_true by lia. done.
    + exists []. rewrite app_nil_l. split; [|done]. by rewrite Hrest, <-!app_assoc.
Qed.

(** ** Lemmas: the heuristic *)

Lemma IsQUICInitial_total data : ∃ b, IsQUICInitial data = Some b.
Proof.
  unfold IsQUICInitial. case_bool_decide; [eauto|].
  destruct (idx_is_Some data 0) as [f ->]; [lia|]. simpl.
  destruct (_ || _); [eauto|]. destruct (negb _); [eauto|].
  destruct (be32_is_Some data 1) as [v ->]; [lia..|]. simpl. eauto.
Qed.

Lemma hasProtocolStructure_total data : ∃ b, hasProtocolStructure data = Some b.
Proof.
  unfold hasProtocolStructure. case_bool_decide; [eauto|].
  destruct (idx_is_Some data 0) as [? ->]; [lia|].
  destruct (idx_is_Some data 1) as [? ->]; [lia|].
  destruct (idx_is_Some data 2) as [? ->]; [lia|].
  destruct (idx_is_Some data 3) as [? ->]; [lia|]. cbn [mbind option_bind]. case_match; eauto.
Qed.

Lemma isKnownProtocol_total data : ∃ b, isKnownProtocol data = Some b.
Proof.
  unfold isKnownProtocol. case_bool_decide; [eauto|]. case_match; [eauto|].
  destruct (idx_is_Some data 0) as [? ->]; [lia|].
  destruct (idx_is_Some data 1) as [? ->]; [lia|].
  destruct (idx_is_Some data 4) as [? ->]; [lia|]. cbn [mbind option_bind].
  repeat case_match; eauto.
Qed.

Lemma looksLikeTLS_total data : ∃ b, looksLikeTLS data = Some b.
Proof.
  unfold looksLikeTLS. case_bool_decide; [eauto|].
  destruct (idx_is_Some data 0) as [? ->]; [lia|].
  destruct (idx_is_Some data 1) as [? ->]; [lia|].
  destruct (idx_is_Some data 2) as [? ->]; [lia|]. cbn [mbind option_bind]. eauto.
Qed.

Lemma isLikelyEncryptedTunnel_total data :
  20 ≤ len data → ∃ b, isLikelyEncryptedTunnel data = Some b.
Proof.
  intros. unfold isLikelyEncryptedTunnel. destruct (_ && _); [|eauto].
  destruct (idx_is_Some data 0) as [? ->]; [lia|]. cbn [mbind option_bind].
  case_bool_decide; [eauto|].
  destruct (hasProtocolStructure_total data) as [s ->]. simpl. destruct s; [eauto|].
  destruct (isKnownProtocol_total data) as [k ->]. simpl. eauto.
Qed.

(** The reference meaning of the three statistics. *)
Definition popcount (b : Z) : Z :=
  Z.of_nat (length (filter (λ k, Z.testbit b (Z.of_nat k) = true) (seq 0 8))).
Definition popsum (data : bytes) : Z := foldr Z.add 0 (popcount <$> data).
Definition printable (b : Z) : Prop := 0x20 ≤ b ≤ 0x7e.
Definition distinct (data : bytes) : gset Z := list_to_set data.

Lemma bitsInByte_popcount b : is_byte b → bitsInByte b = popcount b.
Proof.
  intros Hb.
  assert (Forall (λ n, bitsInByte (Z.of_nat n) = popcount (Z.of_nat n)) (seq 0 256)) as Hall.
  { apply Forall_forall. intros n Hn.
    assert (forallb (λ n, bitsInByte (Z.of_nat n) =? popcount (Z.of_nat n)) (seq 0 256) = true)
      as Hf by (vm_compute; done).
    rewrite forallb_forall in Hf. apply list_elem_of_In in Hn. apply Hf in Hn. lia. }
  rewrite Forall_forall in Hall. specialize (Hall (Z.to_nat b)).
  rewrite Z2Nat.id in Hall by (unfold is_byte in Hb; lia). apply Hall.
  apply elem_of_seq. unfold is_byte in Hb. lia.
Qed.

Lemma popcount_fold data n :
  Forall is_byte data → foldl (λ total b, total + bitsInByte b) n data = n + popsum data.
Proof.
  intros Hb. revert n. induction Hb as [|b data Hb _ IH]; intros n; simpl.
  - unfold popsum. simpl. lia.
  - rewrite IH, bitsInByte_popcount by done. change (popsum (b :: data)) with (popcount b + popsum data). lia.
Qed.

Lemma printable_fold data n :
  foldl (λ count b, if bool_decide (0x20 ≤ b) && bool_decide (b ≤ 0x7e) then count + 1 else count)
    n data = n + len (filter printable data).
Proof.
  revert n. induction data as [|b data IH]; intros n; simpl.
  - change (len (filter printable [])) with 0. lia.
  - rewrite IH, filter_cons, <-bool_decide_and.
    case_decide as Hp; unfold printable in Hp.
    + rewrite bool_decide_true, len_cons by lia. lia.
    + rewrite bool_decide_false by lia. done.
Qed.

Lemma count_bytes_fold data counter i :
  Forall is_byte data → length counter = 256%nat → (i < 256)%nat →
  ∃ c, counter !! i = Some c ∧
    foldl (λ counter b, alter (λ n, n + 1) (Z.to_nat b) counter) counter data !! i =
    Some (c + Z.of_nat (count_occ Z.eq_dec data (Z.of_nat i))).
Proof.
  intros Hb. revert counter. induction Hb as [|b data Hb _ IH]; intros counter Hlen Hi; simpl.
  - destruct (lookup_lt_is_Some_2 counter i) as [c Hc]; [lia|]. exists c. split; [done|].
    rewrite Hc. f_equal. lia.
  - destruct (IH (alter (λ n, n + 1) (Z.to_nat b) counter)) as (c & Hc & Hf);
      [by rewrite length_alter|done|].
    unfold is_byte in Hb. rewrite Hf. destruct (Z.eq_dec b (Z.of_nat i)) as [->|Hne].
    + rewrite Nat2Z.id, list_lookup_alter_eq in Hc. apply fmap_Some in Hc as (c0 & Hc0 & ->).
      exists c0. split; [done|]. f_equal. lia.
    + rewrite list_lookup_alter_ne in Hc by lia. eauto.
Qed.

Lemma count_bytes_lookup data i :
  Forall is_byte data → (i < 256)%nat →
  count_bytes data !! i = Some (Z.of_nat (count_occ Z.eq_dec data (Z.of_nat i))).
Proof.
  intros Hb Hi. destruct (count_bytes_fold data (replicate 256 0) i Hb) as (c & Hc & Hf);
    [done..|].
  rewrite lookup_replicate_2 in Hc by done. injection Hc as <-. done.
Qed.

Lemma unique_fold (l : list Z) n :
  foldl (λ unique count, if bool_decide (0 < count) then unique + 1 else unique) n l =
  n + len (filter (λ c, 0 < c) l).
Proof.
  revert n. induction l as [|c l IH]; intros n; simpl;
    [change (len (filter (λ c, 0 < c) [])) with 0; lia|].
  rewrite IH, filter_cons. case_bool_decide; [rewrite decide_True by done|rewrite decide_False by done].
  - rewrite len_cons. lia.
  - done.
Qed.

Lemma foldl_alter_length (data : bytes) (counter : list Z) :
  length (foldl (λ counter b, alter (λ n, n + 1) (Z.to_nat b) counter) counter data) =
  length counter.
Proof.
  revert counter. induction data as [|b data IH]; intros; simpl; [done|].
  by rewrite IH, length_alter.
Qed.

Lemma count_bytes_eq data :
  Forall is_byte data →
  count_bytes data = (λ i, Z.of_nat (count_occ Z.eq_dec data (Z.of_nat i))) <$> seq 0 256.
Proof.
  intros Hb. apply list_eq. intros i. rewrite list_lookup_fmap.
  destruct (decide (i < 256)%nat) as [Hi|Hi].
  - rewrite count_bytes_lookup by done. by rewrite lookup_seq_lt by done.
  - rewrite lookup_ge_None_2 by (unfold count_bytes; rewrite foldl_alter_length, length_replicate; lia).
    rewrite lookup_seq_ge by lia. done.
Qed.

(** The 256 counters count each distinct byte once. *)
Lemma unique_bytes_distinct data :
  Forall is_byte data → unique_bytes data = Z.of_nat (size (distinct data)).
Proof.
  intros Hb. unfold unique_bytes. rewrite unique_fold, count_bytes_eq by done.
  rewrite filter_fmap. unfold len. rewrite length_fmap, Z.add_0_l. f_equal.
  transitivity (size (list_to_set (Z.of_nat <$> filter
    (λ i, 0 < Z.of_nat (count_occ Z.eq_dec data (Z.of_nat i))) (seq 0 256)) : gset Z)).
  - rewrite size_list_to_set, length_fmap; [done|].
    apply NoDup_fmap_2; [intros ???; lia|]. apply NoDup_filter, NoDup_seq.
  - f_equal. apply set_eq. intros b. unfold distinct.
    rewrite !elem_of_list_to_set, list_elem_of_fmap. split.
    + intros (i & -> & Hi). apply list_elem_of_filter in Hi as [Hi _]. simpl in Hi.
      apply list_elem_of_In, (count_occ_In Z.eq_dec). lia.
    + intros Hin. assert (is_byte b) as Hbb by (rewrite Forall_forall in Hb; auto).
      unfold is_byte in Hbb. exists (Z.to_nat b). split; [lia|].
      apply list_elem_of_filter. rewrite elem_of_seq. split; [|lia]. simpl.
      rewrite Z2Nat.id by lia.
      apply list_elem_of_In, (count_occ_In Z.eq_dec) in Hin. lia.
Qed.

(** on payloads of at least 20 bytes the tunnel test answers exactly its
    statistical specification: between 3.4 and 4.6 set bits per byte, at most
    35% printable bytes, at least 15 distinct byte values making up more than
    30% of the length, a non-zero first byte, and neither a repeated or counting
    prefix nor the header of a known protocol. *)
Theorem isLikelyEncryptedTunnel_spec data :
  Forall is_byte data → 20 ≤ len data →
  ∃ b, isLikelyEncryptedTunnel data = Some b ∧
    (b = true ↔
       34 * len data ≤ 10 * popsum data ≤ 46 * len data ∧
       100 * len (filter printable data) ≤ 35 * len data ∧
       (15 ≤ size (distinct data))%nat ∧ 3 * len data < 10 * Z.of_nat (size (distinct data)) ∧
       idx data 0 ≠ Some 0 ∧
       hasProtocolStructure data = Some false ∧ isKnownProtocol data = Some false).
Proof.
  intros Hb Hlen. destruct (isLikelyEncryptedTunnel_total data Hlen) as [r Hr].
  exists r. split; [done|]. revert Hr. unfold isLikelyEncryptedTunnel.
  unfold calcAvgPopcount, calcPrintableRatio, isUniformDistribution, frac_ge, frac_le, frac_gt.
  cbn [fst snd]. rewrite popcount_fold, printable_fold, unique_bytes_distinct by done.
  rewrite (bool_decide_false (len data < 20)) by lia. rewrite <-!bool_decide_and.
  destruct (idx_is_Some data 0) as [b0 ->]; [lia|].
  destruct (hasProtocolStructure_total data) as [s ->].
  destruct (isKnownProtocol_total data) as [k ->]. cbn [mbind option_bind].
  case_bool_decide as Hstat; [case_bool_decide; [|destruct s; [|destruct k]]|]; intros [= <-];
    simpl; (split; [|intros (? & ? & ? & ? & ? & ? & ?); congruence || lia]); try done.
  intros _. repeat split; try lia; congruence.
Qed.

(** A payload the heuristic flags. *)
Definition sample_tunnel : bytes :=
  [0x9c; 0xe1; 0x07; 0xb2; 0x5d; 0xf8; 0x83; 0x16; 0xca; 0x91; 0xd4; 0x0e;
   0xab; 0x72; 0xe9; 0x1b; 0xc6; 0x8d; 0x34; 0xf1; 0x5a; 0xa7; 0x98; 0x03].

Lemma isLikelyEncryptedTunnel_spec_witness :
  isLikelyEncryptedTunnel sample_tunnel = Some true ∧
  ∃ b, isLikelyEncryptedTunnel sample_tunnel = Some b ∧
    (b = true ↔
       34 * len sample_tunnel ≤ 10 * popsum sample_tunnel ≤ 46 * len sample_tunnel ∧
       100 * len (filter printable sample_tunnel) ≤ 35 * len sample_tunnel ∧
       (15 ≤ size (distinct sample_tunnel))%nat ∧
       3 * len sample_tunnel < 10 * Z.of_nat (size (distinct sample_tunnel)) ∧
       idx sample_tunnel 0 ≠ Some 0 ∧
       hasProtocolStructure sample_tunnel = Some false ∧
       isKnownProtocol sample_tunnel = Some false).
Proof.
  split; [vm_compute; done|].
  apply isLikelyEncryptedTunnel_spec; [repeat constructor; done|done].
Defined.

Lemma distinct_size data : Forall is_byte data → (size (distinct data) ≤ 256)%nat.
Proof.
  intros Hb. transitivity (size (list_to_set (Z.of_nat <$> seq 0 256) : gset Z)).
  - apply subseteq_size. intros b. unfold distinct.
    rewrite !elem_of_list_to_set, list_elem_of_fmap. intros Hin.
    rewrite Forall_forall in Hb. apply Hb in Hin. unfold is_byte in Hin.
    exists (Z.to_nat b). rewrite elem_of_seq. lia.
  - rewrite size_list_to_set; [by rewrite length_fmap, length_seq|].
    apply NoDup_fmap_2; [intros ???; lia|]. apply NoDup_seq.
Qed.

(** The tunnel test never fires on a payload of 854 bytes or more: 256 byte
    values are not 30% of it. *)
Lemma isLikelyEncryptedTunnel_long data :
  Forall is_byte data → 854 ≤ len data → isLikelyEncryptedTunnel data = Some false.
Proof.
  intros Hb Hlen. unfold isLikelyEncryptedTunnel, isUniformDistribution, frac_gt. cbn [fst snd].
  pose proof (distinct_size data Hb). rewrite unique_bytes_distinct by done.
  rewrite (bool_decide_false (3 * _ < _)) by lia.
  rewrite !andb_false_r. by case_bool_decide; rewrite ?andb_false_r.
Qed.
