(* ===== verification/DpiEngine.v ===== *)
(** * The traffic inspection engine

    [internal/dpiengine/engine.go] and the stateful part of
    [internal/dpiengine/composite.go]: the flow context and samples, the
    [Engine] interface, the no-op engine, and the composite engine with its map
    of flow states.  The engine's mutex makes [Inspect] atomic, so it is a
    function of the engine state; [now] is what [time.Now] answers. *)
From Stdlib Require Import ZArith Lia Ascii String QArith_base.
From stdpp Require Import gmap strings list fin_maps pretty.
From S2P Require Import Prelude GoStrings DpiParse.
Local Open Scope Z_scope.

(** ** Data *)

Definition Direction := string.
Definition DirectionInbound : Direction := "inbound".
Definition DirectionOutbound : Direction := "outbound".

Record FlowContext := mkFlow {
  flow_UserID : Z; flow_TokenID : Z; flow_ClientID : string; flow_LeaseID : string;
  flow_ProxyName : string; flow_ProxyType : string; flow_RemotePort : Z;
  flow_LocalAddr : string; flow_RemoteAddr : string; flow_User : string;
  flow_Metas : gmap string string }.

Record TrafficSample := mkSample {
  ts_Flow : FlowContext; ts_Direction : Direction; ts_Payload : bytes;
  ts_PayloadLength : Z; ts_CapturedLength : Z; ts_ObservedAt : time }.

#[export] Instance eta_sample : Eta TrafficSample := λ s,
  mkSample (ts_Flow s) (ts_Direction s) (ts_Payload s) (ts_PayloadLength s)
    (ts_CapturedLength s) (ts_ObservedAt s).

Record Finding := mkFinding {
  f_Detector : string; f_Protocol : string; f_Host : string; f_SNI : string;
  f_TargetIP : string; f_Confidence : Q; f_Summary : string }.
#[export] Instance eta_finding : Eta Finding := λ f,
  mkFinding (f_Detector f) (f_Protocol f) (f_Host f) (f_SNI f) (f_TargetIP f)
    (f_Confidence f) (f_Summary f).
Definition empty_finding : Finding := mkFinding "" "" "" "" "" 0%Q "".

Record Result := mkResult { res_Findings : list Finding }.

(** The [Engine] interface: [Inspect] may change the engine and answers a
    result or an error; [None] is a panic. *)
Class Engine (E : Type) := {
  engine_Inspect : E → time → TrafficSample → option (E * (string + Result)) }.

Inductive NoopEngine := mkNoop.
#[export] Instance noop_engine : Engine NoopEngine :=
  {| engine_Inspect e _ _ := Some (e, inr (mkResult [])) |}.

(** ** The composite engine *)

Definition maxFlowStates : Z := 8192.
Definition flowStateTTL : duration := 3 * Minute.

Record flowState := mkFS {
  tlsBuffer : bytes; inspectedBytes : Z; ssPackets : Z; ssDetected : bool; lastSeen : time }.
#[export] Instance eta_fs : Eta flowState := λ s,
  mkFS (tlsBuffer s) (inspectedBytes s) (ssPackets s) (ssDetected s) (lastSeen s).
Definition new_flowState : flowState := mkFS [] 0 0 false zero_time.

Record CompositeEngine := mkCE { states : gmap string flowState }.
Definition NewCompositeEngine : CompositeEngine := mkCE ∅.

Definition flowKey (flow : FlowContext) (direction : Direction) : string :=
  String.concat "|" [flow_LeaseID flow; flow_ProxyName flow; flow_ProxyType flow;
                     flow_RemoteAddr flow; direction].

Definition cleanupLocked (e : CompositeEngine) (now : time) : CompositeEngine :=
  mkCE (filter (λ kv, ¬ flowStateTTL < Sub now (lastSeen kv.2)) (states e)).

Definition feedTLSClientHello (st : flowState) (data : bytes) : option (flowState * bytes) :=
  if bool_decide (len data = 0) then Some (st, []) else
  b0 ← idx data 0;
  if bool_decide (len (tlsBuffer st) = 0) && negb (bool_decide (b0 = 0x16)) then Some (st, []) else
  if bool_decide (maxInspectBytes < len (tlsBuffer st) + len data)
  then Some (st <| tlsBuffer := [] |>, [])
  else
    let st := st <| tlsBuffer := tlsBuffer st ++ data |> in
    sni ← parseTLSClientHelloSNI (tlsBuffer st);
    if bool_decide (sni ≠ []) then Some (st <| tlsBuffer := [] |>, sni) else Some (st, []).

Definition detectEncryptedTunnel (st : flowState) (data : bytes) : option (flowState * bool) :=
  if ssDetected st || bool_decide (len data < 20) then Some (st, false) else
  let st := st <| ssPackets := ssPackets st + 1 |> in
  if bool_decide (3 < ssPackets st) then Some (st, false) else
  tls ← looksLikeTLS data;
  quic ← IsQUICInitial data;
  known ← isKnownProtocol data;
  if (tls : bool) || looksLikeHTTP data || (quic : bool) || (known : bool) then Some (st, false) else
  likely ← isLikelyEncryptedTunnel data;
  if likely : bool then Some (st <| ssDetected := true |>, true) else Some (st, false).

Definition http_finding (host : bytes) : Finding :=
  mkFinding "http" "HTTP" (string_of_bytes host) "" "" 0%Q "http host detected".
Definition tls_finding (sni : bytes) : Finding :=
  mkFinding "tls" "TLS" "" (string_of_bytes sni) "" 0%Q "tls sni detected".
Definition quic_finding : Finding :=
  mkFinding "quic" "QUIC" "" "" "" 0%Q "quic initial detected".
Definition tunnel_finding : Finding :=
  mkFinding "encrypted_tunnel" "SS" "" "" "" (72 # 100)%Q "encrypted tunnel heuristic matched".

Definition inspectLocked (sample : TrafficSample) (st : flowState) : option (flowState * list Finding) :=
  let payload := ts_Payload sample in
  let findings := [] in
  host ← ParseHTTPHost payload;
  let findings := if bool_decide (host ≠ []) then findings ++ [http_finding host] else findings in
  '(st, sni) ← feedTLSClientHello st payload;
  let findings := if bool_decide (sni ≠ []) then findings ++ [tls_finding sni] else findings in
  quic ← IsQUICInitial payload;
  let findings := if quic : bool then findings ++ [quic_finding] else findings in
  '(st, tunnel) ← detectEncryptedTunnel st payload;
  let findings := if tunnel : bool then findings ++ [tunnel_finding] else findings in
  Some (st, findings).

Definition Inspect (e : CompositeEngine) (wall : time) (sample : TrafficSample) :
    option (CompositeEngine * Result) :=
  if bool_decide (len (ts_Payload sample) = 0) then Some (e, mkResult []) else
  let now := if IsZero (ts_ObservedAt sample) then wall else ts_ObservedAt sample in
  let key := flowKey (ts_Flow sample) (ts_Direction sample) in
  let '(e, st) :=
    match states e !! key with
    | Some st => (e, st)
    | None =>
        ((if bool_decide (maxFlowStates ≤ Z.of_nat (size (states e))) then cleanupLocked e now else e),
         new_flowState)
    end in
  let st := st <| lastSeen := now |> in
  if bool_decide (maxInspectBytes ≤ inspectedBytes st)
  then Some (mkCE (<[key := st]> (states e)), mkResult [])
  else
    let st := st <| inspectedBytes := inspectedBytes st + len (ts_Payload sample) |> in
    '(st, findings) ← inspectLocked sample st;
    Some (mkCE (<[key := st]> (states e)), mkResult findings).

#[export] Instance composite_engine : Engine CompositeEngine :=
  {| engine_Inspect e now sample :=
       '(e, r) ← Inspect e now sample; Some (e, inr r) |}.

(** A sequence of samples, in the order the engine's lock admits them; [wall]
    gives the clock of each call. *)
Fixpoint inspect_all (e : CompositeEngine) (samples : list (time * TrafficSample)) :
    option (CompositeEngine * list Result) :=
  match samples with
  | [] => Some (e, [])
  | (wall, s) :: samples =>
      '(e, r) ← Inspect e wall s;
      '(e, rs) ← inspect_all e samples;
      Some (e, r :: rs)
  end.

(** ** Invariant and absence of panics *)

Definition flow_ok (st : flowState) : Prop :=
  len (tlsBuffer st) ≤ maxInspectBytes ∧ Forall is_byte (tlsBuffer st) ∧
  0 ≤ inspectedBytes st ∧ 0 ≤ ssPackets st.
Definition engine_ok (e : CompositeEngine) : Prop := map_Forall (λ _, flow_ok) (states e).

Lemma feedTLSClientHello_ok st data :
  flow_ok st → Forall is_byte data →
  ∃ st' sni, feedTLSClientHello st data = Some (st', sni) ∧ flow_ok st' ∧
    inspectedBytes st' = inspectedBytes st ∧ ssPackets st' = ssPackets st ∧
    ssDetected st' = ssDetected st ∧ lastSeen st' = lastSeen st.
Proof.
  intros Hst Hb. assert (flow_ok (st <| tlsBuffer := [] |>)) as Hreset.
  { destruct Hst as (? & ? & ? & ?). repeat split; done. }
  unfold feedTLSClientHello. pose proof (len_nonneg data).
  case_bool_decide; [eauto 10|].
  destruct (idx_is_Some data 0) as [b0 ->]; [lia|]. cbn [mbind option_bind].
  destruct (_ && _); [eauto 10|]. case_bool_decide; [eauto 10|].
  destruct Hst as (Hlen & Hbuf & ? & ?).
  destruct (records_loop_spec (tlsBuffer st ++ data) (length (tlsBuffer st ++ data)) 0)
    as (sni & Hsni & _); [by apply Forall_app|lia|unfold len; lia|].
  fold (parseTLSClientHelloSNI (tlsBuffer st ++ data)) in Hsni. cbn [upd tlsBuffer].
  rewrite Hsni. cbn [mbind option_bind].
  case_bool_decide; [eauto 10|]. eexists _, _. split; [done|].
  repeat split; cbn; try done; [rewrite len_app; lia|by apply Forall_app].
Qed.

(** What [detectEncryptedTunnel] does to the flow: it never panics, leaves
    the other fields alone, reports only an undetected flow within its first
    three counted packets, and then marks the flow. *)
Lemma detectEncryptedTunnel_frame st data :
  ∃ st' b, detectEncryptedTunnel st data = Some (st', b) ∧
    inspectedBytes st' = inspectedBytes st ∧ tlsBuffer st' = tlsBuffer st ∧
    lastSeen st' = lastSeen st ∧ ssPackets st ≤ ssPackets st' ∧
    ssDetected st' = ssDetected st || b ∧
    (b = true → ssDetected st = false ∧ ssPackets st' = ssPackets st + 1 ∧ ssPackets st' ≤ 3 ∧
       looksLikeTLS data = Some false ∧ looksLikeHTTP data = false ∧
       IsQUICInitial data = Some false ∧ isKnownProtocol data = Some false).
Proof.
  unfold detectEncryptedTunnel.
  destruct (ssDetected st) eqn:Hdet.
  { eexists _, _. split; [done|]. rewrite Hdet. naive_solver lia. }
  cbn [orb]. case_bool_decide.
  { eexists _, _. split; [done|]. rewrite Hdet. naive_solver lia. }
  assert (ssPackets (st <| ssPackets := ssPackets st + 1 |>) = ssPackets st + 1) as Hp by done.
  case_bool_decide.
  { eexists _, _. split; [done|]. cbn. rewrite Hdet. naive_solver lia. }
  destruct (looksLikeTLS_total data) as [tls ->], (IsQUICInitial_total data) as [quic ->],
    (isKnownProtocol_total data) as [known ->]. cbn [mbind option_bind].
  destruct (tls || _ || _ || _) eqn:E.
  { eexists _, _. split; [done|]. cbn. rewrite Hdet. naive_solver lia. }
  destruct (isLikelyEncryptedTunnel_total data) as [likely ->]; [lia|]. cbn [mbind option_bind].
  bools. destruct likely; eexists _, _; (split; [done|]); cbn; rewrite ?Hdet.
  - repeat split; try done; try congruence; lia.
  - naive_solver lia.
Qed.

Lemma detectEncryptedTunnel_ok st data :
  flow_ok st →
  ∃ st' b, detectEncryptedTunnel st data = Some (st', b) ∧ flow_ok st' ∧
    inspectedBytes st' = inspectedBytes st ∧ lastSeen st' = lastSeen st.
Proof.
  intros (? & ? & ? & ?).
  destruct (detectEncryptedTunnel_frame st data) as (st' & b & -> & Hi & Ht & Hl & Hp & _).
  eexists _, _. split; [done|]. unfold flow_ok. rewrite Hi, Ht, Hl. repeat split; try done. lia.
Qed.

Lemma inspectLocked_ok s st :
  flow_ok st → Forall is_byte (ts_Payload s) →
  ∃ st' fs, inspectLocked s st = Some (st', fs) ∧ flow_ok st' ∧
    inspectedBytes st' = inspectedBytes st ∧ lastSeen st' = lastSeen st.
Proof.
  intros Hst Hb. unfold inspectLocked.
  destruct (ParseHTTPHost_total (ts_Payload s)) as [host ->].
  destruct (feedTLSClientHello_ok st (ts_Payload s)) as (st1 & sni & Hfeed & Hst1 & Hi1 & _ & _ & Hl1);
    [done..|].
  destruct (IsQUICInitial_total (ts_Payload s)) as [quic Hquic].
  destruct (detectEncryptedTunnel_ok st1 (ts_Payload s)) as (st2 & b & Hdet & Hst2 & Hi2 & Hl2);
    [done|].
  cbn [mbind option_bind]. rewrite Hfeed. cbn [mbind option_bind]. rewrite Hquic.
  cbn [mbind option_bind]. rewrite Hdet. cbn [mbind option_bind].
  eexists _, _. split; [done|]. split; [done|]. split; congruence.
Qed.

(** The state [Inspect] works on: the saved one, or a new one. *)
Definition flow_before (e : CompositeEngine) (key : string) : flowState :=
  default new_flowState (states e !! key).

Lemma flow_before_ok e key : engine_ok e → flow_ok (flow_before e key).
Proof.
  intros He. unfold flow_before. destruct (states e !! key) eqn:E; [by eapply He|].
  repeat split; cbn; try done.
Qed.

Definition sample_key (s : TrafficSample) : string := flowKey (ts_Flow s) (ts_Direction s).
Definition sample_now (wall : time) (s : TrafficSample) : time :=
  if IsZero (ts_ObservedAt s) then wall else ts_ObservedAt s.

(** The map after the new flow made room, before it is added. *)
Definition make_room (e : CompositeEngine) (key : string) (now : time) : CompositeEngine :=
  match states e !! key with
  | Some _ => e
  | None => if bool_decide (maxFlowStates ≤ Z.of_nat (size (states e)))
            then cleanupLocked e now else e
  end.

(** [Inspect] on a non-empty payload, as one equation. *)
Lemma Inspect_eq e wall s :
  ts_Payload s ≠ [] →
  Inspect e wall s =
    let key := sample_key s in
    let now := sample_now wall s in
    let st := (flow_before e key) <| lastSeen := now |> in
    let rest := states (make_room e key now) in
    if bool_decide (maxInspectBytes ≤ inspectedBytes st)
    then Some (mkCE (<[key := st]> rest), mkResult [])
    else
      '(st, fs) ← inspectLocked s (st <| inspectedBytes := inspectedBytes st + len (ts_Payload s) |>);
      Some (mkCE (<[key := st]> rest), mkResult fs).
Proof.
  intros Hne. unfold Inspect. rewrite bool_decide_false by (intros ?%len_0; done).
  fold (sample_key s) (sample_now wall s). unfold flow_before, make_room.
  by destruct (states e !! sample_key s).
Qed.

Lemma cleanupLocked_ok e now : engine_ok e → engine_ok (cleanupLocked e now).
Proof. intros He k st [? _]%map_lookup_filter_Some. by eapply He. Qed.

Lemma make_room_ok e key now : engine_ok e → engine_ok (make_room e key now).
Proof.
  intros He. unfold make_room. destruct (states e !! key); [done|].
  case_bool_decide; [by apply cleanupLocked_ok|done].
Qed.

Lemma insert_flow_ok e key st :
  engine_ok e → flow_ok st → engine_ok (mkCE (<[key := st]> (states e))).
Proof. intros. by apply map_Forall_insert_2. Qed.

(** C34: the composite engine never panics: in every state it can reach and on
    every payload it answers a result, and it keeps its invariant, in
    particular the reassembly buffer of each flow stays within 8192 bytes. *)
Theorem Inspect_ok e wall s :
  engine_ok e → Forall is_byte (ts_Payload s) →
  ∃ e' r, Inspect e wall s = Some (e', r) ∧ engine_ok e'.
Proof.
  intros He Hb. destruct (decide (ts_Payload s = [])) as [Hnil|Hne].
  { unfold Inspect. rewrite Hnil. cbn. eauto. }
  rewrite Inspect_eq by done. cbn zeta.
  destruct (flow_before_ok e (sample_key s) He) as (? & ? & ? & ?).
  pose proof (make_room_ok e (sample_key s) (sample_now wall s) He) as Hroom.
  case_bool_decide.
  { eexists _, _. split; [done|]. by apply insert_flow_ok. }
  destruct (inspectLocked_ok s ((flow_before e (sample_key s)) <| lastSeen := sample_now wall s |>
     <| inspectedBytes := inspectedBytes (flow_before e (sample_key s)) + len (ts_Payload s) |>))
    as (st' & fs & Heq & Hst' & _); [|done|].
  { repeat split; cbn; try done. by apply Z.add_nonneg_nonneg; [|apply len_nonneg]. }
  cbn in Heq |- *. rewrite Heq. cbn. eexists _, _. split; [done|]. by apply insert_flow_ok.
Qed.

(** ** Reassembly of a fragmented ClientHello *)

(** The server names a result reports. *)
Definition tls_names (fs : list Finding) : list string :=
  f_SNI <$> filter (λ f, f_Detector f = "tls"%string) fs.

Lemma tls_names_app fs gs : tls_names (fs ++ gs) = tls_names fs ++ tls_names gs.
Proof. unfold tls_names. by rewrite filter_app, fmap_app. Qed.

Lemma inspectLocked_tls s st st1 sni :
  feedTLSClientHello st (ts_Payload s) = Some (st1, sni) →
  ∃ st' fs, inspectLocked s st = Some (st', fs) ∧
    tlsBuffer st' = tlsBuffer st1 ∧ inspectedBytes st' = inspectedBytes st1 ∧
    tls_names fs = if bool_decide (sni = []) then [] else [string_of_bytes sni].
Proof.
  intros Hfeed. unfold inspectLocked.
  destruct (ParseHTTPHost_total (ts_Payload s)) as [host ->]. cbn [mbind option_bind].
  rewrite Hfeed. cbn [mbind option_bind].
  destruct (IsQUICInitial_total (ts_Payload s)) as [quic ->]. cbn [mbind option_bind].
  destruct (detectEncryptedTunnel_frame st1 (ts_Payload s)) as (st2 & b & -> & ? & ? & _).
  cbn [mbind option_bind]. eexists _, _. split; [done|]. split; [done|]. split; [done|].
  rewrite bool_decide_not. destruct (bool_decide (sni = [])), b, quic, (bool_decide (host ≠ []));
    cbn [negb]; rewrite ?tls_names_app; done.
Qed.

Lemma Inspect_tls e wall s key st1 sni :
  sample_key s = key → ts_Payload s ≠ [] →
  inspectedBytes (flow_before e key) < maxInspectBytes →
  feedTLSClientHello
    ((flow_before e key) <| lastSeen := sample_now wall s |>
       <| inspectedBytes := inspectedBytes (flow_before e key) + len (ts_Payload s) |>)
    (ts_Payload s) = Some (st1, sni) →
  ∃ e' fs, Inspect e wall s = Some (e', mkResult fs) ∧
    tlsBuffer (flow_before e' key) = tlsBuffer st1 ∧
    inspectedBytes (flow_before e' key) = inspectedBytes st1 ∧
    tls_names fs = if bool_decide (sni = []) then [] else [string_of_bytes sni].
Proof.
  intros Hkey Hne Hi Hfeed. rewrite Inspect_eq by done. cbn zeta. rewrite Hkey.
  rewrite bool_decide_false by (cbn; lia).
  apply (inspectLocked_tls s) in Hfeed as (st' & fs & Heq & Hb & Hi' & Hn). cbn in Heq |- *.
  rewrite Heq. cbn. eexists _, _. split; [done|].
  unfold flow_before. cbn. by rewrite lookup_insert_eq.
Qed.

(** One fragment [d] after the fragments [k], before the rest [k']. *)
Lemma feedTLSClientHello_fragment h st k d k' :
  client_hello_ok h → len (encode_hello h) ≤ maxInspectBytes →
  encode_hello h = k ++ d ++ k' → d ≠ [] → tlsBuffer st = k →
  feedTLSClientHello st d =
    Some (st <| tlsBuffer := if bool_decide (k' = []) then [] else k ++ d |>,
          if bool_decide (k' = []) then ch_sni h else []).
Proof.
  intros Hok Hmax Hk Hd Hbuf. unfold feedTLSClientHello.
  assert (0 < len d) by (destruct d; [done|lens]).
  rewrite bool_decide_false by lia.
  destruct (idx_is_Some d 0) as [b0 Hb0]; [lia|]. rewrite Hb0. cbn [mbind option_bind].
  assert (bool_decide (len (tlsBuffer st) = 0) && negb (bool_decide (b0 = 0x16)) = false) as ->.
  { rewrite Hbuf. case_bool_decide as Hz; [|done]. apply len_0 in Hz as ->.
    rewrite bool_decide_true; [done|]. destruct d as [|x d]; [done|].
    cbn in Hb0. injection Hb0 as <-. unfold encode_hello in Hk. by injection Hk. }
  pose proof (f_equal len Hk) as Hlen. rewrite !len_app in Hlen.
  rewrite Hbuf, bool_decide_false by lens.
  cbn [upd tlsBuffer eta_fs]. case_bool_decide as Hk'.
  - subst k'. rewrite app_nil_r in Hk.
    replace (parseTLSClientHelloSNI (k ++ d)) with (Some (ch_sni h)).
    + cbn. rewrite bool_decide_true by apply Hok. done.
    + rewrite <-Hk. symmetry. rewrite <-(app_nil_r (encode_hello h)).
      unfold parseTLSClientHelloSNI. pose proof (encode_hello_len h).
      pose proof (len_nonneg (encode_handshake h)).
      destruct (length (encode_hello h ++ [])) as [|n] eqn:E; [|by apply records_loop_encode].
      rewrite length_app in E. unfold len in *. lia.
  - rewrite app_assoc in Hk.
    by rewrite (parseTLSClientHelloSNI_prefix h (k ++ d) k').
Qed.

Lemma inspect_all_fragments h key samples k e :
  client_hello_ok h → len (encode_hello h) ≤ maxInspectBytes →
  Forall (λ ws : time * TrafficSample, sample_key ws.2 = key ∧ ts_Payload ws.2 ≠ []) samples →
  samples ≠ [] →
  encode_hello h = k ++ concat ((λ ws, ts_Payload ws.2) <$> samples) →
  tlsBuffer (flow_before e key) = k → inspectedBytes (flow_before e key) = len k →
  ∃ e' rs r, inspect_all e samples = Some (e', rs ++ [r]) ∧
    Forall (λ r, tls_names (res_Findings r) = []) rs ∧
    tls_names (res_Findings r) = [string_of_bytes (ch_sni h)].
Proof.
  intros Hok Hmax Hall. revert k e.
  induction Hall as [|[wall s] samples [Hkey Hne] Hall IH]; intros k e Hnil Hk Hbuf Hi; [done|].
  cbn [snd] in *. cbn [fmap list_fmap concat snd] in Hk. clear Hnil. set (k' := concat _) in Hk.
  pose proof (f_equal len Hk) as Hlen. rewrite !len_app in Hlen.
  assert (0 < len (ts_Payload s)) by (destruct (ts_Payload s); [done|lens]).
  assert (k' = [] ↔ samples = []) as Hk'.
  { subst k'. destruct Hall as [|[w s'] samples' [_ Hne'] _]; [done|]. cbn.
    split; [|done]. by intros [? ?]%app_eq_nil. }
  edestruct (Inspect_tls e wall s key) as (e1 & fs & Heq & Hb1 & Hi1 & Hn1); [done|done|lens| |].
  { by eapply (feedTLSClientHello_fragment h). }
  cbn in Hb1, Hi1. cbn [inspect_all]. rewrite Heq. cbn [mbind option_bind].
  destruct (decide (k' = [])) as [Hend|Hend];
    [rewrite !(bool_decide_true _ Hend) in *|rewrite !(bool_decide_false _ Hend) in *].
  - assert (samples = []) as -> by tauto. cbn. eexists _, [], _. split; [done|].
    split; [done|]. cbn [res_Findings]. rewrite Hn1. rewrite bool_decide_false; [done|]. apply Hok.
  - destruct (IH (k ++ ts_Payload s) e1) as (e2 & rs & r & -> & Hrs & Hr).
    + intros ->. by apply Hend, Hk'.
    + by rewrite <-app_assoc.
    + done.
    + rewrite Hi1, Hi, len_app. done.
    + cbn. eexists _, (_ :: rs), r. split; [done|]. split; [|done]. by constructor.
Qed.

(** however a ClientHello of at most 8192 bytes is cut into payloads, the
    engine reports its server name exactly once, with the payload that
    completes it, and no server name before. *)
Theorem Inspect_fragments e h key samples :
  client_hello_ok h → len (encode_hello h) ≤ maxInspectBytes →
  states e !! key = None →
  Forall (λ ws : time * TrafficSample, sample_key ws.2 = key ∧ ts_Payload ws.2 ≠ []) samples →
  concat ((λ ws, ts_Payload ws.2) <$> samples) = encode_hello h →
  ∃ e' rs r, inspect_all e samples = Some (e', rs ++ [r]) ∧
    Forall (λ r, tls_names (res_Findings r) = []) rs ∧
    tls_names (res_Findings r) = [string_of_bytes (ch_sni h)].
Proof.
  intros Hok Hmax Hnew Hall Hcat. apply (inspect_all_fragments h key samples []); try done.
  - intros ->. pose proof (encode_hello_len h). rewrite <-Hcat in *. by cbn in *; lens.
  - unfold flow_before. by rewrite Hnew.
  - unfold flow_before. by rewrite Hnew.
Qed.

(** Samples used by the witnesses. *)
Definition flow_from (addr : string) : FlowContext :=
  mkFlow 1 1 "c1" "lease" "web" "tcp" 8080 "" addr "" ∅.
Definition sample_of (addr : string) (t : time) (payload : bytes) : TrafficSample :=
  mkSample (flow_from addr) DirectionInbound payload (len payload) (len payload) t.

Lemma Inspect_ok_witness :
  ∃ e' r, Inspect NewCompositeEngine 5 (sample_of "1.2.3.4:5" 9 [0x16; 3; 1; 0]) = Some (e', r) ∧
          engine_ok e'.
Proof. apply Inspect_ok; [done|repeat constructor; done]. Defined.

Lemma Inspect_fragments_witness :
  ∃ e' rs r,
    inspect_all NewCompositeEngine
      [(0, sample_of "1.2.3.4:5" 9 (take 3 (encode_hello sample_hello)));
       (0, sample_of "1.2.3.4:5" 9 (drop 3 (encode_hello sample_hello)))] = Some (e', rs ++ [r]) ∧
    Forall (λ r, tls_names (res_Findings r) = []) rs ∧
    tls_names (res_Findings r) = [string_of_bytes (ch_sni sample_hello)].
Proof.
  apply (Inspect_fragments _ _ "lease|web|tcp|1.2.3.4:5|inbound").
  - repeat split; done || (repeat constructor; done).
  - done.
  - done.
  - repeat constructor; done.
  - done.
Defined.

(** ** One tunnel report per flow, and the inspection budget *)

Definition tunnels (r : Result) : Z :=
  len (filter (λ f, f_Detector f = "encrypted_tunnel"%string) (res_Findings r)).
Definition b2z (b : bool) : Z := if b then 1 else 0.

Lemma tunnels_app fs gs :
  tunnels (mkResult (fs ++ gs)) = tunnels (mkResult fs) + tunnels (mkResult gs).
Proof. unfold tunnels. cbn [res_Findings]. by rewrite filter_app, len_app. Qed.

Lemma feedTLSClientHello_frame st data st1 sni :
  feedTLSClientHello st data = Some (st1, sni) →
  inspectedBytes st1 = inspectedBytes st ∧ ssDetected st1 = ssDetected st ∧
  ssPackets st1 = ssPackets st.
Proof.
  unfold feedTLSClientHello. case_bool_decide; [by intros [= <- <-]|].
  destruct (idx data 0); [|done]. cbn [mbind option_bind].
  destruct (_ && _); [by intros [= <- <-]|]. case_bool_decide; [by intros [= <- <-]|].
  destruct (parseTLSClientHelloSNI _); [|done]. cbn [mbind option_bind].
  case_bool_decide; by intros [= <- <-].
Qed.

Lemma inspectLocked_tunnel s st st' fs :
  inspectLocked s st = Some (st', fs) →
  inspectedBytes st' = inspectedBytes st ∧
  b2z (ssDetected st) + tunnels (mkResult fs) = b2z (ssDetected st').
Proof.
  unfold inspectLocked. destruct (ParseHTTPHost_total (ts_Payload s)) as [host ->].
  cbn [mbind option_bind].
  destruct (feedTLSClientHello st (ts_Payload s)) as [[st1 sni]|] eqn:Hfeed; [|done].
  apply feedTLSClientHello_frame in Hfeed as (Hi & Hd & _). cbn [mbind option_bind].
  destruct (IsQUICInitial_total (ts_Payload s)) as [quic ->]. cbn [mbind option_bind].
  destruct (detectEncryptedTunnel_frame st1 (ts_Payload s)) as (st2 & b & -> & Hi2 & _ & _ & _ & Hd2 & Hb).
  cbn [mbind option_bind]. intros [= <- <-]. split; [congruence|]. rewrite Hd2, <-Hd.
  destruct b; [destruct Hb as [-> _]; [done|]|rewrite orb_false_r].
  - rewrite tunnels_app.
    destruct quic, (bool_decide (sni ≠ [])), (bool_decide (host ≠ [])); done.
  - rewrite <-(Z.add_0_r (b2z (ssDetected st1))) at 2. apply Z.add_cancel_l.
    destruct quic, (bool_decide (sni ≠ [])), (bool_decide (host ≠ [])); done.
Qed.

(** One call on the flow [key]: the bytes it counts and what it reports. *)
Lemma Inspect_flow e wall s e' r :
  Inspect e wall s = Some (e', r) →
  let st := flow_before e (sample_key s) in
  let st' := flow_before e' (sample_key s) in
  b2z (ssDetected st) + tunnels r = b2z (ssDetected st') ∧
  (maxInspectBytes ≤ inspectedBytes st → res_Findings r = [] ∧ inspectedBytes st' = inspectedBytes st) ∧
  (inspectedBytes st < maxInspectBytes →
     inspectedBytes st' = inspectedBytes st + len (ts_Payload s)).
Proof.
  destruct (decide (ts_Payload s = [])) as [Hnil|Hne].
  { assert (len (ts_Payload s) = 0) as Hlen by (by rewrite Hnil).
    unfold Inspect. rewrite bool_decide_true by done. intros [= <- <-]. cbn zeta.
    change (tunnels (mkResult [])) with 0. split; [lia|]. split; [done|lia]. }
  rewrite Inspect_eq by done. cbn zeta. case_bool_decide as Hi; cbn in Hi.
  - intros [= <- <-]. change (tunnels (mkResult [])) with 0.
    set (st' := flow_before (mkCE _) _). assert (st' = (flow_before e (sample_key s)) <|
      lastSeen := sample_now wall s |>) as -> by (unfold st', flow_before; cbn; by rewrite lookup_insert_eq).
    cbn. split; [lia|]. split; [done|lia].
  - destruct (inspectLocked _ _) as [[st' fs]|] eqn:Hl; [|done].
    cbn [mbind option_bind]. intros [= <- <-].
    apply inspectLocked_tunnel in Hl as [Hi' Hd]. cbn in Hi', Hd.
    assert (flow_before (mkCE (<[sample_key s := st']>
      (states (make_room e (sample_key s) (sample_now wall s))))) (sample_key s) = st') as ->.
    { unfold flow_before. cbn. by rewrite lookup_insert_eq. }
    repeat split; lia || done.
Qed.

Lemma inspect_all_tunnels e samples e' rs key :
  inspect_all e samples = Some (e', rs) →
  Forall (λ ws : time * TrafficSample, sample_key ws.2 = key) samples →
  b2z (ssDetected (flow_before e key)) + foldr (λ r, Z.add (tunnels r)) 0 rs =
  b2z (ssDetected (flow_before e' key)).
Proof.
  intros Hrun Hall. revert e rs Hrun. induction Hall as [|[wall s] samples Hkey Hall IH];
    intros e rs Hrun; cbn in Hrun; [injection Hrun as <- <-; cbn; lia|].
  destruct (Inspect e wall s) as [[e1 r]|] eqn:Hr; [|done]. cbn in Hrun.
  destruct (inspect_all e1 samples) as [[e2 rs']|] eqn:Hrs; [|done]. cbn in Hrun.
  injection Hrun as <- <-. apply Inspect_flow in Hr as [Hd _]. cbn [snd] in Hkey. rewrite Hkey in Hd.
  apply IH in Hrs. cbn. lia.
Qed.

(** over any sequence of payloads of one flow and direction, however
    long, the engine reports an encrypted tunnel at most once. *)
Theorem tunnel_reported_once e samples e' rs key :
  inspect_all e samples = Some (e', rs) →
  Forall (λ ws : time * TrafficSample, sample_key ws.2 = key) samples →
  0 ≤ foldr (λ r, Z.add (tunnels r)) 0 rs ≤ 1.
Proof.
  intros Hrun Hall. pose proof (inspect_all_tunnels _ _ _ _ _ Hrun Hall) as Hsum.
  assert (0 ≤ foldr (λ r, Z.add (tunnels r)) 0 rs).
  { clear. induction rs as [|r rs IH]; cbn; [lia|]. pose proof (len_nonneg
      (filter (λ f, f_Detector f = "encrypted_tunnel"%string) (res_Findings r))).
    unfold tunnels at 1. lia. }
  unfold b2z in Hsum. destruct (ssDetected _), (ssDetected _); lia.
Qed.

Lemma inspect_all_app e s1 s2 :
  inspect_all e (s1 ++ s2) =
    '(e, r1) ← inspect_all e s1; '(e, r2) ← inspect_all e s2; Some (e, r1 ++ r2).
Proof.
  revert e. induction s1 as [|[w s] s1 IH]; intros e; cbn.
  { by destruct (inspect_all e s2) as [[? ?]|]. }
  destruct (Inspect e w s) as [[e1 r]|]; [|done]. cbn. rewrite IH.
  destruct (inspect_all e1 s1) as [[e2 r1]|]; [|done]. cbn.
  by destruct (inspect_all e2 s2) as [[? ?]|].
Qed.

Definition payload_total (samples : list (time * TrafficSample)) : Z :=
  foldr (λ ws, Z.add (len (ts_Payload ws.2))) 0 samples.

Lemma inspect_all_bytes e samples e' rs key :
  inspect_all e samples = Some (e', rs) →
  Forall (λ ws : time * TrafficSample, sample_key ws.2 = key) samples →
  Z.min maxInspectBytes (inspectedBytes (flow_before e key) + payload_total samples) ≤
  inspectedBytes (flow_before e' key).
Proof.
  intros Hrun Hall. revert e rs Hrun. induction Hall as [|[wall s] samples Hkey Hall IH];
    intros e rs Hrun; cbn in Hrun; [injection Hrun as <- <-; cbn; lia|].
  destruct (Inspect e wall s) as [[e1 r]|] eqn:Hr; [|done]. cbn in Hrun.
  destruct (inspect_all e1 samples) as [[e2 rs']|] eqn:Hrs; [|done]. cbn in Hrun.
  injection Hrun as <- <-. apply Inspect_flow in Hr as (_ & Hfull & Hmore).
  cbn [snd] in Hkey. rewrite Hkey in Hfull, Hmore. apply IH in Hrs.
  cbn [payload_total foldr snd]. fold (payload_total samples).
  destruct (decide (maxInspectBytes ≤ inspectedBytes (flow_before e key))) as [Hf|Hf].
  - destruct (Hfull Hf) as [_ ?]. pose proof (len_nonneg (ts_Payload s)).
    assert (0 ≤ payload_total samples).
    { clear. induction samples as [|[w s'] l IHl]; cbn; [lia|].
      pose proof (len_nonneg (ts_Payload s')). unfold payload_total in IHl. lia. }
    lia.
  - specialize (Hmore ltac:(lia)). lia.
Qed.

Lemma inspect_all_full e samples e' rs key :
  inspect_all e samples = Some (e', rs) →
  Forall (λ ws : time * TrafficSample, sample_key ws.2 = key) samples →
  maxInspectBytes ≤ inspectedBytes (flow_before e key) →
  Forall (λ r, res_Findings r = []) rs.
Proof.
  intros Hrun Hall. revert e rs Hrun. induction Hall as [|[wall s] samples Hkey Hall IH];
    intros e rs Hrun Hfull; cbn in Hrun; [by injection Hrun as <- <-|].
  destruct (Inspect e wall s) as [[e1 r]|] eqn:Hr; [|done]. cbn in Hrun.
  destruct (inspect_all e1 samples) as [[e2 rs']|] eqn:Hrs; [|done]. cbn in Hrun.
  injection Hrun as <- <-. apply Inspect_flow in Hr as (_ & Hf & _).
  cbn [snd] in Hkey. rewrite Hkey in Hf. destruct (Hf Hfull) as [? Heq].
  constructor; [done|]. apply (IH e1); [done|lia].
Qed.

(** the inspection budget of a flow: once 8192 payload bytes of a flow and
    direction have been seen, no later payload of it yields a finding. *)
Theorem inspect_budget e before after e' rs key :
  inspect_all e (before ++ after) = Some (e', rs) →
  Forall (λ ws : time * TrafficSample, sample_key ws.2 = key) (before ++ after) →
  engine_ok e → maxInspectBytes ≤ payload_total before →
  Forall (λ r, res_Findings r = []) (drop (length before) rs).
Proof.
  rewrite inspect_all_app. intros Hrun [Hb Ha]%Forall_app He Htotal.
  destruct (inspect_all e before) as [[e1 r1]|] eqn:H1; [|done]. cbn in Hrun.
  destruct (inspect_all e1 after) as [[e2 r2]|] eqn:H2; [|done]. cbn in Hrun.
  injection Hrun as <- <-.
  assert (length r1 = length before) as Hlen.
  { clear -H1. revert e r1 H1. induction before as [|[w s] l IH]; intros e r1 H; cbn in H;
      [by injection H as <- <-|].
    destruct (Inspect e w s) as [[e' r]|]; [|done]. cbn in H.
    destruct (inspect_all e' l) as [[e2 rs]|] eqn:E; [|done]. cbn in H. injection H as <- <-.
    cbn. f_equal. by eapply IH. }
  rewrite <-Hlen, drop_app_length. eapply inspect_all_full; [done..|].
  pose proof (inspect_all_bytes _ _ _ _ _ H1 Hb).
  destruct (flow_before_ok e key He) as (_ & _ & ? & _). lia.
Qed.

Lemma tunnel_reported_once_witness :
  0 ≤ foldr (λ r, Z.add (tunnels r)) 0
        [mkResult [tunnel_finding]; mkResult []] ≤ 1.
Proof.
  apply (tunnel_reported_once NewCompositeEngine
    [(0, sample_of "1.2.3.4:5" 9 sample_tunnel); (0, sample_of "1.2.3.4:5" 9 sample_tunnel)]
    (mkCE {["lease|web|tcp|1.2.3.4:5|inbound" := mkFS [] 48 1 true 9]}) _
    "lease|web|tcp|1.2.3.4:5|inbound").
  - vm_compute. done.
  - repeat constructor.
Defined.

Lemma inspect_budget_witness :
  Forall (λ r, res_Findings r = [])
    (drop 1 [mkResult []; mkResult []]).
Proof.
  apply (inspect_budget NewCompositeEngine
    [(0, sample_of "1.2.3.4:5" 9 (repeat 0 (Z.to_nat 8192)))] [(0, sample_of "1.2.3.4:5" 9 sample_tunnel)]
    (mkCE {["lease|web|tcp|1.2.3.4:5|inbound" := mkFS [] 8192 1 false 9]}) _
    "lease|web|tcp|1.2.3.4:5|inbound").
  - vm_compute. done.
  - repeat constructor.
  - done.
  - vm_compute. done.
Defined.

(** ** The map of flows *)

(** a payload of one flow never changes what is remembered of another:
    the other flow's state is untouched, or it was dropped because it had been
    idle for more than three minutes when a new flow arrived at a full map. *)
Theorem Inspect_isolated e wall s e' r key :
  Inspect e wall s = Some (e', r) → key ≠ sample_key s →
  states e' !! key = states e !! key ∨
  (states e' !! key = None ∧ states e !! sample_key s = None ∧
   maxFlowStates ≤ Z.of_nat (size (states e)) ∧
   ∃ st, states e !! key = Some st ∧ flowStateTTL < sample_now wall s - lastSeen st).
Proof.
  intros Hr Hkey. destruct (decide (ts_Payload s = [])) as [Hnil|Hne].
  { unfold Inspect in Hr. rewrite Hnil in Hr. injection Hr as <- _. by left. }
  rewrite Inspect_eq in Hr by done. cbn zeta in Hr.
  assert (states e' !! key =
    states (make_room e (sample_key s) (sample_now wall s)) !! key) as ->.
  { case_bool_decide; [by injection Hr as <- _; cbn; rewrite lookup_insert_ne|].
    destruct (inspectLocked _ _) as [[st' fs]|]; [|done]. cbn in Hr.
    injection Hr as <- _. cbn. by rewrite lookup_insert_ne. }
  unfold make_room. destruct (states e !! sample_key s) eqn:Hs; [by left|].
  clear Hr. case_bool_decide; [|by left]. cbn.
  destruct (states e !! key) as [st|] eqn:Hk; cycle 1.
  { left. apply map_lookup_filter_None. by left. }
  destruct (decide (flowStateTTL < Sub (sample_now wall s) (lastSeen st))) as [Hold|Hnew].
  - right. split; [apply map_lookup_filter_None; right; intros x Hx; simplify_eq; naive_solver|].
    split; [done|]. split; [done|]. exists st. split; [done|].
    apply Sub_gt in Hold; [done|]. vm_compute. done.
  - left. by apply map_lookup_filter_Some.
Qed.

Lemma Inspect_isolated_witness :
  let e := mkCE {["k" := new_flowState]} in
  let s := sample_of "1.2.3.4:5" 9 [1] in
  let e' := mkCE {["k" := new_flowState;
                   "lease|web|tcp|1.2.3.4:5|inbound" := mkFS [] 1 0 false 9]} in
  states e' !! "k"%string = states e !! "k"%string ∨
  (states e' !! "k"%string = None ∧ states e !! sample_key s = None ∧
   maxFlowStates ≤ Z.of_nat (size (states e)) ∧
   ∃ st, states e !! "k"%string = Some st ∧ flowStateTTL < sample_now 0 s - lastSeen st).
Proof. cbn zeta. eapply Inspect_isolated; [vm_compute; done|done]. Defined.

(** The engine after one-byte payloads from [n] addresses at one instant. *)
Definition addr_samples (n : nat) : list (time * TrafficSample) :=
  (λ i, (1, sample_of (fmt_d (Z.of_nat i)) 1 [0])) <$> seq 0 n.
Definition addr_key (i : nat) : string := sample_key (sample_of (fmt_d (Z.of_nat i)) 1 [0]).

Lemma addr_key_inj i j : addr_key i = addr_key j → i = j.
Proof.
  unfold addr_key, sample_key, flowKey. cbn [ts_Flow ts_Direction sample_of flow_from flow_LeaseID
    flow_ProxyName flow_ProxyType flow_RemoteAddr String.concat].
  intros Heq. repeat (injection Heq as Heq).
  apply (sep_inj_l "|") in Heq as [Heq _]; [|by apply fmt_d_no_char..].
  apply fmt_d_inj in Heq. lia.
Qed.

Lemma Inspect_new_addr e i :
  map_Forall (λ _ st, lastSeen st = 1) (states e) → states e !! addr_key i = None →
  ∃ st, Inspect e 1 (sample_of (fmt_d (Z.of_nat i)) 1 [0]) =
          Some (mkCE (<[addr_key i := st]> (states e)), mkResult []) ∧ lastSeen st = 1.
Proof.
  intros Hall Hnew. rewrite Inspect_eq by done. cbn zeta. fold (addr_key i).
  unfold flow_before. rewrite Hnew. cbn [default].
  assert (make_room e (addr_key i) (sample_now 1 (sample_of (fmt_d (Z.of_nat i)) 1 [0])) = e) as ->.
  { unfold make_room. rewrite Hnew. case_bool_decide; [|done]. unfold cleanupLocked.
    destruct e as [m]. f_equal. apply map_filter_id. intros k st Hst. cbn.
    apply Hall in Hst as ->. vm_compute. done. }
  eexists. split; [vm_compute; reflexivity|done].
Qed.

Lemma addr_samples_S n :
  addr_samples (S n) = addr_samples n ++ [(1, sample_of (fmt_d (Z.of_nat n)) 1 [0])].
Proof. unfold addr_samples. by rewrite seq_S, fmap_app. Qed.

Lemma inspect_all_addrs n :
  ∃ e rs, inspect_all NewCompositeEngine (addr_samples n) = Some (e, rs) ∧
    size (states e) = n ∧ map_Forall (λ _ st, lastSeen st = 1) (states e) ∧
    (∀ j, (n ≤ j)%nat → states e !! addr_key j = None).
Proof.
  induction n as [|n (e & rs & Hrun & Hsize & Hall & Hnew)].
  { by exists NewCompositeEngine, []. }
  destruct (Inspect_new_addr e n Hall) as (st & Hi & Hst); [by apply Hnew|].
  eexists _, _. rewrite addr_samples_S, inspect_all_app, Hrun. cbn [mbind option_bind inspect_all].
  rewrite Hi. cbn [mbind option_bind]. split; [done|]. cbn [states]. split; [|split].
  - rewrite map_size_insert_None by (by apply Hnew). lia.
  - by apply map_Forall_insert_2.
  - intros j Hj. rewrite lookup_insert_ne; [apply Hnew; lia|]. intros ?%addr_key_inj. lia.
Qed.

(** C35: [maxFlowStates] does not bound the map of flow states: cleaning
    removes only idle flows, so payloads from [n] addresses within three minutes
    leave [n] states, for every [n]. *)
Theorem flow_states_unbounded (n : nat) :
  ∃ samples e rs, inspect_all NewCompositeEngine samples = Some (e, rs) ∧
                  length samples = n ∧ size (states e) = n.
Proof.
  destruct (inspect_all_addrs n) as (e & rs & Hrun & Hsize & _).
  exists (addr_samples n), e, rs. split; [done|]. split; [|done].
  unfold addr_samples. by rewrite length_fmap, length_seq.
Qed.

(** The fields of a flow that hold no separator: the lease id is hexadecimal,
    the type a protocol name, the remote address an address and a port. *)
Definition flow_fields_ok (flow : FlowContext) (direction : Direction) : Prop :=
  no_char "|" (flow_LeaseID flow) = true ∧ no_char "|" (flow_ProxyType flow) = true ∧
  no_char "|" (flow_RemoteAddr flow) = true ∧ no_char "|" direction = true.

(** the flow key identifies the flow: when the lease id, the proxy type,
    the remote address and the direction hold no separator, two flows with the
    same key agree on lease, proxy name, type, address and direction, even if the
    proxy name (which the client chooses) holds separators. *)
Theorem flowKey_inj f1 d1 f2 d2 :
  flow_fields_ok f1 d1 → flow_fields_ok f2 d2 → flowKey f1 d1 = flowKey f2 d2 →
  flow_LeaseID f1 = flow_LeaseID f2 ∧ flow_ProxyName f1 = flow_ProxyName f2 ∧
  flow_ProxyType f1 = flow_ProxyType f2 ∧ flow_RemoteAddr f1 = flow_RemoteAddr f2 ∧ d1 = d2.
Proof.
  intros (Hl1 & Ht1 & Ha1 & Hd1) (Hl2 & Ht2 & Ha2 & Hd2).
  unfold flowKey. cbn [String.concat]. intros Heq.
  apply (sep_inj_l "|") in Heq as [Hl Heq]; [|done..].
  rewrite <-!string_app_assoc in Heq.
  rewrite (string_app_assoc _ "|" d1), (string_app_assoc _ "|" d2) in Heq.
  apply (sep_inj_r "|") in Heq as [Heq Hd]; [|done..].
  rewrite (string_app_assoc _ "|" (flow_RemoteAddr f1)),
    (string_app_assoc _ "|" (flow_RemoteAddr f2)) in Heq.
  apply (sep_inj_r "|") in Heq as [Heq Ha]; [|done..].
  rewrite (string_app_assoc _ "|" (flow_ProxyType f1)),
    (string_app_assoc _ "|" (flow_ProxyType f2)) in Heq.
  by apply (sep_inj_r "|") in Heq as [Hn Ht].
Qed.

Lemma flowKey_inj_witness :
  let f := flow_from "1.2.3.4:5" in
  flow_LeaseID f = flow_LeaseID f ∧ flow_ProxyName f = flow_ProxyName f ∧
  flow_ProxyType f = flow_ProxyType f ∧ flow_RemoteAddr f = flow_RemoteAddr f ∧
  DirectionInbound = DirectionInbound.
Proof. cbn zeta. apply flowKey_inj; done. Defined.

(** A payload with a Host header, on a flow within its budget: the HTTP
    finding comes first. *)
Lemma Inspect_http e wall s host :
  engine_ok e → Forall is_byte (ts_Payload s) →
  ParseHTTPHost (ts_Payload s) = Some host → host ≠ [] →
  inspectedBytes (flow_before e (sample_key s)) < maxInspectBytes →
  ∃ e' fs, Inspect e wall s = Some (e', mkResult (http_finding host :: fs)).
Proof.
  intros He Hb Hhost Hne Hi.
  assert (ts_Payload s ≠ []) as Hpay by (intros Hnil; rewrite Hnil in Hhost; injection Hhost; auto).
  rewrite Inspect_eq by done. cbn zeta. rewrite bool_decide_false
    by (change (¬ maxInspectBytes ≤ inspectedBytes (flow_before e (sample_key s))); lia).
  destruct (flow_before_ok e (sample_key s) He) as (? & ? & ? & ?).
  set (st := _ <| inspectedBytes := _ |>).
  assert (flow_ok st) as Hst.
  { repeat split; cbn; try done. by apply Z.add_nonneg_nonneg; [|apply len_nonneg]. }
  assert (∃ st' fs, inspectLocked s st = Some (st', http_finding host :: fs)) as (st' & fs & ->);
    [|cbn; eauto].
  clearbody st. unfold inspectLocked. rewrite Hhost. cbn [mbind option_bind].
  rewrite bool_decide_true by done.
  destruct (feedTLSClientHello_ok st (ts_Payload s)) as (st1 & sni & -> & _); [done..|].
  cbn [mbind option_bind].
  destruct (IsQUICInitial_total (ts_Payload s)) as [quic ->]. cbn [mbind option_bind].
  destruct (detectEncryptedTunnel_frame st1 (ts_Payload s)) as (st2 & b & -> & _).
  cbn [mbind option_bind]. destruct b, quic, (bool_decide (sni ≠ [])); cbn; eauto.
Qed.
