(* ===== verification/DpiService.v ===== *)
(** * The traffic inspection service

    [internal/dpi/service.go]: which policy applies to a sample, what the
    engine's findings lead to, and which events are recorded.  The engine is
    used through its interface; the policy provider is a function that answers
    a policy or an error at the moment of the call; an event sink is present or
    not, and the events sent to it are part of the result of [Inspect].
    [settingsMu] and [policyMu] each protect one read or write of a field. *)
From Stdlib Require Import ZArith Lia Ascii String QArith_base.
From stdpp Require Import gmap strings list fin_maps.
From S2P Require Import Prelude GoStrings DpiParse DpiEngine.
Local Open Scope Z_scope.

(** ** Data *)

Definition Action := string.
Definition ActionAllow : Action := "allow".
Definition ActionMonitor : Action := "monitor".
Definition ActionBlock : Action := "block".

Definition Mode := string.
Definition ModeMonitor : Mode := "monitor".
Definition ModeBlock : Mode := "block".

(** [errors.Is(err, ErrPolicySynchronizing)] holds of the first kind only. *)
Inductive policy_error :=
  | Synchronizing (msg : string)
  | OtherError (msg : string).
Definition ErrPolicySynchronizing : policy_error :=
  Synchronizing "identity policy synchronization in progress".

Record Decision := mkDecision {
  d_Action : Action; d_Reason : string; d_Finding : option Finding; d_Findings : list Finding }.
#[export] Instance eta_decision : Eta Decision := λ d,
  mkDecision (d_Action d) (d_Reason d) (d_Finding d) (d_Findings d).

Record Policy := mkPolicy {
  p_UserID : Z; p_Enabled : bool; p_Mode : Mode; p_EnabledDetectors : list string;
  p_BlockOnAnyFinding : bool; p_AllowHTTP : bool; p_AllowTLS : bool; p_AllowQUIC : bool;
  p_AllowEncryptedTunnel : bool; p_MaxInspectBytes : Z; p_TemporaryBlockTTL : Z;
  p_EncryptedTunnelMode : Mode }.
#[export] Instance eta_policy : Eta Policy := λ p,
  mkPolicy (p_UserID p) (p_Enabled p) (p_Mode p) (p_EnabledDetectors p) (p_BlockOnAnyFinding p)
    (p_AllowHTTP p) (p_AllowTLS p) (p_AllowQUIC p) (p_AllowEncryptedTunnel p)
    (p_MaxInspectBytes p) (p_TemporaryBlockTTL p) (p_EncryptedTunnelMode p).

Record Event := mkEvent {
  e_Flow : FlowContext; e_Direction : Direction; e_Action : Action; e_Reason : string;
  e_Finding : Finding; e_ObservedAt : time }.

Definition PolicyProvider := FlowContext → policy_error + Policy.

Definition DefaultPolicy : Policy :=
  mkPolicy 0 false ModeMonitor ["http"; "tls"; "quic"; "encrypted_tunnel"]%string false
    true true true true 8192 120 ModeMonitor.

Definition StaticPolicyProvider (policy : Policy) : PolicyProvider := λ _,
  inr (if bool_decide (p_MaxInspectBytes policy = 0)
       then policy <| p_MaxInspectBytes := p_MaxInspectBytes DefaultPolicy |>
                   <| p_TemporaryBlockTTL := p_TemporaryBlockTTL DefaultPolicy |>
       else policy).

Definition Allow : Decision := mkDecision ActionAllow "" None [].

(** ** Pure parts *)

Fixpoint blockedByPolicy (policy : Policy) (findings : list Finding) : bool * string * Finding :=
  match findings with
  | [] => (false, ""%string, empty_finding)
  | finding :: findings =>
      let d := ToLower (f_Detector finding) in
      if bool_decide (d = "http"%string) then
        if negb (p_AllowHTTP policy) then (true, "http is blocked by user dpi policy"%string, finding)
        else blockedByPolicy policy findings
      else if bool_decide (d = "tls"%string) then
        if negb (p_AllowTLS policy) then (true, "tls is blocked by user dpi policy"%string, finding)
        else blockedByPolicy policy findings
      else if bool_decide (d = "quic"%string) then
        if negb (p_AllowQUIC policy) then (true, "quic is blocked by user dpi policy"%string, finding)
        else blockedByPolicy policy findings
      else if bool_decide (d = "encrypted_tunnel"%string) then
        if negb (p_AllowEncryptedTunnel policy)
        then (true, "encrypted tunnel is blocked by user dpi policy"%string, finding)
        else blockedByPolicy policy findings
      else blockedByPolicy policy findings
  end.

(** The set [enabled] that [filterFindings] builds. *)
Definition enabled_set (detectors : list string) : gset string :=
  foldl (λ enabled detector,
    let detector := ToLower (TrimSpace detector) in
    if bool_decide (detector ≠ ""%string) then {[detector]} ∪ enabled else enabled) ∅ detectors.

Definition filterFindings (findings : list Finding) (enabledDetectors : list string) : list Finding :=
  if bool_decide (len findings = 0) then [] else
  let enabled := enabled_set enabledDetectors in
  if bool_decide (size enabled = 0%nat) then [] else
  filter (λ finding, ToLower (f_Detector finding) ∈ enabled) findings.

(** ** The service *)

Record Service (E : Type) := mkService {
  providerUnavailable : bool; eventsPaused : bool; leasePolicies : gmap string Policy;
  engine : E; policyProvider : PolicyProvider; eventSink : bool }.
Arguments mkService {_}. Arguments providerUnavailable {_}. Arguments eventsPaused {_}.
Arguments leasePolicies {_}. Arguments engine {_}. Arguments policyProvider {_}.
Arguments eventSink {_}.
#[export] Instance eta_service E : Eta (Service E) := λ s,
  mkService (providerUnavailable s) (eventsPaused s) (leasePolicies s) (engine s)
    (policyProvider s) (eventSink s).

Section service.
Context {E : Type} `{Engine E}.
Implicit Types s : Service E.

(** [NewService]; a nil provider is the static default policy. *)
Definition NewService (e : E) (provider : option PolicyProvider) (sink : bool) : Service E :=
  mkService false false ∅ e (default (StaticPolicyProvider DefaultPolicy) provider) sink.

Definition SetPolicyProvider s (provider : option PolicyProvider) : Service E :=
  match provider with
  | None => s
  | Some provider => s <| policyProvider := provider |>
  end.

Definition PrimeLease s (flow : FlowContext) : Service E :=
  if bool_decide (flow_LeaseID flow = ""%string) then s else
  match policyProvider s flow with
  | inr p => s <| leasePolicies := <[flow_LeaseID flow := p]> (leasePolicies s) |>
  | inl _ => s
  end.

Definition SetProviderUnavailable s (unavailable pauseEvents : bool) : Service E :=
  s <| providerUnavailable := unavailable |> <| eventsPaused := unavailable && pauseEvents |>.

Definition SetEventSink s (sink : bool) : Service E := s <| eventSink := sink |>.

Definition record s (sample : TrafficSample) (decision : Decision) (finding : Finding) : list Event :=
  if eventsPaused s then [] else
  if negb (eventSink s) then [] else
  [mkEvent (ts_Flow sample) (ts_Direction sample) (d_Action decision) (d_Reason decision)
     finding (ts_ObservedAt sample)].

(** The defaults [Inspect] fills in. *)
Definition complete_sample (now : time) (sample : TrafficSample) : TrafficSample :=
  let sample := if IsZero (ts_ObservedAt sample) then sample <| ts_ObservedAt := now |> else sample in
  let sample := if bool_decide (ts_PayloadLength sample = 0)
                then sample <| ts_PayloadLength := len (ts_Payload sample) |> else sample in
  if bool_decide (ts_CapturedLength sample = 0)
  then sample <| ts_CapturedLength := len (ts_Payload sample) |> else sample.

(** The policy of the sample: the provider's, saved for the lease, or the
    one saved for the lease when the provider fails. *)
Definition lookup_policy s (flow : FlowContext) : Service E * (policy_error + Policy) :=
  let answer := if providerUnavailable s then inl ErrPolicySynchronizing
                else policyProvider s flow in
  let lease := flow_LeaseID flow in
  match answer with
  | inr policy =>
      if bool_decide (lease ≠ ""%string)
      then (s <| leasePolicies := <[lease := policy]> (leasePolicies s) |>, answer)
      else (s, answer)
  | inl err =>
      if bool_decide (lease ≠ ""%string)
      then match leasePolicies s !! lease with
           | Some saved => (s, inr saved)
           | None => (s, answer)
           end
      else (s, answer)
  end.

(** The decision on the findings that the policy's detectors keep. *)
Definition decide_findings (policy : Policy) (findings : list Finding) : Decision :=
  let decision := mkDecision ActionMonitor "dpi finding observed" (head findings) findings in
  let decision :=
    if bool_decide (p_Mode policy = ModeBlock) then
      let '(blocked, reason, finding) := blockedByPolicy policy findings in
      if blocked : bool
      then decision <| d_Action := ActionBlock |> <| d_Reason := reason |>
                    <| d_Finding := Some finding |>
      else decision
    else decision in
  if negb (bool_decide (d_Action decision = ActionBlock)) && bool_decide (p_Mode policy = ModeBlock) &&
     p_BlockOnAnyFinding policy
  then decision <| d_Action := ActionBlock |> <| d_Reason := "blocked by dpi policy"%string |>
  else decision.

Definition Inspect s (now : time) (sample : TrafficSample) :
    option (Service E * Decision * list Event) :=
  let sample := complete_sample now sample in
  let '(s, answer) := lookup_policy s (ts_Flow sample) in
  match answer with
  | inl (Synchronizing msg) => Some (s, mkDecision ActionBlock msg None [], [])
  | inl (OtherError _) => Some (s, Allow, [])
  | inr policy =>
      if negb (p_Enabled policy) || bool_decide (len (p_EnabledDetectors policy) = 0)
      then Some (s, Allow, [])
      else
        '(e, result) ← engine_Inspect (engine s) now sample;
        let s := s <| engine := e |> in
        match result with
        | inl msg =>
            let decision := mkDecision ActionMonitor ("dpi engine error: " +:+ msg) None [] in
            Some (s, decision,
              record s sample decision
                (empty_finding <| f_Detector := "engine"%string |> <| f_Summary := d_Reason decision |>))
        | inr result =>
            let findings := filterFindings (res_Findings result) (p_EnabledDetectors policy) in
            if bool_decide (len findings = 0) then Some (s, Allow, [])
            else
              let decision := decide_findings policy findings in
              Some (s, decision, findings ≫= record s sample decision)
        end
  end.

(** ** Which policy applies *)

(** The provider's answer at this moment. *)
Definition provider_answer s (flow : FlowContext) : policy_error + Policy :=
  if providerUnavailable s then inl ErrPolicySynchronizing else policyProvider s flow.

(** The policy that was saved for the lease, if the flow has one. *)
Definition saved_policy s (flow : FlowContext) : option Policy :=
  if bool_decide (flow_LeaseID flow = ""%string) then None
  else leasePolicies s !! flow_LeaseID flow.

Lemma complete_sample_flow now sample : ts_Flow (complete_sample now sample) = ts_Flow sample.
Proof. unfold complete_sample. by repeat case_match. Qed.

Lemma complete_sample_payload now sample :
  ts_Payload (complete_sample now sample) = ts_Payload sample.
Proof. unfold complete_sample. by repeat case_match. Qed.

Lemma complete_sample_direction now sample :
  ts_Direction (complete_sample now sample) = ts_Direction sample.
Proof. unfold complete_sample. by repeat case_match. Qed.

Lemma lookup_policy_answer s flow :
  (lookup_policy s flow).2 =
    match provider_answer s flow with
    | inr p => inr p
    | inl err => match saved_policy s flow with Some p => inr p | None => inl err end
    end.
Proof.
  unfold lookup_policy, provider_answer, saved_policy. rewrite bool_decide_not.
  destruct (if providerUnavailable s then _ else _) as [err|p]; case_bool_decide; cbn; try done.
  by destruct (leasePolicies s !! _).
Qed.

Lemma lookup_policy_frame s flow :
  engine (lookup_policy s flow).1 = engine s ∧
  eventsPaused (lookup_policy s flow).1 = eventsPaused s ∧
  eventSink (lookup_policy s flow).1 = eventSink s.
Proof. unfold lookup_policy. repeat case_match; done. Qed.

(** C27: deliberate unavailability fails closed: while the provider is marked
    unavailable, or answers that it is synchronizing, a flow without a saved
    policy is blocked, the engine is not consulted and nothing is recorded. *)
Theorem Inspect_fail_closed s now sample :
  (∃ msg, provider_answer s (ts_Flow sample) = inl (Synchronizing msg)) →
  saved_policy s (ts_Flow sample) = None →
  ∃ s' d, Inspect s now sample = Some (s', d, []) ∧ d_Action d = ActionBlock ∧
          engine s' = engine s ∧ leasePolicies s' = leasePolicies s.
Proof.
  intros [msg Hmsg] Hsaved. unfold Inspect. rewrite complete_sample_flow.
  pose proof (lookup_policy_answer s (ts_Flow sample)) as Ha. rewrite Hmsg, Hsaved in Ha.
  unfold lookup_policy, provider_answer, saved_policy in *. rewrite Hmsg in *.
  rewrite bool_decide_not in *. case_bool_decide; cbn in *.
  - eexists _, _. done.
  - rewrite Hsaved. eexists _, _. done.
Qed.

(** a lease keeps its last verified policy: while the provider fails, for
    whatever reason, a sample of a lease with a saved policy is treated exactly as
    if the provider had answered that policy. *)
Theorem Inspect_saved_policy s now sample err p :
  provider_answer s (ts_Flow sample) = inl err → saved_policy s (ts_Flow sample) = Some p →
  ∀ s' d evs,
    Inspect s now sample = Some (s', d, evs) ↔
    ∃ s1, Inspect (s <| providerUnavailable := false |> <| policyProvider := λ _, inr p |>)
                now sample = Some (s1, d, evs) ∧
          s' = s1 <| providerUnavailable := providerUnavailable s |>
                  <| policyProvider := policyProvider s |>.
Proof.
  intros Herr Hsaved s' d evs. unfold Inspect. rewrite complete_sample_flow.
  unfold provider_answer in Herr. unfold saved_policy in Hsaved.
  case_bool_decide as Hlease; [done|].
  unfold lookup_policy. rewrite Herr. cbn. rewrite !(bool_decide_true (flow_LeaseID _ ≠ _)) by done.
  rewrite Hsaved. rewrite (insert_id _ _ _ Hsaved).
  destruct (negb _ || _).
  { split; [intros [= <- <- <-]|intros (s1 & [= <- <- <-] & ->)]; [eexists; split; [done|]|];
      by destruct s. }
  cbn. destruct (engine_Inspect _ _ _) as [[e [msg|r]]|]; cbn; [..|naive_solver];
    [|case_bool_decide]; unfold record; cbn;
    (split; [intros [= <- <- <-]|intros (s1 & [= <- <- <-] & ->)]; [eexists; split; [done|]|];
      by destruct s).
Qed.

(** ** What is blocked *)

(** The finding's protocol is disallowed by the policy. *)
Definition disallowed (policy : Policy) (f : Finding) : Prop :=
  (ToLower (f_Detector f) = "http"%string ∧ p_AllowHTTP policy = false) ∨
  (ToLower (f_Detector f) = "tls"%string ∧ p_AllowTLS policy = false) ∨
  (ToLower (f_Detector f) = "quic"%string ∧ p_AllowQUIC policy = false) ∨
  (ToLower (f_Detector f) = "encrypted_tunnel"%string ∧ p_AllowEncryptedTunnel policy = false).

Lemma blockedByPolicy_spec policy fs :
  match blockedByPolicy policy fs with
  | (true, _, f) => ∃ pre post, fs = pre ++ f :: post ∧ disallowed policy f ∧
                                Forall (λ g, ¬ disallowed policy g) pre
  | (false, _, _) => Forall (λ g, ¬ disallowed policy g) fs
  end.
Proof.
  induction fs as [|f fs IH]; [constructor|].
  assert (disallowed policy f →
    ∃ pre post, f :: fs = pre ++ f :: post ∧ disallowed policy f ∧
                Forall (λ g, ¬ disallowed policy g) pre) as Hhere.
  { intros Hd. exists [], fs. done. }
  assert (¬ disallowed policy f →
    match blockedByPolicy policy fs with
    | (true, _, g) => ∃ pre post, f :: fs = pre ++ g :: post ∧ disallowed policy g ∧
                                  Forall (λ g, ¬ disallowed policy g) pre
    | (false, _, _) => Forall (λ g, ¬ disallowed policy g) (f :: fs)
    end) as Hnext.
  { intros Hn. destruct (blockedByPolicy policy fs) as [[[] ?] g]; [|by constructor].
    destruct IH as (pre & post & -> & Hg & Hpre). exists (f :: pre), post.
    split; [done|]. split; [done|]. by constructor. }
  cbn. repeat (case_bool_decide;
    [match goal with |- context [negb ?b] => destruct b eqn:? end; cbn;
      [apply Hnext; intros [[? ?]|[[? ?]|[[? ?]|[? ?]]]]; congruence
      |apply Hhere; unfold disallowed; tauto]|]).
  apply Hnext. intros [[? ?]|[[? ?]|[[? ?]|[? ?]]]]; congruence.
Qed.

Lemma decide_findings_spec policy fs :
  let d := decide_findings policy fs in
  d_Findings d = fs ∧ (d_Action d = ActionBlock ∨ d_Action d = ActionMonitor) ∧
  (d_Action d = ActionBlock ↔
     p_Mode policy = ModeBlock ∧ (p_BlockOnAnyFinding policy = true ∨ Exists (disallowed policy) fs)).
Proof.
  cbn zeta. unfold decide_findings. pose proof (blockedByPolicy_spec policy fs) as Hb.
  destruct (blockedByPolicy policy fs) as [[blocked reason] f].
  destruct (decide (p_Mode policy = ModeBlock)) as [Hm|Hm];
    [rewrite !(bool_decide_true _ Hm)|rewrite !(bool_decide_false _ Hm)]; cycle 1.
  { rewrite andb_false_r. cbn. split; [done|]. split; [by right|]. split; [done|by intros [? _]]. }
  destruct blocked; cbn.
  - split; [done|]. split; [by left|]. split; [|done]. intros _. split; [done|]. right.
    destruct Hb as (pre & post & -> & Hd & _). apply Exists_app. right. by constructor.
  - destruct (p_BlockOnAnyFinding policy) eqn:Hany; cbn.
    + split; [done|]. split; [by left|]. split; [|done]. auto.
    + split; [done|]. split; [by right|]. split; [done|]. intros [_ [?|Hex]]; [done|].
      apply Exists_exists in Hex as (g & Hg & Hd). rewrite Forall_forall in Hb. by apply Hb in Hg.
Qed.

Lemma elem_of_enabled_set detectors x :
  x ∈ enabled_set detectors ↔ x ≠ ""%string ∧ ∃ d, d ∈ detectors ∧ ToLower (TrimSpace d) = x.
Proof.
  unfold enabled_set.
  assert (∀ X : gset string, x ∈ foldl (λ enabled detector,
    let detector := ToLower (TrimSpace detector) in
    if bool_decide (detector ≠ ""%string) then {[detector]} ∪ enabled else enabled) X detectors ↔
    x ∈ X ∨ x ≠ ""%string ∧ ∃ d, d ∈ detectors ∧ ToLower (TrimSpace d) = x) as ->; [|set_solver].
  induction detectors as [|d ds IH]; intros X; cbn; [set_solver|].
  rewrite IH. case_bool_decide; set_solver.
Qed.

(** The findings the policy's detectors keep. *)
Definition kept (policy : Policy) (f : Finding) : Prop :=
  ToLower (f_Detector f) ≠ ""%string ∧
  ∃ d, d ∈ p_EnabledDetectors policy ∧ ToLower (TrimSpace d) = ToLower (f_Detector f).

Lemma elem_of_filterFindings fs policy f :
  f ∈ filterFindings fs (p_EnabledDetectors policy) ↔ f ∈ fs ∧ kept policy f.
Proof.
  unfold filterFindings, kept. case_bool_decide as Hl; [apply len_0 in Hl as ->; set_solver|].
  rewrite <-elem_of_enabled_set. case_bool_decide as Hs.
  - apply size_empty_inv in Hs. set_solver.
  - rewrite list_elem_of_filter. tauto.
Qed.

(** The policy [Inspect] uses, [None] when there is none. *)
Definition effective_policy s (flow : FlowContext) : option Policy :=
  match (lookup_policy s flow).2 with inr p => Some p | inl _ => None end.

Lemma Inspect_enabled s now sample p e r :
  effective_policy s (ts_Flow sample) = Some p →
  p_Enabled p = true → p_EnabledDetectors p ≠ [] →
  engine_Inspect (engine s) now (complete_sample now sample) = Some (e, inr r) →
  let fs := filterFindings (res_Findings r) (p_EnabledDetectors p) in
  let s' := (lookup_policy s (ts_Flow sample)).1 <| engine := e |> in
  let d := decide_findings p fs in
  Inspect s now sample =
    if bool_decide (fs = []) then Some (s', Allow, [])
    else Some (s', d, fs ≫= record s' (complete_sample now sample) d).
Proof.
  intros Hp Hen Hdet He. cbn zeta. unfold effective_policy in Hp. unfold Inspect.
  rewrite complete_sample_flow.
  destruct (lookup_policy_frame s (ts_Flow sample)) as [Heng _].
  destruct (lookup_policy s (ts_Flow sample)) as [s1 answer]. cbn in *.
  destruct answer as [|p']; [done|]. injection Hp as ->.
  rewrite Hen, (bool_decide_false (len _ = 0)) by (intros ?%len_0; done). cbn.
  rewrite Heng, He. cbn. set (fs := filterFindings _ _).
  rewrite (bool_decide_ext (len fs = 0) (fs = [])); [done|].
  split; [apply len_0|by intros ->].
Qed.

(** exactly what the service blocks: with a policy in force and the
    engine's findings [r], the decision is block if and only if the policy is in
    block mode and a finding of an enabled detector is present and either the
    policy blocks on any finding or such a finding's protocol is disallowed.  In
    monitor mode nothing is ever blocked. *)
Theorem Inspect_block_iff s now sample p e r :
  effective_policy s (ts_Flow sample) = Some p →
  p_Enabled p = true → p_EnabledDetectors p ≠ [] →
  engine_Inspect (engine s) now (complete_sample now sample) = Some (e, inr r) →
  ∃ s' d evs, Inspect s now sample = Some (s', d, evs) ∧
    (d_Action d = ActionBlock ↔
       p_Mode p = ModeBlock ∧
       ∃ f, f ∈ res_Findings r ∧ kept p f ∧
            (p_BlockOnAnyFinding p = true ∨ disallowed p f)).
Proof.
  intros Hp Hen Hdet He. rewrite (Inspect_enabled s now sample p e r) by done. cbn zeta.
  pose proof (elem_of_filterFindings (res_Findings r) p) as Hin. revert Hin.
  set (fs := filterFindings _ _). intros Hin. case_bool_decide as Hfs.
  - eexists _, _, _. split; [done|]. split; [done|].
    intros (_ & f & Hf & Hk & _). assert (f ∈ fs) as Hff by (by apply Hin).
    rewrite Hfs in Hff. by apply not_elem_of_nil in Hff.
  - eexists _, _, _. split; [done|].
    destruct (decide_findings_spec p fs) as (_ & _ & ->).
    rewrite Exists_exists. destruct fs as [|f fs]; [done|]. split.
    + intros (? & [?|(g & Hg & ?)]); (split; [done|]).
      * exists f. destruct (Hin f) as [[? ?] _]; [by left|]. auto.
      * exists g. apply Hin in Hg as [? ?]. auto.
    + intros (? & g & Hg & Hk & [?|?]); (split; [done|]); [by left|right].
      exists g. by rewrite Hin.
Qed.

(** every finding of an enabled detector is recorded, once, in order,
    with the action and reason of the decision that the caller gets; nothing is
    recorded while events are paused or without a sink. *)
Theorem Inspect_events s now sample p e r :
  effective_policy s (ts_Flow sample) = Some p →
  p_Enabled p = true → p_EnabledDetectors p ≠ [] →
  engine_Inspect (engine s) now (complete_sample now sample) = Some (e, inr r) →
  ∃ s' d evs, Inspect s now sample = Some (s', d, evs) ∧
    if eventsPaused s || negb (eventSink s) then evs = []
    else e_Finding <$> evs = filterFindings (res_Findings r) (p_EnabledDetectors p) ∧
         Forall (λ ev, e_Action ev = d_Action d ∧ e_Reason ev = d_Reason d ∧
                       e_Flow ev = ts_Flow sample ∧ e_Direction ev = ts_Direction sample) evs.
Proof.
  intros Hp Hen Hdet He. rewrite (Inspect_enabled s now sample p e r) by done. cbn zeta.
  set (fs := filterFindings _ _). case_bool_decide as Hfs.
  { eexists _, _, _. split; [done|]. rewrite Hfs. destruct (_ || _); done. }
  eexists _, _, _. split; [done|]. generalize (decide_findings p fs). intros d.
  destruct (lookup_policy_frame s (ts_Flow sample)) as (_ & Hpause & Hsink).
  unfold record. cbn. rewrite Hpause, Hsink, complete_sample_flow, complete_sample_direction.
  clear. destruct (eventsPaused s), (eventSink s); cbn; try (by induction fs).
  induction fs as [|f fs [IH1 IH2]]; cbn; [done|]. split; [by f_equal|]. by constructor.
Qed.

(** a lease primed while the provider answers [p] keeps being inspected
    under [p] after the provider is marked unavailable: its flows are neither
    blocked for synchronization nor left uninspected. *)
Theorem PrimeLease_survives s flow p pause :
  flow_LeaseID flow ≠ ""%string → policyProvider s flow = inr p →
  effective_policy (SetProviderUnavailable (PrimeLease s flow) true pause) flow = Some p.
Proof.
  intros Hlease Hp. unfold effective_policy. rewrite lookup_policy_answer.
  unfold PrimeLease. rewrite bool_decide_false by done. rewrite Hp. cbn.
  unfold saved_policy. rewrite bool_decide_false by done. cbn. by rewrite lookup_insert_eq.
Qed.

End service.

(** ** The service over the composite engine *)

(** end to end, a request is recognised and blocked: under a policy in
    block mode that disallows HTTP, any well-formed request on a flow within its
    inspection budget is blocked, and the decision names the request's host. *)
Theorem http_request_blocked (s : Service CompositeEngine) now sample p ls h rest :
  effective_policy s (ts_Flow sample) = Some p →
  p_Enabled p = true → p_Mode p = ModeBlock → p_AllowHTTP p = false →
  "http"%string ∈ p_EnabledDetectors p →
  engine_ok (engine s) →
  inspectedBytes (flow_before (engine s) (sample_key sample)) < maxInspectBytes →
  ts_Payload sample = render_request ls h rest → Forall is_byte (ts_Payload sample) →
  request_ok ls h → 16 ≤ len (render_request ls h rest) →
  ∃ s' d evs, Inspect s now sample = Some (s', d, evs) ∧ d_Action d = ActionBlock ∧
              d_Finding d = Some (http_finding (hl_host h)).
Proof.
  intros Hp Hen Hmode Hallow Hdet He Hi Hpay Hb Hreq H16.
  assert (hl_host h ≠ []) as Hne by apply Hreq.
  destruct (Inspect_http (engine s) now (complete_sample now sample) (hl_host h))
    as (e' & fs & Heng); rewrite ?complete_sample_payload; try done.
  { rewrite Hpay. by apply ParseHTTPHost_request. }
  { unfold sample_key. by rewrite complete_sample_flow, complete_sample_direction. }
  rewrite (Inspect_enabled s now sample p e' (mkResult (http_finding (hl_host h) :: fs)));
    [|done|done|by intros Hd; rewrite Hd in Hdet; apply not_elem_of_nil in Hdet|by cbn; rewrite Heng].
  cbn zeta. assert (∃ gs, filterFindings (res_Findings (mkResult (http_finding (hl_host h) :: fs)))
    (p_EnabledDetectors p) = http_finding (hl_host h) :: gs) as [gs ->].
  { pose proof (elem_of_enabled_set (p_EnabledDetectors p) "http") as Hset.
    assert ("http"%string ∈ enabled_set (p_EnabledDetectors p)) as Hin.
    { apply Hset. split; [done|]. by exists "http"%string. }
    unfold filterFindings. cbn [res_Findings]. rewrite bool_decide_false by lens.
    rewrite bool_decide_false by (intros Hz%size_empty_inv; set_solver).
    rewrite filter_cons, decide_True by exact Hin. eauto. }
  rewrite bool_decide_false by done. eexists _, _, _. split; [done|].
  unfold decide_findings. rewrite Hmode. rewrite !(bool_decide_true (ModeBlock = ModeBlock)) by done.
  cbn. rewrite Hallow. by cbn.
Qed.

(** ** Witnesses *)

Definition block_policy : Policy :=
  DefaultPolicy <| p_Enabled := true |> <| p_Mode := ModeBlock |> <| p_AllowHTTP := false |>.
Definition demo_service : Service CompositeEngine :=
  NewService NewCompositeEngine (Some (StaticPolicyProvider block_policy)) true.
Definition demo_request : bytes :=
  bytes_of_string "GET / HTTP/1.1" ++ crlf ++ bytes_of_string "Host: a.b" ++ crlf ++ crlf.
Definition demo_sample : TrafficSample := sample_of "1.2.3.4:5" 9 demo_request.
Definition demo_engine : CompositeEngine :=
  mkCE {[ "lease|web|tcp|1.2.3.4:5|inbound"%string := mkFS [] 29 1 false 9 ]}.
Definition demo_result : Result := mkResult [http_finding (bytes_of_string "a.b")].

Lemma Inspect_fail_closed_witness :
  ∃ s' d, Inspect (SetProviderUnavailable demo_service true true) 9 demo_sample = Some (s', d, []) ∧
    d_Action d = ActionBlock ∧ engine s' = engine (SetProviderUnavailable demo_service true true) ∧
    leasePolicies s' = leasePolicies (SetProviderUnavailable demo_service true true).
Proof. apply Inspect_fail_closed; [by eexists|done]. Defined.

Definition unavailable_service : Service CompositeEngine :=
  SetProviderUnavailable (PrimeLease demo_service (flow_from "1.2.3.4:5")) true false.

Lemma Inspect_saved_policy_witness :
  provider_answer unavailable_service (ts_Flow demo_sample) = inl ErrPolicySynchronizing ∧
  ∀ s' d evs,
    Inspect unavailable_service 9 demo_sample = Some (s', d, evs) ↔
    ∃ s1, Inspect (unavailable_service <| providerUnavailable := false |>
                                       <| policyProvider := λ _, inr block_policy |>)
                9 demo_sample = Some (s1, d, evs) ∧
          s' = s1 <| providerUnavailable := providerUnavailable unavailable_service |>
                  <| policyProvider := policyProvider unavailable_service |>.
Proof. split; [done|]. eapply Inspect_saved_policy; done. Defined.

Lemma Inspect_block_iff_witness :
  ∃ s' d evs, Inspect demo_service 9 demo_sample = Some (s', d, evs) ∧
    (d_Action d = ActionBlock ↔
       p_Mode block_policy = ModeBlock ∧
       ∃ f, f ∈ res_Findings demo_result ∧ kept block_policy f ∧
            (p_BlockOnAnyFinding block_policy = true ∨ disallowed block_policy f)).
Proof.
  apply (Inspect_block_iff _ _ _ _ demo_engine); [done|done|done|vm_compute; done].
Defined.

Lemma Inspect_events_witness :
  ∃ s' d evs, Inspect demo_service 9 demo_sample = Some (s', d, evs) ∧
    if eventsPaused demo_service || negb (eventSink demo_service) then evs = []
    else e_Finding <$> evs =
           filterFindings (res_Findings demo_result) (p_EnabledDetectors block_policy) ∧
         Forall (λ ev, e_Action ev = d_Action d ∧ e_Reason ev = d_Reason d ∧
                       e_Flow ev = ts_Flow demo_sample ∧
                       e_Direction ev = ts_Direction demo_sample) evs.
Proof.
  apply (Inspect_events _ _ _ _ demo_engine); [done|done|done|vm_compute; done].
Defined.

Lemma PrimeLease_survives_witness :
  effective_policy (SetProviderUnavailable (PrimeLease demo_service (flow_from "1.2.3.4:5")) true true)
    (flow_from "1.2.3.4:5") = Some block_policy.
Proof. apply PrimeLease_survives; done. Defined.

Lemma http_request_blocked_witness :
  ∃ s' d evs, Inspect demo_service 9 demo_sample = Some (s', d, evs) ∧ d_Action d = ActionBlock ∧
              d_Finding d = Some (http_finding (bytes_of_string "a.b")).
Proof.
  apply (http_request_blocked demo_service 9 demo_sample block_policy
    [bytes_of_string "GET / HTTP/1.1"]
    (HostLine (bytes_of_string "Host:") [32] (bytes_of_string "a.b") []) crlf); try done.
  - by left.
  - apply Forall_forall. intros x Hx. unfold is_byte.
    assert (Forall (λ x, 0 ≤ x < 256) (ts_Payload demo_sample)) as Hall
      by (vm_compute ts_Payload; repeat constructor; done).
    rewrite Forall_forall in Hall. auto.
  - split; [by eexists _, _|]. split; [|split].
    + repeat constructor; done.
    + repeat split; done || (repeat constructor; done).
    + vm_compute. done.
Defined.
