(* ===== verification/FrpManager.v ===== *)
(** * The frps manager

    [internal/frpcore/manager.go] and [internal/frpcore/admission.go]: proxy
    bindings, tracked TCP connections and UDP flows, blocked addresses, traffic
    counters, and the admission of new proxy registrations with the per-client
    counts that drive a drain.

    Every method body runs under [m.mu] (and, for admission, [m.admissionMu]),
    so each is a function on the manager's state.  A [net.Conn] is a handle, a
    number; a method that closes connections returns the handles it closed.  A
    Go map is a finite map; iterating over it is order independent here, the
    returned lists follow the map's own order.  What is not state of these two
    files (the frps service, the TLS identity, the cleanup goroutine's channels)
    is left out; [FrpDrain] adds the lock discipline. *)
From Stdlib Require Import ZArith Lia Ascii String.
From stdpp Require Import gmap strings list fin_maps.
From S2P Require Import Prelude GoStrings Types DpiParse DpiEngine DpiService.
Local Open Scope Z_scope.

(** ** Data *)

Definition defaultUDPFlowTimeout : duration := 10 * Second.
Definition udpCleanupInterval : duration := Second.
Definition maxTrackedUDPFlows : Z := 32768.

Record ProxyBinding := mkBinding {
  b_UserID : Z; b_TokenID : Z; b_ClientID : string; b_ClientAddr : string;
  b_LeaseID : string; b_ProxyName : string; b_ProxyType : string; b_RemotePort : Z }.
#[export] Instance eta_binding : Eta ProxyBinding := λ r,
  mkBinding (b_UserID r) (b_TokenID r) (b_ClientID r) (b_ClientAddr r) (b_LeaseID r)
    (b_ProxyName r) (b_ProxyType r) (b_RemotePort r).

Record ActiveConnection := mkActive {
  a_ID : string; a_Protocol : string; a_UserID : Z; a_TokenID : Z; a_ClientID : string;
  a_ClientAddr : string; a_LeaseID : string; a_ProxyName : string; a_ProxyType : string;
  a_RemotePort : Z; a_InboundAddr : string; a_InboundIP : string; a_InboundPort : Z;
  a_ServerAddr : string; a_OpenedAt : time; a_LastSeenAt : time; a_CanTerminate : bool }.
#[export] Instance eta_active : Eta ActiveConnection := λ r,
  mkActive (a_ID r) (a_Protocol r) (a_UserID r) (a_TokenID r) (a_ClientID r) (a_ClientAddr r)
    (a_LeaseID r) (a_ProxyName r) (a_ProxyType r) (a_RemotePort r) (a_InboundAddr r)
    (a_InboundIP r) (a_InboundPort r) (a_ServerAddr r) (a_OpenedAt r) (a_LastSeenAt r)
    (a_CanTerminate r).

Record BlockedInboundIP := mkBlock { bl_IP : string; bl_Reason : string; bl_CreatedAt : time }.
#[export] Instance eta_block : Eta BlockedInboundIP := λ r,
  mkBlock (bl_IP r) (bl_Reason r) (bl_CreatedAt r).

Record TrafficSnapshot := mkTraffic {
  BytesInbound : Z; BytesOutbound : Z; SamplesInbound : Z; SamplesOutbound : Z;
  StartedAt : time; CapturedAt : time }.
#[export] Instance eta_traffic : Eta TrafficSnapshot := λ r,
  mkTraffic (BytesInbound r) (BytesOutbound r) (SamplesInbound r) (SamplesOutbound r)
    (StartedAt r) (CapturedAt r).

Record activeTCPConnection := mkTCP {
  tc_active : ActiveConnection; tc_userConn : Z; tc_workConn : option Z }.

Record Manager := mkManager {
  admissionClosed : bool;
  drainingClients : gset string;
  runtimeLeases : gmap string RuntimeLease;
  registeredProxies : gmap string string;
  proxyCounts : gmap string Z;
  leaseProxyCounts : gmap string Z;
  bindings : gmap string ProxyBinding;
  leaseClientAddresses : gmap string string;
  tcpConnections : gmap string activeTCPConnection;
  udpFlows : gmap string ActiveConnection;
  blockedInboundIPs : gmap string BlockedInboundIP;
  traffic : TrafficSnapshot;
  nextConnectionID : Z;
  udpFlowTimeout : duration;
  maxUDPFlows : Z }.
#[export] Instance eta_manager : Eta Manager := λ m,
  mkManager (admissionClosed m) (drainingClients m) (runtimeLeases m) (registeredProxies m)
    (proxyCounts m) (leaseProxyCounts m) (bindings m) (leaseClientAddresses m) (tcpConnections m)
    (udpFlows m) (blockedInboundIPs m) (traffic m) (nextConnectionID m) (udpFlowTimeout m)
    (maxUDPFlows m).

(** [dpihook.ConnectionInfo], the fields the manager reads. *)
Record ConnectionInfo := mkInfo {
  ci_LeaseID : string; ci_ProxyName : string; ci_ProxyType : string;
  ci_LocalAddr : string; ci_RemoteAddr : string }.

(** The plugin's [UserInfo]. *)
Record UserInfo := mkUserInfo { ui_User : string; ui_Metas : gmap string string; ui_RunID : string }.

Definition NewManager (now : time) : Manager :=
  mkManager false ∅ ∅ ∅ ∅ ∅ ∅ ∅ ∅ ∅ ∅ (mkTraffic 0 0 0 0 now zero_time) 0
    defaultUDPFlowTimeout maxTrackedUDPFlows.

(** ** Keys and addresses *)

Definition bindingKey (leaseID proxyName : string) : string := leaseID +:+ String (chr 0) proxyName.
Definition clientKey (tokenID : Z) (clientID : string) : string := fmt_d tokenID +:+ String ":" clientID.

Definition splitAddr (addr : string) : string * Z :=
  match SplitHostPort (TrimSpace addr) with
  | None => (TrimSpace addr, 0)
  | Some (host, portText) => (host, (Atoi portText).1)
  end.

Definition valueOr (value fallback : string) : string :=
  if bool_decide (value ≠ ""%string) then value else fallback.

(** The handles [abortiveClose] is called on for one connection. *)
Definition conn_handles (c : activeTCPConnection) : list Z :=
  tc_userConn c :: match tc_workConn c with Some w => [w] | None => [] end.

(** Reading a missing key of a Go map gives the zero value. *)
Definition count_of (m : gmap string Z) (k : string) : Z := default 0 (m !! k).

(** ** Bindings *)

Definition SetUDPFlowTimeout (m : Manager) (timeout : duration) : Manager :=
  m <| udpFlowTimeout := if bool_decide (timeout ≤ 0) then defaultUDPFlowTimeout else timeout |>.

Definition BindProxy (m : Manager) (binding : ProxyBinding) : Manager :=
  let binding :=
    if bool_decide (b_ClientAddr binding = ""%string)
    then binding <| b_ClientAddr := default ""%string (leaseClientAddresses m !! b_LeaseID binding) |>
    else binding in
  m <| bindings := <[bindingKey (b_LeaseID binding) (b_ProxyName binding) := binding]> (bindings m) |>.

Definition UnbindProxy (m : Manager) (leaseID proxyName : string) : Manager :=
  m <| bindings := delete (bindingKey leaseID proxyName) (bindings m) |>.

Definition LookupProxy (m : Manager) (leaseID proxyName : string) : option ProxyBinding :=
  bindings m !! bindingKey leaseID proxyName.

Definition SetLeaseClientAddress (m : Manager) (leaseID clientAddress : string) : Manager :=
  let clientAddress := TrimSpace clientAddress in
  m <| leaseClientAddresses := <[leaseID := clientAddress]> (leaseClientAddresses m) |>
    <| bindings := (λ b, if bool_decide (b_LeaseID b = leaseID)
                         then b <| b_ClientAddr := clientAddress |> else b) <$> bindings m |>
    <| tcpConnections := (λ c, if bool_decide (a_LeaseID (tc_active c) = leaseID)
                               then mkTCP ((tc_active c) <| a_ClientAddr := clientAddress |>)
                                      (tc_userConn c) (tc_workConn c)
                               else c) <$> tcpConnections m |>
    <| udpFlows := (λ f, if bool_decide (a_LeaseID f = leaseID)
                         then f <| a_ClientAddr := clientAddress |> else f) <$> udpFlows m |>.

Definition bindingForLocked (m : Manager) (leaseID proxyName : string) : ProxyBinding :=
  match bindings m !! bindingKey leaseID proxyName with
  | Some binding => binding
  | None => mkBinding 0 0 "" (default ""%string (leaseClientAddresses m !! leaseID)) leaseID proxyName "" 0
  end.

(** ** Connections *)

Definition IsInboundBlocked (m : Manager) (info : ConnectionInfo) : bool :=
  let '(ip, _) := splitAddr (ci_RemoteAddr info) in
  if bool_decide (ip = ""%string) then false
  else bool_decide (is_Some (blockedInboundIPs m !! ip)).

Definition RegisterTCPConnection (m : Manager) (now : time) (info : ConnectionInfo)
    (userConn : Z) (workConn : option Z) : Manager * string :=
  let next := wrap_uint64 (nextConnectionID m + 1) in
  let id := "tcp_" +:+ fmt_d next in
  let binding := bindingForLocked m (ci_LeaseID info) (ci_ProxyName info) in
  let '(inboundIP, inboundPort) := splitAddr (ci_RemoteAddr info) in
  let conn := mkTCP (mkActive id "tcp" (b_UserID binding) (b_TokenID binding) (b_ClientID binding)
                       (b_ClientAddr binding) (ci_LeaseID info) (ci_ProxyName info)
                       (valueOr (ci_ProxyType info) (b_ProxyType binding)) (b_RemotePort binding)
                       (ci_RemoteAddr info) inboundIP inboundPort (ci_LocalAddr info) now now true)
                userConn workConn in
  (m <| nextConnectionID := next |> <| tcpConnections := <[id := conn]> (tcpConnections m) |>, id).

Definition UnregisterTCPConnection (m : Manager) (id : string) : Manager :=
  if bool_decide (id = ""%string) then m
  else m <| tcpConnections := delete id (tcpConnections m) |>.

Definition udpKey (info : ConnectionInfo) : string :=
  ci_LeaseID info +:+ String (chr 0) (ci_ProxyName info +:+ String (chr 0) (ci_RemoteAddr info)).

Definition ObserveUDPFlow (m : Manager) (now : time) (info : ConnectionInfo) : Manager :=
  let binding := bindingForLocked m (ci_LeaseID info) (ci_ProxyName info) in
  let '(inboundIP, inboundPort) := splitAddr (ci_RemoteAddr info) in
  let key := udpKey info in
  let fresh_flow := bool_decide (from_option a_ID ""%string (udpFlows m !! key) = ""%string) in
  if fresh_flow && bool_decide (0 < maxUDPFlows m) &&
     bool_decide (maxUDPFlows m ≤ Z.of_nat (size (udpFlows m)))
  then m
  else
    let next := if fresh_flow then wrap_uint64 (nextConnectionID m + 1) else nextConnectionID m in
    let id := if fresh_flow then "udp_" +:+ fmt_d next else from_option a_ID ""%string (udpFlows m !! key) in
    let opened := if fresh_flow then now else from_option a_OpenedAt zero_time (udpFlows m !! key) in
    let flow := mkActive id "udp" (b_UserID binding) (b_TokenID binding) (b_ClientID binding)
                  (b_ClientAddr binding) (ci_LeaseID info) (ci_ProxyName info)
                  (valueOr (ci_ProxyType info) (b_ProxyType binding)) (b_RemotePort binding)
                  (ci_RemoteAddr info) inboundIP inboundPort (ci_LocalAddr info) opened now false in
    m <| nextConnectionID := next |> <| udpFlows := <[key := flow]> (udpFlows m) |>.

Definition ListConnections (m : Manager) (now : time) (udpTimeout : duration) : list ActiveConnection :=
  let udpTimeout := if bool_decide (udpTimeout ≤ 0) then defaultUDPFlowTimeout else udpTimeout in
  (tc_active <$> (map_to_list (tcpConnections m)).*2) ++
  filter (λ flow, ¬ udpTimeout < Sub now (a_LastSeenAt flow)) (map_to_list (udpFlows m)).*2.

Definition TerminateTCPConnection (m : Manager) (id : string) : Manager * bool * list Z :=
  let m' := m <| tcpConnections := delete id (tcpConnections m) |> in
  match tcpConnections m !! id with
  | None => (m', false, [])
  | Some conn => (m', true, conn_handles conn)
  end.

Definition terminateConnections (m : Manager) (match_ : ActiveConnection → bool) : Manager * Z * list Z :=
  let tcpToClose := filter (λ kc, match_ (tc_active kc.2) = true) (tcpConnections m) in
  let udpToClose := filter (λ kf, match_ kf.2 = true) (udpFlows m) in
  (m <| tcpConnections := filter (λ kc, match_ (tc_active kc.2) ≠ true) (tcpConnections m) |>
     <| udpFlows := filter (λ kf, match_ kf.2 ≠ true) (udpFlows m) |>,
   Z.of_nat (size tcpToClose + size udpToClose),
   (map_to_list tcpToClose).*2 ≫= conn_handles).

(** ** Blocked addresses *)

Definition setBlockedInboundIP (m : Manager) (block : BlockedInboundIP) (closeExisting : bool) :
    Manager * list Z :=
  let toClose := if closeExisting
                 then filter (λ kc, a_InboundIP (tc_active kc.2) = bl_IP block) (tcpConnections m)
                 else ∅ in
  (m <| blockedInboundIPs := <[bl_IP block := block]> (blockedInboundIPs m) |>
     <| tcpConnections := if closeExisting
          then filter (λ kc, a_InboundIP (tc_active kc.2) ≠ bl_IP block) (tcpConnections m)
          else tcpConnections m |>
     <| udpFlows := filter (λ kf, a_InboundIP kf.2 ≠ bl_IP block) (udpFlows m) |>,
   (map_to_list toClose).*2 ≫= conn_handles).

Definition BlockInboundIP (m : Manager) (now : time) (ip reason : string) :
    Manager * BlockedInboundIP * list Z :=
  let block := mkBlock (TrimSpace ip) (TrimSpace reason) now in
  let '(m, closed) := setBlockedInboundIP m block true in (m, block, closed).

Definition stamp_block (now : time) (block : BlockedInboundIP) : BlockedInboundIP :=
  if IsZero (bl_CreatedAt block) then block <| bl_CreatedAt := now |> else block.

Definition SetBlockedInboundIP (m : Manager) (now : time) (block : BlockedInboundIP) : Manager * list Z :=
  setBlockedInboundIP m (stamp_block now block) false.

Definition EnforceBlockedInboundIP (m : Manager) (now : time) (block : BlockedInboundIP) :
    Manager * list Z :=
  setBlockedInboundIP m (stamp_block now block) true.

Definition UnblockInboundIP (m : Manager) (ip : string) : Manager :=
  m <| blockedInboundIPs := delete (TrimSpace ip) (blockedInboundIPs m) |>.

Definition ListBlockedInboundIPs (m : Manager) : list BlockedInboundIP :=
  (map_to_list (blockedInboundIPs m)).*2.

(** ** Cleanup *)

Definition cleanupExpiredUDPFlows (m : Manager) (now : time) : Manager * Z :=
  let timeout := if bool_decide (udpFlowTimeout m ≤ 0) then defaultUDPFlowTimeout else udpFlowTimeout m in
  let kept := filter (λ kf, ¬ timeout < Sub now (a_LastSeenAt kf.2)) (udpFlows m) in
  (m <| udpFlows := kept |>, Z.of_nat (size (udpFlows m)) - Z.of_nat (size kept)).

Definition clearTrackedConnections (m : Manager) : Manager * list activeTCPConnection :=
  (m <| tcpConnections := ∅ |> <| udpFlows := ∅ |>, (map_to_list (tcpConnections m)).*2).

(** ** Traffic *)

Definition count_traffic (t : TrafficSnapshot) (direction : Direction) (payloadLength : Z) :
    TrafficSnapshot :=
  if bool_decide (0 < payloadLength) then
    if bool_decide (direction = DirectionInbound) then
      t <| BytesInbound := wrap_uint64 (BytesInbound t + payloadLength) |>
        <| SamplesInbound := wrap_uint64 (SamplesInbound t + 1) |>
    else if bool_decide (direction = DirectionOutbound) then
      t <| BytesOutbound := wrap_uint64 (BytesOutbound t + payloadLength) |>
        <| SamplesOutbound := wrap_uint64 (SamplesOutbound t + 1) |>
    else t
  else t.

Definition attribute_flow (m : Manager) (flow : FlowContext) : FlowContext :=
  if bool_decide (flow_UserID flow = 0) && bool_decide (flow_LeaseID flow ≠ ""%string) &&
     bool_decide (flow_ProxyName flow ≠ ""%string) then
    match bindings m !! bindingKey (flow_LeaseID flow) (flow_ProxyName flow) with
    | Some b =>
        mkFlow (b_UserID b) (b_TokenID b) (b_ClientID b) (flow_LeaseID flow) (flow_ProxyName flow)
          (if bool_decide (flow_ProxyType flow = ""%string) then b_ProxyType b else flow_ProxyType flow)
          (b_RemotePort b) (flow_LocalAddr flow) (flow_RemoteAddr flow) (flow_User flow) (flow_Metas flow)
    | None => flow
    end
  else flow.

(** The sample handed to the inspector; the inspector itself is called after
    the lock is released. *)
Definition FeedTrafficSample (m : Manager) (sample : TrafficSample) : Manager * TrafficSample :=
  let payloadLength := if bool_decide (ts_PayloadLength sample ≤ 0)
                       then len (ts_Payload sample) else ts_PayloadLength sample in
  (m <| traffic := count_traffic (traffic m) (ts_Direction sample) payloadLength |>,
   sample <| ts_Flow := attribute_flow m (ts_Flow sample) |>).

Definition SampleForBinding (binding : ProxyBinding) (direction : Direction) (payload : bytes)
    (localAddr remoteAddr : string) : TrafficSample :=
  mkSample (mkFlow (b_UserID binding) (b_TokenID binding) (b_ClientID binding) (b_LeaseID binding)
              (b_ProxyName binding) (b_ProxyType binding) (b_RemotePort binding) localAddr remoteAddr "" ∅)
    direction payload (len payload) (len payload) zero_time.

Definition take_TrafficSnapshot (m : Manager) (now : time) : TrafficSnapshot :=
  (traffic m) <| CapturedAt := now |>.

(** ** Admission *)

Definition SetAdmissionClosed (m : Manager) (closed : bool) : Manager :=
  let m := m <| admissionClosed := closed |> in
  if closed
  then m <| drainingClients :=
              list_to_set ((λ l, clientKey (l_TokenID l) (l_ClientID l)) <$>
                           (map_to_list (runtimeLeases m)).*2) ∪ drainingClients m |>
  else m.

Definition PauseAdmission (m : Manager) : Manager := m <| admissionClosed := true |>.

Definition RememberRuntimeLease (m : Manager) (lease : RuntimeLease) : Manager :=
  m <| runtimeLeases := <[l_LeaseID lease := lease]> (runtimeLeases m) |>.

Definition ClientDraining (m : Manager) (tokenID : Z) (clientID : string) : bool :=
  bool_decide (clientKey tokenID clientID ∈ drainingClients m).

Definition ClientProxyCount (m : Manager) (tokenID : Z) (clientID : string) : Z :=
  count_of (proxyCounts m) (clientKey tokenID clientID).

Definition FinishClientDrain (m : Manager) (tokenID : Z) (clientID : string) : Manager :=
  let key := clientKey tokenID clientID in
  if bool_decide (0 < count_of (proxyCounts m) key) then m
  else m <| drainingClients := drainingClients m ∖ {[key]} |>
         <| runtimeLeases := filter (λ kl, clientKey (l_TokenID kl.2) (l_ClientID kl.2) ≠ key)
                               (runtimeLeases m) |>.

Definition ExistingRuntime (m : Manager) (leaseID hash : string) : RuntimeLease * bool :=
  match runtimeLeases m !! leaseID with
  | None => (empty_lease, false)
  | Some l => (l, bool_decide (l_Status l = "active"%string) && bool_decide (l_RuntimeTokenHash l = hash))
  end.

Definition user_lease (user : UserInfo) : string := default ""%string (ui_Metas user !! "lease_id"%string).
Definition proxyKey (user : UserInfo) (name : string) : string := ui_RunID user +:+ String (chr 0) name.
Definition lease_of (m : Manager) (id : string) : RuntimeLease := default empty_lease (runtimeLeases m !! id).
Definition client_of (m : Manager) (id : string) : string :=
  clientKey (l_TokenID (lease_of m id)) (l_ClientID (lease_of m id)).

(** Whether [Begin] admits the registration; it then holds the read lock. *)
Definition Begin (m : Manager) (user : UserInfo) : bool :=
  let lease := runtimeLeases m !! user_lease user in
  let draining := bool_decide (client_of m (user_lease user) ∈ drainingClients m) in
  negb (admissionClosed m || bool_decide (lease = None) ||
        bool_decide (l_Status (default empty_lease lease) ≠ "active"%string) || draining).

(** [if m[k] <= 1 { delete(m, k) } else { m[k]-- }]. *)
Definition decrement (counts : gmap string Z) (k : string) : gmap string Z :=
  if bool_decide (count_of counts k ≤ 1) then delete k counts
  else <[k := count_of counts k - 1]> counts.
Definition increment (counts : gmap string Z) (k : string) : gmap string Z :=
  <[k := count_of counts k + 1]> counts.

Definition removeProxyCountLocked (m : Manager) (id : string) : Manager :=
  m <| proxyCounts := decrement (proxyCounts m) (client_of m id) |>
    <| leaseProxyCounts := decrement (leaseProxyCounts m) id |>.

Definition Opened (m : Manager) (user : UserInfo) (name : string) : Manager :=
  let key := proxyKey user name in
  let m := match registeredProxies m !! key with
           | Some old => removeProxyCountLocked m old
           | None => m
           end in
  let id := user_lease user in
  let m := m <| registeredProxies := <[key := id]> (registeredProxies m) |> in
  m <| proxyCounts := increment (proxyCounts m) (client_of m id) |>
    <| leaseProxyCounts := increment (leaseProxyCounts m) id |>.

Definition Closed (m : Manager) (user : UserInfo) (name : string) : Manager :=
  let key := proxyKey user name in
  match registeredProxies m !! key with
  | Some id => (removeProxyCountLocked m id) <| registeredProxies := delete key (registeredProxies m) |>
  | None => m
  end.

Definition invalidateRuntime (m : Manager) (match_ : RuntimeLease → bool) : Manager :=
  m <| runtimeLeases := (λ l, if match_ l then l <| l_Status := "revoked"%string |> else l) <$>
                        runtimeLeases m |>.

(** ** Termination: revoke the leases, then close the traffic *)

Definition TerminateConnectionsForUser (m : Manager) (userID : Z) : Manager * Z * list Z :=
  if bool_decide (userID ≤ 0) then (m, 0, []) else
  let m := invalidateRuntime m (λ l, bool_decide (l_UserID l = userID)) in
  terminateConnections m (λ c, bool_decide (a_UserID c = userID)).

Definition TerminateConnectionsForToken (m : Manager) (tokenID : Z) : Manager * Z * list Z :=
  if bool_decide (tokenID ≤ 0) then (m, 0, []) else
  let m := invalidateRuntime m (λ l, bool_decide (l_TokenID l = tokenID)) in
  terminateConnections m (λ c, bool_decide (a_TokenID c = tokenID)).

Definition TerminateConnectionsForClient (m : Manager) (tokenID : Z) (clientID : string) :
    Manager * Z * list Z :=
  let clientID := TrimSpace clientID in
  if bool_decide (tokenID ≤ 0) || bool_decide (clientID = ""%string) then (m, 0, []) else
  let m := invalidateRuntime m
             (λ l, bool_decide (l_TokenID l = tokenID) && bool_decide (l_ClientID l = clientID)) in
  terminateConnections m
    (λ c, bool_decide (a_TokenID c = tokenID) && bool_decide (a_ClientID c = clientID)).

Definition TerminateConnectionsForLease (m : Manager) (leaseID : string) : Manager * Z * list Z :=
  if bool_decide (leaseID = ""%string) then (m, 0, []) else
  let m := invalidateRuntime m (λ l, bool_decide (l_LeaseID l = leaseID)) in
  terminateConnections m (λ c, bool_decide (a_LeaseID c = leaseID)).
