(* ===== verification/FrpDrain.v ===== *)
(** * Admission, drain and revocation under concurrency

    [internal/frpcore/admission.go] with its lock discipline.  A registration
    of a proxy runs in frps as [Begin], then (on success) [Opened], then the
    release of the read lock that [Begin] took; [Closed] may come at any time.
    The writers of [admissionMu] ([SetAdmissionClosed], [PauseAdmission],
    [FinishClientDrain], [invalidateRuntime]) wait until no registration is in
    flight.  Each body also holds [m.mu], so the system is a step relation whose
    steps are whole bodies, interleaved arbitrarily. *)
From Stdlib Require Import ZArith Lia Ascii String.
From stdpp Require Import gmap strings list fin_maps relations.
From S2P Require Import Prelude GoStrings Types FrpManager.
Local Open Scope Z_scope.

(** ** Counting the registered proxies *)

Section counting.
Context (P : string → Prop) `{∀ x, Decision (P x)}.

Definition cnt (R : gmap string string) : Z := Z.of_nat (size (filter (λ kv, P kv.2) R)).

Lemma cnt_nonneg R : 0 ≤ cnt R.
Proof. unfold cnt. lia. Qed.

Lemma cnt_insert R k v :
  R !! k = None → cnt (<[k := v]> R) = cnt R + (if decide (P v) then 1 else 0).
Proof.
  intros Hk. unfold cnt. rewrite map_filter_insert. cbn. case_decide.
  - rewrite map_size_insert_None; [lia|]. apply map_lookup_filter_None. by left.
  - rewrite delete_id by done. lia.
Qed.

Lemma cnt_delete R k v :
  R !! k = Some v → cnt (delete k R) = cnt R - (if decide (P v) then 1 else 0).
Proof.
  intros Hk. rewrite <-(insert_delete_id R k v Hk) at 2.
  rewrite cnt_insert by apply lookup_delete_eq. lia.
Qed.

Lemma cnt_0 R : cnt R = 0 → ∀ k v, R !! k = Some v → ¬ P v.
Proof.
  intros Hz k v Hk HP. assert (size (filter (λ kv, P kv.2) R) = 0%nat) as Hs by (unfold cnt in Hz; lia).
  apply map_size_empty_iff in Hs.
  assert (filter (λ kv, P kv.2) R !! k = Some v) as Hf by (by apply map_lookup_filter_Some).
  by rewrite Hs, lookup_empty in Hf.
Qed.
End counting.

Lemma cnt_ext (P Q : string → Prop) `{∀ x, Decision (P x), ∀ x, Decision (Q x)} R :
  (∀ k v, R !! k = Some v → P v ↔ Q v) → cnt P R = cnt Q R.
Proof.
  intros HPQ. unfold cnt. do 2 f_equal. apply map_filter_ext. intros k v Hk. by eapply HPQ.
Qed.

(** [counts] holds, for each [k], the number of registrations that [f] sends
    to [k]. *)
Definition counts_ok (counts : gmap string Z) (f : string → string) (R : gmap string string) : Prop :=
  ∀ k, count_of counts k = cnt (λ v, f v = k) R.

Lemma counts_decrement counts f R key v :
  counts_ok counts f R → R !! key = Some v → counts_ok (decrement counts (f v)) f (delete key R).
Proof.
  intros Hok Hv k. rewrite (cnt_delete (λ v, f v = k) R key v) by done.
  specialize (Hok k) as Hk. unfold decrement.
  pose proof (cnt_nonneg (λ v, f v = k) (delete key R)) as Hpos.
  rewrite (cnt_delete (λ v, f v = k) R key v) in Hpos by done.
  case_bool_decide as H1; unfold count_of in *; case_decide as Hf.
  - subst k. rewrite lookup_delete_eq. cbn. lia.
  - rewrite lookup_delete_ne by done. lia.
  - subst k. rewrite lookup_insert_eq. cbn. lia.
  - rewrite lookup_insert_ne by done. lia.
Qed.

Lemma counts_increment counts f R key v :
  counts_ok counts f R → R !! key = None → counts_ok (increment counts (f v)) f (<[key := v]> R).
Proof.
  intros Hok Hv k. rewrite (cnt_insert (λ v, f v = k) R key v) by done.
  specialize (Hok k) as Hk. unfold increment, count_of in *. case_decide as Hf.
  - subst k. rewrite lookup_insert_eq. cbn. lia.
  - rewrite lookup_insert_ne by done. lia.
Qed.

Lemma counts_ext counts f g R :
  (∀ key v, R !! key = Some v → f v = g v) → counts_ok counts f R → counts_ok counts g R.
Proof.
  intros Hfg Hok k. rewrite Hok. apply cnt_ext. intros key v Hv. by rewrite (Hfg key v Hv).
Qed.

(** ** The system *)

(** A registration in flight: who registers, and whether it has opened. *)
Record inflight := mkInflight { fl_user : UserInfo; fl_opened : bool }.
Record sys := mkSys { mgr : Manager; readers : list inflight }.

(** Remembering a lease keeps the owner of a lease id: a lease row never
    changes its token or client. *)
Definition same_owner (m : Manager) (lease : RuntimeLease) : Prop :=
  ∀ old, runtimeLeases m !! l_LeaseID lease = Some old →
         l_TokenID old = l_TokenID lease ∧ l_ClientID old = l_ClientID lease.

Inductive writer :=
  | WSetAdmissionClosed (closed : bool)
  | WPauseAdmission
  | WFinishClientDrain (tokenID : Z) (clientID : string)
  | WInvalidate (match_ : RuntimeLease → bool).

Definition run_writer (w : writer) (m : Manager) : Manager :=
  match w with
  | WSetAdmissionClosed closed => SetAdmissionClosed m closed
  | WPauseAdmission => PauseAdmission m
  | WFinishClientDrain tokenID clientID => FinishClientDrain m tokenID clientID
  | WInvalidate match_ => invalidateRuntime m match_
  end.

Inductive event :=
  | EBegin (user : UserInfo)
  | EOpened (user : UserInfo) (name : string)
  | ERelease (user : UserInfo)
  | EClosed (user : UserInfo) (name : string)
  | ERemember (lease : RuntimeLease)
  | EWrite (w : writer).

Inductive step : sys → event → sys → Prop :=
  | step_begin m rs user :
      Begin m user = true →
      step (mkSys m rs) (EBegin user) (mkSys m (mkInflight user false :: rs))
  | step_opened m rs1 rs2 user name :
      step (mkSys m (rs1 ++ mkInflight user false :: rs2)) (EOpened user name)
           (mkSys (Opened m user name) (rs1 ++ mkInflight user true :: rs2))
  | step_release m rs1 rs2 user opened :
      step (mkSys m (rs1 ++ mkInflight user opened :: rs2)) (ERelease user) (mkSys m (rs1 ++ rs2))
  | step_closed m rs user name :
      step (mkSys m rs) (EClosed user name) (mkSys (Closed m user name) rs)
  | step_remember m rs lease :
      same_owner m lease →
      step (mkSys m rs) (ERemember lease) (mkSys (RememberRuntimeLease m lease) rs)
  | step_write m w :
      step (mkSys m []) (EWrite w) (mkSys (run_writer w m) []).

Definition any_step (s s' : sys) : Prop := ∃ e, step s e s'.
Definition reachable (s : sys) : Prop := ∃ now, rtc any_step (mkSys (NewManager now) []) s.

(** ** The invariant *)

Record Inv (s : sys) : Prop := mkInv {
  inv_counts : counts_ok (proxyCounts (mgr s)) (client_of (mgr s)) (registeredProxies (mgr s));
  inv_lease_counts : counts_ok (leaseProxyCounts (mgr s)) (λ id, id) (registeredProxies (mgr s));
  inv_known : ∀ key id, registeredProxies (mgr s) !! key = Some id → is_Some (runtimeLeases (mgr s) !! id);
  inv_readers : Forall (λ r, admissionClosed (mgr s) = false ∧
                             is_Some (runtimeLeases (mgr s) !! user_lease (fl_user r)) ∧
                             client_of (mgr s) (user_lease (fl_user r)) ∉ drainingClients (mgr s))
                  (readers s) }.

Lemma Inv_init now : Inv (mkSys (NewManager now) []).
Proof.
  split; cbn; try done; intros k; unfold count_of, cnt; rewrite lookup_empty, map_filter_empty;
    by rewrite map_size_empty.
Qed.

(** [Opened] and [Closed] touch the registrations and the counts only. *)
Lemma Opened_frame m user name :
  runtimeLeases (Opened m user name) = runtimeLeases m ∧
  drainingClients (Opened m user name) = drainingClients m ∧
  admissionClosed (Opened m user name) = admissionClosed m ∧
  registeredProxies (Opened m user name) =
    <[proxyKey user name := user_lease user]> (registeredProxies m).
Proof. unfold Opened. by destruct (registeredProxies m !! proxyKey user name). Qed.

Lemma Closed_frame m user name :
  runtimeLeases (Closed m user name) = runtimeLeases m ∧
  drainingClients (Closed m user name) = drainingClients m ∧
  admissionClosed (Closed m user name) = admissionClosed m ∧
  registeredProxies (Closed m user name) = delete (proxyKey user name) (registeredProxies m).
Proof.
  unfold Closed. destruct (registeredProxies m !! proxyKey user name) eqn:E; [done|].
  by rewrite delete_id.
Qed.

Lemma client_of_ext m m' id :
  runtimeLeases m' !! id = runtimeLeases m !! id → client_of m' id = client_of m id.
Proof. intros H. unfold client_of, lease_of. by rewrite H. Qed.

Lemma Opened_counts m user name :
  counts_ok (proxyCounts m) (client_of m) (registeredProxies m) →
  counts_ok (leaseProxyCounts m) (λ id, id) (registeredProxies m) →
  counts_ok (proxyCounts (Opened m user name)) (client_of m) (registeredProxies (Opened m user name)) ∧
  counts_ok (leaseProxyCounts (Opened m user name)) (λ id, id) (registeredProxies (Opened m user name)).
Proof.
  intros Hc Hl. unfold Opened. set (key := proxyKey user name). set (id := user_lease user).
  destruct (registeredProxies m !! key) as [old|] eqn:Hold; cbn.
  - pose proof (counts_decrement _ _ _ _ _ Hc Hold) as Hc'.
    pose proof (counts_decrement _ _ _ _ _ Hl Hold) as Hl'. cbn in Hl'.
    rewrite <-(insert_delete_eq (registeredProxies m) key id).
    split; [apply (counts_increment _ (client_of m) _ _ id)|apply (counts_increment _ (λ id, id) _ _ id)];
      try done; apply lookup_delete_eq.
  - split; [apply (counts_increment _ (client_of m) _ _ id)|apply (counts_increment _ (λ id, id) _ _ id)];
      done.
Qed.

Lemma Closed_counts m user name :
  counts_ok (proxyCounts m) (client_of m) (registeredProxies m) →
  counts_ok (leaseProxyCounts m) (λ id, id) (registeredProxies m) →
  counts_ok (proxyCounts (Closed m user name)) (client_of m) (registeredProxies (Closed m user name)) ∧
  counts_ok (leaseProxyCounts (Closed m user name)) (λ id, id) (registeredProxies (Closed m user name)).
Proof.
  intros Hc Hl. unfold Closed. set (key := proxyKey user name).
  destruct (registeredProxies m !! key) as [id|] eqn:Hid; cbn; [|done].
  split; [by eapply counts_decrement|by eapply (counts_decrement _ (λ id, id))].
Qed.

Lemma Begin_spec m user :
  Begin m user = true →
  admissionClosed m = false ∧
  (∃ l, runtimeLeases m !! user_lease user = Some l ∧ l_Status l = "active"%string) ∧
  client_of m (user_lease user) ∉ drainingClients m.
Proof.
  unfold Begin. intros H. bools. destruct (runtimeLeases m !! user_lease user) as [l|]; [|done].
  cbn in *. split; [done|]. split; [|done]. exists l. split; [done|].
  destruct (decide (l_Status l = "active"%string)); done.
Qed.

Section preservation.
Implicit Types m : Manager.

Lemma Inv_begin m rs user :
  Begin m user = true → Inv (mkSys m rs) → Inv (mkSys m (mkInflight user false :: rs)).
Proof.
  intros (Hc & (l & Hl & _) & Hd)%Begin_spec [H1 H2 H3 H4]. split; cbn in *; try done.
  constructor; [|done]. cbn. rewrite Hl. eauto.
Qed.

Lemma Inv_opened m rs1 rs2 user name :
  Inv (mkSys m (rs1 ++ mkInflight user false :: rs2)) →
  Inv (mkSys (Opened m user name) (rs1 ++ mkInflight user true :: rs2)).
Proof.
  intros [H1 H2 H3 H4]. cbn in *.
  destruct (Opened_frame m user name) as (Hl & Hd & Hc & Hr).
  destruct (Opened_counts m user name H1 H2) as [H1' H2'].
  assert (∀ id, client_of (Opened m user name) id = client_of m id) as Hcl.
  { intros id. apply client_of_ext. by rewrite Hl. }
  split; cbn [mgr readers].
  - eapply counts_ext; [|done]. by intros.
  - done.
  - intros key id. rewrite Hr, Hl. intros [[<- <-]|[_ Hid]]%lookup_insert_Some; [|by eapply H3].
    rewrite Forall_app, Forall_cons in H4. destruct H4 as (_ & (_ & ? & _) & _). done.
  - rewrite !Forall_app, !Forall_cons in H4 |- *. destruct H4 as (Ha & Hb & Hc').
    split; [|split]; [|by cbn [fl_user] in *; rewrite Hcl, Hd, Hl, Hc|];
      (eapply Forall_impl; [done|]); intros r; by rewrite Hcl, Hd, Hl, Hc.
Qed.

Lemma Inv_closed m rs user name :
  Inv (mkSys m rs) → Inv (mkSys (Closed m user name) rs).
Proof.
  intros [H1 H2 H3 H4]. cbn in *.
  destruct (Closed_frame m user name) as (Hl & Hd & Hc & Hr).
  destruct (Closed_counts m user name H1 H2) as [H1' H2'].
  assert (∀ id, client_of (Closed m user name) id = client_of m id) as Hcl.
  { intros id. apply client_of_ext. by rewrite Hl. }
  split; cbn [mgr readers].
  - eapply counts_ext; [|done]. by intros.
  - done.
  - intros key id. rewrite Hr, Hl. intros [_ Hid]%lookup_delete_Some. by eapply H3.
  - eapply Forall_impl; [done|]. intros r. by rewrite Hcl, Hd, Hl, Hc.
Qed.

Lemma client_of_remember m lease id :
  same_owner m lease → is_Some (runtimeLeases m !! id) →
  client_of (RememberRuntimeLease m lease) id = client_of m id.
Proof.
  intros Hown [l Hl]. unfold client_of, lease_of. cbn.
  destruct (decide (id = l_LeaseID lease)) as [->|Hne].
  - rewrite lookup_insert_eq, Hl. cbn. by destruct (Hown l Hl) as [-> ->].
  - by rewrite lookup_insert_ne.
Qed.

Lemma Inv_remember m rs lease :
  same_owner m lease → Inv (mkSys m rs) → Inv (mkSys (RememberRuntimeLease m lease) rs).
Proof.
  intros Hown [H1 H2 H3 H4]. cbn in *. split; cbn.
  - eapply counts_ext; [|done]. intros key id Hid. symmetry.
    apply client_of_remember; eauto.
  - done.
  - intros key id Hid. apply H3 in Hid. destruct (decide (id = l_LeaseID lease)) as [->|].
    + rewrite lookup_insert_eq. eauto.
    + by rewrite lookup_insert_ne.
  - eapply Forall_impl; [done|]. intros r (Hc & Hk & Hd). split; [done|].
    rewrite client_of_remember by done. split; [|done].
    destruct (decide (user_lease (fl_user r) = l_LeaseID lease)) as [->|].
    + rewrite lookup_insert_eq. eauto.
    + by rewrite lookup_insert_ne.
Qed.

Lemma Inv_finish m tokenID clientID :
  Inv (mkSys m []) → Inv (mkSys (FinishClientDrain m tokenID clientID) []).
Proof.
  intros [H1 H2 H3 H4]. cbn in *. unfold FinishClientDrain.
  set (key := clientKey tokenID clientID).
  case_bool_decide as Hpos; [done|].
  assert (∀ k id, registeredProxies m !! k = Some id → client_of m id ≠ key) as Hne.
  { pose proof (H1 key) as Hk. pose proof (cnt_nonneg (λ v, client_of m v = key) (registeredProxies m)).
    eapply (cnt_0 (λ v, client_of m v = key)). lia. }
  assert (∀ id l, runtimeLeases m !! id = Some l → client_of m id ≠ key →
    filter (λ kl, clientKey (l_TokenID kl.2) (l_ClientID kl.2) ≠ key) (runtimeLeases m) !! id = Some l)
    as Hkeep.
  { intros id l Hl Hcl. apply map_lookup_filter_Some. split; [done|].
    unfold client_of, lease_of in Hcl. by rewrite Hl in Hcl. }
  split; cbn; [| |intros k id Hid|constructor].
  - eapply counts_ext; [|done]. intros k id Hid. destruct (H3 _ _ Hid) as [l Hl].
    symmetry. apply client_of_ext. cbn. rewrite Hl. eauto.
  - done.
  - destruct (H3 _ _ Hid) as [l Hl]. erewrite Hkeep; eauto.
Qed.

Lemma client_of_invalidate m match_ id : client_of (invalidateRuntime m match_) id = client_of m id.
Proof.
  unfold client_of, lease_of. cbn. rewrite lookup_fmap.
  destruct (runtimeLeases m !! id) as [l|]; [|done]. cbn. by destruct (match_ l).
Qed.

Lemma Inv_writer m w : Inv (mkSys m []) → Inv (mkSys (run_writer w m) []).
Proof.
  intros Hinv. destruct w as [closed| |tokenID clientID|match_]; cbn; [| |by apply Inv_finish|];
    destruct Hinv as [H1 H2 H3 H4]; cbn in *.
  - unfold SetAdmissionClosed. destruct closed; split; done.
  - split; done.
  - split; cbn; [|done| |done].
    + eapply counts_ext; [|done]. intros. by rewrite client_of_invalidate.
    + intros key id Hid. rewrite lookup_fmap. apply fmap_is_Some. eauto.
Qed.

Lemma Inv_step s e s' : step s e s' → Inv s → Inv s'.
Proof.
  intros Hstep Hinv. destruct Hstep.
  - by apply Inv_begin.
  - by apply Inv_opened.
  - destruct Hinv as [H1 H2 H3 H4]. split; cbn in *; try done.
    rewrite Forall_app, Forall_cons in H4. apply Forall_app. tauto.
  - by apply Inv_closed.
  - by apply Inv_remember.
  - by apply Inv_writer.
Qed.
End preservation.

Lemma Inv_reachable s : reachable s → Inv s.
Proof.
  intros [now Hrtc]. remember (mkSys (NewManager now) []) as s0 eqn:Hs0.
  assert (Inv s0) as Hinit by (subst; apply Inv_init). clear Hs0.
  induction Hrtc as [|s1 s2 s3 [e Hstep] _ IH]; [done|]. eauto using Inv_step.
Qed.

(** ** Keys *)

Lemma clientKey_inj t1 c1 t2 c2 : clientKey t1 c1 = clientKey t2 c2 → t1 = t2 ∧ c1 = c2.
Proof.
  unfold clientKey. intros Heq.
  apply sep_inj_l in Heq as [Ht Hc]; [|by apply fmt_d_no_char..].
  by apply fmt_d_inj in Ht.
Qed.

(** A registration belongs to the client of its lease. *)
Definition owned_by (m : Manager) (t : Z) (c : string) (id : string) : Prop :=
  l_TokenID (lease_of m id) = t ∧ l_ClientID (lease_of m id) = c.
#[export] Instance owned_by_dec m t c id : Decision (owned_by m t c id).
Proof. unfold owned_by. apply _. Defined.

Lemma client_of_owned m t c id : client_of m id = clientKey t c ↔ owned_by m t c id.
Proof.
  unfold client_of, owned_by. split; [by intros ?%clientKey_inj|by intros [-> ->]].
Qed.

(** C18: in every reachable state, under every interleaving, the count that
    drives a client's drain is exactly the number of its registered proxies;
    reconnects, duplicate openings and repeated closings never make it drift. *)
Theorem proxyCounts_exact s t c :
  reachable s →
  ClientProxyCount (mgr s) t c = cnt (owned_by (mgr s) t c) (registeredProxies (mgr s)).
Proof.
  intros [H1 _ _ _]%Inv_reachable. unfold ClientProxyCount. rewrite H1.
  apply cnt_ext. intros key id _. apply client_of_owned.
Qed.

(** ** Drain *)

Lemma ClientDraining_true m t c :
  ClientDraining m t c = true ↔ clientKey t c ∈ drainingClients m.
Proof. unfold ClientDraining. apply bool_decide_eq_true. Qed.

Lemma count_Opened_other m user name k :
  counts_ok (proxyCounts m) (client_of m) (registeredProxies m) →
  counts_ok (leaseProxyCounts m) (λ id, id) (registeredProxies m) →
  client_of m (user_lease user) ≠ k →
  count_of (proxyCounts (Opened m user name)) k ≤ count_of (proxyCounts m) k.
Proof.
  intros Hc Hl Hk. destruct (Opened_counts m user name Hc Hl) as [Hc' _].
  rewrite (Hc k), (Hc' k). destruct (Opened_frame m user name) as (_ & _ & _ & ->).
  set (key := proxyKey user name). rewrite <-(insert_delete_eq (registeredProxies m) key).
  rewrite cnt_insert by apply lookup_delete_eq. rewrite decide_False by done.
  destruct (registeredProxies m !! key) as [old|] eqn:Hold.
  - rewrite (cnt_delete _ _ _ _ Hold). case_decide; lia.
  - rewrite delete_id by done. lia.
Qed.

Lemma count_Closed m user name k :
  counts_ok (proxyCounts m) (client_of m) (registeredProxies m) →
  counts_ok (leaseProxyCounts m) (λ id, id) (registeredProxies m) →
  count_of (proxyCounts (Closed m user name)) k ≤ count_of (proxyCounts m) k.
Proof.
  intros Hc Hl. destruct (Closed_counts m user name Hc Hl) as [Hc' _].
  rewrite (Hc k), (Hc' k). destruct (Closed_frame m user name) as (_ & _ & _ & ->).
  destruct (registeredProxies m !! proxyKey user name) as [old|] eqn:Hold.
  - rewrite (cnt_delete _ _ _ _ Hold). case_decide; lia.
  - rewrite delete_id by done. lia.
Qed.

(** One step while a client drains, other than finishing that drain. *)
Lemma drain_step s e s' t c :
  Inv s → step s e s' → e ≠ EWrite (WFinishClientDrain t c) →
  ClientDraining (mgr s) t c = true →
  ClientDraining (mgr s') t c = true ∧
  ClientProxyCount (mgr s') t c ≤ ClientProxyCount (mgr s) t c.
Proof.
  rewrite !ClientDraining_true. unfold ClientProxyCount.
  intros Hinv Hstep He Hd. destruct Hstep; cbn [mgr] in *; try (split; [done|lia]).
  - destruct Hinv as [H1 H2 _ H4]. destruct (Opened_frame m user name) as (_ & -> & _).
    split; [done|]. apply count_Opened_other; [done..|]. cbn in H4.
    rewrite Forall_app, Forall_cons in H4. destruct H4 as (_ & (_ & _ & Hnd) & _).
    cbn in Hnd. intros Heq. by rewrite Heq in Hnd.
  - destruct Hinv as [H1 H2 _ _]. destruct (Closed_frame m user name) as (_ & -> & _).
    split; [done|]. by apply count_Closed.
  - split; [done|cbn; lia].
  - destruct w as [closed| |tokenID clientID|match_]; cbn; try (split; [done|lia]).
    + unfold SetAdmissionClosed. destruct closed; cbn; (split; [set_solver|lia]).
    + unfold FinishClientDrain. case_bool_decide; [split; [done|lia]|]. cbn.
      split; [|lia]. apply elem_of_difference. split; [done|].
      intros Heq%elem_of_singleton. apply clientKey_inj in Heq as [-> ->]. by apply He.
Qed.

(** A run: the events of a sequence of steps. *)
Inductive run : sys → list event → sys → Prop :=
  | run_nil s : run s [] s
  | run_cons s e s1 es s2 : step s e s1 → run s1 es s2 → run s (e :: es) s2.

Lemma Inv_run s es s' : run s es s' → Inv s → Inv s'.
Proof. induction 1; eauto using Inv_step. Qed.

Lemma drain_run s es s' t c :
  Inv s → run s es s' → EWrite (WFinishClientDrain t c) ∉ es →
  ClientDraining (mgr s) t c = true →
  ClientDraining (mgr s') t c = true ∧
  ClientProxyCount (mgr s') t c ≤ ClientProxyCount (mgr s) t c.
Proof.
  intros Hinv Hrun. induction Hrun as [s|s e s1 es s2 Hstep Hrun IH];
    intros He Hd; [split; [done|lia]|].
  apply not_elem_of_cons in He as [He Hes].
  destruct (drain_step s e s1 t c) as [Hd1 Hc1]; try done.
  destruct IH as [? ?]; try done; [by eapply Inv_step|]. split; [done|lia].
Qed.

(** C19: a drain only goes down: from any reachable state in which a client
    drains, whatever registrations, closings, logins, bans and faults follow, the
    client keeps draining and its count never rises until its drain is finished.
    In particular a count of zero stays zero: no registration that was in flight
    when the drain began can complete behind it. *)
Theorem drain_monotone s es s' t c :
  reachable s → run s es s' → EWrite (WFinishClientDrain t c) ∉ es →
  ClientDraining (mgr s) t c = true →
  ClientDraining (mgr s') t c = true ∧
  ClientProxyCount (mgr s') t c ≤ ClientProxyCount (mgr s) t c.
Proof.
  intros Hinv%Inv_reachable. by apply drain_run.
Qed.

(** finishing a drain is refused while the client has a registered proxy,
    and otherwise forgets the client: it no longer drains, none of its leases is
    known, so neither [ExistingRuntime] nor [Begin] accepts them, and no other
    client's leases or drain are touched. *)
Theorem FinishClientDrain_spec m t c :
  let m' := FinishClientDrain m t c in
  if bool_decide (0 < ClientProxyCount m t c) then m' = m
  else
    ClientDraining m' t c = false ∧
    (∀ id l, runtimeLeases m' !! id = Some l ↔
       runtimeLeases m !! id = Some l ∧ ¬ (l_TokenID l = t ∧ l_ClientID l = c)) ∧
    (∀ t2 c2, (t2, c2) ≠ (t, c) → ClientDraining m' t2 c2 = ClientDraining m t2 c2) ∧
    (∀ t2 c2, ClientProxyCount m' t2 c2 = ClientProxyCount m t2 c2).
Proof.
  cbn zeta. unfold FinishClientDrain. fold (ClientProxyCount m t c).
  case_bool_decide; [done|]. split; [|split; [|split]].
  - unfold ClientDraining. apply bool_decide_eq_false. cbn. set_solver.
  - intros id l. cbn. rewrite map_lookup_filter_Some. cbn.
    split; intros [Hl Hne]; (split; [done|]).
    + intros [<- <-]. done.
    + intros ?%clientKey_inj. done.
  - intros t2 c2 Hne. unfold ClientDraining. apply bool_decide_ext. cbn.
    rewrite elem_of_difference, elem_of_singleton. split; [by intros [? _]|].
    intros Hin. split; [done|]. intros [-> ->]%clientKey_inj. done.
  - done.
Qed.

(** ** Closed admission *)

Lemma closed_step s e s' :
  Inv s → step s e s' → e ≠ EWrite (WSetAdmissionClosed false) →
  admissionClosed (mgr s) = true →
  admissionClosed (mgr s') = true ∧ registeredProxies (mgr s') ⊆ registeredProxies (mgr s).
Proof.
  intros Hinv Hstep He Hc. destruct Hstep; cbn [mgr] in *; try done.
  - destruct Hinv as [_ _ _ H4]. cbn in H4. rewrite Forall_app, Forall_cons in H4.
    destruct H4 as (_ & (Hopen & _) & _). congruence.
  - destruct (Closed_frame m user name) as (_ & _ & -> & ->). split; [done|]. apply delete_subseteq.
  - destruct w as [[]| |tokenID clientID|match_]; cbn; try done.
    unfold FinishClientDrain. by case_bool_decide.
Qed.

(** while admission is closed, by a fault or a pause, no proxy is opened:
    the set of registered proxies only shrinks, for every client, until admission
    is reopened. *)
Theorem admission_closed_no_new s es s' :
  reachable s → run s es s' → admissionClosed (mgr s) = true →
  EWrite (WSetAdmissionClosed false) ∉ es →
  registeredProxies (mgr s') ⊆ registeredProxies (mgr s).
Proof.
  intros Hinv%Inv_reachable Hrun Hc He.
  induction Hrun as [s|s e s1 es s2 Hstep Hrun IH]; [done|].
  apply not_elem_of_cons in He as [He Hes].
  destruct (closed_step s e s1) as [Hc1 Hsub]; try done.
  etrans; [apply IH; try done; by eapply Inv_step|done].
Qed.

Lemma SetAdmissionClosed_draining m id l :
  runtimeLeases m !! id = Some l →
  ClientDraining (SetAdmissionClosed m true) (l_TokenID l) (l_ClientID l) = true.
Proof.
  intros Hl. apply ClientDraining_true. cbn.
  apply elem_of_union_l, elem_of_list_to_set, list_elem_of_fmap. exists l. split; [done|].
  apply list_elem_of_fmap. exists (id, l). split; [done|]. by apply elem_of_map_to_list.
Qed.

Lemma Begin_draining m user t c :
  ClientDraining m t c = true → owned_by m t c (user_lease user) → Begin m user = false.
Proof.
  intros Hd Hown. destruct (Begin m user) eqn:Hb; [|done].
  apply Begin_spec in Hb as (_ & _ & Hnd). apply ClientDraining_true in Hd.
  apply client_of_owned in Hown. by rewrite Hown in Hnd.
Qed.

(** a fault drains every client it finds: once admission has been closed
    for a fault, each client with a known lease stays in drain until that drain
    is finished, even after admission is reopened; its count never exceeds what
    it was at the fault, and [Begin] refuses its registrations throughout. *)
Theorem fault_drains_clients m id l es s' :
  reachable (mkSys m []) → runtimeLeases m !! id = Some l →
  run (mkSys (SetAdmissionClosed m true) []) es s' →
  EWrite (WFinishClientDrain (l_TokenID l) (l_ClientID l)) ∉ es →
  ClientDraining (mgr s') (l_TokenID l) (l_ClientID l) = true ∧
  ClientProxyCount (mgr s') (l_TokenID l) (l_ClientID l) ≤
    ClientProxyCount m (l_TokenID l) (l_ClientID l) ∧
  (∀ user, owned_by (mgr s') (l_TokenID l) (l_ClientID l) (user_lease user) →
           Begin (mgr s') user = false).
Proof.
  intros Hinv%Inv_reachable Hl Hrun Hes.
  apply (Inv_writer m (WSetAdmissionClosed true)) in Hinv.
  destruct (drain_run _ _ _ (l_TokenID l) (l_ClientID l) Hinv Hrun Hes) as [Hd Hc].
  { by eapply SetAdmissionClosed_draining. }
  split; [done|]. split; [done|]. intros user. by apply Begin_draining.
Qed.

(** ** Revocation *)

Definition revoked (m : Manager) (id : string) : Prop :=
  ∀ l, runtimeLeases m !! id = Some l → l_Status l ≠ "active"%string.

Lemma revoked_step s e s' id :
  step s e s' → (∀ l, e = ERemember l → l_LeaseID l ≠ id) →
  revoked (mgr s) id → revoked (mgr s') id.
Proof.
  intros Hstep He Hr. destruct Hstep; cbn [mgr] in *; try done.
  - unfold revoked. destruct (Opened_frame m user name) as (-> & _). done.
  - unfold revoked. destruct (Closed_frame m user name) as (-> & _). done.
  - intros l. cbn. rewrite lookup_insert_ne by eauto. apply Hr.
  - destruct w as [[]| |tokenID clientID|match_]; cbn; try done.
    + unfold FinishClientDrain. case_bool_decide; [done|].
      intros l [Hl _]%map_lookup_filter_Some. by eapply Hr.
    + intros l. cbn. rewrite lookup_fmap. intros (l0 & Hl0 & ->)%fmap_Some.
      destruct (match_ l0); [done|]. by eapply Hr.
Qed.

(** a ban or logout is not revived by an outage: once a lease has been
    invalidated, and until its id is remembered again by a successful login
    check, [ExistingRuntime] rejects it whatever its token hash, and [Begin]
    refuses every registration under it. *)
Theorem invalidated_stays_out m match_ id es s' :
  (∀ l, runtimeLeases m !! id = Some l → match_ l = true) →
  run (mkSys (invalidateRuntime m match_) []) es s' →
  Forall (λ e, ∀ l, e = ERemember l → l_LeaseID l ≠ id) es →
  (∀ hash, (ExistingRuntime (mgr s') id hash).2 = false) ∧
  (∀ user, user_lease user = id → Begin (mgr s') user = false).
Proof.
  intros Hm Hrun Hes.
  assert (revoked (mgr s') id) as Hr.
  { assert (revoked (invalidateRuntime m match_) id) as H0.
    { intros l. cbn. rewrite lookup_fmap. intros (l0 & Hl0 & ->)%fmap_Some.
      by rewrite (Hm l0 Hl0). }
    revert H0. change (invalidateRuntime m match_) with (mgr (mkSys (invalidateRuntime m match_) [])).
    clear Hm. induction Hrun as [|s e s1 es s2 Hstep _ IH]; [done|].
    inv Hes. intros H0. apply IH; [done|]. by eapply revoked_step. }
  split.
  - intros hash. unfold ExistingRuntime. destruct (runtimeLeases (mgr s') !! id) as [l|] eqn:Hl; [|done].
    cbn. rewrite bool_decide_false by (by eapply Hr). done.
  - intros user <-. destruct (Begin (mgr s') user) eqn:Hb; [|done].
    apply Begin_spec in Hb as (_ & (l & Hl & Hs) & _). by apply Hr in Hl.
Qed.

(** ** Witnesses: one client opens a proxy, a fault closes admission *)

Definition demo_lease : RuntimeLease :=
  mkLease 1 "L1" 5 7 "pc" "hash" "active" 1000.
Definition demo_user : UserInfo := mkUserInfo "u" {["lease_id"%string := "L1"%string]} "run1".
Definition demo_m1 : Manager := RememberRuntimeLease (NewManager 0) demo_lease.
Definition demo_m2 : Manager := Opened demo_m1 demo_user "web".
Definition demo_m3 : Manager := SetAdmissionClosed demo_m2 true.

Lemma demo_reachable2 : reachable (mkSys demo_m2 []).
Proof.
  exists 0. eapply (rtc_l _ _ (mkSys demo_m1 [])).
  { exists (ERemember demo_lease). constructor. intros old. cbn. by rewrite lookup_empty. }
  eapply (rtc_l _ _ (mkSys demo_m1 [mkInflight demo_user false])).
  { exists (EBegin demo_user). constructor. vm_compute. done. }
  eapply (rtc_l _ _ (mkSys demo_m2 [mkInflight demo_user true])).
  { exists (EOpened demo_user "web"). apply (step_opened demo_m1 [] []). }
  eapply rtc_once. exists (ERelease demo_user). apply (step_release demo_m2 [] []).
Qed.

Lemma demo_reachable3 : reachable (mkSys demo_m3 []).
Proof.
  destruct demo_reachable2 as [now H]. exists now. eapply rtc_r; [exact H|].
  exists (EWrite (WSetAdmissionClosed true)). apply (step_write _ (WSetAdmissionClosed true)).
Qed.

Lemma demo_run3 : run (mkSys demo_m3 []) [EClosed demo_user "web"]
                      (mkSys (Closed demo_m3 demo_user "web") []).
Proof. eapply run_cons; [constructor|constructor]. Qed.

Lemma proxyCounts_exact_witness :
  ClientProxyCount demo_m2 7 "pc" = 1 ∧
  ClientProxyCount (mgr (mkSys demo_m2 [])) 7 "pc" =
    cnt (owned_by (mgr (mkSys demo_m2 [])) 7 "pc") (registeredProxies (mgr (mkSys demo_m2 []))).
Proof. split; [vm_compute; done|]. apply proxyCounts_exact, demo_reachable2. Defined.

Lemma drain_monotone_witness :
  ClientDraining (mgr (mkSys (Closed demo_m3 demo_user "web") [])) 7 "pc" = true ∧
  ClientProxyCount (mgr (mkSys (Closed demo_m3 demo_user "web") [])) 7 "pc" ≤
    ClientProxyCount (mgr (mkSys demo_m3 [])) 7 "pc".
Proof.
  eapply drain_monotone; [exact demo_reachable3|exact demo_run3|set_solver|vm_compute; done].
Defined.

Lemma admission_closed_no_new_witness :
  registeredProxies (mgr (mkSys (Closed demo_m3 demo_user "web") [])) ⊆
  registeredProxies (mgr (mkSys demo_m3 [])).
Proof.
  eapply admission_closed_no_new; [exact demo_reachable3|exact demo_run3|vm_compute; done|set_solver].
Defined.

Lemma fault_drains_clients_witness :
  let s' := mkSys (Closed demo_m3 demo_user "web") [] in
  ClientDraining (mgr s') 7 "pc" = true ∧
  ClientProxyCount (mgr s') 7 "pc" ≤ ClientProxyCount demo_m2 7 "pc" ∧
  (∀ user, owned_by (mgr s') 7 "pc" (user_lease user) → Begin (mgr s') user = false).
Proof.
  cbn zeta. apply (fault_drains_clients demo_m2 "L1" demo_lease [EClosed demo_user "web"]);
    [exact demo_reachable2|vm_compute; done|exact demo_run3|set_solver].
Defined.

Lemma invalidated_stays_out_witness :
  let s' := mkSys (Closed (invalidateRuntime demo_m2 (λ l, bool_decide (l_UserID l = 5))) demo_user "web") [] in
  (∀ hash, (ExistingRuntime (mgr s') "L1" hash).2 = false) ∧
  (∀ user, user_lease user = "L1"%string → Begin (mgr s') user = false).
Proof.
  cbn zeta. eapply (invalidated_stays_out demo_m2 (λ l, bool_decide (l_UserID l = 5)) "L1"
    [EClosed demo_user "web"]).
  - intros l Hl. assert (runtimeLeases demo_m2 !! "L1"%string = Some demo_lease) as Heq
      by (vm_compute; done).
    rewrite Heq in Hl. injection Hl as <-. done.
  - eapply run_cons; [constructor|constructor].
  - repeat constructor. done.
Defined.
