(* ===== verification/FrpConn.v ===== *)
(** * Tracked connections, bans and attribution

    Properties of the connection table of [internal/frpcore/manager.go]: fresh
    connection ids, the bound on UDP flows, what a ban or a termination closes,
    which binding a flow is attributed to. *)
From Stdlib Require Import ZArith Lia Ascii String.
From stdpp Require Import gmap strings list fin_maps.
From S2P Require Import Prelude GoStrings Types DpiParse DpiEngine DpiService FrpManager.
Local Open Scope Z_scope.

(** The operations on the table, as frps and the handlers call them. *)
Inductive conn_op :=
  | ORegister (info : ConnectionInfo) (userConn : Z) (workConn : option Z)
  | OUnregister (id : string)
  | OObserve (info : ConnectionInfo)
  | OTerminate (id : string)
  | OTerminateUser (userID : Z)
  | OTerminateToken (tokenID : Z)
  | OTerminateClient (tokenID : Z) (clientID : string)
  | OTerminateLease (leaseID : string)
  | OBlock (ip reason : string)
  | OSetBlock (block : BlockedInboundIP)
  | OEnforce (block : BlockedInboundIP)
  | OUnblock (ip : string)
  | OCleanup
  | OBind (binding : ProxyBinding)
  | OUnbind (leaseID proxyName : string)
  | OLeaseAddress (leaseID addr : string)
  | OFeed (sample : TrafficSample).

Definition exec (m : Manager) (now : time) (op : conn_op) : Manager :=
  match op with
  | ORegister info u w => (RegisterTCPConnection m now info u w).1
  | OUnregister id => UnregisterTCPConnection m id
  | OObserve info => ObserveUDPFlow m now info
  | OTerminate id => (TerminateTCPConnection m id).1.1
  | OTerminateUser u => (TerminateConnectionsForUser m u).1.1
  | OTerminateToken t => (TerminateConnectionsForToken m t).1.1
  | OTerminateClient t c => (TerminateConnectionsForClient m t c).1.1
  | OTerminateLease l => (TerminateConnectionsForLease m l).1.1
  | OBlock ip reason => (BlockInboundIP m now ip reason).1.1
  | OSetBlock b => (SetBlockedInboundIP m now b).1
  | OEnforce b => (EnforceBlockedInboundIP m now b).1
  | OUnblock ip => UnblockInboundIP m ip
  | OCleanup => (cleanupExpiredUDPFlows m now).1
  | OBind b => BindProxy m b
  | OUnbind l n => UnbindProxy m l n
  | OLeaseAddress l a => SetLeaseClientAddress m l a
  | OFeed s => (FeedTrafficSample m s).1
  end.

Fixpoint exec_all (m : Manager) (ops : list (time * conn_op)) : Manager :=
  match ops with
  | [] => m
  | (now, op) :: ops => exec_all (exec m now op) ops
  end.

(** ** The invariant of the table *)

Record conn_ok (m : Manager) : Prop := mkConnOk {
  ok_next : 0 ≤ nextConnectionID m;
  ok_tcp : ∀ id c, tcpConnections m !! id = Some c →
             ∃ n, id = "tcp_" +:+ fmt_d n ∧ 0 < n ≤ nextConnectionID m ∧ a_ID (tc_active c) = id;
  ok_udp : ∀ key f, udpFlows m !! key = Some f → a_ID f ≠ ""%string;
  ok_bound : 0 < maxUDPFlows m → Z.of_nat (size (udpFlows m)) ≤ maxUDPFlows m }.

(** Operations that only drop or relabel connections. *)
Lemma conn_ok_shrink m m' :
  conn_ok m → nextConnectionID m' = nextConnectionID m → maxUDPFlows m' = maxUDPFlows m →
  (∀ id c', tcpConnections m' !! id = Some c' →
     ∃ c, tcpConnections m !! id = Some c ∧ a_ID (tc_active c') = a_ID (tc_active c)) →
  (∀ key f', udpFlows m' !! key = Some f' → ∃ f, udpFlows m !! key = Some f ∧ a_ID f' = a_ID f) →
  conn_ok m'.
Proof.
  intros [H1 H2 H3 H4] Hn Hm Ht Hu. split.
  - by rewrite Hn.
  - intros id c' (c & Hc & ->)%Ht. rewrite Hn. by apply H2.
  - intros key f' (f & Hf & ->)%Hu. by eapply H3.
  - rewrite Hm. intros Hpos. etrans; [|by apply H4]. apply inj_le.
    rewrite <-!(size_dom (D := gset string)). apply subseteq_size. intros k.
    rewrite !elem_of_dom. intros [f' Hf']. apply Hu in Hf' as (f & Hf & _). eauto.
Qed.

Lemma terminateConnections_tables m match_ :
  let m' := (terminateConnections m match_).1.1 in
  nextConnectionID m' = nextConnectionID m ∧ maxUDPFlows m' = maxUDPFlows m ∧
  (∀ id c, tcpConnections m' !! id = Some c ↔
           tcpConnections m !! id = Some c ∧ match_ (tc_active c) ≠ true) ∧
  (∀ key f, udpFlows m' !! key = Some f ↔ udpFlows m !! key = Some f ∧ match_ f ≠ true).
Proof.
  cbn. split; [done|]. split; [done|].
  split; intros k x; by rewrite map_lookup_filter_Some.
Qed.

Lemma conn_ok_terminate m match_ : conn_ok m → conn_ok (terminateConnections m match_).1.1.
Proof.
  intros Hok. destruct (terminateConnections_tables m match_) as (Hn & Hm & Ht & Hu).
  eapply conn_ok_shrink; try done.
  - intros id c [Hc _]%Ht. eauto.
  - intros key f [Hf _]%Hu. eauto.
Qed.

Lemma conn_ok_invalidate m match_ : conn_ok m → conn_ok (invalidateRuntime m match_).
Proof. intros [H1 H2 H3 H4]. by split. Qed.

Lemma conn_ok_block m block close : conn_ok m → conn_ok (setBlockedInboundIP m block close).1.
Proof.
  intros Hok. eapply conn_ok_shrink; try done.
  - cbn. intros id c. destruct close; [rewrite map_lookup_filter_Some; intros [? _]|intros ?]; eauto.
  - cbn. intros key f [? _]%map_lookup_filter_Some. eauto.
Qed.

Lemma tcp_id_inj n k : "tcp_" +:+ fmt_d n = "tcp_" +:+ fmt_d k → n = k.
Proof. intros Heq. repeat (injection Heq as Heq). by apply fmt_d_inj. Qed.

Lemma conn_ok_register m now info u w :
  conn_ok m → nextConnectionID m + 1 < 2 ^ 64 →
  let '(m', id) := RegisterTCPConnection m now info u w in
  conn_ok m' ∧ tcpConnections m !! id = None ∧ nextConnectionID m' = nextConnectionID m + 1.
Proof.
  intros [H1 H2 H3 H4] Hlt. unfold RegisterTCPConnection.
  destruct (splitAddr (ci_RemoteAddr info)) as [ip port].
  unfold wrap_uint64. rewrite Z.mod_small by lia. split; [split|split]; cbn.
  - lia.
  - intros id c [[<- <-]|[Hne Hc]]%lookup_insert_Some.
    + exists (nextConnectionID m + 1). repeat split; lia.
    + destruct (H2 id c Hc) as (n & ? & ? & ?). exists n. repeat split; try done; lia.
  - done.
  - done.
  - destruct (tcpConnections m !! _) as [c|] eqn:Hc; [|done].
    destruct (H2 _ _ Hc) as (n & Heq%tcp_id_inj & ? & _). lia.
  - done.
Qed.

Lemma conn_ok_observe m now info :
  conn_ok m → nextConnectionID m + 1 < 2 ^ 64 →
  conn_ok (ObserveUDPFlow m now info) ∧
  nextConnectionID m ≤ nextConnectionID (ObserveUDPFlow m now info) ≤ nextConnectionID m + 1.
Proof.
  intros [H1 H2 H3 H4] Hlt. unfold ObserveUDPFlow.
  destruct (splitAddr (ci_RemoteAddr info)) as [ip port]. cbn zeta.
  set (key := udpKey info). unfold wrap_uint64. rewrite Z.mod_small by lia.
  destruct (bool_decide (from_option a_ID ""%string (udpFlows m !! key) = ""%string)) eqn:Hfresh; bools.
  - assert (udpFlows m !! key = None) as Hnone.
    { destruct (udpFlows m !! key) as [f|] eqn:Hf; [|done]. cbn in Hfresh. by apply H3 in Hf. }
    cbn [andb]. destruct (_ && _) eqn:Hfull; [split; [done|lia]|]. split; [|cbn; lia]. split; cbn.
    + lia.
    + intros id c Hc. destruct (H2 id c Hc) as (n & ? & ? & ?). exists n. repeat split; try done; lia.
    + intros k f [[<- <-]|[Hne Hf]]%lookup_insert_Some; [done|by eapply H3].
    + intros Hpos. rewrite map_size_insert_None by done.
      rewrite bool_decide_true in Hfull by done. cbn in Hfull. bools. lia.
  - cbn [andb]. split; [|cbn; lia]. split; cbn; try done.
    + intros k f [[<- <-]|[Hne Hf]]%lookup_insert_Some; [done|by eapply H3].
    + intros Hpos. destruct (udpFlows m !! key) as [f|] eqn:Hf; [|done].
      rewrite map_size_insert_Some by eauto. by apply H4.
Qed.

Lemma conn_ok_exec m now op :
  conn_ok m → nextConnectionID m + 1 < 2 ^ 64 →
  conn_ok (exec m now op) ∧ nextConnectionID (exec m now op) ≤ nextConnectionID m + 1.
Proof.
  intros Hok Hlt. destruct op; cbn [exec].
  - pose proof (conn_ok_register m now info userConn workConn Hok Hlt) as H.
    destruct (RegisterTCPConnection m now info userConn workConn) as [m' id].
    destruct H as (? & _ & ?). cbn. split; [done|lia].
  - unfold UnregisterTCPConnection. case_bool_decide; [split; [done|lia]|]. split; [|cbn; lia].
    eapply conn_ok_shrink; try done; cbn; [intros i c [_ ?]%lookup_delete_Some|]; eauto.
  - pose proof (conn_ok_observe m now info Hok Hlt) as [? ?]. split; [done|lia].
  - unfold TerminateTCPConnection. destruct (tcpConnections m !! id); cbn; (split; [|lia]);
      (eapply conn_ok_shrink; try done; cbn; [intros i c' [_ ?]%lookup_delete_Some|]; eauto).
  - unfold TerminateConnectionsForUser. case_bool_decide; [split; [done|cbn; lia]|].
    split; [by apply conn_ok_terminate, conn_ok_invalidate|cbn; lia].
  - unfold TerminateConnectionsForToken. case_bool_decide; [split; [done|cbn; lia]|].
    split; [by apply conn_ok_terminate, conn_ok_invalidate|cbn; lia].
  - unfold TerminateConnectionsForClient. destruct (_ || _); [split; [done|cbn; lia]|].
    split; [by apply conn_ok_terminate, conn_ok_invalidate|cbn; lia].
  - unfold TerminateConnectionsForLease. case_bool_decide; [split; [done|cbn; lia]|].
    split; [by apply conn_ok_terminate, conn_ok_invalidate|cbn; lia].
  - split; [|cbn; lia]. by apply (conn_ok_block m (mkBlock (TrimSpace ip) (TrimSpace reason) now) true).
  - split; [|cbn; lia]. by apply conn_ok_block.
  - split; [|cbn; lia]. by apply conn_ok_block.
  - destruct Hok. split; [by split|cbn; lia].
  - split; [|cbn; lia]. eapply conn_ok_shrink; try done; [eauto|].
    cbn. intros key f [? _]%map_lookup_filter_Some. eauto.
  - destruct Hok. split; [by split|cbn; lia].
  - destruct Hok. split; [by split|cbn; lia].
  - split; [|cbn; lia]. eapply conn_ok_shrink; try done; cbn; intros k x; rewrite lookup_fmap;
      intros (y & Hy & ->)%fmap_Some; exists y; (split; [done|]); by case_bool_decide.
  - destruct Hok. split; [by split|cbn; lia].
Qed.

Lemma conn_ok_exec_all m ops :
  conn_ok m → nextConnectionID m + len ops < 2 ^ 64 →
  conn_ok (exec_all m ops) ∧ nextConnectionID (exec_all m ops) ≤ nextConnectionID m + len ops.
Proof.
  revert m. induction ops as [|[now op] ops IH]; intros m Hok Hlt; cbn [exec_all].
  { rewrite len_nil. split; [done|lia]. }
  rewrite len_cons in *. pose proof (len_nonneg ops).
  destruct (conn_ok_exec m now op Hok) as [Hok' Hn]; [lia|].
  destruct (IH (exec m now op) Hok') as [? ?]; [lia|]. split; [done|lia].
Qed.

Lemma conn_ok_new now : conn_ok (NewManager now).
Proof. split; cbn; try done. Qed.

Lemma exec_maxUDPFlows m now op : maxUDPFlows (exec m now op) = maxUDPFlows m.
Proof.
  destruct op; cbn [exec]; try done.
  - unfold RegisterTCPConnection. by destruct (splitAddr _).
  - unfold UnregisterTCPConnection. by case_bool_decide.
  - unfold ObserveUDPFlow. destruct (splitAddr _). by destruct (_ && _).
  - unfold TerminateTCPConnection. by destruct (tcpConnections m !! id).
  - unfold TerminateConnectionsForUser. by case_bool_decide.
  - unfold TerminateConnectionsForToken. by case_bool_decide.
  - unfold TerminateConnectionsForClient. by destruct (_ || _).
  - unfold TerminateConnectionsForLease. by case_bool_decide.
Qed.

Lemma exec_all_maxUDPFlows m ops : maxUDPFlows (exec_all m ops) = maxUDPFlows m.
Proof.
  revert m. induction ops as [|[now op] ops IH]; intros m; cbn; [done|].
  by rewrite IH, exec_maxUDPFlows.
Qed.

(** after any sequence of fewer than 2^64 operations the table tracks at
    most 32768 UDP flows, and a newly registered TCP connection gets an id that
    no tracked connection has: registering never replaces a connection. *)
Theorem connection_table_bounds start ops now info u w :
  len ops + 1 < 2 ^ 64 →
  let m := exec_all (NewManager start) ops in
  let '(m', id) := RegisterTCPConnection m now info u w in
  Z.of_nat (size (udpFlows m)) ≤ maxTrackedUDPFlows ∧
  tcpConnections m !! id = None ∧ tcpConnections m ⊆ tcpConnections m'.
Proof.
  intros Hlen. cbn zeta.
  destruct (conn_ok_exec_all (NewManager start) ops) as [Hok Hnext]; [apply conn_ok_new|cbn; lia|].
  pose proof (exec_all_maxUDPFlows (NewManager start) ops) as Hmax.
  pose proof (conn_ok_register _ now info u w Hok) as H.
  destruct (RegisterTCPConnection _ now info u w) as [m' id] eqn:Hreg.
  destruct H as (_ & Hnew & _); [cbn in Hnext; lia|]. split; [|split; [done|]].
  - destruct Hok as [_ _ _ Hb]. rewrite Hmax in Hb. apply Hb. done.
  - unfold RegisterTCPConnection in Hreg. destruct (splitAddr _).
    injection Hreg as <- <-. by apply insert_subseteq.
Qed.

Lemma connection_table_bounds_witness :
  let m := exec_all (NewManager 0)
    [(1, ORegister (mkInfo "L" "web" "tcp" "" "1.2.3.4:5") 10 None);
     (2, OObserve (mkInfo "L" "dns" "udp" "" "1.2.3.4:6"))] in
  let '(m', id) := RegisterTCPConnection m 3 (mkInfo "L" "web" "tcp" "" "1.2.3.4:7") 11 (Some 12) in
  Z.of_nat (size (udpFlows m)) ≤ maxTrackedUDPFlows ∧
  tcpConnections m !! id = None ∧ tcpConnections m ⊆ tcpConnections m'.
Proof. apply connection_table_bounds. vm_compute. done. Defined.

(** ** Bans *)

Lemma elem_of_map_values {A} (m : gmap string A) x :
  x ∈ (map_to_list m).*2 ↔ ∃ k, m !! k = Some x.
Proof.
  rewrite list_elem_of_fmap. split.
  - intros ([k y] & -> & Hy). apply elem_of_map_to_list in Hy. eauto.
  - intros [k Hk]. exists (k, x). split; [done|]. by apply elem_of_map_to_list.
Qed.

(** What a ban closes. *)
Lemma EnforceBlocked_closes m now block h :
  h ∈ (EnforceBlockedInboundIP m now block).2 ↔
  ∃ id c, tcpConnections m !! id = Some c ∧ a_InboundIP (tc_active c) = bl_IP block ∧ h ∈ conn_handles c.
Proof.
  unfold EnforceBlockedInboundIP, setBlockedInboundIP. cbn [snd].
  assert (bl_IP (stamp_block now block) = bl_IP block) as -> by (unfold stamp_block; by case_match).
  rewrite list_elem_of_bind. split.
  - intros (c & Hh & Hc). apply elem_of_map_values in Hc as [id Hc].
    apply map_lookup_filter_Some in Hc as [? ?]. exists id, c. auto.
  - intros (id & c & Hc & Hcip & Hh). exists c. split; [done|].
    apply elem_of_map_values. exists id. by apply map_lookup_filter_Some.
Qed.

(** enforcing a ban denies new traffic from the address, drops and closes
    exactly its tracked TCP connections (the user and the work side of each),
    forgets its UDP flows, and leaves every other connection and ban alone. *)
Theorem EnforceBlockedInboundIP_spec m now block :
  let '(m', closed) := EnforceBlockedInboundIP m now block in
  (∀ info, (splitAddr (ci_RemoteAddr info)).1 = bl_IP block → bl_IP block ≠ ""%string →
           IsInboundBlocked m' info = true) ∧
  (∀ id c, tcpConnections m' !! id = Some c ↔
     tcpConnections m !! id = Some c ∧ a_InboundIP (tc_active c) ≠ bl_IP block) ∧
  (∀ key f, udpFlows m' !! key = Some f ↔ udpFlows m !! key = Some f ∧ a_InboundIP f ≠ bl_IP block) ∧
  (∀ h, h ∈ closed ↔ ∃ id c, tcpConnections m !! id = Some c ∧
                             a_InboundIP (tc_active c) = bl_IP block ∧ h ∈ conn_handles c) ∧
  (∀ ip, ip ≠ bl_IP block → blockedInboundIPs m' !! ip = blockedInboundIPs m !! ip).
Proof.
  unfold EnforceBlockedInboundIP, setBlockedInboundIP.
  assert (bl_IP (stamp_block now block) = bl_IP block) as Hip by (unfold stamp_block; by case_match).
  rewrite Hip. split; [|split; [|split; [|split]]].
  - intros info Hinfo Hne. unfold IsInboundBlocked. destruct (splitAddr _) as [ip port]. cbn in *.
    subst ip. rewrite bool_decide_false by done. apply bool_decide_eq_true.
    rewrite lookup_insert_eq. eauto.
  - intros id c. cbn. by rewrite map_lookup_filter_Some.
  - intros key f. cbn. by rewrite map_lookup_filter_Some.
  - intros h. rewrite <- (EnforceBlocked_closes m now block h). unfold EnforceBlockedInboundIP, setBlockedInboundIP. by rewrite Hip.
  - intros ip Hne. cbn. by rewrite lookup_insert_ne.
Qed.

(** The operations that neither end a connection nor lift a ban;
    [SetBlockedInboundIP] records a ban without closing anything. *)
Definition passive (op : conn_op) : bool :=
  match op with
  | ORegister _ _ _ | OObserve _ | OSetBlock _ | OCleanup | OBind _ | OUnbind _ _ | OLeaseAddress _ _ | OFeed _ => true
  | _ => false
  end.
(** A connection from a banned address is tracked. *)
Definition slipped (ip id : string) (u : Z) (m : Manager) : Prop :=
  is_Some (blockedInboundIPs m !! ip) ∧
  ∃ c, tcpConnections m !! id = Some c ∧ a_InboundIP (tc_active c) = ip ∧ tc_userConn c = u.

Lemma passive_slipped ip id u m now op :
  conn_ok m → nextConnectionID m + 1 < 2 ^ 64 → passive op = true → slipped ip id u m → slipped ip id u (exec m now op).
Proof.
  intros Hok Hlt Hp [Hb (c & Hc & Hip & Hu)]. destruct op; try done; cbn [exec]; try (by split; [|exists c]).
  - pose proof (conn_ok_register m now info userConn workConn Hok Hlt) as Hr. unfold RegisterTCPConnection in *.
    destruct (splitAddr _). destruct Hr as (_ & Hnew & _). split; [done|]. exists c. cbn.
    rewrite lookup_insert_ne; [done|]. intros Heq. rewrite Heq in Hnew. congruence.
  - unfold ObserveUDPFlow. destruct (splitAddr _). destruct (_ && _); by split; [|exists c].
  - split; [|by exists c]. cbn. destruct (decide (bl_IP (stamp_block now block) = ip)) as [->|Hne]; [rewrite lookup_insert_eq; eauto|].
    by rewrite lookup_insert_ne.
  - split; [done|]. cbn. rewrite lookup_fmap, Hc. cbn. eexists. split; [reflexivity|]. by case_bool_decide.
Qed.
Lemma passive_all_slipped ip id u m ops :
  conn_ok m → nextConnectionID m + len ops < 2 ^ 64 → Forall (λ o : time * conn_op, passive o.2 = true) ops → slipped ip id u m →
  slipped ip id u (exec_all m ops).
Proof.
  revert m. induction ops as [|[now op] ops IH]; intros m Hok Hlt; [done|]. intros [Hp Hall]%Forall_cons Hs. cbn [exec_all].
  rewrite len_cons in Hlt. pose proof (len_nonneg ops). destruct (conn_ok_exec m now op Hok) as [Hok' Hn]; [lia|].
  apply IH; [done|lia|done|]. apply passive_slipped; [done|lia|done|done].
Qed.

(** C36: the ban check and the registration of a connection are separate critical
    sections: a ban of its address that is enforced between them neither denies nor
    closes the connection.  In every state that the manager reaches and for every
    new connection of the banned address, the connection is not among those the ban
    closes, and it is tracked, with its address banned, for as long as nothing ends
    connections or lifts the ban. *)
Theorem block_check_race start before info block t1 t2 u w after :
  let m := exec_all (NewManager start) before in
  len before + len after + 2 < 2 ^ 64 →
  IsInboundBlocked m info = false → (splitAddr (ci_RemoteAddr info)).1 = bl_IP block →
  (∀ id c, tcpConnections m !! id = Some c → u ∉ conn_handles c) → Forall (λ o : time * conn_op, passive o.2 = true) after →
  let '(m1, closed) := EnforceBlockedInboundIP m t1 block in
  let '(m2, id) := RegisterTCPConnection m1 t2 info u w in
  (u ∉ closed) ∧ slipped (bl_IP block) id u (exec_all m2 after).
Proof.
  cbn zeta. intros Hlen Hfree Hip Hnew Hpass. pose proof (len_nonneg before). pose proof (len_nonneg after).
  destruct (conn_ok_exec_all (NewManager start) before) as [Hok Hnext]; [apply conn_ok_new|cbn; lia|]. cbn in Hnext.
  set (m := exec_all (NewManager start) before) in *. clearbody m.
  pose proof (EnforceBlocked_closes m t1 block) as Hclosed. pose proof (conn_ok_block m (stamp_block t1 block) true Hok) as Hok1.
  unfold EnforceBlockedInboundIP in *. destruct (setBlockedInboundIP _ _ _) as [m1 closed] eqn:Hset. cbn [fst snd] in *.
  assert (Hm1 : nextConnectionID m1 = nextConnectionID m ∧ is_Some (blockedInboundIPs m1 !! bl_IP block)).
  { unfold setBlockedInboundIP in Hset. injection Hset as <- _. cbn. split; [done|].
    replace (bl_IP (stamp_block t1 block)) with (bl_IP block) by (unfold stamp_block; by case_match). rewrite lookup_insert_eq. eauto. }
  destruct Hm1 as [Hn1 Hb1].
  pose proof (conn_ok_register m1 t2 info u w Hok1) as Hr. unfold RegisterTCPConnection in *.
  destruct (splitAddr (ci_RemoteAddr info)) as [ip port]. cbn in Hip. subst ip. destruct Hr as (Hok2 & _ & Hn2); [lia|].
  split; [intros Hin; apply Hclosed in Hin as (id & c & Hc & _ & Hh); by eapply Hnew|].
  apply passive_all_slipped; [done|lia|done|]. split; [done|]. cbn. rewrite lookup_insert_eq. by eexists.
Qed.

Definition race_before : list (time * conn_op) := [(1, ORegister (mkInfo "L" "web" "tcp" "" "1.2.3.4:5") 10 None)].
Definition race_block : BlockedInboundIP := mkBlock "1.2.3.4" "abuse" 2.
Lemma block_check_race_witness :
  (EnforceBlockedInboundIP (exec_all (NewManager 0) race_before) 2 race_block).2 = [10] ∧
  let '(m1, closed) := EnforceBlockedInboundIP (exec_all (NewManager 0) race_before) 2 race_block in
  let '(m2, id) := RegisterTCPConnection m1 3 (mkInfo "L" "web" "tcp" "" "1.2.3.4:6") 11 None in
  (11 ∉ closed) ∧ slipped "1.2.3.4" id 11 (exec_all m2 [(4, OCleanup)]).
Proof.
  split; [vm_compute; reflexivity|].
  apply (block_check_race 0 race_before (mkInfo "L" "web" "tcp" "" "1.2.3.4:6") race_block 2 3 11 None [(4, OCleanup)]).
  - vm_compute. reflexivity.
  - vm_compute. reflexivity.
  - vm_compute. reflexivity.
  - intros id c Hc. assert (Hl : map_to_list (tcpConnections (exec_all (NewManager 0) race_before)) =
      [("tcp_1"%string, mkTCP (mkActive "tcp_1" "tcp" 0 0 "" "" "L" "web" "tcp" 0 "1.2.3.4:5" "1.2.3.4" 5 "" 1 1 true) 10 None)])
      by (vm_compute; reflexivity).
    apply elem_of_map_to_list in Hc. rewrite Hl in Hc. apply list_elem_of_singleton in Hc as [= _ ->]. apply (bool_decide_unpack _). vm_compute. exact I.
  - by repeat constructor.
Defined.

(** ** Termination *)

Definition client_conn (t : Z) (c : string) (a : ActiveConnection) : Prop :=
  a_TokenID a = t ∧ a_ClientID a = c.

(** terminating a client revokes its known leases and removes exactly its
    tracked connections and flows, closing both sides of each TCP connection and
    counting what it removed; every other connection is kept. *)
Theorem TerminateConnectionsForClient_spec m t client :
  0 < t → TrimSpace client ≠ ""%string →
  let c := TrimSpace client in
  let '(m', n, closed) := TerminateConnectionsForClient m t client in
  (∀ id a, tcpConnections m' !! id = Some a ↔
     tcpConnections m !! id = Some a ∧ ¬ client_conn t c (tc_active a)) ∧
  (∀ key f, udpFlows m' !! key = Some f ↔ udpFlows m !! key = Some f ∧ ¬ client_conn t c f) ∧
  n = Z.of_nat (size (tcpConnections m)) - Z.of_nat (size (tcpConnections m')) +
      (Z.of_nat (size (udpFlows m)) - Z.of_nat (size (udpFlows m'))) ∧
  (∀ h, h ∈ closed ↔ ∃ id a, tcpConnections m !! id = Some a ∧ client_conn t c (tc_active a) ∧
                             h ∈ conn_handles a) ∧
  (∀ id l, runtimeLeases m' !! id = Some l → l_TokenID l = t → l_ClientID l = c →
           l_Status l = "revoked"%string).
Proof.
  intros Ht Hc. cbn zeta. unfold TerminateConnectionsForClient.
  rewrite !bool_decide_false by (lia || done). cbn [orb]. unfold terminateConnections. cbn.
  assert (∀ a, bool_decide (a_TokenID a = t) && bool_decide (a_ClientID a = TrimSpace client) = true ↔
               client_conn t (TrimSpace client) a) as Hm.
  { intros a. unfold client_conn. by rewrite <-bool_decide_and, bool_decide_eq_true. }
  split; [|split; [|split; [|split]]].
  - intros id a. rewrite map_lookup_filter_Some. cbn. by rewrite Hm.
  - intros key f. rewrite map_lookup_filter_Some. cbn. by rewrite Hm.
  - rewrite (map_size_filter_split (λ kc : string * activeTCPConnection,
      bool_decide (a_TokenID (tc_active kc.2) = t) &&
      bool_decide (a_ClientID (tc_active kc.2) = TrimSpace client) = true) (tcpConnections m)).
    rewrite (map_size_filter_split (λ kf : string * ActiveConnection,
      bool_decide (a_TokenID kf.2 = t) && bool_decide (a_ClientID kf.2 = TrimSpace client) = true)
      (udpFlows m)).
    lia.
  - intros h. rewrite list_elem_of_bind. split.
    + intros (a & Hh & Ha). apply elem_of_map_values in Ha as [id Ha].
      apply map_lookup_filter_Some in Ha as [? Hma]. exists id, a. apply Hm in Hma. auto.
    + intros (id & a & Ha & Hma & Hh). exists a. split; [done|].
      apply elem_of_map_values. exists id. apply map_lookup_filter_Some. split; [done|]. by apply Hm.
  - intros id l. rewrite lookup_fmap. intros (l0 & Hl0 & ->)%fmap_Some.
    destruct (_ && _) eqn:E; [done|]. intros H1 H2.
    by rewrite !bool_decide_true in E by done.
Qed.

Definition demo_table : Manager :=
  exec_all (NewManager 0)
    [(1, OBind (mkBinding 5 7 "pc" "" "L" "web" "tcp" 8080));
     (2, ORegister (mkInfo "L" "web" "tcp" "" "1.2.3.4:5") 10 (Some 11))].

Lemma TerminateConnectionsForClient_spec_witness :
  let c := TrimSpace " pc" in
  let '(m', n, closed) := TerminateConnectionsForClient demo_table 7 " pc" in
  (∀ id a, tcpConnections m' !! id = Some a ↔
     tcpConnections demo_table !! id = Some a ∧ ¬ client_conn 7 c (tc_active a)) ∧
  (∀ key f, udpFlows m' !! key = Some f ↔ udpFlows demo_table !! key = Some f ∧ ¬ client_conn 7 c f) ∧
  n = Z.of_nat (size (tcpConnections demo_table)) - Z.of_nat (size (tcpConnections m')) +
      (Z.of_nat (size (udpFlows demo_table)) - Z.of_nat (size (udpFlows m'))) ∧
  (∀ h, h ∈ closed ↔ ∃ id a, tcpConnections demo_table !! id = Some a ∧
                             client_conn 7 c (tc_active a) ∧ h ∈ conn_handles a) ∧
  (∀ id l, runtimeLeases m' !! id = Some l → l_TokenID l = 7 → l_ClientID l = c →
           l_Status l = "revoked"%string).
Proof. apply (TerminateConnectionsForClient_spec demo_table 7 " pc"); done. Defined.

(** ** Attribution *)

Lemma bindingKey_inj l1 n1 l2 n2 :
  no_char (chr 0) l1 = true → no_char (chr 0) l2 = true →
  bindingKey l1 n1 = bindingKey l2 n2 → l1 = l2 ∧ n1 = n2.
Proof. intros H1 H2. by apply sep_inj_l. Qed.

(** A sample without an owner is attributed to the binding of its lease and
    proxy name, whatever other proxies are bound later. *)
Lemma attribution_bound m b b' sample :
  no_char (chr 0) (b_LeaseID b) = true → no_char (chr 0) (b_LeaseID b') = true →
  (b_LeaseID b', b_ProxyName b') ≠ (b_LeaseID b, b_ProxyName b) →
  flow_UserID (ts_Flow sample) = 0 →
  flow_LeaseID (ts_Flow sample) = b_LeaseID b → b_LeaseID b ≠ ""%string →
  flow_ProxyName (ts_Flow sample) = b_ProxyName b → b_ProxyName b ≠ ""%string →
  let flow := ts_Flow (FeedTrafficSample (BindProxy (BindProxy m b) b') sample).2 in
  flow_UserID flow = b_UserID b ∧ flow_TokenID flow = b_TokenID b ∧
  flow_ClientID flow = b_ClientID b ∧ flow_RemotePort flow = b_RemotePort b.
Proof.
  intros Hb Hb' Hne Hu Hl Hl0 Hn Hn0. cbn zeta. unfold FeedTrafficSample, attribute_flow. cbn [snd].
  cbn [upd ts_Flow eta_sample]. rewrite Hu, Hl, Hn. rewrite !bool_decide_true by done. cbn [andb].
  unfold BindProxy. cbn [bindings upd eta_manager].
  assert (∀ (c : ProxyBinding) x, b_LeaseID (if bool_decide (b_ClientAddr c = ""%string)
     then c <| b_ClientAddr := x |> else c) = b_LeaseID c) as Hlease by (intros; by case_bool_decide).
  assert (∀ (c : ProxyBinding) x, b_ProxyName (if bool_decide (b_ClientAddr c = ""%string)
     then c <| b_ClientAddr := x |> else c) = b_ProxyName c) as Hname by (intros; by case_bool_decide).
  rewrite !Hlease, !Hname.
  rewrite lookup_insert_ne by (intros [? ?]%bindingKey_inj; congruence).
  rewrite lookup_insert_eq. cbn. by case_bool_decide.
Qed.
