(* ===== verification/Config.v ===== *)
(** * Configuration

    [internal/config]: the configuration record, its defaults, the file and
    environment layers, the merge of partial sections, validation, and [Load].
    The environment is a finite map (an unset and an empty variable are the same
    to the code); reading the file answers a decoded [FileConfig], a missing
    file, or an error with its message. *)
From Stdlib Require Import ZArith Lia Ascii String.
From stdpp Require Import gmap strings list fin_maps.
From S2P Require Import Prelude GoStrings.
Local Open Scope Z_scope.

(** ** Data *)

Definition ModeController : string := "controller".
Definition ModeEdge : string := "edge".
Definition ConfigurationAutomatic : string := "automatic".
Definition ConfigurationManual : string := "manual".

Record ConnectionTuning := mkTuning {
  DisableTCPMux : bool; TCPMuxKeepaliveSeconds : Z; TCPKeepaliveSeconds : Z; MaxPoolCount : Z;
  HeartbeatTimeoutSeconds : Z; UserConnectionTimeoutSeconds : Z; MTLSHandshakeTimeoutSeconds : Z;
  DisableMTLSSessionTickets : bool; EnableMTLSSessionResumption : bool }.

Record NodeRuntimeConfig := mkNode {
  n_Tag : string; n_PublicAPIURL : string; n_FRPAdvertiseAddr : string; n_FRPBindPort : Z;
  n_PortRangeStart : Z; n_PortRangeEnd : Z; n_Selectable : bool }.
#[export] Instance eta_node : Eta NodeRuntimeConfig := λ r,
  mkNode (n_Tag r) (n_PublicAPIURL r) (n_FRPAdvertiseAddr r) (n_FRPBindPort r)
    (n_PortRangeStart r) (n_PortRangeEnd r) (n_Selectable r).

Record TLSFiles := mkTLS {
  tls_CAFile : string; tls_CertFile : string; tls_KeyFile : string;
  tls_CACertificateBase64 : string; tls_CAPrivateKeyBase64 : string;
  tls_CertificateBase64 : string; tls_PrivateKeyBase64 : string }.
#[export] Instance eta_tls : Eta TLSFiles := λ r,
  mkTLS (tls_CAFile r) (tls_CertFile r) (tls_KeyFile r) (tls_CACertificateBase64 r)
    (tls_CAPrivateKeyBase64 r) (tls_CertificateBase64 r) (tls_PrivateKeyBase64 r).

Record ControllerConfig := mkController {
  cc_EdgeAccessEnabled : bool; cc_ListenAddr : string; cc_PublicAddress : string;
  cc_TLS : TLSFiles; cc_CAKeyFile : string; cc_HeartbeatIntervalSeconds : Z }.
#[export] Instance eta_controller : Eta ControllerConfig := λ r,
  mkController (cc_EdgeAccessEnabled r) (cc_ListenAddr r) (cc_PublicAddress r) (cc_TLS r)
    (cc_CAKeyFile r) (cc_HeartbeatIntervalSeconds r).

Record EdgeReportingConfig := mkReporting {
  er_ClientPresence : bool; er_Connections : bool; er_TrafficStatistics : bool;
  er_DPIEvents : bool; er_RuntimeLogs : bool }.
Record EdgeRemoteCommandsConfig := mkRemoteCommands {
  rc_DisconnectClient : bool; rc_DisconnectConnection : bool; rc_BlockIP : bool;
  rc_ChangeRuntimeSettings : bool }.

Record EdgeConfig := mkEdge {
  ec_NodeID : string; ec_NodeName : string; ec_ControllerAddr : string; ec_ControllerAPIAddr : string;
  ec_ServerName : string; ec_TLS : TLSFiles; ec_StatePath : string;
  ec_ControllerAdministrationEnabled : bool; ec_Reporting : EdgeReportingConfig;
  ec_RemoteCommands : EdgeRemoteCommandsConfig }.
#[export] Instance eta_edge : Eta EdgeConfig := λ r,
  mkEdge (ec_NodeID r) (ec_NodeName r) (ec_ControllerAddr r) (ec_ControllerAPIAddr r)
    (ec_ServerName r) (ec_TLS r) (ec_StatePath r) (ec_ControllerAdministrationEnabled r)
    (ec_Reporting r) (ec_RemoteCommands r).

Record InitialAdminConfig := mkAdmin {
  ia_Username : string; ia_DisplayName : string; ia_PasswordHash : string }.

Record Config := mkConfig {
  ConfigPath : string; ConfigVersion : Z; ConfigurationMode : string;
  cfg_ConnectionTuning : ConnectionTuning; cfg_Mode : string; ConfigState : string;
  ConfigError : string; HTTPAddr : string; MySQLDSN : string; CookieSecret : string;
  SessionTTL : duration; RuntimeTokenTTL : duration; UDPConnectionTTL : duration;
  EmbeddedFRPEnabled : bool; FRPBindAddr : string; FRPProxyBindAddr : string;
  FRPServerAddr : string; FRPServerPort : Z; FRPTransportTLS : bool;
  ClientConfigComment : string; InitialAdmin : InitialAdminConfig;
  cfg_Controller : ControllerConfig; cfg_Edge : EdgeConfig; cfg_Node : NodeRuntimeConfig;
  Initialized : bool }.
#[export] Instance eta_config : Eta Config := λ c,
  mkConfig (ConfigPath c) (ConfigVersion c) (ConfigurationMode c) (cfg_ConnectionTuning c)
    (cfg_Mode c) (ConfigState c) (ConfigError c) (HTTPAddr c) (MySQLDSN c) (CookieSecret c)
    (SessionTTL c) (RuntimeTokenTTL c) (UDPConnectionTTL c) (EmbeddedFRPEnabled c) (FRPBindAddr c)
    (FRPProxyBindAddr c) (FRPServerAddr c) (FRPServerPort c) (FRPTransportTLS c)
    (ClientConfigComment c) (InitialAdmin c) (cfg_Controller c) (cfg_Edge c) (cfg_Node c)
    (Initialized c).

Record FileConfig := mkFileConfig {
  fc_ConfigVersion : Z; fc_ConfigurationMode : string; fc_ConnectionTuning : ConnectionTuning;
  fc_Mode : string; fc_MySQLDSN : string; fc_CookieSecret : string; fc_SessionTTL : string;
  fc_RuntimeTokenTTL : string; fc_UDPConnectionTTL : string; fc_EmbeddedFRPEnabled : option bool;
  fc_FRPBindAddr : string; fc_FRPProxyBindAddr : string; fc_FRPServerAddr : string;
  fc_FRPServerPort : Z; fc_FRPTransportTLS : bool; fc_ClientConfigComment : string;
  fc_InitialAdmin : InitialAdminConfig; fc_Controller : ControllerConfig; fc_Edge : EdgeConfig;
  fc_Node : NodeRuntimeConfig; fc_Initialized : bool; fc_CreatedAt : time }.

(** ** [time.ParseDuration]

    A sign, then numbers with an optional fraction and a unit.  A fraction is
    rounded down to a nanosecond here; the library computes it in [float64]. *)
Fixpoint span_digits (s : string) : list Z * string :=
  match s with
  | String c rest =>
      match digit_of c with
      | Some d => let '(ds, r) := span_digits rest in (d :: ds, r)
      | None => ([], s)
      end
  | EmptyString => ([], s)
  end.
Fixpoint span_unit (s : string) : string * string :=
  match s with
  | String c rest =>
      if bool_decide (c = chr 46) || bool_decide (is_Some (digit_of c)) then (EmptyString, s)
      else let '(u, r) := span_unit rest in (String c u, r)
  | EmptyString => (EmptyString, s)
  end.
Definition unit_value (u : string) : option Z :=
  if bool_decide (u = "ns"%string) then Some 1
  else if bool_decide (u = "us"%string ∨ u = "µs"%string ∨ u = "μs"%string) then Some 1000
  else if bool_decide (u = "ms"%string) then Some Millisecond
  else if bool_decide (u = "s"%string) then Some Second
  else if bool_decide (u = "m"%string) then Some Minute
  else if bool_decide (u = "h"%string) then Some Hour
  else None.
Definition digits_number (ds : list Z) : Z := foldl (λ acc d, acc * 10 + d) 0 ds.

Fixpoint duration_terms (fuel : nat) (acc : Z) (s : string) : option Z :=
  match s with
  | EmptyString => Some acc
  | _ =>
      match fuel with
      | O => None
      | S fuel =>
          let '(whole, s) := span_digits s in
          let '(frac, dot, s) :=
            match s with
            | String c rest => if bool_decide (c = chr 46)
                               then let '(f, r) := span_digits rest in (f, true, r)
                               else ([], false, s)
            | EmptyString => ([], false, s)
            end in
          if bool_decide (whole = [] ∧ frac = []) then None else
          let '(u, s) := span_unit s in
          unit ← unit_value u;
          let v := digits_number whole * unit +
                   digits_number frac * unit / 10 ^ len frac in
          if bool_decide (2 ^ 63 < acc + v) then None else duration_terms fuel (acc + v) s
      end
  end.

Definition ParseDuration (s : string) : option duration :=
  let '(neg, s) :=
    match s with
    | String c rest => if bool_decide (c = chr 45) then (true, rest)
                       else if bool_decide (c = chr 43) then (false, rest) else (false, s)
    | EmptyString => (false, s)
    end in
  if bool_decide (s = "0"%string) then Some 0
  else if bool_decide (s = ""%string) then None
  else
    d ← duration_terms (String.length s) 0 s;
    if neg : bool then Some (- d) else if bool_decide (maxInt64 < d) then None else Some d.

Definition parseDuration (value : string) (fallback : duration) : duration :=
  default fallback (ParseDuration value).

(** [strconv.ParseBool]. *)
Definition ParseBool (s : string) : option bool :=
  if bool_decide (s ∈ ["1"; "t"; "T"; "true"; "TRUE"; "True"]%string) then Some true
  else if bool_decide (s ∈ ["0"; "f"; "F"; "false"; "FALSE"; "False"]%string) then Some false
  else None.

(** ** Environment *)

Section env.
Context (environ : gmap string string).

Definition Getenv (key : string) : string := default ""%string (environ !! key).

Definition env (key fallback : string) : string :=
  if bool_decide (Getenv key ≠ ""%string) then Getenv key else fallback.

Definition envInt (key : string) (fallback : Z) : Z :=
  if bool_decide (Getenv key = ""%string) then fallback
  else let '(parsed, err) := Atoi (Getenv key) in if err : bool then fallback else parsed.

Definition envBool (key : string) (fallback : bool) : bool :=
  if bool_decide (Getenv key = ""%string) then fallback
  else default fallback (ParseBool (Getenv key)).

Definition envDuration (key : string) (fallback : duration) : duration :=
  if bool_decide (Getenv key = ""%string) then fallback else parseDuration (Getenv key) fallback.

Definition zero_tuning : ConnectionTuning := mkTuning false 0 0 0 0 0 0 false false.
Definition zero_tls : TLSFiles := mkTLS "" "" "" "" "" "" "".

Definition defaults : Config :=
  mkConfig "" 2 ConfigurationAutomatic zero_tuning "" "" ""
    (env "FRP_CONTROL_HTTP_ADDR" ":8080") ""
    (env "FRP_CONTROL_COOKIE_SECRET" "dev-change-me-before-production")
    (envDuration "FRP_CONTROL_SESSION_TTL" Hour)
    (envDuration "FRP_CONTROL_RUNTIME_TOKEN_TTL" (24 * Hour))
    (envDuration "FRP_CONTROL_UDP_CONNECTION_TTL" (10 * Second))
    (envBool "FRP_CONTROL_EMBEDDED_FRPS_ENABLED" true)
    (env "FRP_CONTROL_FRP_BIND_ADDR" "0.0.0.0")
    (env "FRP_CONTROL_FRP_PROXY_BIND_ADDR" "0.0.0.0")
    (env "FRP_CONTROL_FRP_SERVER_ADDR" "127.0.0.1")
    (envInt "FRP_CONTROL_FRP_SERVER_PORT" 7000)
    (envBool "FRP_CONTROL_FRP_TRANSPORT_TLS" true)
    (env "FRP_CONTROL_CLIENT_CONFIG_COMMENT" "generated by frp-control-server")
    (mkAdmin "" "" "")
    (mkController false "0.0.0.0:9443" "" zero_tls "" 5)
    (mkEdge "" "" "" "" "" zero_tls "data/edge-state.db" false
       (mkReporting true false false false false) (mkRemoteCommands true true false false))
    (mkNode "" "" "" 7000 1024 65535 true)
    false.

Definition applyEnv (cfg : Config) : Config :=
  let cfg := if bool_decide (Getenv "FRP_CONTROL_MYSQL_DSN" ≠ ""%string)
             then cfg <| MySQLDSN := Getenv "FRP_CONTROL_MYSQL_DSN" |> else cfg in
  let cfg := cfg
    <| HTTPAddr := env "FRP_CONTROL_HTTP_ADDR" (HTTPAddr cfg) |>
    <| CookieSecret := env "FRP_CONTROL_COOKIE_SECRET" (CookieSecret cfg) |>
    <| SessionTTL := envDuration "FRP_CONTROL_SESSION_TTL" (SessionTTL cfg) |>
    <| RuntimeTokenTTL := envDuration "FRP_CONTROL_RUNTIME_TOKEN_TTL" (RuntimeTokenTTL cfg) |>
    <| UDPConnectionTTL := envDuration "FRP_CONTROL_UDP_CONNECTION_TTL" (UDPConnectionTTL cfg) |>
    <| EmbeddedFRPEnabled := envBool "FRP_CONTROL_EMBEDDED_FRPS_ENABLED" (EmbeddedFRPEnabled cfg) |>
    <| FRPBindAddr := env "FRP_CONTROL_FRP_BIND_ADDR" (FRPBindAddr cfg) |>
    <| FRPProxyBindAddr := env "FRP_CONTROL_FRP_PROXY_BIND_ADDR" (FRPProxyBindAddr cfg) |>
    <| FRPServerAddr := env "FRP_CONTROL_FRP_SERVER_ADDR" (FRPServerAddr cfg) |>
    <| FRPServerPort := envInt "FRP_CONTROL_FRP_SERVER_PORT" (FRPServerPort cfg) |>
    <| FRPTransportTLS := true |>
    <| ClientConfigComment := env "FRP_CONTROL_CLIENT_CONFIG_COMMENT" (ClientConfigComment cfg) |> in
  cfg <| cfg_Node := (cfg_Node cfg) <| n_FRPAdvertiseAddr := FRPServerAddr cfg |>
                                    <| n_FRPBindPort := FRPServerPort cfg |> |>.

End env.

(** ** Sections of the file *)

(** [if value != "" { base = value }]. *)
Definition keep (base value : string) : string := if bool_decide (value ≠ ""%string) then value else base.
Definition keep_pos (base value : Z) : Z := if bool_decide (0 < value) then value else base.

Definition mergeTLSMaterial (base value : TLSFiles) : TLSFiles :=
  base <| tls_CACertificateBase64 := keep (tls_CACertificateBase64 base) (tls_CACertificateBase64 value) |>
       <| tls_CAPrivateKeyBase64 := keep (tls_CAPrivateKeyBase64 base) (tls_CAPrivateKeyBase64 value) |>
       <| tls_CertificateBase64 := keep (tls_CertificateBase64 base) (tls_CertificateBase64 value) |>
       <| tls_PrivateKeyBase64 := keep (tls_PrivateKeyBase64 base) (tls_PrivateKeyBase64 value) |>.

(** The file names of the TLS section, merged by both of its owners. *)
Definition mergeTLSFiles (base value : TLSFiles) : TLSFiles :=
  base <| tls_CAFile := keep (tls_CAFile base) (tls_CAFile value) |>
       <| tls_CertFile := keep (tls_CertFile base) (tls_CertFile value) |>
       <| tls_KeyFile := keep (tls_KeyFile base) (tls_KeyFile value) |>.

Definition mergeControllerConfig (base value : ControllerConfig) : ControllerConfig :=
  base <| cc_EdgeAccessEnabled := cc_EdgeAccessEnabled value |>
       <| cc_ListenAddr := keep (cc_ListenAddr base) (cc_ListenAddr value) |>
       <| cc_PublicAddress := keep (cc_PublicAddress base) (cc_PublicAddress value) |>
       <| cc_HeartbeatIntervalSeconds :=
            keep_pos (cc_HeartbeatIntervalSeconds base) (cc_HeartbeatIntervalSeconds value) |>
       <| cc_CAKeyFile := keep (cc_CAKeyFile base) (cc_CAKeyFile value) |>
       <| cc_TLS := mergeTLSMaterial (mergeTLSFiles (cc_TLS base) (cc_TLS value)) (cc_TLS value) |>.

Definition mergeEdgeConfig (base value : EdgeConfig) : EdgeConfig :=
  base <| ec_NodeID := keep (ec_NodeID base) (ec_NodeID value) |>
       <| ec_NodeName := keep (ec_NodeName base) (ec_NodeName value) |>
       <| ec_ControllerAddr := keep (ec_ControllerAddr base) (ec_ControllerAddr value) |>
       <| ec_ControllerAPIAddr := keep (ec_ControllerAPIAddr base) (ec_ControllerAPIAddr value) |>
       <| ec_ServerName := keep (ec_ServerName base) (ec_ServerName value) |>
       <| ec_StatePath := keep (ec_StatePath base) (ec_StatePath value) |>
       <| ec_TLS := mergeTLSMaterial (mergeTLSFiles (ec_TLS base) (ec_TLS value)) (ec_TLS value) |>
       <| ec_ControllerAdministrationEnabled := ec_ControllerAdministrationEnabled value |>
       <| ec_Reporting := ec_Reporting value |>
       <| ec_RemoteCommands := ec_RemoteCommands value |>.

Definition mergeNodeRuntimeConfig (base value : NodeRuntimeConfig) : NodeRuntimeConfig :=
  base <| n_Tag := n_Tag value |>
       <| n_PublicAPIURL := n_PublicAPIURL value |>
       <| n_FRPAdvertiseAddr := n_FRPAdvertiseAddr value |>
       <| n_FRPBindPort := keep_pos (n_FRPBindPort base) (n_FRPBindPort value) |>
       <| n_PortRangeStart := keep_pos (n_PortRangeStart base) (n_PortRangeStart value) |>
       <| n_PortRangeEnd := keep_pos (n_PortRangeEnd base) (n_PortRangeEnd value) |>
       <| n_Selectable := n_Selectable value |>.

Definition nodeRuntimeConfigured (value : NodeRuntimeConfig) : bool :=
  bool_decide (n_Tag value ≠ ""%string) || bool_decide (n_PublicAPIURL value ≠ ""%string) ||
  bool_decide (n_FRPAdvertiseAddr value ≠ ""%string) || bool_decide (n_FRPBindPort value ≠ 0) ||
  bool_decide (n_PortRangeStart value ≠ 0) || bool_decide (n_PortRangeEnd value ≠ 0).

(** [if value == "" { value = fallback }], and for numbers. *)
Definition or_else (value fallback : string) : string :=
  if bool_decide (value = ""%string) then fallback else value.
Definition or_else_z (value fallback : Z) : Z := if bool_decide (value = 0) then fallback else value.

(** The fields copied from the file, before the defaults of the node. *)
Definition apply_file_fields (cfg : Config) (f : FileConfig) : Config :=
  let cfg := cfg
    <| cfg_ConnectionTuning := fc_ConnectionTuning f |>
    <| ConfigurationMode := or_else (fc_ConfigurationMode f) ConfigurationManual |>
    <| ConfigVersion := or_else_z (fc_ConfigVersion f) 1 |>
    <| cfg_Mode := if bool_decide (fc_Mode f = ""%string) &&
                      (bool_decide (fc_MySQLDSN f ≠ ""%string) || fc_Initialized f)
                   then ModeController else fc_Mode f |>
    <| MySQLDSN := fc_MySQLDSN f |>
    <| CookieSecret := fc_CookieSecret f |>
    <| SessionTTL := parseDuration (fc_SessionTTL f) (SessionTTL cfg) |>
    <| RuntimeTokenTTL := parseDuration (fc_RuntimeTokenTTL f) (RuntimeTokenTTL cfg) |>
    <| UDPConnectionTTL := parseDuration (fc_UDPConnectionTTL f) (UDPConnectionTTL cfg) |>
    <| EmbeddedFRPEnabled := default (EmbeddedFRPEnabled cfg) (fc_EmbeddedFRPEnabled f) |>
    <| FRPBindAddr := fc_FRPBindAddr f |>
    <| FRPProxyBindAddr := fc_FRPProxyBindAddr f |>
    <| FRPServerAddr := fc_FRPServerAddr f |>
    <| FRPServerPort := fc_FRPServerPort f |>
    <| FRPTransportTLS := true |>
    <| ClientConfigComment := fc_ClientConfigComment f |>
    <| InitialAdmin := fc_InitialAdmin f |>
    <| Initialized := fc_Initialized f || bool_decide (ia_PasswordHash (fc_InitialAdmin f) ≠ ""%string) |>
    <| cfg_Controller := mergeControllerConfig (cfg_Controller cfg) (fc_Controller f) |>
    <| cfg_Edge := mergeEdgeConfig (cfg_Edge cfg) (fc_Edge f) |> in
  cfg <| cfg_Node :=
    if nodeRuntimeConfigured (fc_Node f) then mergeNodeRuntimeConfig (cfg_Node cfg) (fc_Node f)
    else
      let node := (cfg_Node cfg) <| n_FRPAdvertiseAddr := fc_FRPServerAddr f |>
                                 <| n_FRPBindPort := fc_FRPServerPort f |> in
      if bool_decide (cfg_Mode cfg = ModeEdge) && bool_decide (ec_NodeName (fc_Edge f) ≠ ""%string)
      then node <| n_Tag := ec_NodeName (fc_Edge f) |> else node |>.

Definition applyFileConfig (cfg : Config) (f : FileConfig) : Config :=
  let cfg := apply_file_fields cfg f in
  let cfg := cfg <| CookieSecret := or_else (CookieSecret cfg) "dev-change-me-before-production" |> in
  let cfg := cfg <| FRPBindAddr := or_else (FRPBindAddr cfg) "0.0.0.0" |> in
  let cfg := cfg <| FRPProxyBindAddr := or_else (FRPProxyBindAddr cfg) (FRPBindAddr cfg) |>
                 <| FRPServerAddr := or_else (FRPServerAddr cfg) "127.0.0.1" |>
                 <| FRPServerPort := or_else_z (FRPServerPort cfg) 7000 |> in
  let node := cfg_Node cfg in
  let node := node <| n_FRPBindPort := or_else_z (n_FRPBindPort node) (FRPServerPort cfg) |>
                   <| n_FRPAdvertiseAddr := or_else (n_FRPAdvertiseAddr node) (FRPServerAddr cfg) |>
                   <| n_PortRangeStart := or_else_z (n_PortRangeStart node) 1024 |>
                   <| n_PortRangeEnd := or_else_z (n_PortRangeEnd node) 65535 |> in
  cfg <| cfg_Node := node |>
      <| FRPServerAddr := n_FRPAdvertiseAddr node |>
      <| FRPServerPort := n_FRPBindPort node |>
      <| ClientConfigComment := or_else (ClientConfigComment cfg) "generated by frp-control-server" |>.

(** ** Validation: [None] is a nil error *)

Definition tuning_fields (v : ConnectionTuning) : list (string * Z * Z * Z) :=
  [("tcp_mux_keepalive_seconds"%string, TCPMuxKeepaliveSeconds v, 0, 3600);
   ("tcp_keepalive_seconds"%string, TCPKeepaliveSeconds v, -1, 86400);
   ("max_pool_count"%string, MaxPoolCount v, 0, 1024);
   ("heartbeat_timeout_seconds"%string, HeartbeatTimeoutSeconds v, -1, 3600);
   ("user_connection_timeout_seconds"%string, UserConnectionTimeoutSeconds v, 0, 600);
   ("mtls_handshake_timeout_seconds"%string, MTLSHandshakeTimeoutSeconds v, 0, 120)].

Definition ValidateConnectionTuning (v : ConnectionTuning) : option string :=
  foldr (λ field rest,
    let '(name, value, minimum, maximum) := field in
    if bool_decide (value < minimum) || bool_decide (maximum < value)
    then Some (name +:+ " must be between " +:+ fmt_d minimum +:+ " and " +:+ fmt_d maximum)
    else rest) None (tuning_fields v).

Definition ValidateNodeRuntime (node : NodeRuntimeConfig) : option string :=
  if bool_decide (n_FRPBindPort node ≤ 0) || bool_decide (65535 < n_FRPBindPort node)
  then Some "node frp_bind_port must be between 1 and 65535"%string
  else if bool_decide (n_PortRangeStart node < 1) || bool_decide (65535 < n_PortRangeEnd node) ||
          bool_decide (n_PortRangeEnd node < n_PortRangeStart node)
  then Some "node port range is invalid"%string
  else None.

Definition hasEmbeddedTLS (t : TLSFiles) : bool :=
  bool_decide (tls_CACertificateBase64 t ≠ ""%string) && bool_decide (tls_CertificateBase64 t ≠ ""%string) &&
  bool_decide (tls_PrivateKeyBase64 t ≠ ""%string).
Definition hasFileTLS (t : TLSFiles) : bool :=
  bool_decide (tls_CAFile t ≠ ""%string) && bool_decide (tls_CertFile t ≠ ""%string) &&
  bool_decide (tls_KeyFile t ≠ ""%string).

Definition quoted (s : string) : string := String (chr 34) (s +:+ String (chr 34) "").

Definition Validate (cfg : Config) : option string :=
  match ValidateConnectionTuning (cfg_ConnectionTuning cfg) with
  | Some err => Some err
  | None =>
  if bool_decide (ConfigurationMode cfg ≠ ""%string) &&
     bool_decide (ConfigurationMode cfg ≠ ConfigurationAutomatic) &&
     bool_decide (ConfigurationMode cfg ≠ ConfigurationManual)
  then Some "configuration_mode must be automatic or manual"%string else
  if bool_decide (cfg_Mode cfg ≠ ModeController) && bool_decide (cfg_Mode cfg ≠ ModeEdge)
  then Some ("mode must be " +:+ quoted ModeController +:+ " or " +:+ quoted ModeEdge) else
  if negb (Initialized cfg) then Some "configuration is not initialized"%string else
  if bool_decide (ia_Username (InitialAdmin cfg) = ""%string) ||
     bool_decide (ia_PasswordHash (InitialAdmin cfg) = ""%string)
  then Some "local administrator credential is missing"%string else
  if bool_decide (cfg_Mode cfg = ModeController) && bool_decide (MySQLDSN cfg = ""%string)
  then Some "controller mysql configuration is missing"%string else
  if bool_decide (cfg_Mode cfg = ModeEdge) &&
     (bool_decide (ec_NodeID (cfg_Edge cfg) = ""%string) ||
      bool_decide (ec_ControllerAddr (cfg_Edge cfg) = ""%string))
  then Some "edge enrollment information is missing"%string else
  if bool_decide (cfg_Mode cfg = ModeEdge) &&
     negb (hasEmbeddedTLS (ec_TLS (cfg_Edge cfg))) && negb (hasFileTLS (ec_TLS (cfg_Edge cfg)))
  then Some "edge mTLS files are missing"%string else
  ValidateNodeRuntime (cfg_Node cfg)
  end.

Definition ApplyRecommended (cfg : Config) : Config :=
  cfg <| EmbeddedFRPEnabled := true |> <| FRPTransportTLS := true |>.

(** What reading the configuration file answers. *)
Inductive file_result :=
  | FileRead (f : FileConfig)
  | FileMissing
  | FileError (msg : string).

Definition Load (environ : gmap string string) (path : string) (file : file_result) : Config :=
  let cfg := (defaults environ) <| ConfigPath := env environ "FRP_CONTROL_CONFIG" path |> in
  match file with
  | FileRead f =>
      let cfg := applyFileConfig cfg f in
      let cfg := if bool_decide (ConfigurationMode cfg = ConfigurationAutomatic)
                 then ApplyRecommended cfg else cfg in
      match Validate cfg with
      | Some err => cfg <| ConfigState := "invalid"%string |> <| ConfigError := err |>
                        <| Initialized := false |>
      | None => applyEnv environ (cfg <| ConfigState := "configured"%string |>)
      end
  | FileMissing => applyEnv environ (ApplyRecommended (cfg <| ConfigState := "unconfigured"%string |>))
  | FileError msg => cfg <| ConfigState := "invalid"%string |> <| ConfigError := msg |>
                         <| Initialized := false |>
  end.

(** ** Theorems *)

(** What validation reads. *)
Definition same_validated (cfg cfg' : Config) : Prop :=
  cfg_ConnectionTuning cfg' = cfg_ConnectionTuning cfg ∧ ConfigurationMode cfg' = ConfigurationMode cfg ∧
  cfg_Mode cfg' = cfg_Mode cfg ∧ Initialized cfg' = Initialized cfg ∧ InitialAdmin cfg' = InitialAdmin cfg ∧
  cfg_Edge cfg' = cfg_Edge cfg ∧ (MySQLDSN cfg' = ""%string → MySQLDSN cfg = ""%string) ∧
  n_PortRangeStart (cfg_Node cfg') = n_PortRangeStart (cfg_Node cfg) ∧ n_PortRangeEnd (cfg_Node cfg') = n_PortRangeEnd (cfg_Node cfg).
Lemma Validate_same cfg cfg' :
  same_validated cfg cfg' → Validate cfg = None → 0 < n_FRPBindPort (cfg_Node cfg') ≤ 65535 → Validate cfg' = None.
Proof.
  intros (Ht & Hc & Hm & Hi & Ha & He & Hd & Hs & Hr) Hv Hp. unfold Validate, ValidateNodeRuntime in *.
  rewrite Ht, Hc, Hm, Hi, Ha, He, Hs, Hr. destruct (ValidateConnectionTuning _); [done|].
  repeat match type of Hv with (if ?b then _ else _) = None => destruct b eqn:?; [done|] end.
  assert (bool_decide (cfg_Mode cfg = ModeController) && bool_decide (MySQLDSN cfg' = ""%string) = false) as ->.
  { destruct (bool_decide (cfg_Mode cfg = ModeController)); [|done]. cbn [andb] in *. bools. apply bool_decide_eq_false. auto. }
  by rewrite (bool_decide_false (n_FRPBindPort (cfg_Node cfg') ≤ 0)), (bool_decide_false (65535 < n_FRPBindPort (cfg_Node cfg'))) by lia.
Qed.
Lemma Validate_port cfg : Validate cfg = None → 0 < n_FRPBindPort (cfg_Node cfg) ≤ 65535.
Proof.
  unfold Validate, ValidateNodeRuntime. destruct (ValidateConnectionTuning _); [done|]. intros Hv.
  repeat match type of Hv with (if ?b then _ else _) = None => destruct b eqn:?; [done|] end. bools. lia.
Qed.

Lemma applyEnv_same environ cfg : same_validated cfg (applyEnv environ cfg).
Proof.
  unfold same_validated, applyEnv.
  destruct (bool_decide (Getenv environ "FRP_CONTROL_MYSQL_DSN" ≠ ""%string)) eqn:E; bools; by split_and!.
Qed.
Lemma applyEnv_validate environ cfg :
  Getenv environ "FRP_CONTROL_FRP_SERVER_PORT" = ""%string →
  FRPServerPort cfg = n_FRPBindPort (cfg_Node cfg) →
  Validate cfg = None → Validate (applyEnv environ cfg) = None.
Proof.
  intros Hport Hsync Hv. apply (Validate_same cfg); [apply applyEnv_same|done|]. apply Validate_port in Hv. rewrite <- Hsync in Hv.
  unfold applyEnv, envInt. rewrite Hport. by destruct (bool_decide (Getenv environ "FRP_CONTROL_MYSQL_DSN" ≠ ""%string)).
Qed.

Lemma applyFileConfig_sync cfg f :
  FRPServerPort (applyFileConfig cfg f) = n_FRPBindPort (cfg_Node (applyFileConfig cfg f)).
Proof. done. Qed.

(** C37: a configuration that loads as configured is valid as a whole: mode,
    administrator, database or enrollment, tuning and ports, provided that the
    environment does not override the frps port; and only such a configuration
    is ever reported as initialized. *)
Theorem Load_valid environ path file :
  let cfg := Load environ path file in
  (Initialized cfg = true → ConfigState cfg = "configured"%string) ∧
  (ConfigState cfg = "configured"%string →
   Getenv environ "FRP_CONTROL_FRP_SERVER_PORT" = ""%string → Validate cfg = None).
Proof.
  cbn zeta. unfold Load. destruct file as [f| |msg].
  - set (base := (defaults environ) <| ConfigPath := _ |>).
    set (cfg := if bool_decide _ then _ else _).
    assert (FRPServerPort cfg = n_FRPBindPort (cfg_Node cfg)) as Hsync
      by (unfold cfg; by case_bool_decide).
    destruct (Validate cfg) as [err|] eqn:Hv; [by split|]. split.
    + intros _. unfold applyEnv.
      by destruct (bool_decide (Getenv environ "FRP_CONTROL_MYSQL_DSN" ≠ ""%string)).
    + intros _ Hport. by apply applyEnv_validate.
  - split; unfold applyEnv;
      destruct (bool_decide (Getenv environ "FRP_CONTROL_MYSQL_DSN" ≠ ""%string)); by cbn.
  - by split.
Qed.

(** plaintext transport cannot be configured: whatever the file and the
    environment say, a server that loads a readable or missing configuration
    requires TLS. *)
Theorem Load_requires_tls environ path file :
  match file with FileError _ => True | _ => FRPTransportTLS (Load environ path file) = true end.
Proof.
  destruct file as [f| |]; [| |done]; unfold Load.
  - set (cfg := if bool_decide _ then _ else _).
    assert (FRPTransportTLS cfg = true) as Hcfg by (unfold cfg; by case_bool_decide).
    destruct (Validate cfg); [done|]. unfold applyEnv.
    by destruct (bool_decide (Getenv environ "FRP_CONTROL_MYSQL_DSN" ≠ ""%string)).
  - unfold applyEnv.
    by destruct (bool_decide (Getenv environ "FRP_CONTROL_MYSQL_DSN" ≠ ""%string)).
Qed.

Definition demo_file : FileConfig :=
  mkFileConfig 2 "manual" zero_tuning "controller" "dsn" "secret" "1h" "24h" "10s" None
    "" "" "" 7000 false "" (mkAdmin "admin" "" "hash")
    (mkController false "" "" zero_tls "" 0)
    (mkEdge "" "" "" "" "" zero_tls "" false (mkReporting false false false false false)
       (mkRemoteCommands false false false false))
    (mkNode "n" "" "h" 7000 0 0 true) true 0.

Lemma applyEnv_state environ cfg : ConfigState (applyEnv environ cfg) = ConfigState cfg.
Proof. unfold applyEnv. by destruct (bool_decide _). Qed.
Lemma applyEnv_port environ cfg port :
  Getenv environ "FRP_CONTROL_FRP_SERVER_PORT" ≠ ""%string → Atoi (Getenv environ "FRP_CONTROL_FRP_SERVER_PORT") = (port, false) →
  n_FRPBindPort (cfg_Node (applyEnv environ cfg)) = port.
Proof.
  intros Hset Hport. unfold applyEnv, envInt. rewrite (bool_decide_false (Getenv _ "FRP_CONTROL_FRP_SERVER_PORT" = _)) by done.
  rewrite Hport. by destruct (bool_decide _).
Qed.
Lemma Validate_initialized cfg : Validate cfg = None → Initialized cfg = true.
Proof.
  unfold Validate. destruct (ValidateConnectionTuning _); [done|].
  destruct (Initialized cfg); [done|]. repeat (destruct (_ && _); [done|]). done.
Qed.

(** C38: the environment is applied after validation.  When a server has loaded its
    file as configured and FRP_CONTROL_FRP_SERVER_PORT holds a number, that number is
    the port of its node, whatever it is, and the server counts as initialized; the
    configuration it runs is one that validation accepts exactly when the number is
    a port, so that every number out of range gets past validation. *)
Theorem Load_env_bypasses_validation environ path file port :
  let cfg := Load environ path file in
  ConfigState cfg = "configured"%string →
  Getenv environ "FRP_CONTROL_FRP_SERVER_PORT" ≠ ""%string →
  Atoi (Getenv environ "FRP_CONTROL_FRP_SERVER_PORT") = (port, false) →
  Initialized cfg = true ∧ n_FRPBindPort (cfg_Node cfg) = port ∧ (Validate cfg = None ↔ 0 < port ≤ 65535).
Proof.
  cbn zeta. unfold Load. destruct file as [f| |msg]; [|rewrite applyEnv_state; by cbn|by cbn].
  set (stage := if bool_decide _ then _ else _). clearbody stage.
  destruct (Validate stage) eqn:Hv; [by cbn|]. intros _ Hset Hport. set (cfg := stage <| ConfigState := "configured"%string |>).
  assert (Hv' : Validate cfg = None) by exact Hv. rewrite (applyEnv_port _ _ _ Hset Hport).
  destruct (applyEnv_same environ cfg) as (_ & _ & _ & Hi & _). rewrite Hi. split_and!; [by apply Validate_initialized|done|].
  split; intros H.
  - rewrite <- (applyEnv_port _ cfg _ Hset Hport). by apply Validate_port.
  - apply (Validate_same cfg); [apply applyEnv_same|done|]. by rewrite (applyEnv_port _ _ _ Hset Hport).
Qed.

Definition demo_port_environ : gmap string string := {["FRP_CONTROL_FRP_SERVER_PORT"%string := "70000"%string]}.
Lemma Load_env_bypasses_validation_witness :
  let cfg := Load demo_port_environ "cfg.json" (FileRead demo_file) in
  Initialized cfg = true ∧ n_FRPBindPort (cfg_Node cfg) = 70000 ∧ Validate cfg ≠ None.
Proof.
  cbn zeta. destruct (Load_env_bypasses_validation demo_port_environ "cfg.json" (FileRead demo_file) 70000) as (Hi & Hp & Hv);
    [vm_compute; reflexivity|vm_compute; discriminate|vm_compute; reflexivity|].
  split; [exact Hi|]. split; [exact Hp|]. intros H. apply Hv in H. lia.
Defined.
