(* ===== verification/ConfigFile.v ===== *)
(** * The configuration file

    The way of a configuration to disk and back: [Config.FileConfig] and
    [WriteFileConfig] of [internal/config/config.go], with [time.Duration.String],
    and what [Load] makes of the file at the next start.  Writing the file is a
    sequence of file system calls any of which may fail; the names of the file, of
    the temporary file and of the backup are the three entries of the directory
    that the code touches. *)
From Stdlib Require Import ZArith Lia Ascii String.
From stdpp Require Import gmap strings list pretty.
From S2P Require Import Prelude GoStrings Config.
Local Open Scope Z_scope.

(** ** [time.Duration.String] *)

(** The digits of the fraction from the last one, without trailing zeros. *)
Fixpoint fmtFrac (prec : nat) (u : Z) (print : bool) (acc : string) : string * Z :=
  match prec with
  | O => (if print then String (chr 46) acc else acc, u)
  | S prec =>
      let digit := u `mod` 10 in
      let print := print || negb (bool_decide (digit = 0)) in
      fmtFrac prec (u `div` 10) print (if print then String (chr (48 + digit)) acc else acc)
  end.
Definition format_duration (u : Z) : string :=
  if bool_decide (u < Second) then
    if bool_decide (u = 0) then "0s"
    else
      let '(prec, unit) := if bool_decide (u < 1000) then (0%nat, "ns"%string)
                           else if bool_decide (u < Millisecond) then (3%nat, "µs"%string)
                           else (6%nat, "ms"%string) in
      let '(acc, u) := fmtFrac prec u false unit in fmt_d u +:+ acc
  else
    let '(acc, u) := fmtFrac 9 u false "s" in
    let acc := fmt_d (u `mod` 60) +:+ acc in
    let u := u `div` 60 in
    if bool_decide (0 < u) then
      let acc := fmt_d (u `mod` 60) +:+ String "m" acc in
      let u := u `div` 60 in
      if bool_decide (0 < u) then fmt_d u +:+ String "h" acc else acc
    else acc.
Definition DurationString (d : duration) : string :=
  if bool_decide (d < 0) then String (chr 45) (format_duration (- d)) else format_duration d.

(** ** Reading a duration back *)

(** [s] begins with something else than a digit or a dot. *)
Definition no_digit (s : string) : Prop :=
  match s with String c _ => digit_of c = None ∧ c ≠ chr 46 | EmptyString => True end.

Lemma span_digits_cons c s d ds r : digit_of c = Some d → span_digits s = (ds, r) → span_digits (String c s) = (d :: ds, r).
Proof. intros Hc Hs. cbn. by rewrite Hc, Hs. Qed.
Lemma digits_number_snoc ds d : digits_number (ds ++ [d]) = digits_number ds * 10 + d.
Proof. unfold digits_number. by rewrite foldl_app. Qed.

Lemma span_digits_pretty_go (x : N) s ds r :
  span_digits s = (ds, r) →
  ∃ ds', span_digits (pretty_N_go x s) = (ds' ++ ds, r) ∧ digits_number ds' = Z.of_N x ∧ (x ≠ 0%N → ds' ≠ []).
Proof.
  revert s ds. induction (N.lt_wf_0 x) as [x _ IH]; intros s ds Hs.
  destruct (decide (x = 0%N)) as [->|Hx]; [exists []; by rewrite pretty_N_go_0|].
  rewrite pretty_N_go_step by lia. assert (Hlt : (x `mod` 10 < 10)%N) by (apply N.mod_lt; lia).
  destruct (IH (x `div` 10)%N ltac:(apply N.div_lt; lia) (String (pretty_N_char (x `mod` 10)) s) (Z.of_N (x `mod` 10) :: ds))
    as (ds' & Hsp & Hn & _); [by apply span_digits_cons; [apply digit_of_pretty|]|].
  exists (ds' ++ [Z.of_N (x `mod` 10)]). rewrite <- app_assoc. split_and!; [done| |by destruct ds'].
  rewrite digits_number_snoc, Hn. pose proof (N.div_mod x 10 ltac:(lia)). lia.
Qed.
Lemma span_digits_none s : no_digit s → span_digits s = ([], s).
Proof. destruct s as [|c s]; [done|]. intros [Hc _]. cbn. by rewrite Hc. Qed.

(** A printed number is read back up to the first character after it. *)
Lemma span_digits_fmt (w : Z) s :
  0 ≤ w → (∀ c t, s = String c t → digit_of c = None) →
  ∃ ds, span_digits (fmt_d w +:+ s) = (ds, s) ∧ digits_number ds = w ∧ ds ≠ [].
Proof.
  intros Hw Hs. assert (Hsp : span_digits s = ([], s)).
  { destruct s as [|c s]; [done|]. cbn. by rewrite (Hs c s). }
  unfold fmt_d, pretty, pretty_Z. destruct w as [|p|p]; [| |lia].
  - exists [0]. split_and!; [|done..]. exact (span_digits_cons (chr 48) s 0 [] s eq_refl Hsp).
  - change (pretty p) with (pretty_N_go (N.pos p) "").
    assert (Happ : ∀ x a, pretty_N_go x a +:+ s = pretty_N_go x (a +:+ s)).
    { intros x. induction (N.lt_wf_0 x) as [x _ IH]; intros a. destruct (decide (x = 0%N)) as [->|]; [by rewrite !pretty_N_go_0|].
      rewrite !(pretty_N_go_step x) by lia. rewrite IH by (apply N.div_lt; lia). by rewrite string_app_cons. }
    rewrite Happ. destruct (span_digits_pretty_go (N.pos p) s [] s Hsp) as (ds & Hds & Hn & Hne).
    exists ds. rewrite app_nil_r in Hds. split_and!; [done..|by apply Hne].
Qed.

(** The fraction as printed: nothing, or a dot and at most [prec] digits. *)
Definition frac_of (prec : nat) (f : Z) (unit acc : string) : Prop :=
  f = 0 ∧ acc = unit ∨
  ∃ ds t, acc = String (chr 46) t ∧ span_digits t = (ds, unit) ∧ ds ≠ [] ∧ (length ds ≤ prec)%nat ∧
    digits_number ds * 10 ^ Z.of_nat (prec - length ds) = f.

Lemma digit_of_chr d : 0 ≤ d < 10 → digit_of (chr (48 + d)) = Some d.
Proof. intros Hd. unfold digit_of. rewrite ord_chr by (unfold is_byte; lia). rewrite bool_decide_true by lia. f_equal. lia. Qed.
Lemma digits_number_cons d ds : digits_number (d :: ds) = d * 10 ^ Z.of_nat (length ds) + digits_number ds.
Proof.
  induction ds as [|x ds IH] using rev_ind; [cbn; lia|].
  rewrite app_comm_cons, !digits_number_snoc, IH, length_app, Nat2Z.inj_add, Z.pow_add_r by lia. cbn [length]. change (10 ^ Z.of_nat 1) with 10. lia.
Qed.

Lemma fmtFrac_print prec u ds t unit :
  0 ≤ u → span_digits t = (ds, unit) → ds ≠ [] →
  ∃ ds' t', fmtFrac prec u true t = (String (chr 46) t', u `div` 10 ^ Z.of_nat prec) ∧ span_digits t' = (ds', unit) ∧ ds' ≠ [] ∧
    length ds' = (prec + length ds)%nat ∧
    digits_number ds' = (u `mod` 10 ^ Z.of_nat prec) * 10 ^ Z.of_nat (length ds) + digits_number ds.
Proof.
  revert u ds t. induction prec as [|prec IH]; intros u ds t Hu Hds Hne.
  { exists ds, t. cbn. rewrite Z.div_1_r, Z.mod_1_r. by split_and!. }
  pose proof (Z.mod_pos_bound u 10 ltac:(lia)).
  destruct (IH (u `div` 10) (u `mod` 10 :: ds) (String (chr (48 + u `mod` 10)) t)) as (ds' & t' & Hf & Hs & Hne' & Hlen & Hnum).
  { apply Z.div_pos; lia. }
  { apply span_digits_cons; [by apply digit_of_chr|done]. }
  { done. }
  exists ds', t'. cbn [fmtFrac orb]. rewrite Hf, Nat2Z.inj_succ, Z.pow_succ_r by lia.
  rewrite Z.div_div by lia. split_and!; [done..|cbn in Hlen; lia|].
  rewrite Hnum, digits_number_cons. cbn [length]. rewrite Nat2Z.inj_succ, Z.pow_succ_r by lia.
  rewrite (Z.rem_mul_r u 10 (10 ^ Z.of_nat prec)) by lia. ring.
Qed.
Lemma fmtFrac_spec prec u unit :
  0 ≤ u → span_digits unit = ([], unit) →
  ∃ acc, fmtFrac prec u false unit = (acc, u `div` 10 ^ Z.of_nat prec) ∧ frac_of prec (u `mod` 10 ^ Z.of_nat prec) unit acc.
Proof.
  intros Hu Hunit. revert u Hu. induction prec as [|prec IH]; intros u Hu.
  { exists unit. cbn. rewrite Z.div_1_r, Z.mod_1_r. split; [done|]. by left. }
  pose proof (Z.mod_pos_bound u 10 ltac:(lia)) as Hd. cbn [fmtFrac orb].
  rewrite Nat2Z.inj_succ, Z.pow_succ_r by lia. rewrite (Z.rem_mul_r u 10) by lia. rewrite <- (Z.div_div u 10) by lia.
  assert (Hu' : 0 ≤ u `div` 10) by (apply Z.div_pos; lia).
  destruct (decide (u `mod` 10 = 0)) as [H0|H0].
  - rewrite bool_decide_true by done. cbn [negb]. destruct (IH _ Hu') as (acc & -> & Hf). exists acc. split; [done|].
    rewrite H0. destruct Hf as [[Hf ->]|(ds & t & -> & Hs & Hne & Hlen & Hnum)]; [left; split; [lia|done]|].
    right. exists ds, t. split_and!; [done..|lia|]. rewrite <- Hnum. replace (S prec - length ds)%nat with (S (prec - length ds)) by lia.
    rewrite Nat2Z.inj_succ, Z.pow_succ_r by lia. lia.
  - rewrite bool_decide_false by done. cbn [negb].
    destruct (fmtFrac_print prec (u `div` 10) [u `mod` 10] (String (chr (48 + u `mod` 10)) unit) unit Hu') as (ds & t & -> & Hs & Hne & Hlen & Hnum).
    { apply span_digits_cons; [by apply digit_of_chr|done]. }
    { done. }
    eexists. split; [done|]. right. exists ds, t. cbn in Hlen. split_and!; [done..|lia|].
    rewrite Hnum. replace (S prec - length ds)%nat with 0%nat by lia. cbn. lia.
Qed.

(** A text that a unit cannot run into: the end, or a digit. *)
Definition unit_ends (s : string) : Prop := match s with String c _ => is_Some (digit_of c) | EmptyString => True end.
Lemma unit_ends_span s : unit_ends s → span_unit s = (EmptyString, s).
Proof. destruct s as [|c s]; [done|]. intros Hc. cbn in Hc |- *. by rewrite (bool_decide_true (is_Some _)), orb_true_r. Qed.
Lemma span_unit_letter c s :
  digit_of c = None → c ≠ chr 46 → unit_ends s → span_unit (String c "" +:+ s) = (String c "", s).
Proof.
  intros Hc Hd Hs. rewrite string_app_cons, string_app_nil_l. cbn. rewrite Hc, (bool_decide_false (c = _)) by done.
  by rewrite (unit_ends_span s Hs).
Qed.
Lemma span_digits_starts s ds r : span_digits s = (ds, r) → ds ≠ [] → ∃ c t, s = String c t ∧ is_Some (digit_of c).
Proof.
  destruct s as [|c t]; cbn; [naive_solver|]. intros H Hne. exists c, t. split; [done|].
  destruct (digit_of c); [by eexists|naive_solver].
Qed.
Lemma unit_ends_fmt w s : 0 ≤ w → (∀ c t, s = String c t → digit_of c = None) → unit_ends (fmt_d w +:+ s).
Proof.
  intros Hw Hs. destruct (span_digits_fmt w s Hw Hs) as (ds & Hd & _ & Hne). by destruct (span_digits_starts _ _ _ Hd Hne) as (c & t & -> & ?).
Qed.

(** One number with its unit. *)
Lemma duration_term fuel acc w prec f U uname rest str :
  0 ≤ w → span_unit (uname +:+ rest) = (uname, rest) → unit_value uname = Some U →
  frac_of prec f (uname +:+ rest) str → f = 0 ∨ U = 10 ^ Z.of_nat prec →
  (∀ c t, uname +:+ rest = String c t → digit_of c = None ∧ c ≠ chr 46) → acc + (w * U + f) ≤ 2 ^ 63 →
  duration_terms (S fuel) acc (fmt_d w +:+ str) = duration_terms fuel (acc + (w * U + f)) rest.
Proof.
  intros Hw Hunit HU Hfrac Hscale Hstop Hbound.
  assert (Hstr : ∀ c t, str = String c t → digit_of c = None).
  { destruct Hfrac as [[_ ->]|(ds & t & -> & _)]; [intros c t Hc; by apply (Hstop c t)|]. by intros c t' [= <- <-]. }
  destruct (span_digits_fmt w str Hw Hstr) as (whole & Hwhole & Hnum & Hne).
  destruct (span_digits_starts _ _ _ Hwhole Hne) as (c0 & t0 & Hs & _).
  assert (Hstep : duration_terms (S fuel) acc (fmt_d w +:+ str) =
    let '(whole, s) := span_digits (fmt_d w +:+ str) in
    let '(frac, dot, s) := match s with
      | String c rest => if bool_decide (c = chr 46) then let '(f, r) := span_digits rest in (f, true, r) else ([], false, s)
      | EmptyString => ([], false, s) end in
    if bool_decide (whole = [] ∧ frac = []) then None else
    let '(u, s) := span_unit s in
    unit ← unit_value u;
    let v := digits_number whole * unit + digits_number frac * unit / 10 ^ len frac in
    if bool_decide (2 ^ 63 < acc + v) then None else duration_terms fuel (acc + v) s) by (by rewrite Hs).
  rewrite Hstep, Hwhole. clear Hstep. destruct Hfrac as [[-> ->]|(ds & t & -> & Hds & Hdne & Hlen & Hval)].
  - assert (Hm : match uname +:+ rest with
      | String c rest0 => if bool_decide (c = chr 46) then let '(f, r) := span_digits rest0 in (f, true, r) else ([], false, uname +:+ rest)
      | EmptyString => ([], false, uname +:+ rest) end = ([], false, uname +:+ rest)).
    { destruct (uname +:+ rest) as [|c t] eqn:E; [done|]. by rewrite bool_decide_false by apply (Hstop c t eq_refl). }
    rewrite Hm, (bool_decide_false (whole = [] ∧ _)) by naive_solver. rewrite Hunit, HU. cbn [mbind option_bind].
    change (digits_number []) with 0. rewrite Hnum, Z.mul_0_l, Z.div_0_l by done.
    rewrite bool_decide_false by lia. done.
  - rewrite bool_decide_true by done. rewrite Hds, (bool_decide_false (whole = [] ∧ _)) by naive_solver. rewrite Hunit, HU. cbn [mbind option_bind].
    destruct Hscale as [-> | ->].
    { assert (digits_number ds = 0) as -> by nia. rewrite Z.mul_0_l, Z.div_0_l by (apply Z.pow_nonzero; unfold len; lia).
      rewrite Hnum, bool_decide_false by lia. done. }
    assert (Hq : digits_number ds * 10 ^ Z.of_nat prec / 10 ^ len ds = f).
    { rewrite <- Hval. unfold len. replace (Z.of_nat prec) with (Z.of_nat (prec - length ds) + Z.of_nat (length ds)) by lia.
      rewrite Z.pow_add_r, Z.mul_assoc by lia. apply Z.div_mul. apply Z.pow_nonzero; lia. }
    rewrite Hq, Hnum, bool_decide_false by lia. done.
Qed.

(** The last or only number of a printed duration. *)
Lemma duration_last fuel acc u prec U uname str :
  0 ≤ u → U = 10 ^ Z.of_nat prec → unit_value uname = Some U → span_unit (uname +:+ "") = (uname, ""%string) →
  (∀ c t, uname +:+ "" = String c t → digit_of c = None ∧ c ≠ chr 46) →
  frac_of prec (u `mod` 10 ^ Z.of_nat prec) (uname +:+ "") str → acc + u ≤ 2 ^ 63 →
  duration_terms (S fuel) acc (fmt_d (u `div` 10 ^ Z.of_nat prec) +:+ str) = Some (acc + u).
Proof.
  intros Hu HU Huv Hsu Hstop Hf Hb. pose proof (Z.div_mod u (10 ^ Z.of_nat prec) ltac:(apply Z.pow_nonzero; lia)) as Hdm.
  pose proof (Z.div_pos u (10 ^ Z.of_nat prec) Hu ltac:(lia)).
  rewrite (duration_term fuel acc _ prec (u `mod` 10 ^ Z.of_nat prec) U uname "" str); try done; [|by right|lia].
  replace (acc + _) with (acc + u) by lia. by destruct fuel.
Qed.

Lemma duration_terms_fuel fuel fuel' acc s v :
  (fuel ≤ fuel')%nat → duration_terms fuel acc s = Some v → duration_terms fuel' acc s = Some v.
Proof.
  revert fuel' acc s. induction fuel as [|fuel IH]; intros [|fuel'] acc s Hle.
  - done.
  - destruct s; [done|]. done.
  - lia.
  - destruct s as [|c s]; [done|]. cbn [duration_terms]. destruct (span_digits (String c s)) as [whole s1].
    destruct (match s1 with String _ _ => _ | EmptyString => _ end) as [[frac dot] s2].
    case_bool_decide; [done|]. destruct (span_unit s2) as [u s3]. destruct (unit_value u) as [U|]; [|done]. cbn [mbind option_bind].
    case_bool_decide; [done|]. apply IH. lia.
Qed.

(** Hours, minutes and seconds. *)
Lemma whole_term fuel acc w U uname rest :
  0 ≤ w → span_unit (uname +:+ rest) = (uname, rest) → unit_value uname = Some U →
  (∀ c t, uname +:+ rest = String c t → digit_of c = None ∧ c ≠ chr 46) → acc + w * U ≤ 2 ^ 63 →
  duration_terms (S fuel) acc (fmt_d w +:+ (uname +:+ rest)) = duration_terms fuel (acc + w * U) rest.
Proof.
  intros Hw Hs HU Hstop Hb. rewrite (duration_term fuel acc w 0 0 U uname rest); try done; [by rewrite Z.add_0_r|by left|by left|lia].
Qed.
Lemma seconds_terms fuel acc u str :
  0 ≤ u < 60 * Second → acc + u ≤ 2 ^ 63 → frac_of 9 (u `mod` Second) "s" str →
  duration_terms (S fuel) acc (fmt_d (u `div` Second) +:+ str) = Some (acc + u).
Proof.
  intros Hu Hb Hf. apply (duration_last fuel acc u 9 Second "s"); try done; [lia|]. by intros c t [= <- <-].
Qed.

Lemma frac_of_nonempty prec f c u str : frac_of prec f (String c u) str → (1 ≤ String.length str)%nat.
Proof. intros [[_ ->]|(ds & t & -> & _)]; cbn; lia. Qed.

(** The terms of a printed duration, and that there are no more of them than characters. *)
Lemma format_long d :
  Second ≤ d ≤ maxInt64 → duration_terms (String.length (format_duration d)) 0 (format_duration d) = Some d.
Proof.
  intros [Hd Hmax]. unfold Second, maxInt64 in *. unfold format_duration. rewrite bool_decide_false by (unfold Second; lia).
  destruct (fmtFrac_spec 9 d "s") as (acc & -> & Hf); [lia|done|]. cbv beta iota zeta.
  change (10 ^ Z.of_nat 9) with 1000000000 in *.
  pose proof (frac_of_nonempty _ _ _ _ _ Hf) as Hne. pose proof (Z.mod_pos_bound d 1000000000 ltac:(lia)) as Hfb.
  pose proof (Z.div_mod d 1000000000 ltac:(lia)) as Hdm. set (S := d `div` 1000000000) in *. set (f := d `mod` 1000000000) in *.
  pose proof (Z.mod_pos_bound S 60 ltac:(lia)). pose proof (Z.div_mod S 60 ltac:(lia)).
  set (s := S `mod` 60) in *. set (M := S `div` 60) in *.
  assert (Hlast : ∀ fuel a, a + (s * 1000000000 + f) ≤ 2 ^ 63 → duration_terms (Datatypes.S fuel) a (fmt_d s +:+ acc) = Some (a + (s * 1000000000 + f))).
  { intros fuel a Ha. pose proof (seconds_terms fuel a (s * 1000000000 + f) acc) as Hst. unfold Second in Hst.
    rewrite Z.div_add_l, (Z.div_small f), Z.add_0_r in Hst by lia.
    apply Hst; [lia|lia|]. by rewrite Z.add_comm, Z_mod_plus_full, Z.mod_small by lia. }
  assert (Hacc : ∀ c t, acc = String c t → digit_of c = None).
  { destruct Hf as [[_ ->]|(ds & t & -> & _)]; by intros c t' [= <- <-]. }
  destruct (bool_decide_reflect (0 < M)) as [HM|HM].
  2: { apply (duration_terms_fuel 1); [rewrite string_app_length; lia|]. rewrite Hlast by lia. f_equal. lia. }
  pose proof (Z.mod_pos_bound M 60 ltac:(lia)). pose proof (Z.div_mod M 60 ltac:(lia)).
  set (m := M `mod` 60) in *. set (H' := M `div` 60) in *.
  assert (Hmin : ∀ fuel a, a + (m * 60000000000 + (s * 1000000000 + f)) ≤ 2 ^ 63 →
    duration_terms (Datatypes.S (Datatypes.S fuel)) a (fmt_d m +:+ String "m" (fmt_d s +:+ acc)) = Some (a + (m * 60000000000 + (s * 1000000000 + f)))).
  { intros fuel a Ha. rewrite (whole_term _ a m 60000000000 "m" (fmt_d s +:+ acc)); try done; [|lia| | |lia].
    - rewrite Hlast by lia. f_equal. lia.
    - apply span_unit_letter; [done..|]. apply unit_ends_fmt; [lia|done].
    - by intros c t [= <- _]. }
  destruct (bool_decide_reflect (0 < H')) as [HH|HH].
  - apply (duration_terms_fuel 3); [rewrite string_app_length; cbn; rewrite string_app_length; cbn; rewrite string_app_length; lia|].
    etransitivity; [apply (whole_term 2 0 H' 3600000000000 "h"); try done; [lia| | |lia]|].
    + apply span_unit_letter; [done..|]. apply unit_ends_fmt; [lia|]. by intros c t [= <- _].
    + by intros c t [= <- _].
    + rewrite Hmin by lia. f_equal. lia.
  - apply (duration_terms_fuel 2); [rewrite string_app_length; cbn; rewrite string_app_length; lia|]. rewrite Hmin by lia. f_equal. lia.
Qed.
Lemma format_short d : 0 ≤ d < Second → duration_terms (String.length (format_duration d)) 0 (format_duration d) = Some d.
Proof.
  intros Hd. unfold format_duration. rewrite bool_decide_true by lia. destruct (bool_decide_reflect (d = 0)) as [->|H0]; [by vm_compute|].
  unfold Second, Millisecond in *.
  assert (Hone : ∀ prec unit, unit_value unit = Some (10 ^ Z.of_nat prec) → span_digits unit = ([], unit) → span_unit unit = (unit, ""%string) →
    (∀ c t, unit = String c t → digit_of c = None ∧ c ≠ chr 46) → (1 ≤ String.length unit)%nat →
    let s := (let '(acc, u) := fmtFrac prec d false unit in fmt_d u +:+ acc) in duration_terms (String.length s) 0 s = Some d).
  { intros prec unit HU Hdig Hspan Hstop Hlen. destruct (fmtFrac_spec prec d unit) as (acc & Hfrac & Hf); [lia|done|].
    cbv zeta. rewrite Hfrac.
    apply (duration_terms_fuel 1).
    - rewrite string_app_length. destruct unit as [|c u]; [cbn in Hlen; lia|]. apply frac_of_nonempty in Hf. lia.
    - rewrite (duration_last 0 0 d prec (10 ^ Z.of_nat prec) unit); rewrite ?string_app_nil_r; try done; lia. }
  destruct (bool_decide_reflect (d < 1000)); [|destruct (bool_decide_reflect (d < 1000000))];
    apply Hone; try done; first [cbn; lia|by intros c t [= <- _]].
Qed.

Lemma format_terms d : 0 ≤ d ≤ maxInt64 → duration_terms (String.length (format_duration d)) 0 (format_duration d) = Some d.
Proof. intros Hd. destruct (decide (d < Second)); [apply format_short|apply format_long]; lia. Qed.
Lemma duration_terms_start fuel acc c s v : duration_terms fuel acc (String c s) = Some v → is_Some (digit_of c) ∨ c = chr 46.
Proof.
  destruct fuel as [|fuel]; [done|]. cbn [duration_terms]. destruct (digit_of c) eqn:Hc; [intros _; left; by eexists|].
  assert (span_digits (String c s) = ([], String c s)) as -> by (cbn; by rewrite Hc).
  destruct (bool_decide_reflect (c = chr 46)); [by right|]. done.
Qed.

(** Printing a duration and parsing it gives the duration. *)
Lemma ParseDuration_String d : 0 ≤ d ≤ maxInt64 → ParseDuration (DurationString d) = Some d.
Proof.
  intros Hd. unfold DurationString. rewrite bool_decide_false by lia. pose proof (format_terms d Hd) as Hterms.
  unfold ParseDuration. destruct (format_duration d) as [|c s] eqn:E.
  { injection Hterms as <-. done. }
  destruct (duration_terms_start _ _ _ _ _ Hterms) as [Hc|Hc].
  - rewrite !bool_decide_false by (intros ->; by destruct Hc).
    destruct (bool_decide_reflect (String c s = "0"%string)) as [Heq|]; [by rewrite Heq in Hterms|].
    rewrite bool_decide_false by done. rewrite Hterms. cbn. by rewrite bool_decide_false by lia.
  - subst c. rewrite !bool_decide_false by done. rewrite Hterms. cbn. by rewrite bool_decide_false by lia.
Qed.

(** ** The file of a configuration *)

Definition Config_FileConfig (c : Config) : FileConfig :=
  mkFileConfig (ConfigVersion c) (ConfigurationMode c) (cfg_ConnectionTuning c) (cfg_Mode c) (MySQLDSN c) (CookieSecret c)
    (DurationString (SessionTTL c)) (DurationString (RuntimeTokenTTL c)) (DurationString (UDPConnectionTTL c))
    (Some (EmbeddedFRPEnabled c)) (FRPBindAddr c) (FRPProxyBindAddr c) (FRPServerAddr c) (FRPServerPort c) (FRPTransportTLS c)
    (ClientConfigComment c) (InitialAdmin c) (cfg_Controller c) (cfg_Edge c) (cfg_Node c) (Initialized c) zero_time.

(** The defaults that [WriteFileConfig] fills in; [secret] is a fresh random one. *)
Definition complete_file (now : time) (secret : string) (f : FileConfig) : FileConfig :=
  mkFileConfig (or_else_z (fc_ConfigVersion f) 2) (fc_ConfigurationMode f) (fc_ConnectionTuning f) (fc_Mode f) (fc_MySQLDSN f)
    (or_else (fc_CookieSecret f) secret) (or_else (fc_SessionTTL f) "1h") (or_else (fc_RuntimeTokenTTL f) "24h")
    (or_else (fc_UDPConnectionTTL f) "10s") (Some (default true (fc_EmbeddedFRPEnabled f))) (fc_FRPBindAddr f) (fc_FRPProxyBindAddr f)
    (fc_FRPServerAddr f) (fc_FRPServerPort f) (fc_FRPTransportTLS f)
    (or_else (fc_ClientConfigComment f) "generated by frp-control-server") (fc_InitialAdmin f) (fc_Controller f) (fc_Edge f) (fc_Node f)
    (fc_Initialized f) (if IsZero (fc_CreatedAt f) then now else fc_CreatedAt f).

(** The directory: a file holds an encoded configuration or anything else, such as
    the beginning of one.  Renaming a file is atomic. *)
Inductive content := Whole (f : FileConfig) | Other.
Record Dir := mkDir { dir_path : option content; dir_tmp : option content; dir_bak : option content }.
#[export] Instance eta_dir : Eta Dir := λ d, mkDir (dir_path d) (dir_tmp d) (dir_bak d).

(** [io k] says whether the [k]-th file system call succeeds, [os_error k] is its
    error, [cut] what an interrupted write leaves.  The answer has the states the
    directory goes through and the error. *)
Section write.
Context (io : nat → bool) (os_error : nat → string) (cut : option content).

Definition remove_tmp (k : nat) (d : Dir) : Dir := if io k then d <| dir_tmp := None |> else d.
Definition remove_bak (k : nat) (d : Dir) : Dir := if io k then d <| dir_bak := None |> else d.

(** The part after a rename over the existing file has failed. *)
Definition replace_file (d : Dir) : list Dir * option string :=
  let err := Some (os_error 2) in
  if negb (io 3%nat && bool_decide (is_Some (dir_path d))) then ([remove_tmp 4 d], err)
  else
    let d1 := remove_bak 5 d in
    if negb (io 6%nat) then ([d1; remove_tmp 4 d1], err)
    else
      let d2 := d1 <| dir_path := None |> <| dir_bak := dir_path d1 |> in
      if negb (io 7%nat)
      then ([d1; d2; if io 8%nat then d2 <| dir_path := dir_bak d2 |> <| dir_bak := None |> else d2], Some (os_error 7))
      else
        let d3 := d2 <| dir_path := dir_tmp d2 |> <| dir_tmp := None |> in
        ([d1; d2; d3; remove_bak 9 d3], None).
Definition WriteFileConfig (now : time) (random : string + string) (d : Dir) (f : FileConfig) : list Dir * option string :=
  match (if bool_decide (fc_CookieSecret f = ""%string) then random else inr ""%string) with
  | inl err => ([], Some err)
  | inr secret =>
      let f := complete_file now secret f in
      if negb (io 0%nat) then ([], Some (os_error 0))
      else
        let partial := d <| dir_tmp := cut |> in
        if negb (io 1%nat) then ([partial], Some (os_error 1))
        else
          let d1 := d <| dir_tmp := Some (Whole f) |> in
          if io 2%nat then ([partial; d1; d1 <| dir_path := Some (Whole f) |> <| dir_tmp := None |>], None)
          else let '(trace, err) := replace_file d1 in ([partial; d1] ++ trace, err)
  end.
End write.

(** ** Theorems *)

(** The file is the old one or the new one, or is missing while the backup is the
    old one. *)
Definition intact (d : Dir) (f : FileConfig) (d' : Dir) : Prop :=
  dir_path d' = dir_path d ∨ dir_path d' = Some (Whole f) ∨ dir_path d' = None ∧ dir_bak d' = dir_path d.

Lemma intact_remove_tmp io k d f d' : intact d f d' → intact d f (remove_tmp io k d').
Proof. unfold remove_tmp. by destruct (io k). Qed.

Lemma replace_file_intact io os_error d d1 f trace err :
  dir_path d1 = dir_path d → dir_tmp d1 = Some (Whole f) → replace_file io os_error d1 = (trace, err) →
  Forall (intact d f) trace ∧ (err = None → ∃ d', last trace = Some d' ∧ dir_path d' = Some (Whole f)).
Proof.
  intros Hp Ht. unfold replace_file. destruct (negb (io 3%nat && _)).
  { intros [= <- <-]. split; [|done]. constructor; [|done]. apply intact_remove_tmp. by left. }
  assert (Hb : ∀ k d', intact d f d' → dir_path d' ≠ None → intact d f (remove_bak io k d')).
  { intros k d' Hi Hne. unfold remove_bak. destruct (io k); [|done]. destruct Hi as [Hi|[Hi|[Hi _]]]; [by left|by right; left|done]. }
  assert (H1 : dir_path (remove_bak io 5 d1) = dir_path d1 ∧ dir_tmp (remove_bak io 5 d1) = dir_tmp d1)
    by (unfold remove_bak; by destruct (io 5%nat)).
  destruct H1 as [H1 H2]. assert (Hi1 : intact d f (remove_bak io 5 d1)) by (left; by rewrite H1).
  destruct (io 6%nat); cbn.
  2: { intros [= <- <-]. split; [|done]. constructor; [done|]. constructor; [by apply intact_remove_tmp|done]. }
  destruct (io 7%nat); cbn; intros [= <- <-].
  - split.
    + constructor; [done|]. constructor; [right; right; cbn; by rewrite H1|]. constructor; [right; left; cbn; by rewrite H2|].
      constructor; [|done]. apply Hb; [right; left; cbn; by rewrite H2|cbn; by rewrite H2, Ht].
    + intros _. eexists. split; [done|]. unfold remove_bak at 1. destruct (io 9%nat); cbn; by rewrite H2.
  - split; [|done]. constructor; [done|]. constructor; [right; right; cbn; by rewrite H1|]. constructor; [|done].
    destruct (io 8%nat); [left; cbn; by rewrite H1|right; right; cbn; by rewrite H1].
Qed.

Lemma write_file_spec io os_error cut now random d f :
  let '(trace, err) := WriteFileConfig io os_error cut now random d f in
  ∃ secret, Forall (intact d (complete_file now secret f)) trace ∧
    (err = None → ∃ d', last trace = Some d' ∧ dir_path d' = Some (Whole (complete_file now secret f))).
Proof.
  unfold WriteFileConfig. destruct (if bool_decide _ then random else _) as [e|secret]; [by exists ""%string|].
  set (f' := complete_file now secret f). destruct (io 0%nat); cbn [negb]; [|by exists secret].
  destruct (io 1%nat); cbn [negb].
  2: { exists secret. split; [|done]. constructor; [by left|done]. }
  destruct (io 2%nat).
  - exists secret. split; [|intros _; by eexists]. constructor; [by left|]. constructor; [by left|]. constructor; [by right; left|done].
  - destruct (replace_file io os_error _) as [trace err] eqn:E. apply (replace_file_intact io os_error d _ f') in E; [|done..].
    destruct E as [Hall Hlast]. exists secret. split.
    + cbn. constructor; [by left|]. constructor; [by left|done].
    + intros He. destruct (Hlast He) as (d' & Hl & Hp). exists d'. split; [|done]. by rewrite last_app, Hl.
Qed.
(** C24: whatever file system call fails while the configuration is written, and
    wherever the process is killed, the configuration file is the old one or the
    complete new one, or it is missing and the backup next to it is the old one;
    and when the function reports success, the file is the new one, with the
    defaults filled in. *)
Theorem WriteFileConfig_intact io os_error cut now random d f :
  let '(trace, err) := WriteFileConfig io os_error cut now random d f in
  ∃ secret, Forall (intact d (complete_file now secret f)) trace ∧
    (err = None → ∃ d', last trace = Some d' ∧ dir_path d' = Some (Whole (complete_file now secret f))).
Proof. apply write_file_spec. Qed.

(** A configuration that a running node has: validated, with the legacy fields in
    step with the node section, and nothing empty that a default would fill, but for
    the comment and the addresses that frps binds. *)
Record settled (c : Config) : Prop := mkSettled {
  st_state : ConfigState c = "configured"%string ∧ ConfigError c = ""%string;
  st_valid : Validate c = None;
  st_version : ConfigVersion c ≠ 0 ∧ ConfigurationMode c ≠ ""%string;
  st_ttls : 0 ≤ SessionTTL c ≤ maxInt64 ∧ 0 ≤ RuntimeTokenTTL c ≤ maxInt64 ∧ 0 ≤ UDPConnectionTTL c ≤ maxInt64;
  st_secret : CookieSecret c ≠ ""%string;
  st_addr : n_FRPAdvertiseAddr (cfg_Node c) ≠ ""%string;
  st_legacy : FRPServerAddr c = n_FRPAdvertiseAddr (cfg_Node c) ∧ FRPServerPort c = n_FRPBindPort (cfg_Node c);
  st_tls : FRPTransportTLS c = true;
  st_recommended : ConfigurationMode c = ConfigurationAutomatic → EmbeddedFRPEnabled c = true;
  st_controller : cc_ListenAddr (cfg_Controller c) ≠ ""%string ∧ 0 < cc_HeartbeatIntervalSeconds (cfg_Controller c);
  st_edge : ec_StatePath (cfg_Edge c) ≠ ""%string }.

(** No variable overrides the file; the two that only the environment has agree. *)
Definition plain_environment (environ : gmap string string) (path : string) (c : Config) : Prop :=
  (∀ key, key ≠ "FRP_CONTROL_HTTP_ADDR"%string → key ≠ "FRP_CONTROL_CONFIG"%string → Getenv environ key = ""%string) ∧
  env environ "FRP_CONTROL_HTTP_ADDR" ":8080" = HTTPAddr c ∧ env environ "FRP_CONTROL_CONFIG" path = ConfigPath c.

Lemma keep_nonempty base v : v ≠ ""%string → keep base v = v.
Proof. intros H. unfold keep. by rewrite bool_decide_true. Qed.
Lemma keep_empty v : keep "" v = v.
Proof. unfold keep. case_bool_decide as H; [done|]. by rewrite H. Qed.
Lemma or_else_id v fallback : v ≠ ""%string → or_else v fallback = v.
Proof. intros H. unfold or_else. by rewrite bool_decide_false. Qed.
Lemma or_else_twice v fallback : or_else (or_else v fallback) fallback = or_else v fallback.
Proof. unfold or_else. repeat case_bool_decide; done. Qed.
Lemma or_else_z_id v fallback : v ≠ 0 → or_else_z v fallback = v.
Proof. intros H. unfold or_else_z. by rewrite bool_decide_false. Qed.
Lemma DurationString_nonempty d : 0 ≤ d ≤ maxInt64 → DurationString d ≠ ""%string.
Proof. intros Hd H. pose proof (ParseDuration_String d Hd) as Hp. by rewrite H in Hp. Qed.
Lemma parseDuration_String d fallback : 0 ≤ d ≤ maxInt64 → parseDuration (DurationString d) fallback = d.
Proof. intros Hd. unfold parseDuration. by rewrite ParseDuration_String. Qed.

Lemma mergeTLS_zero t : mergeTLSMaterial (mergeTLSFiles zero_tls t) t = t.
Proof. destruct t. unfold mergeTLSMaterial, mergeTLSFiles. cbn. by rewrite !keep_empty. Qed.
Lemma mergeController_default environ c :
  cc_ListenAddr c ≠ ""%string → 0 < cc_HeartbeatIntervalSeconds c → mergeControllerConfig (cfg_Controller (defaults environ)) c = c.
Proof.
  intros Hl Hh. destruct c as [a l p t k h]. cbn in *. unfold mergeControllerConfig. cbn. change (mkTLS "" "" "" "" "" "" "") with zero_tls.
  rewrite mergeTLS_zero, (keep_nonempty _ l), !keep_empty by done. unfold keep_pos. by rewrite bool_decide_true.
Qed.
Lemma mergeEdge_default environ c : ec_StatePath c ≠ ""%string → mergeEdgeConfig (cfg_Edge (defaults environ)) c = c.
Proof.
  intros Hs. destruct c as [i nm a b s t p ad rp rc]. cbn in *. unfold mergeEdgeConfig. cbn. change (mkTLS "" "" "" "" "" "" "") with zero_tls.
  by rewrite mergeTLS_zero, (keep_nonempty _ p), !keep_empty.
Qed.
Lemma mergeNode_default environ c :
  0 < n_FRPBindPort c → 0 < n_PortRangeStart c → 0 < n_PortRangeEnd c → mergeNodeRuntimeConfig (cfg_Node (defaults environ)) c = c.
Proof. intros H1 H2 H3. destruct c. cbn in *. unfold mergeNodeRuntimeConfig, keep_pos. cbn. by rewrite !bool_decide_true. Qed.

Lemma valid_ports c :
  Validate c = None → 0 < n_FRPBindPort (cfg_Node c) ∧ 0 < n_PortRangeStart (cfg_Node c) ∧ 0 < n_PortRangeEnd (cfg_Node c).
Proof.
  unfold Validate. destruct (ValidateConnectionTuning _); [done|]. intros Hv.
  repeat match type of Hv with (if ?b then _ else _) = None => destruct b eqn:?; [done|] end.
  unfold ValidateNodeRuntime in Hv.
  repeat match type of Hv with (if ?b then _ else _) = None => destruct b eqn:?; [done|] end. bools. lia.
Qed.
Lemma valid_mode c : Validate c = None → cfg_Mode c ≠ ""%string ∧ Initialized c = true.
Proof.
  unfold Validate. destruct (ValidateConnectionTuning _); [done|]. intros Hv.
  repeat match type of Hv with (if ?b then _ else _) = None => destruct b eqn:?; [done|] end. bools.
  split; [|by destruct (Initialized c)]. intros Hm. rewrite Hm in *. done.
Qed.

(** The fields of a configuration read from a file with a node section. *)
Definition file_node (base : NodeRuntimeConfig) (f : FileConfig) : NodeRuntimeConfig :=
  let node := mergeNodeRuntimeConfig base (fc_Node f) in
  mkNode (n_Tag node) (n_PublicAPIURL node) (or_else (n_FRPAdvertiseAddr node) (or_else (fc_FRPServerAddr f) "127.0.0.1"))
    (or_else_z (n_FRPBindPort node) (or_else_z (fc_FRPServerPort f) 7000)) (or_else_z (n_PortRangeStart node) 1024)
    (or_else_z (n_PortRangeEnd node) 65535) (n_Selectable node).
Lemma applyFileConfig_fields c f :
  nodeRuntimeConfigured (fc_Node f) = true →
  applyFileConfig c f =
    mkConfig (ConfigPath c) (or_else_z (fc_ConfigVersion f) 1) (or_else (fc_ConfigurationMode f) ConfigurationManual) (fc_ConnectionTuning f)
      (if bool_decide (fc_Mode f = ""%string) && (bool_decide (fc_MySQLDSN f ≠ ""%string) || fc_Initialized f) then ModeController else fc_Mode f)
      (ConfigState c) (ConfigError c) (HTTPAddr c) (fc_MySQLDSN f) (or_else (fc_CookieSecret f) "dev-change-me-before-production")
      (parseDuration (fc_SessionTTL f) (SessionTTL c)) (parseDuration (fc_RuntimeTokenTTL f) (RuntimeTokenTTL c))
      (parseDuration (fc_UDPConnectionTTL f) (UDPConnectionTTL c)) (default (EmbeddedFRPEnabled c) (fc_EmbeddedFRPEnabled f))
      (or_else (fc_FRPBindAddr f) "0.0.0.0") (or_else (fc_FRPProxyBindAddr f) (or_else (fc_FRPBindAddr f) "0.0.0.0"))
      (n_FRPAdvertiseAddr (file_node (cfg_Node c) f)) (n_FRPBindPort (file_node (cfg_Node c) f)) true
      (or_else (fc_ClientConfigComment f) "generated by frp-control-server") (fc_InitialAdmin f)
      (mergeControllerConfig (cfg_Controller c) (fc_Controller f)) (mergeEdgeConfig (cfg_Edge c) (fc_Edge f)) (file_node (cfg_Node c) f)
      (fc_Initialized f || bool_decide (ia_PasswordHash (fc_InitialAdmin f) ≠ ""%string)).
Proof. intros Hn. unfold applyFileConfig, apply_file_fields. rewrite Hn. reflexivity. Qed.

(** The configuration as read back: an empty comment has become the default one, and
    an empty address to bind every address, or for the proxies that of frps. *)
Definition with_defaults (c : Config) : Config :=
  c <| ClientConfigComment := or_else (ClientConfigComment c) "generated by frp-control-server" |>
    <| FRPBindAddr := or_else (FRPBindAddr c) "0.0.0.0" |>
    <| FRPProxyBindAddr := or_else (FRPProxyBindAddr c) (or_else (FRPBindAddr c) "0.0.0.0") |>.
Lemma file_node_written base now secret c :
  settled c → mergeNodeRuntimeConfig base (cfg_Node c) = cfg_Node c →
  file_node base (complete_file now secret (Config_FileConfig c)) = cfg_Node c.
Proof.
  intros Hc Hn. destruct (valid_ports c (st_valid _ Hc)) as (Hp1 & Hp2 & Hp3). pose proof (st_addr _ Hc) as Ha.
  unfold file_node. change (fc_Node _) with (cfg_Node c). rewrite Hn. rewrite (or_else_id (n_FRPAdvertiseAddr _)) by done.
  rewrite (or_else_z_id (n_FRPBindPort _)), (or_else_z_id (n_PortRangeStart _)), (or_else_z_id (n_PortRangeEnd _)) by lia.
  by destruct (cfg_Node c).
Qed.
Lemma applyFile_written b now secret c :
  settled c → ConfigPath b = ConfigPath c →
  mergeControllerConfig (cfg_Controller b) (cfg_Controller c) = cfg_Controller c → mergeEdgeConfig (cfg_Edge b) (cfg_Edge c) = cfg_Edge c →
  mergeNodeRuntimeConfig (cfg_Node b) (cfg_Node c) = cfg_Node c →
  applyFileConfig b (complete_file now secret (Config_FileConfig c)) =
    (with_defaults c) <| HTTPAddr := HTTPAddr b |> <| ConfigState := ConfigState b |> <| ConfigError := ConfigError b |>.
Proof.
  intros Hc Hpath Hcon Hedge Hnode. pose proof (st_valid _ Hc) as Hvalid.
  destruct (valid_ports c Hvalid) as (Hp1 & Hp2 & Hp3). destruct (valid_mode c Hvalid) as [Hmode Hinit].
  destruct (st_version _ Hc) as [Hver Hcm]. destruct (st_ttls _ Hc) as (Ht1 & Ht2 & Ht3).
  destruct (st_legacy _ Hc) as [Hl1 Hl2]. pose proof (st_tls _ Hc) as Htls.
  rewrite applyFileConfig_fields.
  2: { cbn. unfold nodeRuntimeConfigured. rewrite (bool_decide_true (n_FRPBindPort _ ≠ 0)) by lia. by rewrite !orb_true_r. }
  rewrite (file_node_written _ _ _ _ Hc Hnode), <- Hl1, <- Hl2, Hpath.
  cbn [complete_file Config_FileConfig fc_ConfigVersion fc_ConfigurationMode fc_ConnectionTuning fc_Mode fc_MySQLDSN fc_CookieSecret
    fc_SessionTTL fc_RuntimeTokenTTL fc_UDPConnectionTTL fc_EmbeddedFRPEnabled fc_FRPBindAddr fc_FRPProxyBindAddr fc_ClientConfigComment
    fc_InitialAdmin fc_Controller fc_Edge fc_Initialized default].
  rewrite Hcon, Hedge, (bool_decide_false (cfg_Mode c = _)), Hinit by done. cbn [andb orb].
  rewrite !(or_else_z_id (ConfigVersion c)), (or_else_id (ConfigurationMode c)), !(or_else_id (CookieSecret c)) by (done || apply Hc).
  rewrite !(or_else_id (DurationString _)) by by apply DurationString_nonempty. rewrite !parseDuration_String by done.
  rewrite or_else_twice. clear - Htls Hinit. destruct c. cbn in Htls, Hinit. by subst.
Qed.

Lemma ApplyRecommended_id c : EmbeddedFRPEnabled c = true → FRPTransportTLS c = true → ApplyRecommended c = c.
Proof. destruct c. cbn. by intros -> ->. Qed.
Lemma env_unset environ key fallback : Getenv environ key = ""%string → env environ key fallback = fallback.
Proof. intros H. unfold env. by rewrite H. Qed.
Lemma applyEnv_plain environ path c :
  plain_environment environ path c → FRPTransportTLS c = true →
  FRPServerAddr c = n_FRPAdvertiseAddr (cfg_Node c) → FRPServerPort c = n_FRPBindPort (cfg_Node c) →
  applyEnv environ c = c.
Proof.
  intros (Henv & Hhttp & _) Htls Ha Hp. unfold applyEnv.
  rewrite (Henv "FRP_CONTROL_MYSQL_DSN"), bool_decide_false by (done || by intros []).
  assert (Hh : env environ "FRP_CONTROL_HTTP_ADDR" (HTTPAddr c) = HTTPAddr c).
  { unfold env in *. destruct (bool_decide_reflect (Getenv environ "FRP_CONTROL_HTTP_ADDR" ≠ ""%string)); done. }
  rewrite Hh. unfold envDuration, envBool, envInt.
  rewrite !env_unset by by apply Henv. rewrite !Henv by done.
  destruct c as [? ? ? ? ? ? ? ? ? ? ? ? ? ? ? ? ? ? ? ? ? ? ? node ?]. destruct node. cbn in *. by subst.
Qed.
Lemma Validate_ignores c comment bind proxy http state err :
  Validate (c <| ClientConfigComment := comment |> <| FRPBindAddr := bind |> <| FRPProxyBindAddr := proxy |> <| HTTPAddr := http |> <| ConfigState := state |> <| ConfigError := err |>) = Validate c.
Proof. reflexivity. Qed.

Lemma load_settled environ path now secret c :
  settled c → plain_environment environ path c →
  Load environ path (FileRead (complete_file now secret (Config_FileConfig c))) = with_defaults c.
Proof.
  intros Hc (Henv & Hhttp & Hpath). unfold Load. rewrite Hpath. destruct (st_controller _ Hc) as [Hc1 Hc2].
  destruct (valid_ports c (st_valid _ Hc)) as (Hp1 & Hp2 & Hp3).
  set (b := (defaults environ) <| ConfigPath := ConfigPath c |>).
  rewrite (applyFile_written b now secret c Hc); [|done|by apply (mergeController_default environ)|apply (mergeEdge_default environ), Hc|by apply (mergeNode_default environ)].
  change (HTTPAddr b) with (env environ "FRP_CONTROL_HTTP_ADDR" ":8080"). rewrite Hhttp.
  set (c1 := (with_defaults c) <| HTTPAddr := _ |> <| ConfigState := _ |> <| ConfigError := _ |>).
  assert (Hrec : (if bool_decide (ConfigurationMode c1 = ConfigurationAutomatic) then ApplyRecommended c1 else c1) = c1).
  { case_bool_decide; [|done]. apply ApplyRecommended_id; [by apply (st_recommended _ Hc)|apply Hc]. }
  rewrite Hrec. assert (Hval : Validate c1 = None) by (unfold c1, with_defaults; rewrite Validate_ignores; apply Hc). rewrite Hval.
  destruct (st_state _ Hc) as [Hst Herr]. destruct (st_legacy _ Hc) as [Hl1 Hl2].
  assert (Heq : c1 <| ConfigState := "configured"%string |> = with_defaults c).
  { clear - Hst Herr. unfold c1, with_defaults. destruct c. cbn in Hst, Herr. by subst. }
  rewrite Heq. by apply (applyEnv_plain environ path); [|apply Hc|..].
Qed.
(** what a node writes is what it starts with: reading back the file of a
    settled configuration, in an environment without overrides, gives this
    configuration, except that an empty comment or address to bind has become the
    default one. *)
Theorem Load_written environ path now secret c :
  settled c → plain_environment environ path c →
  Load environ path (FileRead (complete_file now secret (Config_FileConfig c))) = with_defaults c.
Proof. apply load_settled. Qed.

Definition demo_config : Config := Load ∅ "cfg.json" (FileRead demo_file).
Lemma Load_written_witness :
  Load ∅ "cfg.json" (FileRead (complete_file zero_time "" (Config_FileConfig demo_config))) = with_defaults demo_config.
Proof.
  apply Load_written.
  - split; vm_compute; repeat split; done.
  - split_and!; [|vm_compute; reflexivity..]. intros key _ _. unfold Getenv. by rewrite lookup_empty.
Defined.
