(* ===== verification/FrpTls.v ===== *)
(** * The FRP transport identity of a node

    [internal/frptls/identity.go] and the methods of [frpcore/tls_identity.go] that
    own it: the node-local certificate authority and server certificate, their
    renewal, the reset by a remote command, and the file they are kept in.

    A PEM text is represented by what it decodes to.  Cryptography is symbolic: a
    key is a name, a certificate carries the key it certifies and the key that
    signed it, and a signature verifies exactly when these agree.  Fresh keys and
    identifiers, the clock and the outcomes of file system calls are arguments; one
    operation reads the clock once.  [AddDate] is a parameter with the length of a
    year as its law. *)
From Stdlib Require Import ZArith Lia Ascii String.
From stdpp Require Import gmap strings list.
From S2P Require Import Prelude GoStrings Config.
Local Open Scope Z_scope.

Definition Day : duration := 24 * Hour.

(** [AddDate(n, 0, 0)]. *)
Class Calendar := {
  AddYears : Z → time → time;
  AddYears_lower : ∀ n t, 0 ≤ n → t + n * 365 * Day ≤ AddYears n t;
  AddYears_upper : ∀ t, AddYears 1 t ≤ t + 366 * Day }.

(** ** Data *)

Record Cert := mkCert {
  c_Subject : string; c_Issuer : string; c_DNSNames : list string; c_NotBefore : time; c_NotAfter : time;
  c_IsCA : bool; c_Key : Z; c_Signer : Z }.
Inductive pem :=
  | PEMCertificate (c : Cert)
  | PEMPrivateKey (k : Z)
  | PEMBlock          (* a block that is neither *)
  | PEMNone.          (* no block at all *)

Record persisted := mkPersisted {
  ps_Version : Z; ps_Generation : string; ps_ServerName : string; ps_CAPEM : pem; ps_CAKeyPEM : pem;
  ps_CertPEM : pem; ps_KeyPEM : pem; ps_LastResetCommand : string }.
#[export] Instance eta_persisted : Eta persisted := λ r,
  mkPersisted (ps_Version r) (ps_Generation r) (ps_ServerName r) (ps_CAPEM r) (ps_CAKeyPEM r) (ps_CertPEM r) (ps_KeyPEM r)
    (ps_LastResetCommand r).
Record Public := mkPublic {
  pb_Generation : string; pb_ServerName : string; pb_CAPEM : option pem; pb_Fingerprint : Cert; pb_NotAfter : time }.
Record Identity := mkIdentity { id_state : persisted; id_certificate : Cert; id_public : Public }.

(** The file: missing, unreadable, undecodable, or a state. *)
Inductive tls_file :=
  | TLSMissing
  | TLSReadError (err : string)
  | TLSInvalid
  | TLSState (s : persisted).

(** ** X.509 *)

(** Times in a certificate have whole seconds. *)
Definition asn1_time (t : time) : time := t - t `mod` Second.
Definition key_matches (cert key : pem) : option Cert :=
  match cert, key with
  | PEMCertificate c, PEMPrivateKey k => if bool_decide (c_Key c = k) then Some c else None
  | _, _ => None
  end.
Definition in_validity (c : Cert) (t : time) : bool := bool_decide (c_NotBefore c ≤ t) && bool_decide (t ≤ c_NotAfter c).
(** [leaf.Verify] with a pool of one root. *)
Definition verifies (leaf ca : Cert) (name : string) (t : time) : bool :=
  in_validity leaf t && in_validity ca t && c_IsCA ca && bool_decide (c_Signer leaf = c_Key ca) &&
  bool_decide (c_Issuer leaf = c_Subject ca) && bool_decide (name ∈ c_DNSNames leaf).

(** ** The identity *)

Section identity.
Context `{calendar : Calendar}.
(** The texts of errors of [crypto/x509]. *)
Context (verify_error parse_error : string).

(** What [crypto/rand] gives to one call of [generate], or its error. *)
Record Random := mkRandom { rnd_CAKey : Z; rnd_ServerKey : Z; rnd_ID : string }.

Definition root_cert (now : time) (generation : string) (key : Z) : Cert :=
  mkCert ("MeowFRP FRP CA " +:+ generation) ("MeowFRP FRP CA " +:+ generation) [] (asn1_time (now - 5 * Minute))
    (asn1_time (AddYears 10 now)) true key key.
Definition leaf_cert (now : time) (serverName issuer : string) (key signer : Z) : Cert :=
  mkCert serverName issuer [serverName] (asn1_time (now - 5 * Minute)) (asn1_time (AddYears 1 now)) false key signer.
Definition generate (now : time) (random : string + Random) (commandID : string) : string + persisted :=
  match random with
  | inl err => inl err
  | inr r =>
      let generation := rnd_ID r in
      let serverName := "frp-" +:+ generation +:+ ".internal" in
      let root := root_cert now generation (rnd_CAKey r) in
      inr (mkPersisted 1 generation serverName (PEMCertificate root) (PEMPrivateKey (rnd_CAKey r))
             (PEMCertificate (leaf_cert now serverName (c_Subject root) (rnd_ServerKey r) (rnd_CAKey r)))
             (PEMPrivateKey (rnd_ServerKey r)) commandID)
  end.

Definition publish (s : persisted) (ca leaf : Cert) : Identity :=
  mkIdentity s leaf (mkPublic (ps_Generation s) (ps_ServerName s) (Some (ps_CAPEM s)) ca (c_NotAfter leaf)).
(** The checks of [install], in their order. *)
Definition check_identity (s : persisted) (verifyTime : Cert → Cert → time) : string + Identity :=
  if negb (bool_decide (ps_Version s = 1)) || bool_decide (ps_Generation s = ""%string) || bool_decide (ps_ServerName s = ""%string)
  then inl "invalid FRP TLS identity metadata"%string
  else match ps_CAPEM s with
  | PEMNone => inl "invalid FRP root certificate"%string
  | PEMCertificate ca =>
      if negb (c_IsCA ca) then inl "invalid FRP root CA"%string
      else if negb (bool_decide (c_Signer ca = c_Key ca)) then inl "FRP root is not self-signed"%string
      else match key_matches (ps_CAPEM s) (ps_CAKeyPEM s) with
      | None => inl "FRP CA key does not match certificate"%string
      | Some _ =>
          match key_matches (ps_CertPEM s) (ps_KeyPEM s) with
          | None => inl "FRP server key does not match certificate"%string
          | Some leaf =>
              if verifies leaf ca (ps_ServerName s) (verifyTime leaf ca) then inr (publish s ca leaf)
              else inl ("FRP identity verification failed: " +:+ verify_error)
          end
      end
  | _ => inl "invalid FRP root CA"%string
  end.
(** [install(state, true)]: [save] is the error of storing the file, if any; the
    file is replaced by a rename. *)
Definition install_save (file : tls_file) (now : time) (save : option string) (s : persisted) : tls_file * (string + Identity) :=
  match check_identity s (λ _ _, now) with
  | inl err => (file, inl err)
  | inr i => match save with Some err => (file, inl err) | None => (TLSState s, inr i) end
  end.
(** [install(state, false)]. *)
Definition load_time (leaf ca : Cert) : time := Z.max (c_NotBefore leaf) (c_NotBefore ca) + Second.
Definition install_load (s : persisted) : string + Identity := check_identity s load_time.

(** The identity of the receiver, as it is after the call, and the error. *)
Definition keep_on_error (i : Identity) (r : tls_file * (string + Identity)) : tls_file * Identity * option string :=
  match r with
  | (file, inr i) => (file, i, None)
  | (file, inl err) => (file, i, Some err)
  end.
Definition renewed (now : time) (s : persisted) (ca : Cert) (caKey serverKey : Z) : persisted :=
  s <| ps_CertPEM := PEMCertificate (leaf_cert now (ps_ServerName s) (c_Subject ca) serverKey caKey) |>
    <| ps_KeyPEM := PEMPrivateKey serverKey |>.
Definition refreshLocked (file : tls_file) (i : Identity) (now : time) (random : string + Random) (save : option string) :
    tls_file * Identity * option string :=
  let s := id_state i in
  if bool_decide (30 * Day < Sub (pb_NotAfter (id_public i)) now) then (file, i, None)
  else match ps_CAPEM s with
  | PEMNone => (file, i, Some "invalid FRP root"%string)
  | PEMCertificate ca =>
      if bool_decide (Sub (c_NotAfter ca) now ≤ 366 * Day) then
        match generate now random (ps_LastResetCommand s) with
        | inl err => (file, i, Some err)
        | inr s => keep_on_error i (install_save file now save s)
        end
      else match ps_CAKeyPEM s with
      | PEMNone => (file, i, Some "invalid FRP CA key"%string)
      | PEMPrivateKey caKey =>
          match random with
          | inl err => (file, i, Some err)
          | inr r => keep_on_error i (install_save file now save (renewed now s ca caKey (rnd_ServerKey r)))
          end
      | _ => (file, i, Some parse_error)
      end
  | _ => (file, i, Some parse_error)
  end.
Definition EnsureFresh := refreshLocked.

Definition Reset (file : tls_file) (i : Identity) (now : time) (random : string + Random) (save : option string) (commandID : string) :
    tls_file * Identity * option string :=
  if negb (bool_decide (commandID = ""%string)) && bool_decide (ps_LastResetCommand (id_state i) = commandID) then (file, i, None)
  else match generate now random commandID with
  | inl err => (file, i, Some err)
  | inr s => keep_on_error i (install_save file now save s)
  end.

Definition Open (file : tls_file) (now : time) (random : string + Random) (save : option string) : tls_file * (string + Identity) :=
  match file with
  | TLSMissing =>
      match generate now random "" with
      | inl err => (file, inl err)
      | inr s => install_save file now save s
      end
  | TLSReadError err => (file, inl err)
  | TLSInvalid => (file, inl "invalid FRP TLS identity file"%string)
  | TLSState s =>
      match install_load s with
      | inl err => (file, inl err)
      | inr i => let '(file, i, err) := EnsureFresh file i now random save in
                 (file, match err with Some err => inl err | None => inr i end)
      end
  end.

Definition Identity_Public (i : Identity) (includeCA : bool) : Public :=
  let p := id_public i in
  if includeCA then p else mkPublic (pb_Generation p) (pb_ServerName p) None (pb_Fingerprint p) (pb_NotAfter p).
(** The certificate that a handshake gets. *)
Definition GetCertificate (file : tls_file) (i : Identity) (now : time) (random : string + Random) (save : option string) :
    tls_file * Identity * (string + Cert) :=
  let '(file, i, err) := refreshLocked file i now random save in
  (file, i, match err with Some err => inl err | None => inr (id_certificate i) end).

(** ** The manager's side: [None] before the first use. *)

Definition EnsureTLSIdentity (file : tls_file) (i : option Identity) (configPath : string) (now : time) (random : string + Random)
    (save : option string) : tls_file * option Identity * option string :=
  match i with
  | Some i => (file, Some i, None)
  | None =>
      if bool_decide (configPath = ""%string) then (file, None, Some "FRP TLS requires a persistent node configuration path"%string)
      else match Open file now random save with
      | (file, inl err) => (file, None, Some err)
      | (file, inr i) => (file, Some i, None)
      end
  end.
Definition TLSPublic (file : tls_file) (i : option Identity) (includeCA : bool) (now : time) (random : string + Random)
    (save : option string) : tls_file * option Identity * option Public :=
  match i with
  | None => (file, None, None)
  | Some i =>
      let '(file, i, err) := EnsureFresh file i now random save in
      (file, Some i, match err with Some _ => None | None => Some (Identity_Public i includeCA) end)
  end.
Definition ResetTLSIdentity (file : tls_file) (i : option Identity) (configPath commandID : string) (now : time)
    (random random' : string + Random) (save save' : option string) : tls_file * option Identity * option string :=
  let '(file, i, err) := EnsureTLSIdentity file i configPath now random save in
  match err, i with
  | None, Some i => let '(file, i, err) := Reset file i now random' save' commandID in (file, Some i, err)
  | _, _ => (file, i, err)
  end.
End identity.

(** Arithmetic with the units of time. *)
Ltac units := unfold Day, Hour, Minute, Second, minInt64, maxInt64 in *; lia.

(** ** A node over time *)

Section runs.
Context `{calendar : Calendar}.
Context (verify_error parse_error : string).

Record TLSNode := mkTLSNode { tn_file : tls_file; tn_identity : option Identity; tn_now : time }.
(** Identifiers are the hexadecimal digits of sixteen bytes. *)
Definition good_random (random : string + Random) : Prop := match random with inr r => rnd_ID r ≠ ""%string | inl _ => True end.
Definition loaded (r : string + Identity) : option Identity := match r with inr i => Some i | inl _ => None end.

(** Time passes, the process stops and starts, and certificates are renewed. *)
Inductive maintenance : TLSNode → TLSNode → Prop :=
  | m_clock file i now now' : now ≤ now' → maintenance (mkTLSNode file i now) (mkTLSNode file i now')
  | m_stop file i now : maintenance (mkTLSNode file i now) (mkTLSNode file None now)
  | m_open file now random save file' r :
      good_random random → Open verify_error parse_error file now random save = (file', r) →
      maintenance (mkTLSNode file None now) (mkTLSNode file' (loaded r) now)
  | m_refresh file i now random save file' i' err :
      good_random random → refreshLocked verify_error parse_error file i now random save = (file', i', err) →
      maintenance (mkTLSNode file (Some i) now) (mkTLSNode file' (Some i') now).
Inductive tstep : TLSNode → TLSNode → Prop :=
  | t_maintenance n n' : maintenance n n' → tstep n n'
  | t_reset file i now random save commandID file' i' err :
      good_random random → Reset verify_error file i now random save commandID = (file', i', err) →
      tstep (mkTLSNode file (Some i) now) (mkTLSNode file' (Some i') now).

(** A complete chain whose leaf expires before its root. *)
Record chain_ok (now : time) (s : persisted) (ca leaf : Cert) : Prop := mkChainOk {
  ch_meta : ps_Version s = 1 ∧ ps_Generation s ≠ ""%string ∧ ps_ServerName s ≠ ""%string;
  ch_ca : ps_CAPEM s = PEMCertificate ca ∧ ps_CAKeyPEM s = PEMPrivateKey (c_Key ca);
  ch_leaf : ps_CertPEM s = PEMCertificate leaf ∧ ps_KeyPEM s = PEMPrivateKey (c_Key leaf);
  ch_root : c_IsCA ca = true ∧ c_Signer ca = c_Key ca;
  ch_signed : c_Signer leaf = c_Key ca ∧ c_Issuer leaf = c_Subject ca ∧ ps_ServerName s ∈ c_DNSNames leaf;
  ch_started : c_NotBefore ca + Second ≤ now ∧ c_NotBefore leaf + Second ≤ now;
  ch_lives : c_NotBefore ca + Second ≤ c_NotAfter leaf ∧ c_NotBefore leaf + Second ≤ c_NotAfter leaf;
  ch_ends : c_NotAfter leaf ≤ c_NotAfter ca }.
Definition stored_ok (now : time) (s : persisted) : Prop := ∃ ca leaf, chain_ok now s ca leaf.
Definition identity_ok (now : time) (file : tls_file) (i : Identity) : Prop :=
  ∃ ca leaf, chain_ok now (id_state i) ca leaf ∧ i = publish (id_state i) ca leaf ∧ file = TLSState (id_state i).
Definition node_ok (n : TLSNode) : Prop :=
  (tn_file n = TLSMissing ∨ ∃ s, tn_file n = TLSState s ∧ stored_ok (tn_now n) s) ∧
  ∀ i, tn_identity n = Some i → identity_ok (tn_now n) (tn_file n) i.

Lemma chain_later now now' s ca leaf : now ≤ now' → chain_ok now s ca leaf → chain_ok now' s ca leaf.
Proof. intros Hn []. split; try done. lia. Qed.

Lemma asn1_bounds t : t - Second < asn1_time t ≤ t.
Proof. unfold asn1_time, Second. pose proof (Z.mod_pos_bound t 1000000000 ltac:(lia)). lia. Qed.
Lemma one_year now : now + 365 * Day - Second < asn1_time (AddYears 1 now) ≤ now + 366 * Day.
Proof.
  pose proof (asn1_bounds (AddYears 1 now)). pose proof (AddYears_lower 1 now ltac:(lia)). pose proof (AddYears_upper now). lia.
Qed.
Lemma ten_years now : now + 3650 * Day - Second < asn1_time (AddYears 10 now).
Proof. pose proof (asn1_bounds (AddYears 10 now)). pose proof (AddYears_lower 10 now ltac:(lia)). lia. Qed.

Lemma chain_verifies now t s ca leaf :
  chain_ok now s ca leaf → Z.max (c_NotBefore ca) (c_NotBefore leaf) ≤ t ≤ c_NotAfter leaf → verifies leaf ca (ps_ServerName s) t = true.
Proof.
  intros [_ _ _ [H1 _] (H2 & H3 & H4) _ _ H5] Ht. unfold verifies, in_validity. rewrite H1, !bool_decide_true by (done || lia). done.
Qed.
Lemma chain_checked now s ca leaf vt :
  chain_ok now s ca leaf → verifies leaf ca (ps_ServerName s) (vt leaf ca) = true →
  check_identity verify_error s vt = inr (publish s ca leaf).
Proof.
  intros [(M1 & M2 & M3) [C1 C2] [L1 L2] [R1 R2] _ _ _ _] Hv. unfold check_identity.
  rewrite M1, (bool_decide_false (ps_Generation s = _)), (bool_decide_false (ps_ServerName s = _)) by done.
  rewrite C1, C2, L1, L2, R1, R2. unfold key_matches. rewrite !bool_decide_true by done. cbn. by rewrite Hv.
Qed.

(** What the two ways of issuing make. *)
Lemma generated_chain now random commandID s :
  good_random random → generate now random commandID = inr s →
  ∃ ca leaf, chain_ok now s ca leaf ∧ ps_LastResetCommand s = commandID ∧ now + 365 * Day - Second < c_NotAfter leaf.
Proof.
  intros Hr. unfold generate. destruct random as [err|r]; [done|]. cbn in Hr. intros [= <-].
  exists (root_cert now (rnd_ID r) (rnd_CAKey r)),
    (leaf_cert now ("frp-" +:+ rnd_ID r +:+ ".internal") ("MeowFRP FRP CA " +:+ rnd_ID r) (rnd_ServerKey r) (rnd_CAKey r)).
  pose proof (one_year now). pose proof (ten_years now).
  pose proof (asn1_bounds (now - 5 * Minute)). split; [|split; [done|cbn; units]].
  split; cbn; [by split_and!|done|done|done| |units|units|units]. split_and!; [done..|]. by apply list_elem_of_singleton.
Qed.
Lemma renewed_chain now s ca leaf serverKey :
  chain_ok now s ca leaf → 366 * Day < Sub (c_NotAfter ca) now →
  ∃ leaf', chain_ok now (renewed now s ca (c_Key ca) serverKey) ca leaf' ∧ now + 365 * Day - Second < c_NotAfter leaf'.
Proof.
  intros [M [C1 C2] L R S1 ST LV E] Hfar. pose proof (one_year now). pose proof (asn1_bounds (now - 5 * Minute)).
  assert (366 * Day < c_NotAfter ca - now).
  { apply Sub_gt in Hfar; [done|]. units. }
  exists (leaf_cert now (ps_ServerName s) (c_Subject ca) serverKey (c_Key ca)). split; [|cbn; units]. split; cbn; [done|done|done|done| |units|units|units]. split_and!; [done..|]. by apply list_elem_of_singleton.
Qed.

Lemma install_save_ok file now save s ca leaf :
  chain_ok now s ca leaf → now ≤ c_NotAfter leaf →
  install_save verify_error file now save s =
    match save with Some err => (file, inl err) | None => (TLSState s, inr (publish s ca leaf)) end.
Proof.
  intros Hc Hn. unfold install_save. rewrite (chain_checked now s ca leaf); [done|done|].
  eapply chain_verifies; [done|]. destruct (ch_started _ _ _ _ Hc). unfold Second in *. lia.
Qed.
Lemma install_load_ok now s ca leaf : chain_ok now s ca leaf → install_load verify_error s = inr (publish s ca leaf).
Proof.
  intros Hc. unfold install_load. apply (chain_checked now); [done|]. eapply chain_verifies; [done|].
  destruct (ch_lives _ _ _ _ Hc). unfold load_time, Second in *. lia.
Qed.

(** The outcome of a renewal: no error, or the identity and the file as before. *)
Definition lives_on (now : time) (i : Identity) : Prop := 30 * Day < c_NotAfter (id_certificate i) - now.
Lemma refresh_spec file i now random save file' i' err :
  identity_ok now file i → good_random random →
  refreshLocked verify_error parse_error file i now random save = (file', i', err) →
  identity_ok now file' i' ∧ ps_LastResetCommand (id_state i') = ps_LastResetCommand (id_state i) ∧
  (err = None → lives_on now i') ∧ (err ≠ None → file' = file ∧ i' = i) ∧
  (err = None ∨ (∃ e, random = inl e) ∨ is_Some save).
Proof.
  intros (ca & leaf & Hc & Hi & ->) Hr. unfold refreshLocked. assert (Hpub : pb_NotAfter (id_public i) = c_NotAfter leaf) by by rewrite Hi.
  assert (Hcert : id_certificate i = leaf) by by rewrite Hi.
  assert (Hold : identity_ok now (TLSState (id_state i)) i) by by exists ca, leaf.
  rewrite Hpub. destruct (bool_decide_reflect (30 * Day < Sub (c_NotAfter leaf) now)) as [Hfar|Hnear].
  { intros [= <- <- <-]. split_and!; [done..| |done|by left]. intros _. unfold lives_on. rewrite Hcert.
    apply Sub_gt in Hfar; [done|]. units. }
  destruct (ch_ca _ _ _ _ Hc) as [C1 C2]. rewrite C1, C2.
  assert (Hdone : ∀ s ca' leaf', chain_ok now s ca' leaf' → now + 365 * Day - Second < c_NotAfter leaf' →
    ps_LastResetCommand s = ps_LastResetCommand (id_state i) →
    keep_on_error i (install_save verify_error (TLSState (id_state i)) now save s) = (file', i', err) →
    identity_ok now file' i' ∧ ps_LastResetCommand (id_state i') = ps_LastResetCommand (id_state i) ∧
    (err = None → lives_on now i') ∧ (err ≠ None → file' = TLSState (id_state i) ∧ i' = i) ∧ (err = None ∨ (∃ e, random = inl e) ∨ is_Some save)).
  { intros s ca' leaf' Hs Hlong Hcmd. rewrite (install_save_ok _ _ _ _ _ _ Hs) by units.
    destruct save as [e|]; cbn; intros [= <- <- <-].
    - split_and!; [done..|]. right. right. by eexists.
    - split_and!; [by exists ca', leaf'|done| |done|by left]. intros _. unfold lives_on. cbn. units. }
  destruct (bool_decide_reflect (Sub (c_NotAfter ca) now ≤ 366 * Day)) as [Hend|Hlive].
  - destruct (generate now random _) as [e|s] eqn:Hg.
    { intros [= <- <- <-]. split_and!; [done..|]. right. left. destruct random; [by eexists|done]. }
    destruct (generated_chain _ _ _ _ Hr Hg) as (ca' & leaf' & Hs & Hcmd & Hlong). by eapply Hdone.
  - destruct random as [e|r].
    { intros [= <- <- <-]. split_and!; [done..|]. right. left. by eexists. }
    destruct (renewed_chain now _ _ _ (rnd_ServerKey r) Hc) as (leaf' & Hs & Hlong); [lia|]. by eapply Hdone.
Qed.

Lemma reset_spec file i now random save commandID file' i' err :
  identity_ok now file i → good_random random → Reset verify_error file i now random save commandID = (file', i', err) →
  identity_ok now file' i' ∧ (err = None → commandID ≠ ""%string → ps_LastResetCommand (id_state i') = commandID).
Proof.
  intros Hi Hr. unfold Reset. destruct (negb (bool_decide (commandID = ""%string)) && bool_decide (ps_LastResetCommand (id_state i) = commandID)) eqn:E.
  { intros [= <- <- <-]. split; [done|]. intros _ _. by bools. }
  destruct (generate now random commandID) as [e|s] eqn:Hg; [by intros [= <- <- <-]|].
  destruct (generated_chain _ _ _ _ Hr Hg) as (ca & leaf & Hs & Hcmd & Hlong).
  rewrite (install_save_ok _ _ _ _ _ _ Hs) by units. destruct save as [e|]; cbn; intros [= <- <- <-]; [done|].
  split; [by exists ca, leaf|done].
Qed.
Lemma identity_node now file i : identity_ok now file i → node_ok (mkTLSNode file (Some i) now).
Proof.
  intros Hi. split; [|by intros ? [= <-]]. right. destruct Hi as (ca & leaf & Hc & _ & ->). exists (id_state i). split; [done|]. by exists ca, leaf.
Qed.
Lemma open_spec file now random save file' r :
  node_ok (mkTLSNode file None now) → good_random random → Open verify_error parse_error file now random save = (file', r) →
  node_ok (mkTLSNode file' (loaded r) now) ∧
  ∀ s, file = TLSState s → ∃ s', file' = TLSState s' ∧ ps_LastResetCommand s' = ps_LastResetCommand s.
Proof.
  intros [Hfile _] Hr. cbn in Hfile. unfold Open. destruct Hfile as [->|(s & -> & ca & leaf & Hc)].
  - assert (Hn : node_ok (mkTLSNode TLSMissing None now)) by by split; [left|].
    destruct (generate now random "") as [e|s] eqn:Hg; [by intros [= <- <-]|].
    destruct (generated_chain _ _ _ _ Hr Hg) as (ca & leaf & Hs & _ & Hlong).
    rewrite (install_save_ok _ _ _ _ _ _ Hs) by units. destruct save; intros [= <- <-]; [by split|].
    split; [|done]. apply identity_node. by exists ca, leaf.
  - rewrite (install_load_ok _ _ _ _ Hc). assert (Hi : identity_ok now (TLSState s) (publish s ca leaf)) by by exists ca, leaf.
    unfold EnsureFresh. destruct (refreshLocked _ _ _ _ _ _ _) as [[file1 i1] err] eqn:E. intros [= <- <-].
    destruct (refresh_spec _ _ _ _ _ _ _ _ Hi Hr E) as (Hi1 & Hcmd & _). split.
    + destruct (identity_node _ _ _ Hi1) as [Hf Hid]. by destruct err; split.
    + intros ? [= <-]. destruct Hi1 as (_ & _ & _ & _ & ->). by eexists.
Qed.

Lemma maintenance_ok n n' : maintenance n n' → node_ok n → node_ok n'.
Proof.
  intros Hstep Hn. destruct Hstep.
  - destruct Hn as [Hf Hi]. split; cbn in *.
    + destruct Hf as [Hf|(s & Hf & ca & leaf & Hc)]; [by left|]. right. exists s. split; [done|]. exists ca, leaf. by eapply chain_later.
    + intros x Hx. destruct (Hi x Hx) as (ca & leaf & Hc & ?). exists ca, leaf. split; [by eapply chain_later|done].
  - by destruct Hn as [Hf _].
  - by eapply open_spec.
  - destruct Hn as [_ Hi]. apply identity_node. eapply refresh_spec; [by apply Hi|done..].
Qed.
Lemma tstep_ok n n' : tstep n n' → node_ok n → node_ok n'.
Proof.
  intros Hstep Hn. destruct Hstep; [by eapply maintenance_ok|].
  destruct Hn as [_ Hi]. apply identity_node. eapply reset_spec; [by apply Hi|done..].
Qed.
Definition new_node (now : time) : TLSNode := mkTLSNode TLSMissing None now.
Lemma reachable_ok start n : rtc tstep (new_node start) n → node_ok n.
Proof.
  intros Hr. assert (H0 : node_ok (new_node start)) by by split; [left|].
  revert H0. induction Hr; [done|]. intros H0. apply IHHr. by eapply tstep_ok.
Qed.

(** C12: at every handshake of a node, whatever resets, renewals, failures and
    restarts came before: the certificate verifies, now and for thirty more days,
    against the root and the name that the node publishes, and the file has the
    same identity; a handshake fails only when the random source or storing the
    file does, and then the identity stays. *)
Theorem handshake_trusted start file i now random save file' i' r :
  rtc tstep (new_node start) (mkTLSNode file (Some i) now) → good_random random →
  GetCertificate verify_error parse_error file i now random save = (file', i', r) →
  match r with
  | inr cert =>
      ∃ ca, pb_CAPEM (Identity_Public i' true) = Some (PEMCertificate ca) ∧ file' = TLSState (id_state i') ∧
        ∀ t, now ≤ t ≤ now + 30 * Day → verifies cert ca (pb_ServerName (Identity_Public i' true)) t = true
  | inl _ => file' = file ∧ i' = i ∧ ((∃ e, random = inl e) ∨ is_Some save)
  end.
Proof.
  intros Hr Hrnd. unfold GetCertificate. destruct (refreshLocked _ _ _ _ _ _ _) as [[file1 i1] err] eqn:E. intros [= <- <- <-].
  destruct (reachable_ok _ _ Hr) as [_ Hi]. specialize (Hi i eq_refl). cbn in Hi.
  destruct (refresh_spec _ _ _ _ _ _ _ _ Hi Hrnd E) as ((ca & leaf & Hc & Hi1 & Hfile) & _ & Hfresh & Hfail & Hwhy).
  destruct err as [e|].
  - destruct Hfail as [-> ->]; [done|]. split_and!; [done..|]. by destruct Hwhy.
  - exists ca. rewrite Hi1. cbn. destruct (ch_ca _ _ _ _ Hc) as [-> _]. rewrite Hi1 in Hfile. split_and!; [done..|].
    intros t Ht. eapply chain_verifies; [done|]. specialize (Hfresh eq_refl). unfold lives_on in Hfresh. rewrite Hi1 in Hfresh. cbn in Hfresh.
    destruct (ch_started _ _ _ _ Hc). units.
Qed.

(** A node whose last reset was [commandID]. *)
Definition reset_by (commandID : string) (n : TLSNode) : Prop :=
  ∃ s, tn_file n = TLSState s ∧ ps_LastResetCommand s = commandID.
Lemma maintenance_reset_by commandID n n' : maintenance n n' → node_ok n → reset_by commandID n → reset_by commandID n'.
Proof.
  intros Hstep Hn (s & Hf & Hs). destruct Hstep; cbn in *.
  - by exists s.
  - by exists s.
  - destruct (open_spec _ _ _ _ _ _ Hn H H0) as [_ Ho]. destruct (Ho s Hf) as (s' & -> & He). exists s'. split; [done|congruence].
  - destruct Hn as [_ Hi]. specialize (Hi i eq_refl). cbn in Hi.
    destruct (refresh_spec _ _ _ _ _ _ _ _ Hi H H0) as ((? & ? & _ & _ & ->) & He & _). exists (id_state i'). split; [done|].
    destruct Hi as (? & ? & _ & _ & Hf'). congruence.
Qed.

(** a reset command takes effect once: after it has succeeded, and after any
    renewals, restarts and passage of time, executing it again succeeds and changes
    neither the identity nor the file. *)
Theorem reset_once start file i now random save commandID file' i' n :
  rtc tstep (new_node start) (mkTLSNode file (Some i) now) → good_random random → commandID ≠ ""%string →
  Reset verify_error file i now random save commandID = (file', i', None) →
  rtc maintenance (mkTLSNode file' (Some i') now) n →
  ∀ i'' random' save', tn_identity n = Some i'' →
    Reset verify_error (tn_file n) i'' (tn_now n) random' save' commandID = (tn_file n, i'', None).
Proof.
  intros Hr Hrnd Hcmd Hreset Hmaint i'' random' save' Hi''. destruct (reachable_ok _ _ Hr) as [_ Hi]. specialize (Hi i eq_refl). cbn in Hi.
  destruct (reset_spec _ _ _ _ _ _ _ _ _ Hi Hrnd Hreset) as [Hok Hlast].
  assert (Hn : node_ok n ∧ reset_by commandID n).
  { assert (H0 : node_ok (mkTLSNode file' (Some i') now)) by by apply identity_node.
    assert (H1 : reset_by commandID (mkTLSNode file' (Some i') now)).
    { destruct Hok as (? & ? & _ & _ & ->). exists (id_state i'). split; [done|by apply Hlast]. }
    clear - Hmaint H0 H1. induction Hmaint; [done|]. apply IHHmaint; [by eapply maintenance_ok|by eapply maintenance_reset_by]. }
  destruct Hn as [[_ Hid] (s & Hs & He)]. destruct (Hid i'' Hi'') as (? & ? & _ & _ & Hf).
  unfold Reset. rewrite (bool_decide_false (commandID = _)) by done. rewrite bool_decide_true; [done|]. congruence.
Qed.
End runs.

(** A calendar of years with 365 days, and a node that is reset, renewed after a
    year and restarted. *)
Definition demo_calendar : Calendar.
Proof. refine {| AddYears n t := t + n * 365 * Day |}; intros; units. Defined.
Definition demo_random (k : Z) : string + Random := inr (mkRandom k (k + 1) "0123").
Definition demo_open (now : time) : tls_file * (string + Identity) := Open (calendar := demo_calendar) "" "" TLSMissing now (demo_random 1) None.
Lemma handshake_trusted_witness :
  match demo_open 0 with
  | (file, inr i) =>
      match GetCertificate (calendar := demo_calendar) "" "" file i (364 * Day) (demo_random 7) None with
      | (_, i', inr cert) => ∃ ca, pb_CAPEM (Identity_Public i' true) = Some (PEMCertificate ca) ∧ c_Key cert = 8 ∧
          verifies cert ca (pb_ServerName (Identity_Public i' true)) (365 * Day) = true
      | _ => False
      end
  | _ => False
  end.
Proof.
  destruct (demo_open 0) as [file [err|i]] eqn:Ho; [vm_compute in Ho; discriminate Ho|].
  destruct (GetCertificate (calendar := demo_calendar) "" "" file i (364 * Day) (demo_random 7) None) as [[file' i'] r] eqn:Hg.
  assert (Hr : rtc (tstep (calendar := demo_calendar) "" "") (new_node 0) (mkTLSNode file (Some i) (364 * Day))).
  { eapply rtc_l; [apply t_maintenance, (m_open _ _ _ _ (demo_random 1) None file (inr i)); [done|exact Ho]|].
    apply rtc_once, t_maintenance, m_clock. units. }
  pose proof (handshake_trusted (calendar := demo_calendar) "" "" 0 file i (364 * Day) (demo_random 7) None file' i' r Hr ltac:(done) Hg) as H.
  destruct r as [err|cert].
  { destruct H as (_ & _ & [[e He]|[e He]]); discriminate. }
  destruct H as (ca & Hca & _ & Hv). exists ca. split; [done|]. split; [|apply Hv; units].
  vm_compute in Ho. injection Ho as <- <-. vm_compute in Hg. by injection Hg as <- <- <-.
Defined.
Lemma reset_once_witness :
  match demo_open 0 with
  | (file, inr i) =>
      match Reset (calendar := demo_calendar) "" file i 0 (demo_random 3) None "cmd" with
      | (file', i', None) => c_Key (id_certificate i') = 4 ∧ Reset (calendar := demo_calendar) "" file' i' Day (demo_random 5) None "cmd" = (file', i', None)
      | _ => False
      end
  | _ => False
  end.
Proof.
  destruct (demo_open 0) as [file [err|i]] eqn:Ho; [vm_compute in Ho; discriminate Ho|].
  destruct (Reset (calendar := demo_calendar) "" file i 0 (demo_random 3) None "cmd") as [[file' i'] err] eqn:Hs.
  assert (Hr : rtc (tstep (calendar := demo_calendar) "" "") (new_node 0) (mkTLSNode file (Some i) 0)).
  { apply rtc_once, t_maintenance, (m_open _ _ _ _ (demo_random 1) None file (inr i)); [done|exact Ho]. }
  assert (Hc : err = None ∧ c_Key (id_certificate i') = 4).
  { vm_compute in Ho. injection Ho as <- <-. vm_compute in Hs. by injection Hs as <- <- <-. }
  destruct Hc as [-> Hc]. split; [done|].
  apply (reset_once (calendar := demo_calendar) "" "" 0 file i 0 (demo_random 3) None "cmd" file' i' (mkTLSNode file' (Some i') Day) Hr ltac:(done) ltac:(done) Hs);
    [|done]. apply rtc_once, m_clock. units.
Defined.
