(* ===== verification/NodePorts.v ===== *)
(** * Ports of a node and the validation of a bootstrap request

    The port rules of [internal/httpapi/node_runtime.go] and the two request
    validators, [validateBootstrapProxies] of [handlers_client.go] (controller)
    and [validateEdgeProxies] of [handlers_edge_client.go] (edge), with their
    helpers of [server.go].  What a validator reads from its store is an
    argument: the user's policy, the token's grants, and whether a port is in
    use by another client.  A validator answers an error message or the
    normalized proxies. *)
From Stdlib Require Import ZArith Lia Ascii String.
From stdpp Require Import gmap strings list fin_maps.
From S2P Require Import Prelude GoStrings Types Config.
Local Open Scope Z_scope.

(** ** Ports of the node *)

Definition portFromAddress (value : string) : Z :=
  match SplitHostPort value with
  | None => 0
  | Some (_, raw) =>
      let '(port, err) := Atoi raw in
      if err || bool_decide (port < 1) || bool_decide (65535 < port) then 0 else port
  end.

Definition nodeReservedPorts (cfg : Config) : gmap Z string :=
  let reserved := ∅ in
  let reserved := if bool_decide (0 < n_FRPBindPort (cfg_Node cfg))
                  then <[n_FRPBindPort (cfg_Node cfg) := "frps control"%string]> reserved else reserved in
  let port := portFromAddress (HTTPAddr cfg) in
  let reserved := if bool_decide (0 < port) then <[port := "node API"%string]> reserved else reserved in
  if bool_decide (cfg_Mode cfg = ModeController) then
    let port := portFromAddress (cc_ListenAddr (cfg_Controller cfg)) in
    if bool_decide (0 < port) then <[port := "controller mTLS"%string]> reserved else reserved
  else reserved.

(** [None] is a nil error. *)
Definition validateNodeRemotePort (cfg : Config) (port : Z) : option string :=
  if bool_decide (port < n_PortRangeStart (cfg_Node cfg)) ||
     bool_decide (n_PortRangeEnd (cfg_Node cfg) < port)
  then Some ("remote port " +:+ fmt_d port +:+ " is outside node range " +:+
             fmt_d (n_PortRangeStart (cfg_Node cfg)) +:+ "-" +:+ fmt_d (n_PortRangeEnd (cfg_Node cfg)))
  else match nodeReservedPorts cfg !! port with
       | Some reason => Some ("remote port " +:+ fmt_d port +:+ " is reserved for " +:+ reason)
       | None => None
       end.

Definition intersectNodePortRange (policy : option UserResourcePolicy) (cfg : Config) :
    option UserResourcePolicy * bool :=
  match policy with
  | None => (None, false)
  | Some p =>
      let p := if bool_decide (rp_PortStart p < n_PortRangeStart (cfg_Node cfg))
               then (p <| rp_PortStart := n_PortRangeStart (cfg_Node cfg) |>) else p in
      let p := if bool_decide (rp_PortEnd p = 0) || bool_decide (n_PortRangeEnd (cfg_Node cfg) < rp_PortEnd p)
               then (p <| rp_PortEnd := n_PortRangeEnd (cfg_Node cfg) |>) else p in
      (Some p, bool_decide (rp_PortStart p ≤ rp_PortEnd p))
  end.

Definition syncLegacyFRPFields (cfg : Config) : Config :=
  cfg <| FRPServerAddr := n_FRPAdvertiseAddr (cfg_Node cfg) |>
      <| FRPServerPort := n_FRPBindPort (cfg_Node cfg) |>.

(** ** Protocols and grants *)

Definition known_protocols : list string :=
  ["tcp"; "udp"; "http"; "https"; "stcp"; "xtcp"; "tcpmux"]%string.

Definition normalizeProtocol (value : string) : string :=
  let value := ToLower (TrimSpace value) in
  if bool_decide (value ∈ known_protocols) then value else "".

Definition protocolAllowed (protocol : string) (allowedProtocols : list string) : bool :=
  existsb (λ allowed, bool_decide (allowed = protocol)) allowedProtocols.

Definition grant_matches (proxy : ProxyAllocationInput) (grant : PortGrant) : bool :=
  if negb (g_Enabled grant) || bool_decide (g_Protocol grant ≠ pa_ProxyType proxy) then false
  else if bool_decide (pa_ProxyType proxy ∈ ["tcp"; "udp"]%string) then
    bool_decide (g_RemotePortStart grant ≤ pa_RemotePort proxy) &&
    bool_decide (pa_RemotePort proxy ≤ g_RemotePortEnd grant)
  else if bool_decide (pa_ProxyType proxy ∈ ["http"; "https"; "tcpmux"]%string) then
    (bool_decide (g_Domain grant = ""%string) || bool_decide (g_Domain grant = pa_Domain proxy)) &&
    (bool_decide (g_Subdomain grant = ""%string) || bool_decide (g_Subdomain grant = pa_Subdomain proxy))
  else true.

Definition matchesAnyGrant (proxy : ProxyAllocationInput) (grants : list PortGrant) : bool :=
  existsb (grant_matches proxy) grants.

(** ** The validators *)

Definition portKey (proxy : ProxyAllocationInput) : string :=
  pa_ProxyType proxy +:+ String ":" (fmt_d (pa_RemotePort proxy)).

(** The fields both validators trim and normalize. *)
Definition normalize_proxy (proxy : ProxyAllocationInput) : ProxyAllocationInput :=
  mkAllocInput (TrimSpace (pa_ProxyName proxy)) (normalizeProtocol (pa_ProxyType proxy))
    (TrimSpace (pa_LocalIP proxy)) (pa_LocalPort proxy) (pa_RemotePort proxy)
    (TrimSpace (pa_Domain proxy)) (TrimSpace (pa_Subdomain proxy)).
Definition default_local_ip (proxy : ProxyAllocationInput) : ProxyAllocationInput :=
  if bool_decide (pa_LocalIP proxy = ""%string) then proxy <| pa_LocalIP := "127.0.0.1"%string |> else proxy.

Section validators.
Context (cfg : Config) (policy_answer : option UserResourcePolicy).
Context (token : AccessToken) (grants_answer : string + list PortGrant).
Context (in_use : string → Z → string + bool).

Definition policy_error_controller : string := "资源策略尚未配置或已禁用，请在中心用户详情中检查资源策略并保存".
Definition policy_error_edge : string := "资源策略未同步或已禁用，请检查中心用户资源策略；刚保存后请稍候重新选择节点".

(** One iteration of the controller's loop: the error, or the proxy to
    append. *)
Definition bootstrap_proxy (policy : UserResourcePolicy) (grants : list PortGrant)
    (requestedNames requestedPorts : gset string) (proxy : ProxyAllocationInput) :
    string + ProxyAllocationInput :=
  let proxy := normalize_proxy proxy in
  if bool_decide (pa_ProxyName proxy = ""%string) || bool_decide (pa_ProxyType proxy = ""%string) ||
     bool_decide (pa_LocalPort proxy ≤ 0) || bool_decide (65535 < pa_LocalPort proxy)
  then inl "proxy name, supported type and local_port are required"%string else
  if bool_decide (pa_ProxyName proxy ∈ requestedNames)
  then inl ("proxy name " +:+ pa_ProxyName proxy +:+ " is duplicated") else
  if bool_decide (48 < slen (pa_ProxyName proxy))
  then inl "proxy name must not exceed 48 bytes"%string else
  let proxy := default_local_ip proxy in
  if negb (protocolAllowed (pa_ProxyType proxy) (rp_AllowedProtocols policy))
  then inl ("protocol " +:+ pa_ProxyType proxy +:+ " is not enabled for this user") else
  if bool_decide (pa_ProxyType proxy ≠ "tcp"%string) && bool_decide (pa_ProxyType proxy ≠ "udp"%string)
  then inl "user-selected server ports currently support tcp/udp only"%string else
  if bool_decide (pa_RemotePort proxy < rp_PortStart policy) ||
     bool_decide (rp_PortEnd policy < pa_RemotePort proxy)
  then inl ("remote port " +:+ fmt_d (pa_RemotePort proxy) +:+ " is outside user range " +:+
            fmt_d (rp_PortStart policy) +:+ "-" +:+ fmt_d (rp_PortEnd policy)) else
  match validateNodeRemotePort cfg (pa_RemotePort proxy) with
  | Some err => inl err
  | None =>
      if bool_decide (portKey proxy ∈ requestedPorts)
      then inl ("remote port " +:+ fmt_d (pa_RemotePort proxy) +:+ " is duplicated in this request") else
      match in_use (pa_ProxyType proxy) (pa_RemotePort proxy) with
      | inl err => inl err
      | inr true => inl ("remote port " +:+ fmt_d (pa_RemotePort proxy) +:+ " is already in use on this node")
      | inr false =>
          if negb (matchesAnyGrant proxy grants) && bool_decide (0 < len grants)
          then inl ("proxy " +:+ pa_ProxyName proxy +:+ " is not covered by token grants")
          else inr proxy
      end
  end.

(** One iteration of the edge's loop. *)
Definition edge_proxy (policy : UserResourcePolicy) (grants : list PortGrant)
    (requestedNames requestedPorts : gset string) (v : ProxyAllocationInput) :
    string + ProxyAllocationInput :=
  let v := default_local_ip (normalize_proxy v) in
  if bool_decide (pa_ProxyName v = ""%string) || bool_decide (pa_LocalPort v ≤ 0) ||
     bool_decide (65535 < pa_LocalPort v) ||
     (bool_decide (pa_ProxyType v ≠ "tcp"%string) && bool_decide (pa_ProxyType v ≠ "udp"%string))
  then inl "invalid proxy"%string else
  if bool_decide (pa_ProxyName v ∈ requestedNames)
  then inl ("proxy name " +:+ pa_ProxyName v +:+ " is duplicated") else
  if bool_decide (48 < slen (pa_ProxyName v)) then inl "proxy name must not exceed 48 bytes"%string else
  if negb (protocolAllowed (pa_ProxyType v) (rp_AllowedProtocols policy)) ||
     bool_decide (pa_RemotePort v < rp_PortStart policy) || bool_decide (rp_PortEnd policy < pa_RemotePort v)
  then inl ("proxy " +:+ pa_ProxyName v +:+ " is outside policy") else
  match validateNodeRemotePort cfg (pa_RemotePort v) with
  | Some err => inl err
  | None =>
      if bool_decide (portKey v ∈ requestedPorts)
      then inl ("remote port " +:+ fmt_d (pa_RemotePort v) +:+ " is duplicated in this request") else
      match in_use (pa_ProxyType v) (pa_RemotePort v) with
      | inl err => inl err
      | inr true => inl ("remote port " +:+ fmt_d (pa_RemotePort v) +:+ " is already in use on this node")
      | inr false =>
          if bool_decide (0 < len grants) && negb (matchesAnyGrant v grants)
          then inl ("proxy " +:+ pa_ProxyName v +:+ " is not covered by token grants")
          else inr v
      end
  end.

(** The loop over the proxies, with the names and ports seen so far. *)
Fixpoint proxies_loop (body : gset string → gset string → ProxyAllocationInput → string + ProxyAllocationInput)
    (names ports : gset string) (proxies : list ProxyAllocationInput) : string + list ProxyAllocationInput :=
  match proxies with
  | [] => inr []
  | proxy :: rest =>
      match body names ports proxy with
      | inl err => inl err
      | inr p =>
          match proxies_loop body ({[pa_ProxyName p]} ∪ names) ({[portKey p]} ∪ ports) rest with
          | inl err => inl err
          | inr ps => inr (p :: ps)
          end
      end
  end.

Definition validateBootstrapProxies (proxies : list ProxyAllocationInput) :
    string + list ProxyAllocationInput :=
  if bool_decide (len proxies = 0) then inl "at least one proxy is required"%string else
  match policy_answer with
  | None => inl policy_error_controller
  | Some policy =>
      if negb (rp_Enabled policy) then inl policy_error_controller else
      if bool_decide (0 < rp_MaxPorts policy) && bool_decide (rp_MaxPorts policy < len proxies)
      then inl ("proxy count " +:+ fmt_d (len proxies) +:+ " exceeds user limit " +:+ fmt_d (rp_MaxPorts policy)) else
      if bool_decide (0 < t_MaxProxyCount token) && bool_decide (t_MaxProxyCount token < len proxies)
      then inl ("proxy count " +:+ fmt_d (len proxies) +:+ " exceeds token limit " +:+ fmt_d (t_MaxProxyCount token)) else
      match intersectNodePortRange (Some policy) cfg with
      | (Some policy, true) =>
          match grants_answer with
          | inl err => inl ("read token grants: " +:+ err)
          | inr grants => proxies_loop (bootstrap_proxy policy grants) ∅ ∅ proxies
          end
      | _ => inl "node and user port ranges do not overlap"%string
      end
  end.

Definition validateEdgeProxies (input : list ProxyAllocationInput) : string + list ProxyAllocationInput :=
  if bool_decide (len input = 0) then inl "at least one proxy is required"%string else
  match policy_answer with
  | None => inl policy_error_edge
  | Some p =>
      if negb (rp_Enabled p) then inl policy_error_edge else
      if bool_decide (0 < rp_MaxPorts p) && bool_decide (rp_MaxPorts p < len input)
      then inl "proxy count exceeds user limit"%string else
      if bool_decide (0 < t_MaxProxyCount token) && bool_decide (t_MaxProxyCount token < len input)
      then inl "proxy count exceeds token limit"%string else
      match intersectNodePortRange (Some p) cfg with
      | (Some p, true) =>
          match grants_answer with
          | inl err => inl ("read token grants: " +:+ err)
          | inr grants => proxies_loop (edge_proxy p grants) ∅ ∅ input
          end
      | _ => inl "node and user port ranges do not overlap"%string
      end
  end.

End validators.

(** ** What an accepted request satisfies *)

(** The conditions on one proxy that do not depend on the others. *)
Definition entry_ok (cfg : Config) (in_use : string → Z → string + bool) (policy : UserResourcePolicy)
    (grants : list PortGrant) (p : ProxyAllocationInput) : Prop :=
  pa_ProxyName p ≠ ""%string ∧ slen (pa_ProxyName p) ≤ 48 ∧ 0 < pa_LocalPort p ≤ 65535 ∧
  (pa_ProxyType p = "tcp"%string ∨ pa_ProxyType p = "udp"%string) ∧
  protocolAllowed (pa_ProxyType p) (rp_AllowedProtocols policy) = true ∧
  rp_PortStart policy ≤ pa_RemotePort p ∧ pa_RemotePort p ≤ rp_PortEnd policy ∧
  validateNodeRemotePort cfg (pa_RemotePort p) = None ∧
  in_use (pa_ProxyType p) (pa_RemotePort p) = inr false ∧
  (grants = [] ∨ matchesAnyGrant p grants = true).
Definition proxy_ok (cfg : Config) (in_use : string → Z → string + bool) (policy : UserResourcePolicy)
    (grants : list PortGrant) (names ports : gset string) (p : ProxyAllocationInput) : Prop :=
  entry_ok cfg in_use policy grants p ∧ (pa_ProxyName p ∉ names) ∧ (portKey p ∉ ports).

Lemma default_local_ip_fields p :
  pa_ProxyName (default_local_ip p) = pa_ProxyName p ∧ pa_ProxyType (default_local_ip p) = pa_ProxyType p ∧
  pa_LocalPort (default_local_ip p) = pa_LocalPort p ∧ pa_RemotePort (default_local_ip p) = pa_RemotePort p.
Proof. unfold default_local_ip. by case_bool_decide. Qed.

Lemma len_pos_grants (grants : list PortGrant) : 0 < len grants ↔ grants ≠ [].
Proof. destruct grants; unfold len; cbn [length]; naive_solver lia. Qed.

(** A chain of early returns answers [inr] when every guard passes. *)
Lemma guard_iff {E A : Type} (b : bool) (e : E) (k : E + A) (x : A) :
  (if b then inl e else k) = inr x ↔ b = false ∧ k = inr x.
Proof. destruct b; naive_solver. Qed.
Lemma err_iff {E A : Type} (o : option E) (k : E + A) (x : A) :
  match o with Some e => inl e | None => k end = inr x ↔ o = None ∧ k = inr x.
Proof. destruct o; naive_solver. Qed.
Lemma used_iff {E A : Type} (u : E + bool) (e : E) (k : E + A) (x : A) :
  match u with inl e => inl e | inr true => inl e | inr false => k end = inr x ↔ u = inr false ∧ k = inr x.
Proof. destruct u as [|[]]; naive_solver. Qed.
Lemma inr_iff {E A : Type} (x y : A) : inr (A := E) x = inr y ↔ x = y.
Proof. naive_solver. Qed.
Lemma grants_iff (b : bool) (grants : list PortGrant) :
  negb b && bool_decide (0 < len grants) = false ↔ grants = [] ∨ b = true.
Proof.
  pose proof (len_pos_grants grants). destruct b, (bool_decide_reflect (0 < len grants)); cbn;
    destruct grants; naive_solver.
Qed.

Ltac chain := repeat first [rewrite guard_iff | rewrite err_iff | rewrite used_iff]; rewrite inr_iff.
Ltac bool_props :=
  rewrite ?orb_false_iff, ?andb_false_iff, ?negb_false_iff, ?bool_decide_eq_false, ?Z.nle_gt, ?Z.nlt_ge.

Lemma not_both (t : string) :
  (¬ t ≠ "tcp"%string ∨ ¬ t ≠ "udp"%string) ↔ (t = "tcp"%string ∨ t = "udp"%string).
Proof. destruct (decide (t = "tcp"%string)), (decide (t = "udp"%string)); naive_solver. Qed.

Lemma bootstrap_proxy_iff cfg in_use policy grants names ports proxy p :
  bootstrap_proxy cfg in_use policy grants names ports proxy = inr p ↔
  p = default_local_ip (normalize_proxy proxy) ∧ proxy_ok cfg in_use policy grants names ports p.
Proof.
  unfold bootstrap_proxy, proxy_ok, entry_ok.
  destruct (default_local_ip_fields (normalize_proxy proxy)) as (En & Et & El & Er).
  rewrite <- En, <- Et, <- El. clear En Et El Er.
  generalize (default_local_ip (normalize_proxy proxy)). intros q.
  chain. rewrite grants_iff. bool_props. rewrite not_both.
  split; [intros H; destruct_and! H; subst q|intros [-> H]; destruct_and! H]; split_and!; try done.
  match goal with H : _ ∨ _ |- _ ≠ _ => destruct H as [->| ->]; done end.
Qed.

Lemma edge_proxy_iff cfg in_use policy grants names ports proxy p :
  edge_proxy cfg in_use policy grants names ports proxy = inr p ↔
  p = default_local_ip (normalize_proxy proxy) ∧ proxy_ok cfg in_use policy grants names ports p.
Proof.
  unfold edge_proxy, proxy_ok, entry_ok.
  generalize (default_local_ip (normalize_proxy proxy)). intros q.
  chain. rewrite (andb_comm (bool_decide (0 < len grants))), grants_iff. bool_props. rewrite not_both.
  split; [intros H; destruct_and! H; subst q|intros [-> H]; destruct_and! H]; split_and!; done.
Qed.

Definition normalized (proxy : ProxyAllocationInput) : ProxyAllocationInput :=
  default_local_ip (normalize_proxy proxy).

(** Passing the checks after [p] is passing them before, and differing from [p]. *)
Lemma proxy_ok_shift cfg in_use policy grants names ports p ps :
  Forall (proxy_ok cfg in_use policy grants ({[pa_ProxyName p]} ∪ names) ({[portKey p]} ∪ ports)) ps ↔
  Forall (proxy_ok cfg in_use policy grants names ports) ps ∧
  (pa_ProxyName p ∉ pa_ProxyName <$> ps) ∧ (portKey p ∉ portKey <$> ps).
Proof.
  unfold proxy_ok. generalize (entry_ok cfg in_use policy grants). intros ok.
  induction ps as [|q ps IH].
  - split; [intros _; split_and!; [constructor|apply not_elem_of_nil..]|constructor].
  - rewrite !Forall_cons, !fmap_cons, !not_elem_of_cons, IH, !not_elem_of_union, !not_elem_of_singleton.
    split; intros H; destruct_and! H; split_and!; try done; congruence.
Qed.

(** A loop whose body normalizes a proxy and accepts it under [proxy_ok]
    accepts the requests whose entries are fine and pairwise distinct. *)
Lemma proxies_loop_iff body cfg in_use policy grants
    (Hbody : ∀ names ports proxy p, body names ports proxy = inr p ↔
       p = normalized proxy ∧ proxy_ok cfg in_use policy grants names ports p) proxies :
  ∀ names ports out, proxies_loop body names ports proxies = inr out ↔
    out = normalized <$> proxies ∧ Forall (proxy_ok cfg in_use policy grants names ports) out ∧
    NoDup (pa_ProxyName <$> out) ∧ NoDup (portKey <$> out).
Proof.
  induction proxies as [|proxy rest IH]; intros names ports out; cbn [proxies_loop].
  { rewrite inr_iff. split; [intros <-; repeat constructor|naive_solver]. }
  rewrite fmap_cons. destruct (body names ports proxy) as [e|p] eqn:E.
  - split; [done|]. intros (-> & Hall & _). apply Forall_cons in Hall as [Hok _].
    assert (Hb := proj2 (Hbody names ports proxy _) (conj eq_refl Hok)). congruence.
  - apply Hbody in E as [-> Hok]. 
    specialize (IH ({[pa_ProxyName (normalized proxy)]} ∪ names) ({[portKey (normalized proxy)]} ∪ ports)).
    set (p := normalized proxy) in *.
    destruct (proxies_loop body _ _ rest) as [e|ps] eqn:El.
    + split; [done|]. intros (-> & Hall & Hn & Hp). rewrite !fmap_cons, !NoDup_cons in Hn, Hp.
      apply Forall_cons in Hall as [_ Hall]. destruct Hn as [Hn1 Hn2], Hp as [Hp1 Hp2].
      assert (Hbad := proj2 (IH (normalized <$> rest))). rewrite proxy_ok_shift in Hbad.
      discriminate Hbad. by split_and!.
    + destruct (proj1 (IH ps) eq_refl) as (-> & Hall & Hn & Hp).
      apply proxy_ok_shift in Hall as (Hall & Hn' & Hp').
      rewrite inr_iff. split; [intros <-|by intros [-> _]].
      rewrite !fmap_cons, !NoDup_cons, Forall_cons. by split_and!.
Qed.

(** ** The port rules *)

(** A port the node itself listens on. *)
Definition node_listens (cfg : Config) (port : Z) : Prop :=
  0 < port ∧ (port = n_FRPBindPort (cfg_Node cfg) ∨ port = portFromAddress (HTTPAddr cfg) ∨
              (cfg_Mode cfg = ModeController ∧ port = portFromAddress (cc_ListenAddr (cfg_Controller cfg)))).

Lemma insert_if_is_Some (b k : Z) (v : string) (m : gmap Z string) :
  is_Some ((if bool_decide (0 < b) then <[b := v]> m else m) !! k) ↔ (0 < b ∧ b = k) ∨ is_Some (m !! k).
Proof. case_bool_decide; [rewrite lookup_insert_is_Some'|]; naive_solver. Qed.

Lemma nodeReservedPorts_spec cfg port :
  is_Some (nodeReservedPorts cfg !! port) ↔ node_listens cfg port.
Proof.
  unfold nodeReservedPorts, node_listens. destruct (bool_decide_reflect (cfg_Mode cfg = ModeController));
    rewrite !insert_if_is_Some, lookup_empty, is_Some_alt; split; intros H; destruct_or? H; naive_solver.
Qed.

Lemma validateNodeRemotePort_iff cfg port :
  validateNodeRemotePort cfg port = None ↔
  n_PortRangeStart (cfg_Node cfg) ≤ port ≤ n_PortRangeEnd (cfg_Node cfg) ∧ ¬ node_listens cfg port.
Proof.
  unfold validateNodeRemotePort. rewrite <- nodeReservedPorts_spec.
  destruct (bool_decide_reflect (port < n_PortRangeStart (cfg_Node cfg))),
    (bool_decide_reflect (n_PortRangeEnd (cfg_Node cfg) < port)); cbn [orb]; try (split; [done|lia]).
  destruct (nodeReservedPorts cfg !! port); split; try done.
  - intros [_ []]. by eexists.
  - intros _. split; [lia|]. by intros [? ?].
Qed.

(** The range a user is shown is the intersection of the user's and the node's,
    where a zero [PortEnd] is no upper bound of its own. *)
Lemma intersectNodePortRange_iff policy cfg :
  ∃ p, intersectNodePortRange (Some policy) cfg = (Some p, bool_decide (rp_PortStart p ≤ rp_PortEnd p)) ∧
    rp_AllowedProtocols p = rp_AllowedProtocols policy ∧
    ∀ port, n_PortRangeStart (cfg_Node cfg) ≤ port ≤ n_PortRangeEnd (cfg_Node cfg) →
      rp_PortStart p ≤ port ∧ port ≤ rp_PortEnd p ↔
      rp_PortStart policy ≤ port ∧ (rp_PortEnd policy = 0 ∨ port ≤ rp_PortEnd policy).
Proof.
  unfold intersectNodePortRange. destruct policy as [uid ps pe mp ap en]. eexists. split; [reflexivity|].
  cbn. destruct (bool_decide_reflect (ps < n_PortRangeStart (cfg_Node cfg))); cbn;
    destruct (bool_decide_reflect (pe = 0)), (bool_decide_reflect (n_PortRangeEnd (cfg_Node cfg) < pe)); cbn;
    (split; [done|]); intros port Hp; lia.
Qed.

(** ** The claims *)

(** What both validators accept, said without their order of checks: a
    non-empty request within the user's and the token's counts, every entry
    well formed, in an allowed protocol, on a port of the user's and of the
    node's range that the node does not listen on and nobody else uses, covered
    by a grant when the token has grants; names and (type, port) pairs distinct. *)
Definition acceptable (cfg : Config) (policy : UserResourcePolicy) (token : AccessToken)
    (grants : list PortGrant) (in_use : string → Z → string + bool) (out : list ProxyAllocationInput) : Prop :=
  rp_Enabled policy = true ∧
  (0 < rp_MaxPorts policy → len out ≤ rp_MaxPorts policy) ∧
  (0 < t_MaxProxyCount token → len out ≤ t_MaxProxyCount token) ∧
  NoDup (pa_ProxyName <$> out) ∧ NoDup ((λ p, (pa_ProxyType p, pa_RemotePort p)) <$> out) ∧
  Forall (λ p, pa_ProxyName p ≠ ""%string ∧ slen (pa_ProxyName p) ≤ 48 ∧ 0 < pa_LocalPort p ≤ 65535 ∧
    (pa_ProxyType p = "tcp"%string ∨ pa_ProxyType p = "udp"%string) ∧
    (pa_ProxyType p ∈ rp_AllowedProtocols policy) ∧
    rp_PortStart policy ≤ pa_RemotePort p ∧ (rp_PortEnd policy = 0 ∨ pa_RemotePort p ≤ rp_PortEnd policy) ∧
    n_PortRangeStart (cfg_Node cfg) ≤ pa_RemotePort p ≤ n_PortRangeEnd (cfg_Node cfg) ∧
    ¬ node_listens cfg (pa_RemotePort p) ∧
    in_use (pa_ProxyType p) (pa_RemotePort p) = inr false ∧
    (grants = [] ∨ ∃ g, g ∈ grants ∧ g_Enabled g = true ∧ g_Protocol g = pa_ProxyType p ∧
       g_RemotePortStart g ≤ pa_RemotePort p ≤ g_RemotePortEnd g)) out.

Lemma protocolAllowed_iff p l : protocolAllowed p l = true ↔ p ∈ l.
Proof.
  unfold protocolAllowed. rewrite existsb_exists. setoid_rewrite bool_decide_eq_true.
  setoid_rewrite <- list_elem_of_In. naive_solver.
Qed.

Lemma matchesAnyGrant_iff p grants :
  pa_ProxyType p = "tcp"%string ∨ pa_ProxyType p = "udp"%string →
  matchesAnyGrant p grants = true ↔
  ∃ g, g ∈ grants ∧ g_Enabled g = true ∧ g_Protocol g = pa_ProxyType p ∧
    g_RemotePortStart g ≤ pa_RemotePort p ≤ g_RemotePortEnd g.
Proof.
  intros Ht. unfold matchesAnyGrant. rewrite existsb_exists. setoid_rewrite <- list_elem_of_In.
  f_equiv. intros g. f_equiv. unfold grant_matches.
  rewrite (bool_decide_true (pa_ProxyType p ∈ _)) by (destruct Ht as [-> | ->]; set_solver).
  destruct (g_Enabled g); cbn [negb orb]; [|naive_solver].
  destruct (bool_decide_reflect (g_Protocol g ≠ pa_ProxyType p)) as [Hd|Hd]; [naive_solver|].
  rewrite andb_true_iff, !bool_decide_eq_true. apply dec_stable in Hd. naive_solver.
Qed.

Lemma portKey_NoDup out :
  Forall (λ p, pa_ProxyType p = "tcp"%string ∨ pa_ProxyType p = "udp"%string) out →
  NoDup (portKey <$> out) ↔ NoDup ((λ p, (pa_ProxyType p, pa_RemotePort p)) <$> out).
Proof.
  induction 1 as [|p out Hp Hout IH]; [split; constructor|].
  rewrite !fmap_cons, !NoDup_cons, IH. f_equiv. f_equiv.
  rewrite !list_elem_of_fmap. f_equiv. intros q. split; intros [Heq Hin]; (split; [|done]).
  - rewrite Forall_forall in Hout. specialize (Hout q Hin). unfold portKey in Heq.
    assert (Hno : ∀ t, t = "tcp"%string ∨ t = "udp"%string → no_char ":" t = true) by (intros t [-> | ->]; done).
    destruct (sep_inj_l _ _ _ _ _ (Hno _ Hp) (Hno _ Hout) Heq) as [Ht Hport].
    by rewrite Ht, (fmt_d_inj _ _ Hport).
  - unfold portKey. by injection Heq as -> ->.
Qed.

(** The validators after their loops: the entries checked against the
    intersected range are those of [acceptable]. *)
Lemma loop_acceptable cfg policy p grants in_use token out :
  rp_AllowedProtocols p = rp_AllowedProtocols policy →
  (∀ port, n_PortRangeStart (cfg_Node cfg) ≤ port ≤ n_PortRangeEnd (cfg_Node cfg) →
    rp_PortStart p ≤ port ∧ port ≤ rp_PortEnd p ↔
    rp_PortStart policy ≤ port ∧ (rp_PortEnd policy = 0 ∨ port ≤ rp_PortEnd policy)) →
  rp_Enabled policy = true →
  (0 < rp_MaxPorts policy → len out ≤ rp_MaxPorts policy) →
  (0 < t_MaxProxyCount token → len out ≤ t_MaxProxyCount token) →
  Forall (proxy_ok cfg in_use p grants ∅ ∅) out ∧ NoDup (pa_ProxyName <$> out) ∧ NoDup (portKey <$> out) ↔
  acceptable cfg policy token grants in_use out.
Proof.
  intros Hap Hrange Hen Hmp Htp. unfold acceptable.
  assert (Hent : ∀ q, proxy_ok cfg in_use p grants ∅ ∅ q ↔ entry_ok cfg in_use p grants q).
  { intros q. unfold proxy_ok. split; [by intros [? _]|]. intros ?. split_and!; [done|apply not_elem_of_empty..]. }
  rewrite (Forall_iff _ out _ Hent). unfold entry_ok. rewrite Hap. split.
  - intros (Hall & Hn & Hk). split_and!; try done.
    + apply portKey_NoDup in Hk; [done|]. eapply Forall_impl; [exact Hall|]. by intros q (_ & _ & _ & ? & _).
    + eapply Forall_impl; [exact Hall|]. cbn beta. intros q (? & ? & ? & Ht & Hp & ? & ? & Hv & ? & Hg).
      apply validateNodeRemotePort_iff in Hv as [Hr Hl]. rewrite protocolAllowed_iff in Hp.
      rewrite (matchesAnyGrant_iff q grants Ht) in Hg.
      destruct (proj1 (Hrange _ Hr)); [done|]. split_and!; first [done|lia].
  - intros (_ & _ & _ & Hn & Hk & Hall). split_and!; try done.
    + eapply Forall_impl; [exact Hall|]. cbn beta.
      intros q (? & ? & ? & Ht & Hp & ? & ? & Hr & Hl & ? & Hg).
      destruct (proj2 (Hrange _ Hr)); [done|].
      split_and!; try first [done|lia];
        [by apply protocolAllowed_iff|by apply validateNodeRemotePort_iff|by rewrite (matchesAnyGrant_iff q grants Ht)].
    + apply portKey_NoDup; [|done]. eapply Forall_impl; [exact Hall|]. by intros q (_ & _ & _ & ? & _).
Qed.

(** An accepted non-empty request leaves the intersected range non-empty. *)
Lemma acceptable_range cfg policy p token grants in_use out :
  out ≠ [] → acceptable cfg policy token grants in_use out →
  (∀ port, n_PortRangeStart (cfg_Node cfg) ≤ port ≤ n_PortRangeEnd (cfg_Node cfg) →
    rp_PortStart p ≤ port ∧ port ≤ rp_PortEnd p ↔
    rp_PortStart policy ≤ port ∧ (rp_PortEnd policy = 0 ∨ port ≤ rp_PortEnd policy)) →
  rp_PortStart p ≤ rp_PortEnd p.
Proof.
  intros Hne (_ & _ & _ & _ & _ & Hall) Hrange. destruct out as [|q out]; [done|].
  apply Forall_cons in Hall as [(_ & _ & _ & _ & _ & ? & ? & Hr & _) _].
  destruct (proj2 (Hrange _ Hr)); [done|lia].
Qed.

(** Both validators are this function, with their own messages and loop body. *)
Definition validate_with (e1 : string) (e2 : UserResourcePolicy → string) (e3 : string) (body : UserResourcePolicy → list PortGrant →
      gset string → gset string → ProxyAllocationInput → string + ProxyAllocationInput)
    (cfg : Config) (policy_answer : option UserResourcePolicy) (token : AccessToken)
    (grants_answer : string + list PortGrant) (proxies : list ProxyAllocationInput) :
    string + list ProxyAllocationInput :=
  if bool_decide (len proxies = 0) then inl "at least one proxy is required"%string else
  match policy_answer with
  | None => inl e1
  | Some policy =>
      if negb (rp_Enabled policy) then inl e1 else
      if bool_decide (0 < rp_MaxPorts policy) && bool_decide (rp_MaxPorts policy < len proxies) then inl (e2 policy) else
      if bool_decide (0 < t_MaxProxyCount token) && bool_decide (t_MaxProxyCount token < len proxies) then inl e3 else
      match intersectNodePortRange (Some policy) cfg with
      | (Some policy, true) =>
          match grants_answer with
          | inl err => inl ("read token grants: " +:+ err)
          | inr grants => proxies_loop (body policy grants) ∅ ∅ proxies
          end
      | _ => inl "node and user port ranges do not overlap"%string
      end
  end.

Lemma count_iff (m n : Z) :
  bool_decide (0 < m) && bool_decide (m < n) = false ↔ (0 < m → n ≤ m).
Proof. destruct (bool_decide_reflect (0 < m)), (bool_decide_reflect (m < n)); cbn; split; intros; try done; lia. Qed.

Lemma and_iff_compat_l' (P Q R : Prop) : (P → Q ↔ R) → P ∧ Q ↔ P ∧ R.
Proof. tauto. Qed.

Lemma validate_with_iff e1 e2 e3 body cfg policy_answer token grants_answer in_use proxies out
    (Hbody : ∀ policy grants names ports proxy p, body policy grants names ports proxy = inr p ↔
       p = normalized proxy ∧ proxy_ok cfg in_use policy grants names ports p) :
  validate_with e1 e2 e3 body cfg policy_answer token grants_answer proxies = inr out ↔
  proxies ≠ [] ∧ out = normalized <$> proxies ∧
  ∃ policy grants, policy_answer = Some policy ∧ grants_answer = inr grants ∧
    acceptable cfg policy token grants in_use out.
Proof.
  unfold validate_with. rewrite guard_iff, bool_decide_eq_false.
  assert (Hne : len proxies ≠ 0 ↔ proxies ≠ []) by (destruct proxies; unfold len; cbn; naive_solver lia).
  rewrite Hne. apply and_iff_compat_l'. intros Hn.
  destruct policy_answer as [policy|]; [|split; [done|naive_solver]].
  rewrite !guard_iff, negb_false_iff, !count_iff.
  destruct (intersectNodePortRange_iff policy cfg) as (p & -> & Hap & Hrange).
  assert (Hlen : len (normalized <$> proxies) = len proxies) by (unfold len; by rewrite length_fmap).
  destruct grants_answer as [err|grants].
  { split; [|naive_solver]. by case_bool_decide; intros (_ & _ & _ & ?). }
  pose proof (proxies_loop_iff (body p grants) cfg in_use p grants (Hbody p grants) proxies ∅ ∅ out) as Hloop.
  split.
  - intros (Hen & Hmp & Htp & Hk). case_bool_decide; [|done]. apply Hloop in Hk as (-> & Hk).
    split; [done|]. exists policy, grants. split_and!; [done..|].
    eapply loop_acceptable; rewrite ?Hlen; eauto.
  - intros (-> & policy' & grants' & [= <-] & [= <-] & Hacc).
    assert (Hacc' := Hacc). destruct Hacc' as (Hen & Hmp & Htp & _). rewrite Hlen in Hmp, Htp.
    rewrite bool_decide_true by (eapply acceptable_range; [|done..]; by destruct proxies).
    split_and!; try done. apply Hloop. split; [done|]. eapply loop_acceptable; rewrite ?Hlen; eauto.
Qed.

Lemma validateBootstrapProxies_iff cfg policy_answer token grants_answer in_use proxies out :
  validateBootstrapProxies cfg policy_answer token grants_answer in_use proxies = inr out ↔
  proxies ≠ [] ∧ out = normalized <$> proxies ∧
  ∃ policy grants, policy_answer = Some policy ∧ grants_answer = inr grants ∧
    acceptable cfg policy token grants in_use out.
Proof.
  apply (validate_with_iff policy_error_controller
    (λ policy, "proxy count " +:+ fmt_d (len proxies) +:+ " exceeds user limit " +:+ fmt_d (rp_MaxPorts policy))
    ("proxy count " +:+ fmt_d (len proxies) +:+ " exceeds token limit " +:+ fmt_d (t_MaxProxyCount token))
    (bootstrap_proxy cfg in_use)).
  intros. apply bootstrap_proxy_iff.
Qed.

Lemma validateEdgeProxies_iff cfg policy_answer token grants_answer in_use proxies out :
  validateEdgeProxies cfg policy_answer token grants_answer in_use proxies = inr out ↔
  proxies ≠ [] ∧ out = normalized <$> proxies ∧
  ∃ policy grants, policy_answer = Some policy ∧ grants_answer = inr grants ∧
    acceptable cfg policy token grants in_use out.
Proof.
  apply (validate_with_iff policy_error_edge (λ _, "proxy count exceeds user limit"%string)
    "proxy count exceeds token limit" (edge_proxy cfg in_use)).
  intros. apply edge_proxy_iff.
Qed.

(** C20: the controller accepts a bootstrap request exactly when it is not empty,
    the policy and the grants can be read, and the normalized proxies, which it
    returns, are acceptable: counts, protocols, names, both port ranges, the
    ports of the node itself, ports of other clients, grants, duplicates. *)
Theorem validateBootstrapProxies_accepts cfg policy_answer token grants_answer in_use proxies out :
  validateBootstrapProxies cfg policy_answer token grants_answer in_use proxies = inr out ↔
  proxies ≠ [] ∧ out = normalized <$> proxies ∧
  ∃ policy grants, policy_answer = Some policy ∧ grants_answer = inr grants ∧
    acceptable cfg policy token grants in_use out.
Proof. apply validateBootstrapProxies_iff. Qed.

(** C21: the edge's validator, written separately and with its checks in another
    order, accepts the same requests as the controller's and returns the same
    allocations, for the same configuration and the same store answers. *)
Theorem validators_agree cfg policy_answer token grants_answer in_use proxies out :
  validateEdgeProxies cfg policy_answer token grants_answer in_use proxies = inr out ↔
  validateBootstrapProxies cfg policy_answer token grants_answer in_use proxies = inr out.
Proof. rewrite validateEdgeProxies_iff. symmetry. apply validateBootstrapProxies_iff. Qed.
