(* ===== verification/NodeSettings.v ===== *)
(** * Settings of a node

    The settings that an administrator may change while the node runs:
    [httpapi/node_runtime.go] (the public endpoint and the ports of the node),
    [httpapi/advanced_settings.go] and [httpapi/edge_settings.go] (tuning), and the
    addresses that are derived from a request.

    What the code asks of [net], [net/netip] and [net/url] is a class: whether a
    text is an IP address, and the parts of a URL.  An error is its message;
    functions that change a configuration in place answer the changed one, and the
    callers discard it on an error. *)
From Stdlib Require Import ZArith Lia Ascii String.
From stdpp Require Import gmap strings list.
From S2P Require Import Prelude GoStrings Config ConfigFile NodePorts.
Local Open Scope Z_scope.

(** ** The libraries *)

Record IP := mkIP { ip_IsLoopback : bool; ip_IsUnspecified : bool }.
Record URL := mkURL {
  url_Scheme : string; url_Host : string; url_Hostname : string; url_User : bool; url_RawQuery : string; url_Fragment : string }.
Class NetLib := {
  ParseIP : string → option IP;
  url_Parse : string → option URL;
  (** [netip.ParseAddr], as the text of the address, and of the address unmapped. *)
  ParseAddr : string → option (string * string) }.

(** [strings.Trim], [strings.TrimRight] with a set of characters. *)
Fixpoint trim_left_set (cutset : list ascii) (s : string) : string :=
  match s with
  | String c rest => if bool_decide (c ∈ cutset) then trim_left_set cutset rest else s
  | EmptyString => EmptyString
  end.
Definition TrimRight (s : string) (cutset : list ascii) : string := String.rev (trim_left_set cutset (String.rev s)).
Definition Trim (s : string) (cutset : list ascii) : string := TrimRight (trim_left_set cutset s) cutset.
Definition brackets : list ascii := [chr 91; chr 93].
(** [strings.ContainsAny]. *)
Definition ContainsAny (s : string) (chars : list ascii) : bool := existsb (λ c, has_char c s) chars.
(** Case folding; two letters outside of ASCII fold to [s] and [k]. *)
Fixpoint fold_case (s : string) : string :=
  match s with
  | String a ((String b rest) as tl) =>
      if bool_decide (ord a = 197 ∧ ord b = 191) then String "s" (fold_case rest)
      else match rest with
           | String c rest' =>
               if bool_decide (ord a = 226 ∧ ord b = 132 ∧ ord c = 170) then String "k" (fold_case rest')
               else String (chr (lower_byte (ord a))) (fold_case tl)
           | EmptyString => String (chr (lower_byte (ord a))) (fold_case tl)
           end
  | String a EmptyString => String (chr (lower_byte (ord a))) EmptyString
  | EmptyString => EmptyString
  end.
Definition EqualFold (s t : string) : bool := bool_decide (fold_case s = fold_case t).
(** [strings.Cut] at a comma. *)
Definition before_comma (s : string) : string := match index_char "," s with Some i => str_take i s | None => s end.

Section settings.
Context `{net : NetLib}.

(** ** Requests *)

(** The parts of an [http.Request] that the code reads. *)
Record Request := mkRequest {
  r_Host : string; r_TLS : bool; r_RemoteAddr : string; r_ForwardedProto : string; r_ForwardedHost : string }.

Definition firstHeaderValue (value : string) : string := TrimSpace (before_comma value).
Definition requestFromLoopbackProxy (r : Request) : bool :=
  let host := match SplitHostPort (r_RemoteAddr r) with Some (host, _) => host | None => r_RemoteAddr r end in
  match ParseIP (Trim host brackets) with Some ip => ip_IsLoopback ip | None => false end.
Definition externalRequestBaseURL (r : Request) : string :=
  let scheme := if r_TLS r then "https"%string else "http"%string in
  let host := TrimSpace (r_Host r) in
  let '(scheme, host) :=
    if requestFromLoopbackProxy r then
      let forwarded := firstHeaderValue (r_ForwardedProto r) in
      let scheme := if bool_decide (forwarded = "http"%string ∨ forwarded = "https"%string) then forwarded else scheme in
      let forwardedHost := firstHeaderValue (r_ForwardedHost r) in
      (scheme, if bool_decide (forwardedHost ≠ ""%string) then forwardedHost else host)
    else (scheme, host) in
  if bool_decide (host = ""%string) then ""%string else scheme +:+ "://" +:+ host +:+ "/api".
Definition requestPublicHost (r : Request) : string :=
  let host := TrimSpace (r_Host r) in
  let host := if requestFromLoopbackProxy r then
                let forwardedHost := firstHeaderValue (r_ForwardedHost r) in
                if bool_decide (forwardedHost ≠ ""%string) then forwardedHost else host
              else host in
  let host := match SplitHostPort host with Some (parsed, _) => parsed | None => host end in
  Trim host brackets.

(** ** The node section *)

Definition isLocalAdvertiseAddress (value : string) : bool :=
  let value := TrimSpace (Trim value brackets) in
  if bool_decide (value = ""%string) || EqualFold value "localhost" || bool_decide (value = "0.0.0.0"%string) ||
     bool_decide (value = "::"%string) then true
  else match ParseIP value with Some ip => ip_IsLoopback ip || ip_IsUnspecified ip | None => false end.

Definition initializeNodeRuntimeFromRequest (cfg : Config) (r : Request) (tag : string) : Config :=
  let node := cfg_Node cfg in
  let node := if bool_decide (TrimSpace (n_Tag node) = ""%string) then node <| n_Tag := TrimSpace tag |> else node in
  let node := if bool_decide (n_Tag node = ""%string) then node <| n_Tag := "MeowFRP 节点"%string |> else node in
  let node := if bool_decide (n_FRPBindPort node = 0) then node <| n_FRPBindPort := FRPServerPort cfg |> else node in
  let node := if bool_decide (n_PortRangeStart node = 0) then node <| n_PortRangeStart := 1024 |> else node in
  let node := if bool_decide (n_PortRangeEnd node = 0) then node <| n_PortRangeEnd := 65535 |> else node in
  let node := node <| n_Selectable := true |> in
  let node := if bool_decide (n_PublicAPIURL node = ""%string) then node <| n_PublicAPIURL := externalRequestBaseURL r |> else node in
  let node :=
    if isLocalAdvertiseAddress (n_FRPAdvertiseAddr node) || bool_decide (n_FRPAdvertiseAddr node = ""%string) then
      if bool_decide (cfg_Mode cfg = ModeController) then
        if bool_decide (n_FRPAdvertiseAddr node = ""%string) then node <| n_FRPAdvertiseAddr := "127.0.0.1"%string |> else node
      else node <| n_FRPAdvertiseAddr := requestPublicHost r |>
    else node in
  syncLegacyFRPFields (cfg <| cfg_Node := node |>).

Definition normalizeNodeRuntime (node : NodeRuntimeConfig) : NodeRuntimeConfig :=
  node <| n_Tag := TrimSpace (n_Tag node) |> <| n_PublicAPIURL := TrimRight (TrimSpace (n_PublicAPIURL node)) ["/"%char] |>
       <| n_FRPAdvertiseAddr := TrimSpace (n_FRPAdvertiseAddr node) |>.

Definition hostname_char (c : ascii) : bool :=
  bool_decide (97 ≤ ord c ≤ 122) || bool_decide (65 ≤ ord c ≤ 90) || bool_decide (48 ≤ ord c ≤ 57) || bool_decide (c = "-"%char).
Fixpoint string_forallb (p : ascii → bool) (s : string) : bool :=
  match s with String c rest => p c && string_forallb p rest | EmptyString => true end.
Definition valid_label (label : string) : bool :=
  negb (bool_decide (label = ""%string) || bool_decide (63 < slen label) || HasPrefix label "-" || HasSuffix label "-") &&
  string_forallb hostname_char label.
(** The characters that a host name cannot have: [:/\?#@[]] and blanks. *)
Definition address_separators : list ascii :=
  [":"; "/"; "\"; "?"; "#"; "@"; "["; "]"; " "]%char ++ [chr 9; chr 13; chr 10].
Definition validateFRPAdvertiseAddress (value : string) : option string :=
  if bool_decide (is_Some (ParseIP (Trim value brackets))) then None
  else if bool_decide (value = ""%string) || bool_decide (253 < slen value) || ContainsAny value address_separators
  then Some "FRP address must be an IP address or hostname without a scheme, port or path"%string
  else if forallb valid_label (split_char "." (TrimSuffix value ".")) then None
  else Some "invalid FRP hostname"%string.

Definition isLoopbackAPIHost (host : string) : bool :=
  if EqualFold (TrimSpace host) "localhost" then true
  else match ParseIP (TrimSpace host) with Some ip => ip_IsLoopback ip | None => false end.
Definition validatePublicAPIURL (value : string) : option string :=
  match url_Parse value with
  | None => Some "public_api_url must be an absolute HTTP(S) URL"%string
  | Some u =>
      if negb (bool_decide (url_Scheme u = "http"%string)) && negb (bool_decide (url_Scheme u = "https"%string)) ||
         bool_decide (url_Host u = ""%string)
      then Some "public_api_url must be an absolute HTTP(S) URL"%string
      else if url_User u || negb (bool_decide (url_RawQuery u = ""%string)) || negb (bool_decide (url_Fragment u = ""%string))
      then Some "public_api_url must not contain credentials, a query, or a fragment"%string
      else if bool_decide (url_Scheme u = "http"%string) && negb (isLoopbackAPIHost (url_Hostname u))
      then Some "public_api_url must use HTTPS for non-loopback hosts"%string
      else None
  end.
Definition validateNodeRuntime (node : NodeRuntimeConfig) : option string :=
  if bool_decide (n_Tag node = ""%string) then Some "node tag is required"%string
  else if bool_decide (n_FRPAdvertiseAddr node = ""%string) then Some "frp advertise address is required"%string
  else match validateFRPAdvertiseAddress (n_FRPAdvertiseAddr node) with
  | Some err => Some err
  | None => match ValidateNodeRuntime node with Some err => Some err | None => validatePublicAPIURL (n_PublicAPIURL node) end
  end.

(** ** Tuning *)

(** The durations of a request: empty texts are left out. *)
Definition tuned_duration (name value : string) (current : duration) : string + duration :=
  if bool_decide (value = ""%string) then inr current
  else match ParseDuration (TrimSpace value) with
  | Some d => if bool_decide (d ≤ 0) then inl (name +:+ " must be a positive duration") else inr d
  | None => inl (name +:+ " must be a positive duration")
  end.
Record RuntimeTuning := mkRuntimeTuning {
  rt_SessionTTL : string; rt_RuntimeTokenTTL : string; rt_UDPConnectionTTL : string; rt_FRPBindAddr : string;
  rt_FRPProxyBindAddr : string; rt_ClientConfigComment : string }.
Definition tuned_text (value current : string) : string := if bool_decide (value = ""%string) then current else TrimSpace value.
Definition applyRuntimeTuning (cfg : Config) (req : RuntimeTuning) : string + Config :=
  match tuned_duration "session_ttl" (rt_SessionTTL req) (SessionTTL cfg) with
  | inl err => inl err
  | inr session =>
      match tuned_duration "runtime_token_ttl" (rt_RuntimeTokenTTL req) (RuntimeTokenTTL cfg) with
      | inl err => inl err
      | inr runtime =>
          match tuned_duration "udp_connection_ttl" (rt_UDPConnectionTTL req) (UDPConnectionTTL cfg) with
          | inl err => inl err
          | inr udp =>
              inr (cfg <| SessionTTL := session |> <| RuntimeTokenTTL := runtime |> <| UDPConnectionTTL := udp |>
                       <| FRPBindAddr := tuned_text (rt_FRPBindAddr req) (FRPBindAddr cfg) |>
                       <| FRPProxyBindAddr := tuned_text (rt_FRPProxyBindAddr req) (FRPProxyBindAddr cfg) |>
                       <| ClientConfigComment := tuned_text (rt_ClientConfigComment req) (ClientConfigComment cfg) |>)
          end
      end
  end.

Definition bind_address (address : string) : bool :=
  bool_decide (address = ""%string) || bool_decide (address = "localhost"%string) || bool_decide (is_Some (ParseIP address)).
Definition listen_address (address : string) : bool :=
  match SplitHostPort address with
  | None => false
  | Some (host, portText) =>
      let '(port, err) := Atoi portText in
      negb err && negb (bool_decide (port < 1)) && negb (bool_decide (65535 < port)) && bind_address host
  end.
Definition prepareAdvancedSettings (cfg : Config) : string + Config :=
  let cfg := cfg <| FRPTransportTLS := true |> in
  let cfg := if bool_decide (ConfigurationMode cfg = ConfigurationAutomatic) then ApplyRecommended cfg else cfg in
  if negb (bind_address (FRPBindAddr cfg) && bind_address (FRPProxyBindAddr cfg))
  then inl "FRP bind address must be an IP address or localhost"%string
  else if bool_decide (cfg_Mode cfg = ModeController) && cc_EdgeAccessEnabled (cfg_Controller cfg) &&
          negb (listen_address (cc_ListenAddr (cfg_Controller cfg)))
  then inl "mTLS listen address must be an IP address and port between 1 and 65535"%string
  else inr cfg.

Record edgeAdvancedSettings := mkAdvanced {
  as_ConfigurationMode : string; as_ConnectionTuning : ConnectionTuning; as_EmbeddedFRPEnabled : bool; as_FRPTransportTLS : bool;
  as_FRPBindAddr : string; as_FRPProxyBindAddr : string; as_SessionTTL : string; as_RuntimeTokenTTL : string;
  as_UDPConnectionTTL : string; as_ClientComment : string }.
Definition edgeAdvancedSnapshot (cfg : Config) : edgeAdvancedSettings :=
  mkAdvanced (ConfigurationMode cfg) (cfg_ConnectionTuning cfg) (EmbeddedFRPEnabled cfg) true (FRPBindAddr cfg) (FRPProxyBindAddr cfg)
    (DurationString (SessionTTL cfg)) (DurationString (RuntimeTokenTTL cfg)) (DurationString (UDPConnectionTTL cfg)) (ClientConfigComment cfg).
Definition applyEdgeAdvancedSettings (cfg : Config) (req : edgeAdvancedSettings) : string + Config :=
  let blank s := bool_decide (TrimSpace s = ""%string) in
  if negb (as_FRPTransportTLS req) then inl "仅支持 TCP+TLS，不能关闭 FRP TLS"%string
  else if negb (bool_decide (as_ConfigurationMode req = ConfigurationAutomatic)) && negb (bool_decide (as_ConfigurationMode req = ConfigurationManual))
  then inl "configuration_mode must be automatic or manual"%string
  else if blank (as_FRPBindAddr req) || blank (as_FRPProxyBindAddr req) || blank (as_SessionTTL req) || blank (as_RuntimeTokenTTL req) ||
          blank (as_UDPConnectionTTL req)
  then inl "edge advanced settings must contain bind addresses and positive timeouts"%string
  else match ValidateConnectionTuning (as_ConnectionTuning req) with
  | Some err => inl err
  | None =>
      if negb (bool_decide (MTLSHandshakeTimeoutSeconds (as_ConnectionTuning req) = 0)) || DisableMTLSSessionTickets (as_ConnectionTuning req)
      then inl "mTLS listener settings belong to the center system settings"%string
      else
        let cfg := cfg <| ConfigurationMode := as_ConfigurationMode req |> <| cfg_ConnectionTuning := as_ConnectionTuning req |>
                       <| EmbeddedFRPEnabled := as_EmbeddedFRPEnabled req |> <| FRPTransportTLS := as_FRPTransportTLS req |> in
        match applyRuntimeTuning cfg (mkRuntimeTuning (as_SessionTTL req) (as_RuntimeTokenTTL req) (as_UDPConnectionTTL req)
                                        (as_FRPBindAddr req) (as_FRPProxyBindAddr req) "") with
        | inl err => inl err
        | inr cfg => prepareAdvancedSettings (cfg <| ClientConfigComment := TrimSpace (as_ClientComment req) |>)
        end
  end.
End settings.
