(* ===== verification/Pki.v ===== *)
(** * The certificate authority of the cluster

    [internal/cluster/pki.go] and the functions of [handlers_cluster.go] that keep
    the authority in the configuration.  Keys are symbolic and a certificate is the
    record of what it says, with the key it certifies and the key that signed it;
    encoding and parsing ([encoding/pem], [crypto/x509]) are a class with the laws
    that creating and then parsing gives back the content. *)
From Stdlib Require Import ZArith Lia Ascii String.
From stdpp Require Import gmap strings list.
From S2P Require Import Prelude GoStrings Base64 Config FrpTls NodePorts NodeSettings.
Local Open Scope Z_scope.

(** ** Certificates *)

Inductive usage := ServerAuth | ClientAuth.
#[export] Instance usage_eq_dec : EqDecision usage.
Proof. solve_decision. Defined.
Record Certificate := mkX509 {
  x_Serial : Z; x_CommonName : string; x_Issuer : string; x_DNSNames : list string; x_IPAddresses : list string;
  x_NotBefore : time; x_NotAfter : time; x_IsCA : bool; x_ExtKeyUsage : list usage; x_Key : Z; x_Signer : Z }.
#[export] Instance eta_x509 : Eta Certificate := λ c,
  mkX509 (x_Serial c) (x_CommonName c) (x_Issuer c) (x_DNSNames c) (x_IPAddresses c) (x_NotBefore c) (x_NotAfter c) (x_IsCA c)
    (x_ExtKeyUsage c) (x_Key c) (x_Signer c).
Record CertificateRequest := mkCSR { csr_CommonName : string; csr_Key : Z; csr_Signed : bool }.

(** A certificate holds whole seconds. *)
Definition whole_seconds (c : Certificate) : Certificate :=
  c <| x_NotBefore := asn1_time (x_NotBefore c) |> <| x_NotAfter := asn1_time (x_NotAfter c) |>.

Class X509Lib := {
  (** [x509.CreateCertificate] and [pem.EncodeToMemory]: the text or an error. *)
  CreateCertificate : Certificate → string + string;
  CreateCertificateRequest : string → Z → string + string;
  pem_key : Z → string;
  (** [pem.Decode], [None] without a block, and the parser for its content. *)
  parse_certificate : string → option (string + Certificate);
  parse_key : string → option (string + Z);
  (** Whether the block is a certificate request, and the request. *)
  parse_request : string → option (bool * (string + CertificateRequest));
  VerifyHostname : Certificate → string → option string;
  parse_created : ∀ c text, CreateCertificate c = inr text → parse_certificate text = Some (inr (whole_seconds c));
  parse_pem_key : ∀ k, parse_key (pem_key k) = Some (inr k);
  parse_empty : parse_certificate "" = None ∧ parse_key "" = None;
  parse_created_request : ∀ name k text,
    CreateCertificateRequest name k = inr text → parse_request text = Some (true, inr (mkCSR name k true)) }.
(** A certificate covers the names and addresses that it lists. *)
Class HostnameLaws `{net : NetLib} `{x509 : X509Lib} : Prop := {
  verify_listed : ∀ c host, host ≠ ""%string → host ≠ "."%string →
    (if bool_decide (is_Some (ParseIP host)) then host ∈ x_IPAddresses c else host ∈ x_DNSNames c) → VerifyHostname c host = None }.

(** [Certificate.Verify] against one root. *)
Definition in_force (c : Certificate) (t : time) : bool := bool_decide (x_NotBefore c ≤ t) && bool_decide (t ≤ x_NotAfter c).
Definition Verify (leaf root : Certificate) (u : usage) (t : time) : bool :=
  bool_decide (x_Signer leaf = x_Key root) && bool_decide (x_Issuer leaf = x_CommonName root) && x_IsCA root &&
  in_force leaf t && in_force root t && (bool_decide (x_ExtKeyUsage leaf = []) || bool_decide (u ∈ x_ExtKeyUsage leaf)).

(** ** The authority *)

Record PKIPaths := mkPaths { pp_CAFile : string; pp_CAKeyFile : string; pp_CertFile : string; pp_KeyFile : string }.
Record PKIMaterial := mkMaterial { pm_CACertificate : string; pm_CAPrivateKey : string; pm_Certificate : string; pm_PrivateKey : string }.
#[export] Instance eta_material : Eta PKIMaterial := λ m,
  mkMaterial (pm_CACertificate m) (pm_CAPrivateKey m) (pm_Certificate m) (pm_PrivateKey m).

Definition host_of (publicAddress : string) : string :=
  Trim (match SplitHostPort publicAddress with Some (host, _) => host | None => publicAddress end) brackets.
Definition appendUnique (values : list string) (value : string) : list string :=
  if bool_decide (value ∈ values) then values else values ++ [value].

(** [big.Int.Text(16)]. *)
Definition hex_char (d : Z) : ascii := if bool_decide (d < 10) then chr (48 + d) else chr (87 + d).
Fixpoint hex_go (fuel : nat) (n : Z) (acc : string) : string :=
  match fuel with
  | O => acc
  | S fuel => if bool_decide (n = 0) then acc else hex_go fuel (n / 16) (String (hex_char (n `mod` 16)) acc)
  end.
Definition serial_text (n : Z) : string := if bool_decide (n = 0) then "0"%string else hex_go 32 n "".

(** What the random source gives a call: keys and serial numbers. *)
Record Fresh := mkFresh { fr_CAKey : Z; fr_ServerKey : Z; fr_CASerial : Z; fr_Serial : Z }.
Section pki.
Context `{net : NetLib} `{x509 : X509Lib} `{calendar : Calendar}.

Definition LoadPKIMaterial (files : string → string + string) (paths : PKIPaths) : string + PKIMaterial :=
  match files (pp_CAFile paths), files (pp_CAKeyFile paths), files (pp_CertFile paths), files (pp_KeyFile paths) with
  | inl err, _, _, _ | inr _, inl err, _, _ | inr _, inr _, inl err, _ | inr _, inr _, inr _, inl err => inl err
  | inr ca, inr caKey, inr cert, inr key => inr (mkMaterial ca caKey cert key)
  end.

Definition ca_certificate (now : time) (fr : Fresh) : Certificate :=
  mkX509 (fr_CASerial fr) "MeowFRP Node CA" "MeowFRP Node CA" [] [] (now - 5 * Minute) (AddYears 10 now) true [] (fr_CAKey fr) (fr_CAKey fr).
Definition server_certificate (now : time) (publicAddress issuer : string) (serial key signer : Z) : Certificate :=
  let host := host_of publicAddress in
  let isIP := bool_decide (is_Some (ParseIP host)) in
  mkX509 serial "MeowFRP Controller" issuer
    (appendUnique (if negb isIP && negb (bool_decide (host = ""%string)) then [host] else []) "localhost")
    ((if isIP then [host] else []) ++ ["127.0.0.1"%string])
    (now - 5 * Minute) (AddYears 2 now) false [ServerAuth] key signer.
Definition GenerateControllerPKI (now : time) (fresh : string + Fresh) (publicAddress : string) : string + PKIMaterial :=
  match fresh with
  | inl err => inl err
  | inr fr =>
      match CreateCertificate (ca_certificate now fr) with
      | inl err => inl err
      | inr ca =>
          match CreateCertificate (server_certificate now publicAddress "MeowFRP Node CA" (fr_Serial fr) (fr_ServerKey fr) (fr_CAKey fr)) with
          | inl err => inl err
          | inr cert => inr (mkMaterial ca (pem_key (fr_CAKey fr)) cert (pem_key (fr_ServerKey fr)))
          end
      end
  end.

(** The authority of the material. *)
Definition authority (m : PKIMaterial) : string + (Certificate * Z) :=
  match parse_certificate (pm_CACertificate m), parse_key (pm_CAPrivateKey m) with
  | Some cert, Some key =>
      match cert with
      | inl err => inl err
      | inr cert => match key with inl err => inl err | inr key => inr (cert, key) end
      end
  | _, _ => inl "invalid controller CA material"%string
  end.
Definition node_certificate (now : time) (nodeID issuer : string) (serial key signer : Z) : Certificate :=
  mkX509 serial nodeID issuer [nodeID] [] (now - 5 * Minute) (AddYears 1 now) false [ClientAuth] key signer.
Definition SignNodeCSRMaterial (m : PKIMaterial) (now : time) (serial : Z) (nodeID csrPEM : string) : string + (string * string * time) :=
  match authority m with
  | inl err => inl err
  | inr (ca, caKey) =>
      match parse_request csrPEM with
      | Some (true, request) =>
          match request with
          | inr (mkCSR _ key true) =>
              match CreateCertificate (node_certificate now nodeID (x_CommonName ca) serial key caKey) with
              | inl err => inl err
              | inr cert => inr (cert, serial_text serial, AddYears 1 now)
              end
          | _ => inl "invalid certificate request signature"%string
          end
      | _ => inl "invalid certificate request"%string
      end
  end.
(** [signature_error] is that of [CheckSignature]. *)
Definition ParseCSRPublicKey (signature_error csrPEM : string) : option string :=
  match parse_request csrPEM with
  | None => Some "invalid CSR"%string
  | Some (_, inl err) => Some err
  | Some (_, inr r) => if csr_Signed r then None else Some signature_error
  end.

(** [tls.X509KeyPair]: the certificate, if the key is its key; [pair_error] otherwise. *)
Definition X509KeyPair (pair_error cert key : string) : string + Certificate :=
  match parse_certificate cert, parse_key key with
  | Some (inr c), Some (inr k) => if bool_decide (x_Key c = k) then inr c else inl pair_error
  | _, _ => inl pair_error
  end.
Definition ControllerCertificateCovers (pair_error : string) (m : PKIMaterial) (publicAddress : string) : option string :=
  match X509KeyPair pair_error (pm_Certificate m) (pm_PrivateKey m) with
  | inl err => Some err
  | inr cert =>
      let host := host_of publicAddress in
      if bool_decide (host = ""%string) then Some "empty controller public address"%string else VerifyHostname cert host
  end.
Definition ReissueControllerServerCertificate (m : PKIMaterial) (now : time) (fresh : string + Fresh) (publicAddress : string) :
    string + PKIMaterial :=
  match authority m, fresh with
  | inl err, _ | inr _, inl err => inl err
  | inr (ca, caKey), inr fr =>
      match CreateCertificate (server_certificate now publicAddress (x_CommonName ca) (fr_Serial fr) (fr_ServerKey fr) caKey) with
      | inl err => inl err
      | inr cert => inr (m <| pm_Certificate := cert |> <| pm_PrivateKey := pem_key (fr_ServerKey fr) |>)
      end
  end.
Definition NewNodeKeyAndCSR (key : string + Z) (nodeName : string) : string + (string * string) :=
  match key with
  | inl err => inl err
  | inr key => match CreateCertificateRequest nodeName key with inl err => inl err | inr csr => inr (pem_key key, csr) end
  end.

(** ** The authority in the configuration *)

(** [path/filepath], which depends on the operating system. *)
Context (Join : list string → string) (Dir : string → string) (IsAbs : string → bool).
(** The errors of [encoding/base64] and of [tls.X509KeyPair]. *)
Context (base64_error : string → string) (pair_error : string).

Definition ResolvePath (configPath value : string) : string :=
  if bool_decide (value = ""%string) || IsAbs value then value else Join [Dir configPath; value].
Definition DefaultPKIPaths (configPath : string) : PKIPaths :=
  let dir := Join [Dir configPath; "data"%string; "cluster-pki"%string] in
  mkPaths (Join [dir; "node-ca.crt"%string]) (Join [dir; "node-ca.key"%string]) (Join [dir; "controller.crt"%string])
    (Join [dir; "controller.key"%string]).
Definition EncodePEM (value : string) : string := StdEncodeToString value.
Definition DecodePEM (value : string) : string + string :=
  if bool_decide (value = ""%string) then inl "empty PEM value"%string
  else match StdDecodeString value with Some s => inr s | None => inl (base64_error value) end.

Definition controllerPKIPaths (cfg : Config) : PKIPaths :=
  let defaults := DefaultPKIPaths (ConfigPath cfg) in
  let pick file fallback := if bool_decide (file = ""%string) then fallback else ResolvePath (ConfigPath cfg) file in
  let tls := cc_TLS (cfg_Controller cfg) in
  mkPaths (pick (tls_CAFile tls) (pp_CAFile defaults)) (pick (cc_CAKeyFile (cfg_Controller cfg)) (pp_CAKeyFile defaults))
    (pick (tls_CertFile tls) (pp_CertFile defaults)) (pick (tls_KeyFile tls) (pp_KeyFile defaults)).
(** [files] is what reading a file gives. *)
Definition controllerPKIMaterial (files : string → string + string) (cfg : Config) : string + PKIMaterial :=
  let tls := cc_TLS (cfg_Controller cfg) in
  if negb (bool_decide (tls_CACertificateBase64 tls = ""%string)) then
    match DecodePEM (tls_CACertificateBase64 tls) with
    | inl err => inl err
    | inr ca =>
        match DecodePEM (tls_CAPrivateKeyBase64 tls) with
        | inl err => inl err
        | inr caKey =>
            match DecodePEM (tls_CertificateBase64 tls) with
            | inl err => inl err
            | inr cert =>
                match DecodePEM (tls_PrivateKeyBase64 tls) with inl err => inl err | inr key => inr (mkMaterial ca caKey cert key) end
            end
        end
    end
  else LoadPKIMaterial files (controllerPKIPaths cfg).
Definition setControllerPKIMaterial (cfg : Config) (m : PKIMaterial) : Config :=
  cfg <| cfg_Controller := (cfg_Controller cfg)
           <| cc_TLS := mkTLS "" "" "" (EncodePEM (pm_CACertificate m)) (EncodePEM (pm_CAPrivateKey m)) (EncodePEM (pm_Certificate m))
                          (EncodePEM (pm_PrivateKey m)) |>
           <| cc_CAKeyFile := ""%string |> |>.
Definition present_material (files : string → string + string) (cfg : Config) (now : time) (fresh : string + Fresh) : string + PKIMaterial :=
  match controllerPKIMaterial files cfg with
  | inr m => inr m
  | inl _ => GenerateControllerPKI now fresh (cc_PublicAddress (cfg_Controller cfg))
  end.
Definition covering_material (m : PKIMaterial) (address : string) (now : time) (fresh : string + Fresh) : string + PKIMaterial :=
  match ControllerCertificateCovers pair_error m address with
  | None => inr m
  | Some _ => ReissueControllerServerCertificate m now fresh address
  end.
Definition ensureControllerPKI (files : string → string + string) (cfg : Config) (now : time) (fresh fresh' : string + Fresh) : string + Config :=
  match present_material files cfg now fresh with
  | inl err => inl err
  | inr m =>
      match covering_material m (cc_PublicAddress (cfg_Controller cfg)) now fresh' with
      | inl err => inl err
      | inr m => inr (setControllerPKIMaterial cfg m)
      end
  end.
End pki.

(** ** What the authority guarantees *)

Section laws.
Context `{net : NetLib} `{x509 : X509Lib} `{calendar : Calendar} `{hostnames : !HostnameLaws}.
Context (Join : list string → string) (Dir : string → string) (IsAbs : string → bool).
Context (base64_error : string → string) (pair_error : string).
Abbreviation Material := (controllerPKIMaterial Join Dir IsAbs base64_error).
Abbreviation Ensure := (ensureControllerPKI Join Dir IsAbs base64_error pair_error).

(** A material whose certificate authority is [ca] with its own key. *)
Definition authority_ok (m : PKIMaterial) (ca : Certificate) : Prop :=
  authority m = inr (ca, x_Key ca) ∧ x_IsCA ca = true.
Lemma authority_nonempty m ca : authority_ok m ca → pm_CACertificate m ≠ ""%string ∧ pm_CAPrivateKey m ≠ ""%string.
Proof.
  intros [H _]. unfold authority in H. destruct parse_empty as [Hc Hk]. split; intros E; rewrite E in H.
  - by rewrite Hc in H.
  - rewrite Hk in H. by destruct (parse_certificate _).
Qed.
Lemma pair_nonempty cert key c : X509KeyPair pair_error cert key = inr c → cert ≠ ""%string ∧ key ≠ ""%string.
Proof.
  unfold X509KeyPair. destruct parse_empty as [Hc Hk]. intros H; split; intros ->.
  - by rewrite Hc in H.
  - rewrite Hk in H. by destruct (parse_certificate cert) as [[|]|].
Qed.
Lemma Decode_EncodePEM s : s ≠ ""%string → DecodePEM base64_error (EncodePEM s) = inr s.
Proof.
  intros Hs. unfold DecodePEM, EncodePEM. rewrite bool_decide_eq_false_2 by (intros H; by apply StdEncode_empty in H). by rewrite StdDecode_Encode.
Qed.
Lemma material_set files cfg m :
  pm_CACertificate m ≠ ""%string → pm_CAPrivateKey m ≠ ""%string → pm_Certificate m ≠ ""%string → pm_PrivateKey m ≠ ""%string →
  Material files (setControllerPKIMaterial cfg m) = inr m.
Proof.
  intros H1 H2 H3 H4. unfold controllerPKIMaterial. cbn [setControllerPKIMaterial cfg_Controller cc_TLS tls_CACertificateBase64
    tls_CAPrivateKeyBase64 tls_CertificateBase64 tls_PrivateKeyBase64].
  change (tls_CACertificateBase64 _) with (EncodePEM (pm_CACertificate m)). change (tls_CAPrivateKeyBase64 _) with (EncodePEM (pm_CAPrivateKey m)).
  change (tls_CertificateBase64 _) with (EncodePEM (pm_Certificate m)). change (tls_PrivateKeyBase64 _) with (EncodePEM (pm_PrivateKey m)).
  rewrite bool_decide_eq_false_2 by (intros H; by apply StdEncode_empty in H). cbn [negb]. rewrite !Decode_EncodePEM by done. by destruct m.
Qed.

(** A server certificate that the authority signed for a host. *)
Definition serves (m : PKIMaterial) (ca : Certificate) (host : string) (cert : Certificate) : Prop :=
  X509KeyPair pair_error (pm_Certificate m) (pm_PrivateKey m) = inr cert ∧ x_Signer cert = x_Key ca ∧ x_Issuer cert = x_CommonName ca ∧
  x_ExtKeyUsage cert = [ServerAuth] ∧ (host ≠ ""%string → host ≠ "."%string → VerifyHostname cert host = None).
Lemma key_pair_created c k text : CreateCertificate c = inr text → x_Key c = k → X509KeyPair pair_error text (pem_key k) = inr (whole_seconds c).
Proof. intros Hc <-. unfold X509KeyPair. rewrite (parse_created _ _ Hc), parse_pem_key. by rewrite bool_decide_eq_true_2. Qed.
Lemma server_certificate_covers now address issuer serial key signer :
  host_of address ≠ ""%string → host_of address ≠ "."%string →
  VerifyHostname (whole_seconds (server_certificate now address issuer serial key signer)) (host_of address) = None.
Proof.
  intros H1 H2. apply verify_listed; [done..|]. unfold server_certificate. cbn [whole_seconds]. cbn.
  case_bool_decide; cbn.
  - set_solver.
  - rewrite bool_decide_eq_false_2 by done. cbn. unfold appendUnique. case_bool_decide; set_solver.
Qed.
Lemma generate_ok now fresh address m :
  GenerateControllerPKI now fresh address = inr m → ∃ ca cert, authority_ok m ca ∧ serves m ca (host_of address) cert.
Proof.
  unfold GenerateControllerPKI. destruct fresh as [|fr]; [done|].
  destruct (CreateCertificate (ca_certificate now fr)) as [|ca] eqn:Ec; [done|].
  destruct (CreateCertificate (server_certificate _ _ _ _ _ _)) as [|cert] eqn:Es; [done|]. intros [= <-].
  exists (whole_seconds (ca_certificate now fr)). eexists. split.
  - split; [|done]. unfold authority. cbn. by rewrite (parse_created _ _ Ec), parse_pem_key.
  - split_and!; [by apply (key_pair_created _ _ _ Es)|done..|apply server_certificate_covers].
Qed.
Lemma reissue_ok m ca now fresh address m' :
  authority_ok m ca → ReissueControllerServerCertificate m now fresh address = inr m' →
  pm_CACertificate m' = pm_CACertificate m ∧ pm_CAPrivateKey m' = pm_CAPrivateKey m ∧ ∃ cert, serves m' ca (host_of address) cert.
Proof.
  intros [Ha Hca]. unfold ReissueControllerServerCertificate. rewrite Ha. destruct fresh as [|fr]; [done|].
  destruct (CreateCertificate _) as [|cert] eqn:Es; [done|]. intros [= <-]. split_and!; [done..|]. eexists.
  split_and!; [by apply (key_pair_created _ _ _ Es)|done..|apply server_certificate_covers].
Qed.
Lemma authority_same m m' ca :
  authority_ok m ca → pm_CACertificate m' = pm_CACertificate m → pm_CAPrivateKey m' = pm_CAPrivateKey m → authority_ok m' ca.
Proof. intros [Ha Hc] H1 H2. split; [|done]. unfold authority in *. by rewrite H1, H2. Qed.
Lemma covering_ok m ca host cert address now fresh m' :
  authority_ok m ca → serves m ca host cert → covering_material pair_error m address now fresh = inr m' →
  authority_ok m' ca ∧ pm_CACertificate m' = pm_CACertificate m ∧ ∃ cert', serves m' ca (host_of address) cert'.
Proof.
  intros Ha Hs. unfold covering_material. destruct (ControllerCertificateCovers _ _ _) as [err|] eqn:Ec; intros H.
  - destruct (reissue_ok _ _ _ _ _ _ Ha H) as (H1 & H2 & H3). split_and!; [by eapply authority_same|done..].
  - injection H as <-. split_and!; [done..|]. exists cert. destruct Hs as (Hp & ? & ? & ? & _). split_and!; [done..|].
    unfold ControllerCertificateCovers in Ec. rewrite Hp in Ec. by case_bool_decide.
Qed.

(** What holds of a configuration whose authority was prepared: wherever its material is
    read, it is that of the authority [ca] with the text [text], with a server
    certificate for the public address. *)
Definition pki_ok (cfg : Config) (ca : Certificate) (text : string) : Prop :=
  ∃ m cert, (∀ files cfg', cc_TLS (cfg_Controller cfg') = cc_TLS (cfg_Controller cfg) → Material files cfg' = inr m) ∧ authority_ok m ca ∧
    pm_CACertificate m = text ∧ serves m ca (host_of (cc_PublicAddress (cfg_Controller cfg))) cert.
Lemma set_material_ok cfg m ca cert :
  authority_ok m ca → serves m ca (host_of (cc_PublicAddress (cfg_Controller cfg))) cert →
  pki_ok (setControllerPKIMaterial cfg m) ca (pm_CACertificate m).
Proof.
  intros Ha Hs. exists m, cert. destruct (authority_nonempty _ _ Ha) as [H1 H2]. destruct (pair_nonempty _ _ _ (proj1 Hs)) as [H3 H4].
  split_and!; [|done..]. intros files cfg' Ht. rewrite <- (material_set files cfg m H1 H2 H3 H4). unfold controllerPKIMaterial. rewrite Ht.
  change (cc_TLS (cfg_Controller (setControllerPKIMaterial cfg m))) with
    (mkTLS "" "" "" (EncodePEM (pm_CACertificate m)) (EncodePEM (pm_CAPrivateKey m)) (EncodePEM (pm_Certificate m)) (EncodePEM (pm_PrivateKey m))).
  cbn [tls_CACertificateBase64]. by rewrite bool_decide_eq_false_2 by (intros H; by apply StdEncode_empty in H).
Qed.
Lemma ensure_first files cfg now fresh fresh' err cfg' :
  Material files cfg = inl err → Ensure files cfg now fresh fresh' = inr cfg' → ∃ ca text, pki_ok cfg' ca text.
Proof.
  intros Hm. unfold ensureControllerPKI, present_material. rewrite Hm. destruct (GenerateControllerPKI _ _ _) as [|m] eqn:Eg; [done|].
  destruct (generate_ok _ _ _ _ Eg) as (ca & cert & Ha & Hs). destruct (covering_material _ _ _ _ _) as [|m'] eqn:Ec; [done|]. intros [= <-].
  destruct (covering_ok _ _ _ _ _ _ _ _ Ha Hs Ec) as (Ha' & _ & cert' & Hs'). eexists ca, _. by eapply set_material_ok.
Qed.
(** Preparing the authority again, for whatever address, keeps it. *)
Lemma ensure_again files cfg cfg1 now fresh fresh' cfg' ca text :
  pki_ok cfg ca text → cc_TLS (cfg_Controller cfg1) = cc_TLS (cfg_Controller cfg) → Ensure files cfg1 now fresh fresh' = inr cfg' →
  pki_ok cfg' ca text.
Proof.
  intros (m & cert & Hm & Ha & <- & Hs) Ht. unfold ensureControllerPKI, present_material. rewrite (Hm _ _ Ht).
  destruct (covering_material _ _ _ _ _) as [|m'] eqn:Ec; [done|]. intros [= <-].
  destruct (covering_ok _ _ _ _ _ _ _ _ Ha Hs Ec) as (Ha' & <- & cert' & Hs'). by eapply set_material_ok.
Qed.

(** What a node certificate says, and when the authority vouches for it. *)
Lemma sign_node m ca now serial nodeID csr cert text expires :
  authority_ok m ca → SignNodeCSRMaterial m now serial nodeID csr = inr (cert, text, expires) →
  ∃ name key, parse_request csr = Some (true, inr (mkCSR name key true)) ∧ text = serial_text serial ∧ expires = AddYears 1 now ∧
    let c := whole_seconds (node_certificate now nodeID (x_CommonName ca) serial key (x_Key ca)) in
    parse_certificate cert = Some (inr c) ∧ (∀ t, Verify c ca ClientAuth t = in_force c t && in_force ca t).
Proof.
  intros [Ha Hca]. unfold SignNodeCSRMaterial. rewrite Ha. destruct (parse_request csr) as [[[|] [err|[name key [|]]]]|]; try done.
  destruct (CreateCertificate _) as [|text'] eqn:Ec; [done|]. intros [= <- <- <-]. exists name, key. split; [done|]. split; [done|]. split; [done|].
  split; [by apply parse_created|]. intros t. unfold Verify. rewrite (bool_decide_eq_true_2 (x_Signer _ = _)), (bool_decide_eq_true_2 (x_Issuer _ = _)) by done.
  rewrite Hca, (bool_decide_eq_true_2 (ClientAuth ∈ _)) by by apply list_elem_of_here. by rewrite orb_true_r, andb_true_r.
Qed.
End laws.

(** ** An instance

    Texts are the bits of the content, three in a character, with a letter for the kind of block. *)
#[export] Instance usage_countable : Countable usage.
Proof.
  refine (inj_countable' (λ u, match u with ServerAuth => true | ClientAuth => false end) (λ b : bool, if b then ServerAuth else ClientAuth) _).
  by intros [].
Defined.
#[export] Instance certificate_eq_dec : EqDecision Certificate.
Proof. solve_decision. Defined.
#[export] Instance certificate_countable : Countable Certificate.
Proof.
  refine (inj_countable'
    (λ c, (x_Serial c, x_CommonName c, x_Issuer c, x_DNSNames c, x_IPAddresses c, (x_NotBefore c, x_NotAfter c, x_IsCA c, x_ExtKeyUsage c, x_Key c, x_Signer c)))
    (λ '(a, b, c, d, e, (f, g, h, i, j, k)), mkX509 a b c d e f g h i j k) _).
  by intros [].
Defined.
Fixpoint bits_text (p : positive) : string :=
  match p with
  | xH => EmptyString | xO xH => "8" | xI xH => "9"
  | xO (xO xH) => "a" | xO (xI xH) => "b" | xI (xO xH) => "c" | xI (xI xH) => "d"
  | xO (xO (xO p)) => String "0" (bits_text p) | xO (xO (xI p)) => String "1" (bits_text p)
  | xO (xI (xO p)) => String "2" (bits_text p) | xO (xI (xI p)) => String "3" (bits_text p)
  | xI (xO (xO p)) => String "4" (bits_text p) | xI (xO (xI p)) => String "5" (bits_text p)
  | xI (xI (xO p)) => String "6" (bits_text p) | xI (xI (xI p)) => String "7" (bits_text p)
  end%string.
Definition digit_bits (c : ascii) (p : positive) : positive :=
  match c with
  | "0" => xO (xO (xO p)) | "1" => xO (xO (xI p)) | "2" => xO (xI (xO p)) | "3" => xO (xI (xI p))
  | "4" => xI (xO (xO p)) | "5" => xI (xO (xI p)) | "6" => xI (xI (xO p)) | "7" => xI (xI (xI p))
  | "8" => xO xH | "9" => xI xH | "a" => xO (xO xH) | "b" => xO (xI xH) | "c" => xI (xO xH) | "d" => xI (xI xH)
  | _ => p
  end%char.
Fixpoint text_bits (s : string) : positive := match s with EmptyString => xH | String c s => digit_bits c (text_bits s) end.
Lemma text_bits_text p : text_bits (bits_text p) = p.
Proof.
  revert p. fix IH 1. intros [[[p|p|]|[p|p|]|]|[[p|p|]|[p|p|]|]|]; cbn -[bits_text text_bits]; cbn; rewrite ?IH; reflexivity.
Qed.
Definition block {A} `{Countable A} (kind : ascii) (a : A) : string := String kind (bits_text (encode a)).
Definition unblock {A} `{Countable A} (kind : ascii) (s : string) : option A :=
  match s with String k s => if bool_decide (k = kind) then decode (text_bits s) else None | EmptyString => None end.
Lemma unblock_block {A} `{Countable A} kind (a : A) : unblock kind (block kind a) = Some a.
Proof. unfold unblock, block. rewrite bool_decide_eq_true_2 by done. by rewrite text_bits_text, decode_encode. Qed.
Definition demo_x509_lib : X509Lib.
Proof.
  refine {| CreateCertificate c := inr (block "C" (whole_seconds c)); CreateCertificateRequest name k := inr (block "R" (name, k));
            pem_key k := block "K" k;
            parse_certificate s := (λ c, inr c) <$> unblock "C" s; parse_key s := (λ k, inr k) <$> unblock "K" s;
            parse_request s := (λ r : string * Z, (true, inr (mkCSR r.1 r.2 true))) <$> unblock "R" s;
            VerifyHostname c host := if bool_decide (host ∈ x_DNSNames c) || bool_decide (host ∈ x_IPAddresses c) then None
                                     else Some "certificate is not valid for the host"%string |}.
  - intros c text [= <-]. by rewrite unblock_block.
  - intros k. by rewrite unblock_block.
  - done.
  - intros name k text [= <-]. by rewrite unblock_block.
Defined.
Lemma demo_hostnames `{net : NetLib} : HostnameLaws (x509 := demo_x509_lib).
Proof.
  split. intros c host _ _ H. cbn. case_bool_decide.
  - by rewrite (bool_decide_eq_true_2 (host ∈ x_IPAddresses c)), orb_true_r.
  - by rewrite (bool_decide_eq_true_2 (host ∈ x_DNSNames c)).
Qed.
