(* ===== verification/EdgeStore.v ===== *)
(** * The edge's local store

    [internal/edgestate]: the SQLite file of an edge node, one finite map per
    table, keyed by its primary key, and one function per statement group of
    [edge_runtime.go], [identity_reset.go], [lease_release.go] and
    [disconnect_command.go].  A method that runs in a transaction answers the
    new store only when it commits: on an error the caller keeps the old one,
    which is what the deferred rollback does.  The errors are those of the code
    and of the tables' constraints; a failing disk is not modelled.

    A time column holds the instant that was formatted into it (RFC3339Nano
    keeps nanoseconds).  SQLite's [julianday], by which times are compared in
    SQL, is a parameter that is only assumed to be monotone. *)
From Stdlib Require Import ZArith Lia Ascii String.
From stdpp Require Import gmap strings list fin_maps sorting.
From S2P Require Import Prelude GoStrings Types DpiEngine DpiService.
Local Open Scope Z_scope.

(** ** The identity snapshot of the controller ([cluster/protocol.go]) *)

Record SnapshotUser := mkSUser {
  su_ID : Z; su_Username : string; su_Role : string; su_Status : string; su_BanReason : string }.
#[export] Instance eta_su : Eta SnapshotUser := λ r,
  mkSUser (su_ID r) (su_Username r) (su_Role r) (su_Status r) (su_BanReason r).

Record SnapshotToken := mkSToken {
  st_ID : Z; st_UserID : Z; st_Name : string; st_TokenHash : string; st_Status : string;
  st_BanReason : string; st_MaxProxyCount : Z; st_ExpiresAt : option time }.

(** [db.BlockedInboundIP]. *)
Record BlockedIP := mkBlockedIP {
  bi_IP : string; bi_Reason : string; bi_CreatedBy : Z; bi_CreatedAt : time }.

Record IdentitySnapshot := mkSnapshot {
  Baseline : bool; BaselineEnd : bool; ReplaceBlockedIPs : bool; Incremental : bool;
  RemovedUserIDs : list Z; NodeAccessEnforced : bool; Revision : Z;
  Users : list SnapshotUser; Tokens : list SnapshotToken; Policies : list UserResourcePolicy;
  Grants_ : list PortGrant; DPIPolicies : list Policy; BlockedIPs : list BlockedIP;
  RemovedBlockedIPs : list string }.

(** ** Tables *)

Record ClientRow := mkClientRow {
  ec_ID : Z; ec_UserID : Z; ec_TokenID : Z; ec_ClientID : string; ec_Status : string;
  ec_BanReason : string; ec_LastSeenAt : option time; ec_FRPCRunning : bool; ec_DisconnectNotified : bool }.
#[export] Instance eta_client_row : Eta ClientRow := λ r,
  mkClientRow (ec_ID r) (ec_UserID r) (ec_TokenID r) (ec_ClientID r) (ec_Status r) (ec_BanReason r)
    (ec_LastSeenAt r) (ec_FRPCRunning r) (ec_DisconnectNotified r).

Record CommandRow := mkCommandRow {
  cr_ID : Z; cr_ClientRowID : Z; cr_Command : string; cr_Message : string; cr_Status : string }.
#[export] Instance eta_command_row : Eta CommandRow := λ r,
  mkCommandRow (cr_ID r) (cr_ClientRowID r) (cr_Command r) (cr_Message r) (cr_Status r).

(** [sqlite_sequence] of the two AUTOINCREMENT tables is [client_seq] and
    [command_seq].  The three keys of [sync_state] are three fields. *)
Record Store := mkStore {
  cached_users : gmap Z SnapshotUser;
  cached_tokens : gmap Z SnapshotToken;
  cached_policies : gmap Z UserResourcePolicy;
  cached_grants : gmap Z PortGrant;
  cached_dpi_policies : gmap Z Policy;
  edge_clients : gmap Z ClientRow;
  client_seq : Z;
  runtime_leases : gmap string RuntimeLease;
  lease_issuers : gmap string string;
  lease_allocations : gmap (string * string) ProxyAllocationInput;
  controller_blocked_ips : gmap string (string * time);   (** reason, created_at *)
  edge_client_commands : gmap Z CommandRow;
  command_seq : Z;
  command_disconnect_effects : gmap string (list string);
  last_revision : option Z;
  last_sync_at : option time;
  last_error : option string;
  identityResetPending : bool }.
#[export] Instance eta_store : Eta Store := λ r,
  mkStore (cached_users r) (cached_tokens r) (cached_policies r) (cached_grants r)
    (cached_dpi_policies r) (edge_clients r) (client_seq r) (runtime_leases r) (lease_issuers r)
    (lease_allocations r) (controller_blocked_ips r) (edge_client_commands r) (command_seq r)
    (command_disconnect_effects r) (last_revision r) (last_sync_at r) (last_error r)
    (identityResetPending r).

Definition empty_store : Store :=
  mkStore ∅ ∅ ∅ ∅ ∅ ∅ 0 ∅ ∅ ∅ ∅ ∅ 0 ∅ None None None false.

(** ** Errors *)

Inductive store_error :=
  | ErrNoRows                 (** [sql.ErrNoRows] *)
  | ErrConstraint             (** a violated key of a table *)
  | ErrNotFound               (** [db.ErrNotFound] *)
  | ErrText (msg : string).   (** [errors.New] *)
#[export] Instance store_error_eq_dec : EqDecision store_error.
Proof. solve_decision. Defined.

Definition result (A : Type) : Type := store_error + A.
Definition rbind {A B} (x : result A) (f : A → result B) : result B :=
  match x with inl e => inl e | inr a => f a end.
Notation "x <-- e ; k" := (rbind e (λ x, k)) (at level 100, e at next level, right associativity).
Definition guard_err (b : bool) (msg : string) : result unit := if b then inl (ErrText msg) else inr tt.

(** [INSERT]: a constraint error when the key is taken. *)
Definition insert_row {K V} `{Countable K} (k : K) (v : V) (t : gmap K V) : result (gmap K V) :=
  match t !! k with Some _ => inl ErrConstraint | None => inr (<[k := v]> t) end.
(** The same statement for each element, in order. *)
Fixpoint insert_rows {K V} `{Countable K} (key : V → K) (vs : list V) (t : gmap K V) : result (gmap K V) :=
  match vs with
  | [] => inr t
  | v :: vs => t <-- insert_row (key v) v t; insert_rows key vs t
  end.

(** ** Leases *)

Definition revoke_lease (l : RuntimeLease) : RuntimeLease := l <| l_Status := "revoked"%string |>.
(** [UPDATE runtime_leases SET status='revoked' WHERE status='active' AND cond]. *)
Definition revoke_where (cond : RuntimeLease → bool) (leases : gmap string RuntimeLease) :
    gmap string RuntimeLease :=
  (λ l, if bool_decide (l_Status l = "active"%string) && cond l then revoke_lease l else l) <$> leases.
Definition of_client (tokenID : Z) (clientID : string) (l : RuntimeLease) : bool :=
  bool_decide (l_TokenID l = tokenID) && bool_decide (l_ClientID l = clientID).

(** ** Applying an identity snapshot *)

Section store.
Context (julianday : time → Z).

(** [julianday(t) > julianday(now)]. *)
Definition sql_after (t now : time) : bool := bool_decide (julianday now < julianday t).

(** The rotation statement for one token of the snapshot. *)
Definition revoke_rotated (s : Store) (token : SnapshotToken) : Store :=
  let rotated := match cached_tokens s !! st_ID token with
                 | Some t => negb (bool_decide (st_TokenHash t = st_TokenHash token))
                 | None => false
                 end in
  s <| runtime_leases := revoke_where (λ l, bool_decide (l_TokenID l = st_ID token) && rotated)
                           (runtime_leases s) |>.

(** The five deletions for one user of an incremental snapshot. *)
Definition delete_user (s : Store) (id : Z) : Store :=
  let owned (tokenID : Z) := match cached_tokens s !! tokenID with
                             | Some t => bool_decide (st_UserID t = id)
                             | None => false
                             end in
  let s := s <| cached_grants := filter (λ kg, owned (g_TokenID kg.2) = false) (cached_grants s) |> in
  s <| cached_tokens := filter (λ kt, st_UserID kt.2 ≠ id) (cached_tokens s) |>
    <| cached_policies := delete id (cached_policies s) |>
    <| cached_dpi_policies := delete id (cached_dpi_policies s) |>
    <| cached_users := delete id (cached_users s) |>.

Definition clear_cache (s : Store) : Store :=
  s <| cached_grants := ∅ |> <| cached_policies := ∅ |> <| cached_tokens := ∅ |>
    <| cached_users := ∅ |> <| cached_dpi_policies := ∅ |>.

(** The users mentioned by an incremental snapshot, removed or sent again. *)
Definition touched_users (snapshot : IdentitySnapshot) : list Z :=
  RemovedUserIDs snapshot ++ (su_ID <$> Users snapshot).

(** A user as cached: banned when the controller does not enforce node access. *)
Definition cached_user (snapshot : IdentitySnapshot) (v : SnapshotUser) : SnapshotUser :=
  if NodeAccessEnforced snapshot then v
  else v <| su_Status := "banned"%string |>
         <| su_BanReason := "中心尚未同步节点权限，请升级中心服务端"%string |>.

(** [cached_tokens] has a unique [token_hash] besides its key. *)
Definition hash_taken (hash : string) (t : gmap Z SnapshotToken) : bool :=
  existsb (λ kt : Z * SnapshotToken, bool_decide (st_TokenHash kt.2 = hash)) (map_to_list t).
Fixpoint insert_tokens (vs : list SnapshotToken) (t : gmap Z SnapshotToken) : result (gmap Z SnapshotToken) :=
  match vs with
  | [] => inr t
  | v :: vs => if hash_taken (st_TokenHash v) t then inl ErrConstraint
               else t <-- insert_row (st_ID v) v t; insert_tokens vs t
  end.

Definition insert_identities (snapshot : IdentitySnapshot) (s : Store) : result Store :=
  users <-- insert_rows su_ID (cached_user snapshot <$> Users snapshot) (cached_users s);
  tokens <-- insert_tokens (Tokens snapshot) (cached_tokens s);
  policies <-- insert_rows rp_UserID (Policies snapshot) (cached_policies s);
  grants <-- insert_rows g_ID (Grants_ snapshot) (cached_grants s);
  dpi <-- insert_rows p_UserID (DPIPolicies snapshot) (cached_dpi_policies s);
  inr (s <| cached_users := users |> <| cached_tokens := tokens |> <| cached_policies := policies |>
         <| cached_grants := grants |> <| cached_dpi_policies := dpi |>).

(** A snapshot after which the cache is complete. *)
Definition complete (snapshot : IdentitySnapshot) : bool := negb (Baseline snapshot) || BaselineEnd snapshot.

Definition apply_blocked_ips (snapshot : IdentitySnapshot) (blocked : gmap string (string * time)) :
    gmap string (string * time) :=
  let blocked := if ReplaceBlockedIPs snapshot || (negb (Incremental snapshot) && complete snapshot)
                 then ∅ else blocked in
  let blocked := foldl (λ b v, <[bi_IP v := (bi_Reason v, bi_CreatedAt v)]> b) blocked (BlockedIPs snapshot) in
  foldl (λ b ip, delete ip b) blocked (RemovedBlockedIPs snapshot).

(** The condition under which the last UPDATE keeps an active lease. *)
Definition lease_supported (s : Store) (now : time) (l : RuntimeLease) : bool :=
  match cached_users s !! l_UserID l with
  | Some u => bool_decide (su_Status u = "active"%string) && bool_decide (su_Role u = "user"%string)
  | None => false
  end &&
  match cached_policies s !! l_UserID l with Some p => rp_Enabled p | None => false end &&
  match cached_tokens s !! l_TokenID l with
  | Some t => bool_decide (st_UserID t = l_UserID l) && bool_decide (st_Status t = "active"%string) &&
              match st_ExpiresAt t with None => true | Some e => sql_after e now end
  | None => false
  end &&
  match lease_issuers s !! l_LeaseID l with
  | Some hash => match cached_tokens s !! l_TokenID l with
                 | Some t => bool_decide (st_TokenHash t = hash)
                 | None => false
                 end
  | None => true
  end.

Definition revision_errors (s : Store) (snapshot : IdentitySnapshot) : result unit :=
  _ <-- guard_err (Baseline snapshot && negb (identityResetPending s))
          "baseline received without committed cache reset";
  _ <-- guard_err (Baseline snapshot && Incremental snapshot) "invalid baseline/incremental flags";
  _ <-- guard_err (bool_decide (Revision snapshot ≤ 0)) "invalid identity revision";
  _ <-- (match last_revision s with
         | Some previous => guard_err (Baseline snapshot && bool_decide (Revision snapshot ≤ previous))
                              "stale baseline page revision"
         | None => inr tt
         end);
  if Incremental snapshot then
    match last_revision s with
    | None => inl (ErrText "incremental identity received before initial synchronization")
    | Some previous => guard_err (bool_decide (Revision snapshot ≤ previous)) "stale incremental identity revision"
    end
  else inr tt.

Definition remove_old (snapshot : IdentitySnapshot) (s : Store) : Store :=
  if Incremental snapshot then foldl delete_user s (touched_users snapshot)
  else if negb (Baseline snapshot) then clear_cache s
  else s.

Definition reset_notified (snapshot : IdentitySnapshot) (clients : gmap Z ClientRow) : gmap Z ClientRow :=
  (λ c, if negb (Incremental snapshot) || bool_decide (ec_UserID c ∈ touched_users snapshot)
        then c <| ec_DisconnectNotified := false |> else c) <$> clients.

(** [now] and [now'] are the two clock readings; [payload] is the outcome of
    decoding the message. *)
Definition ApplyIdentitySnapshot (s : Store) (now now' : time) (payload : string + IdentitySnapshot) :
    result Store :=
  match payload with
  | inl e => inl (ErrText e)
  | inr snapshot =>
      _ <-- revision_errors s snapshot;
      let s := foldl revoke_rotated s (Tokens snapshot) in
      let s := remove_old snapshot s in
      s <-- insert_identities snapshot s;
      let s := s <| controller_blocked_ips := apply_blocked_ips snapshot (controller_blocked_ips s) |> in
      let s := if complete snapshot
               then s <| runtime_leases := revoke_where (λ l, negb (lease_supported s now l)) (runtime_leases s) |>
               else s in
      let s := s <| last_revision := Some (Revision snapshot) |> <| last_sync_at := Some now' |>
                 <| edge_clients := reset_notified snapshot (edge_clients s) |> in
      inr (if negb (Incremental snapshot) && complete snapshot
           then s <| identityResetPending := false |> else s)
  end.

(** [ResetIdentityCache] is [boot = true], [DiscardControlIdentityCache] is
    [boot = false].  Deleting the leases cascades to their issuers. *)
Definition resetIdentityCache (s : Store) (boot : bool) : Store :=
  let s := (clear_cache s) <| identityResetPending := true |> in
  let s := if boot then
             s <| lease_allocations := ∅ |> <| runtime_leases := ∅ |> <| lease_issuers := ∅ |>
               <| edge_client_commands := ∅ |>
               <| edge_clients := (λ c, c <| ec_LastSeenAt := None |> <| ec_FRPCRunning := false |>
                                          <| ec_DisconnectNotified := false |>) <$> edge_clients s |>
           else s in
  s <| last_revision := None |> <| last_sync_at := None |> <| last_error := None |>
    <| controller_blocked_ips := ∅ |>.

(** ** Credentials and cached policies *)

(** The row with a unique column, if any. *)
Definition find_row {K V} `{Countable K} (p : V → bool) (t : gmap K V) : option V :=
  snd <$> head (filter (λ kv, p kv.2 = true) (map_to_list t)).

Definition token_of (t : SnapshotToken) : AccessToken :=
  mkAccessToken (st_ID t) (st_UserID t) (st_Name t) (st_TokenHash t) "" "" (st_Status t)
    (st_BanReason t) (st_MaxProxyCount t) (st_ExpiresAt t) zero_time zero_time.
Definition user_of (u : SnapshotUser) : User :=
  mkUser (su_ID u) (su_Username u) "" "" (su_Role u) (su_Status u) (su_BanReason u) zero_time zero_time.
Definition client_of_row (c : ClientRow) : Client :=
  mkClient (ec_ID c) (ec_UserID c) (ec_TokenID c) (ec_ClientID c) (ec_Status c) (ec_BanReason c) ""
    false (ec_LastSeenAt c).

Definition row_of_client (tokenID : Z) (clientID : string) (c : ClientRow) : bool :=
  bool_decide (ec_TokenID c = tokenID) && bool_decide (ec_ClientID c = clientID).

(** [INSERT INTO edge_clients ... ON CONFLICT(token_id,client_id) DO NOTHING]. *)
Definition ensure_client (s : Store) (userID tokenID : Z) (clientID : string) : Store :=
  match find_row (row_of_client tokenID clientID) (edge_clients s) with
  | Some _ => s
  | None =>
      let id := client_seq s + 1 in
      s <| client_seq := id |>
        <| edge_clients := <[id := mkClientRow id userID tokenID clientID "active" "" None false false]>
                             (edge_clients s) |>
  end.

(** The statements run one by one, without a transaction: the new client row
    stays even when a later statement fails. *)
Definition Credential (s : Store) (tokenHash clientID : string) (create : bool) :
    Store * result (AccessToken * User * Client) :=
  match find_row (λ t, bool_decide (st_TokenHash t = tokenHash)) (cached_tokens s) with
  | None => (s, inl ErrNoRows)
  | Some token =>
      match cached_users s !! st_UserID token with
      | None => (s, inl ErrNoRows)
      | Some user =>
          let s := if create then ensure_client s (su_ID user) (st_ID token) clientID else s in
          match find_row (row_of_client (st_ID token) clientID) (edge_clients s) with
          | None => (s, inl ErrNoRows)
          | Some client => (s, inr (token_of token, user_of user, client_of_row client))
          end
      end
  end.

Definition ValidateCredential (now : time) (token : AccessToken) (user : User) (client : Client) :
    option string :=
  if bool_decide (u_Role user ≠ "user"%string) || bool_decide (u_Status user ≠ "active"%string)
  then Some (if bool_decide (u_BanReason user ≠ ""%string) then u_BanReason user else "user is not active"%string)
  else if bool_decide (t_Status token ≠ "active"%string)
  then Some (if bool_decide (t_BanReason token ≠ ""%string) then t_BanReason token else "token is not active"%string)
  else if match t_ExpiresAt token with Some e => After now e | None => false end
  then Some "token expired"%string
  else if bool_decide (c_Status client ≠ "active"%string) then Some (TrimSpace (c_BanReason client))
  else None.

(** [Policy]; [None] is an error. *)
Definition ResourcePolicy (s : Store) (userID : Z) : option UserResourcePolicy := cached_policies s !! userID.

Definition Grants (s : Store) (tokenID : Z) : list PortGrant :=
  snd <$> filter (λ kg, g_TokenID kg.2 = tokenID) (map_to_list (cached_grants s)).

Definition GetPolicy (s : Store) (flow : FlowContext) : policy_error + Policy :=
  if identityResetPending s then inl ErrPolicySynchronizing
  else if bool_decide (flow_UserID flow ≤ 0) then inr DefaultPolicy
  else inr (default DefaultPolicy (cached_dpi_policies s !! flow_UserID flow)).

(** ** Presence of clients *)

Definition update_client (s : Store) (id : Z) (f : ClientRow → ClientRow) : Store :=
  s <| edge_clients := alter f id (edge_clients s) |>.
Definition TouchClient (s : Store) (now : time) (id : Z) (frpcRunning : bool) : Store :=
  update_client s id (λ c, c <| ec_LastSeenAt := Some now |> <| ec_FRPCRunning := frpcRunning |>).
Definition TouchClientSeen (s : Store) (now : time) (id : Z) : Store :=
  update_client s id (λ c, c <| ec_LastSeenAt := Some now |> <| ec_DisconnectNotified := false |>).
Definition ClearClient (s : Store) (id : Z) : Store :=
  update_client s id (λ c, c <| ec_LastSeenAt := None |> <| ec_FRPCRunning := false |>
                             <| ec_DisconnectNotified := false |>).
Definition DisconnectWarning (s : Store) (id : Z) : Store * bool :=
  match edge_clients s !! id with
  | Some c => if ec_DisconnectNotified c then (s, false)
              else (update_client s id (λ c, c <| ec_DisconnectNotified := true |>), true)
  | None => (s, false)
  end.

Definition ClientFresh (s : Store) (now : time) (id seconds : Z) : bool :=
  match edge_clients s !! id with
  | Some c => match ec_LastSeenAt c with
              | Some seen => bool_decide (Sub now seen ≤ seconds * Second)
              | None => false
              end
  | None => false
  end.
Definition RuntimeClientFresh (s : Store) (now : time) (tokenID : Z) (clientID : string) (seconds : Z) : bool :=
  match find_row (λ c, row_of_client tokenID clientID c && bool_decide (ec_Status c = "active"%string))
          (edge_clients s) with
  | Some c => ClientFresh s now (ec_ID c) seconds
  | None => false
  end.
Definition StaleClients (s : Store) (cutoff : time) : list Client :=
  (λ kc : Z * ClientRow, client_of_row kc.2) <$>
  filter (λ kc : Z * ClientRow,
    bool_decide (ec_Status kc.2 = "active"%string) &&
    match ec_LastSeenAt kc.2 with None => true | Some seen => sql_after cutoff seen end = true)
  (map_to_list (edge_clients s)).

(** ** Leases *)

(** [None] is a nil error. *)
Definition RuntimeAuthorized (s : Store) (now : time) (userID tokenID : Z) : option store_error :=
  match cached_users s !! userID with
  | None => Some ErrNoRows
  | Some u =>
      match cached_tokens s !! tokenID with
      | None => Some ErrNoRows
      | Some t =>
          if bool_decide (st_UserID t ≠ userID) then Some ErrNoRows else
          if bool_decide (su_Status u ≠ "active"%string) || bool_decide (su_Role u ≠ "user"%string)
          then Some (ErrText (if bool_decide (su_BanReason u ≠ ""%string) then su_BanReason u
                              else "user is not active"%string))
          else if bool_decide (st_Status t ≠ "active"%string)
          then Some (ErrText (if bool_decide (st_BanReason t ≠ ""%string) then st_BanReason t
                              else "token is not active"%string))
          else match st_ExpiresAt t with
               | Some expires => if negb (Before now expires)
                                 then Some (ErrText "token expired or invalid expiry") else None
               | None => None
               end
      end
  end.

Definition RuntimeConnectionAuthorized (s : Store) (now now' : time) (userID tokenID : Z) (leaseID : string) :
    option store_error :=
  match RuntimeAuthorized s now userID tokenID with
  | Some err => Some err
  | None =>
      let active := match runtime_leases s !! leaseID with
                    | Some l => bool_decide (l_UserID l = userID) && bool_decide (l_TokenID l = tokenID) &&
                                bool_decide (l_Status l = "active"%string) && sql_after (l_ExpiresAt l) now'
                    | None => false
                    end in
      if active then None else Some (ErrText "runtime lease revoked or expired after identity update")
  end.

Fixpoint insert_allocations (leaseID : string) (vs : list ProxyAllocationInput)
    (t : gmap (string * string) ProxyAllocationInput) : result (gmap (string * string) ProxyAllocationInput) :=
  match vs with
  | [] => inr t
  | a :: vs => t <-- insert_row (leaseID, pa_ProxyName a) a t; insert_allocations leaseID vs t
  end.

Definition runtime_hash_taken (hash : string) (leases : gmap string RuntimeLease) : bool :=
  existsb (λ kl : string * RuntimeLease, bool_decide (l_RuntimeTokenHash kl.2 = hash)) (map_to_list leases).

(** The stored row is active whatever the argument's status. *)
Definition CreateLease (s : Store) (lease : RuntimeLease) (allocations : list ProxyAllocationInput) :
    result Store :=
  if identityResetPending s then inl (ErrText "identity cache is synchronizing; retry later") else
  let leases := revoke_where (of_client (l_TokenID lease) (l_ClientID lease)) (runtime_leases s) in
  if runtime_hash_taken (l_RuntimeTokenHash lease) leases then inl ErrConstraint else
  leases <-- insert_row (l_LeaseID lease) (lease <| l_Status := "active"%string |>) leases;
  match cached_tokens s !! l_TokenID lease with
  | None => inl (ErrText "lease issuer identity unavailable")
  | Some t =>
      issuers <-- insert_row (l_LeaseID lease) (st_TokenHash t) (lease_issuers s);
      allocs <-- insert_allocations (l_LeaseID lease) allocations (lease_allocations s);
      inr (s <| runtime_leases := leases |> <| lease_issuers := issuers |> <| lease_allocations := allocs |>)
  end.

Definition RuntimeLeaseByHash (s : Store) (hash : string) : option RuntimeLease :=
  find_row (λ l, bool_decide (l_RuntimeTokenHash l = hash)) (runtime_leases s).

Definition AllocationExists (s : Store) (leaseID name kind : string) (port : Z) (domain subdomain : string) : bool :=
  match lease_allocations s !! (leaseID, name) with
  | Some a => bool_decide (pa_ProxyType a = kind) && bool_decide (pa_RemotePort a = port) &&
              bool_decide (pa_Domain a = domain) && bool_decide (pa_Subdomain a = subdomain)
  | None => false
  end.

(** The rows that the join of [RemotePortInUseExceptClient] counts. *)
Definition occupies (s : Store) (now : time) (protocol : string) (port : Z) (tokenID : Z) (clientID : string)
    (ka : string * string * ProxyAllocationInput) : bool :=
  bool_decide (pa_ProxyType ka.2 = protocol) && bool_decide (pa_RemotePort ka.2 = port) &&
  match runtime_leases s !! ka.1.1 with
  | Some l => bool_decide (l_Status l = "active"%string) && sql_after (l_ExpiresAt l) now &&
              negb (of_client tokenID clientID l)
  | None => false
  end.
Definition RemotePortInUseExceptClient (s : Store) (now : time) (protocol : string) (port tokenID : Z)
    (clientID : string) : bool :=
  existsb (occupies s now protocol port tokenID clientID) (map_to_list (lease_allocations s)).

Definition RevokeClient (s : Store) (tokenID : Z) (clientID : string) : Store :=
  s <| runtime_leases := revoke_where (of_client tokenID clientID) (runtime_leases s) |>.

Definition ReleaseRuntimeLease (s : Store) (leaseID : string) (tokenID : Z) (clientID : string) : Store * bool :=
  let released := match runtime_leases s !! leaseID with
                  | Some l => bool_decide (l_Status l = "active"%string) && of_client tokenID clientID l
                  | None => false
                  end in
  (s <| runtime_leases := alter (λ l, if released then revoke_lease l else l) leaseID (runtime_leases s) |>, released).

(** ** Commands for a client *)

Definition enqueue_command (s : Store) (rowID : Z) (command message : string) : Store :=
  let id := command_seq s + 1 in
  s <| command_seq := id |>
    <| edge_client_commands := <[id := mkCommandRow id rowID command message "queued"]> (edge_client_commands s) |>.

(** The leases a command disconnects, in the order of the query. *)
Definition active_leases_of (s : Store) (tokenID : Z) (clientID : string) : list string :=
  fst <$> filter (λ kl : string * RuntimeLease,
    bool_decide (l_Status kl.2 = "active"%string) && of_client tokenID clientID kl.2 = true)
  (map_to_list (runtime_leases s)).

Definition DisconnectClientForCommand (s : Store) (commandID : string) (tokenID : Z) (clientID reason : string) :
    Store * result (list string) :=
  match command_disconnect_effects s !! commandID with
  | Some ids => (s, inr ids)
  | None =>
      match find_row (row_of_client tokenID clientID) (edge_clients s) with
      | None => (s, inl ErrNoRows)
      | Some c =>
          let ids := active_leases_of s tokenID clientID in
          let s := RevokeClient s tokenID clientID in
          let s := enqueue_command s (ec_ID c) "reauth" reason in
          (s <| command_disconnect_effects := <[commandID := ids]> (command_disconnect_effects s) |>, inr ids)
      end
  end.

Definition EnqueueClientCommand (s : Store) (tokenID : Z) (clientID command message : string) :
    Store * option store_error :=
  match find_row (row_of_client tokenID clientID) (edge_clients s) with
  | None => (s, Some ErrNoRows)
  | Some c => (enqueue_command s (ec_ID c) command message, None)
  end.

Definition pending_status (status : string) : bool :=
  bool_decide (status = "queued"%string) || bool_decide (status = "delivered"%string).

Definition command_le (a b : CommandRow) : Prop := cr_ID a ≤ cr_ID b.
#[export] Instance command_le_dec : RelDecision command_le := λ a b, decide (cr_ID a ≤ cr_ID b).

(** The pending commands of a client in the order of their ids, marked as
    delivered. *)
Definition PopClientCommands (s : Store) (rowID : Z) : Store * list CommandRow :=
  let wanted (c : CommandRow) := bool_decide (cr_ClientRowID c = rowID) && pending_status (cr_Status c) in
  let rows := merge_sort command_le
                (filter (λ c, wanted c = true) (map_to_list (edge_client_commands s)).*2) in
  (s <| edge_client_commands := (λ c, if wanted c then c <| cr_Status := "delivered"%string |> else c) <$>
                                edge_client_commands s |>, rows).

Definition AcknowledgeClientCommand (s : Store) (commandID rowID : Z) : Store * option store_error :=
  match edge_client_commands s !! commandID with
  | Some c =>
      if bool_decide (cr_ClientRowID c = rowID) &&
         (pending_status (cr_Status c) || bool_decide (cr_Status c = "acknowledged"%string))
      then (s <| edge_client_commands := <[commandID := c <| cr_Status := "acknowledged"%string |>]>
                                           (edge_client_commands s) |>, None)
      else (s, Some ErrNotFound)
  | None => (s, Some ErrNotFound)
  end.

Definition DeleteUnacknowledgedClientCommands (s : Store) (rowID : Z) : Store * Z :=
  let kept := filter (λ kc : Z * CommandRow,
    bool_decide (cr_ClientRowID kc.2 = rowID) && pending_status (cr_Status kc.2) = false)
    (edge_client_commands s) in
  (s <| edge_client_commands := kept |>,
   Z.of_nat (size (edge_client_commands s)) - Z.of_nat (size kept)).

End store.
