(* ===== verification/EdgeIdentity.v ===== *)
(** * Identity synchronization of the edge

    Theorems on [ApplyIdentitySnapshot] and [resetIdentityCache] of
    [EdgeStore]: which leases survive a snapshot, the order of revisions, token
    rotation, the window of a cache reset, a controller that does not enforce
    node access, and the equivalence of a paged baseline with one snapshot. *)
From Stdlib Require Import ZArith Lia Ascii String.
From stdpp Require Import gmap strings list fin_maps.
From S2P Require Import Prelude GoStrings Types DpiEngine DpiService EdgeStore.
Local Open Scope Z_scope.

(** ** Shape of a successful application *)

Lemma rbind_inr {A B} (x : result A) (f : A → result B) b :
  rbind x f = inr b ↔ ∃ a, x = inr a ∧ f a = inr b.
Proof. destruct x; cbn; naive_solver. Qed.

Lemma guard_err_inr b msg u : guard_err b msg = inr u ↔ b = false.
Proof. destruct b, u; cbn; naive_solver. Qed.

Lemma insert_identities_inv snapshot s s1 :
  insert_identities snapshot s = inr s1 →
  ∃ users tokens policies grants dpi,
    insert_rows su_ID (cached_user snapshot <$> Users snapshot) (cached_users s) = inr users ∧
    insert_tokens (Tokens snapshot) (cached_tokens s) = inr tokens ∧
    insert_rows rp_UserID (Policies snapshot) (cached_policies s) = inr policies ∧
    insert_rows g_ID (Grants_ snapshot) (cached_grants s) = inr grants ∧
    insert_rows p_UserID (DPIPolicies snapshot) (cached_dpi_policies s) = inr dpi ∧
    s1 = s <| cached_users := users |> <| cached_tokens := tokens |> <| cached_policies := policies |>
           <| cached_grants := grants |> <| cached_dpi_policies := dpi |>.
Proof.
  unfold insert_identities.
  intros (users & Hu & (tokens & Ht & (policies & Hp & (grants & Hg & (dpi & Hd & [= <-])%rbind_inr)%rbind_inr)%rbind_inr)%rbind_inr)%rbind_inr.
  by exists users, tokens, policies, grants, dpi.
Qed.

Section identity.
Context (julianday : time → Z).
Context (julianday_mono : ∀ a b, a ≤ b → julianday a ≤ julianday b).

(** The tables before the rows of the snapshot are inserted. *)
Definition prepared (s : Store) (snapshot : IdentitySnapshot) : Store :=
  remove_old snapshot (foldl revoke_rotated s (Tokens snapshot)).

(** What follows the insertion of the rows. *)
Definition finish (snapshot : IdentitySnapshot) (now now' : time) (s1 : Store) : Store :=
  let s2 := s1 <| controller_blocked_ips := apply_blocked_ips snapshot (controller_blocked_ips s1) |> in
  let s3 := if complete snapshot
            then s2 <| runtime_leases := revoke_where (λ l, negb (lease_supported julianday s2 now l)) (runtime_leases s2) |>
            else s2 in
  let s4 := s3 <| last_revision := Some (Revision snapshot) |> <| last_sync_at := Some now' |>
               <| edge_clients := reset_notified snapshot (edge_clients s3) |> in
  if negb (Incremental snapshot) && complete snapshot then s4 <| identityResetPending := false |> else s4.

Lemma Apply_inv s now now' snapshot s' :
  ApplyIdentitySnapshot julianday s now now' (inr snapshot) = inr s' ↔
  revision_errors s snapshot = inr tt ∧
  ∃ s1, insert_identities snapshot (prepared s snapshot) = inr s1 ∧ s' = finish snapshot now now' s1.
Proof.
  unfold ApplyIdentitySnapshot. rewrite rbind_inr. split.
  - intros ([] & Hr & (s1 & Hs1 & [= <-])%rbind_inr). split; [done|]. by exists s1.
  - intros (Hr & s1 & Hs1 & ->). exists tt. split; [done|]. apply rbind_inr. by exists s1.
Qed.

(** ** Frames *)

Lemma foldl_frame {A} (f : Store → A → Store) {B} (proj : Store → B) xs s :
  (∀ s x, proj (f s x) = proj s) → proj (foldl f s xs) = proj s.
Proof. intros Hf. revert s. induction xs as [|x xs IH]; intros s; cbn; [done|]. by rewrite IH, Hf. Qed.

Lemma prepared_pending s snapshot : identityResetPending (prepared s snapshot) = identityResetPending s.
Proof.
  unfold prepared, remove_old. destruct (Incremental snapshot), (Baseline snapshot); cbn;
    rewrite ?(foldl_frame delete_user identityResetPending) by done; by apply foldl_frame.
Qed.

Lemma prepared_leases s snapshot :
  runtime_leases (prepared s snapshot) = runtime_leases (foldl revoke_rotated s (Tokens snapshot)).
Proof.
  unfold prepared, remove_old. destruct (Incremental snapshot), (Baseline snapshot); cbn; try done;
    by apply foldl_frame.
Qed.

Lemma lookup_revoke_where cond leases id :
  revoke_where cond leases !! id =
  (λ l, if bool_decide (l_Status l = "active"%string) && cond l then revoke_lease l else l) <$> leases !! id.
Proof. apply lookup_fmap. Qed.

(** A lease that is active after a revocation was not selected by it. *)
Lemma revoke_where_active cond leases id l :
  revoke_where cond leases !! id = Some l → l_Status l = "active"%string →
  leases !! id = Some l ∧ cond l = false.
Proof.
  rewrite lookup_revoke_where. intros (l0 & Hl0 & ->)%fmap_Some.
  destruct (bool_decide_reflect (l_Status l0 = "active"%string)), (cond l0) eqn:Hc; cbn; naive_solver.
Qed.

(** ** Surviving leases *)

Lemma lease_supported_finish snapshot now now' s1 t l :
  lease_supported julianday (finish snapshot now now' s1) t l = lease_supported julianday s1 t l.
Proof. unfold finish. destruct (complete snapshot), (Incremental snapshot); reflexivity. Qed.

Lemma finish_leases snapshot now now' s1 :
  runtime_leases (finish snapshot now now' s1) =
  if complete snapshot then revoke_where (λ l, negb (lease_supported julianday s1 now l)) (runtime_leases s1)
  else runtime_leases s1.
Proof. unfold finish. destruct (complete snapshot), (Incremental snapshot); reflexivity. Qed.

Lemma lease_supported_spec s now l :
  lease_supported julianday s now l = true →
  RuntimeAuthorized s now (l_UserID l) (l_TokenID l) = None ∧
  (∃ p, cached_policies s !! l_UserID l = Some p ∧ rp_Enabled p = true) ∧
  (∀ hash, lease_issuers s !! l_LeaseID l = Some hash →
     ∃ t, cached_tokens s !! l_TokenID l = Some t ∧ st_TokenHash t = hash).
Proof.
  unfold lease_supported, RuntimeAuthorized, sql_after. intros H.
  destruct (cached_users s !! l_UserID l) as [u|]; [|done].
  destruct (cached_policies s !! l_UserID l) as [p|]; [|by rewrite andb_false_r in H].
  destruct (cached_tokens s !! l_TokenID l) as [t|]; [|by rewrite andb_false_r in H].
  apply andb_true_iff in H as [H Hi]. apply andb_true_iff in H as [H Ht].
  apply andb_true_iff in H as [Hu Hp]. apply andb_true_iff in Ht as [Ht He].
  rewrite <- bool_decide_and, bool_decide_eq_true in Hu, Ht. destruct Hu as [Hu1 Hu2], Ht as [Ht1 Ht2].
  rewrite Hu1, Hu2, Ht1, Ht2, !bool_decide_false by naive_solver. cbn [orb].
  split; [|split; [by exists p|]].
  - destruct (st_ExpiresAt t) as [e|]; [|done]. apply bool_decide_eq_true in He.
    unfold Before. rewrite bool_decide_true; [done|]. destruct (Z.lt_ge_cases now e); [done|].
    specialize (julianday_mono e now). lia.
  - intros hash Hh. rewrite Hh in Hi. exists t. by apply bool_decide_eq_true in Hi.
Qed.

(** C17: a complete snapshot leaves no unauthorized lease: after a full or an
    incremental snapshot, or the last page of a baseline, every lease that is
    still active passes the runtime check of its user and token, its user has an
    enabled policy, and the token it was issued for has not been rotated. *)
Theorem ApplyIdentitySnapshot_authorizes s now now' snapshot s' id l :
  ApplyIdentitySnapshot julianday s now now' (inr snapshot) = inr s' → complete snapshot = true →
  runtime_leases s' !! id = Some l → l_Status l = "active"%string →
  RuntimeAuthorized s' now (l_UserID l) (l_TokenID l) = None ∧
  (∃ p, cached_policies s' !! l_UserID l = Some p ∧ rp_Enabled p = true) ∧
  (∀ hash, lease_issuers s' !! l_LeaseID l = Some hash →
     ∃ t, cached_tokens s' !! l_TokenID l = Some t ∧ st_TokenHash t = hash).
Proof.
  intros (_ & s1 & _ & ->)%Apply_inv Hc Hl Ha. rewrite finish_leases, Hc in Hl.
  destruct (revoke_where_active _ _ _ _ Hl Ha) as [_ Hs]. apply negb_false_iff in Hs.
  apply lease_supported_spec. by rewrite lease_supported_finish.
Qed.

(** ** Token rotation *)

Definition rotated (s : Store) (token : SnapshotToken) : Prop :=
  ∃ t, cached_tokens s !! st_ID token = Some t ∧ st_TokenHash t ≠ st_TokenHash token.

Lemma revoke_rotated_active tokens s id l :
  runtime_leases (foldl revoke_rotated s tokens) !! id = Some l → l_Status l = "active"%string →
  runtime_leases s !! id = Some l ∧
  Forall (λ token, ¬ (rotated s token ∧ l_TokenID l = st_ID token)) tokens.
Proof.
  revert s. induction tokens as [|token tokens IH]; intros s; cbn [foldl]; [by split|].
  intros Hl Ha. destruct (IH _ Hl Ha) as [Hl1 Hall].
  destruct (revoke_where_active _ _ _ _ Hl1 Ha) as [Hl0 Hc]. split; [done|].
  constructor; [|done]. intros [(t & Ht & Hne) Hid]. rewrite Ht in Hc.
  rewrite !bool_decide_eq_true_2, bool_decide_eq_false_2 in Hc by done. done.
Qed.

Lemma finish_active snapshot now now' s1 id l :
  runtime_leases (finish snapshot now now' s1) !! id = Some l → l_Status l = "active"%string →
  runtime_leases s1 !! id = Some l.
Proof.
  rewrite finish_leases. destruct (complete snapshot); [|done].
  intros Hl Ha. by destruct (revoke_where_active _ _ _ _ Hl Ha).
Qed.

Lemma insert_identities_leases snapshot s s1 :
  insert_identities snapshot s = inr s1 → runtime_leases s1 = runtime_leases s.
Proof. by intros (? & ? & ? & ? & ? & _ & _ & _ & _ & _ & ->)%insert_identities_inv. Qed.

(** C29: a snapshot never revives or creates a lease, and one that carries a token
    with a new secret ends the runtime credentials issued under the old one:
    every lease active afterwards was the same active lease before, and none of
    them belongs to a rotated token. *)
Theorem ApplyIdentitySnapshot_rotation s now now' snapshot s' id l :
  ApplyIdentitySnapshot julianday s now now' (inr snapshot) = inr s' →
  runtime_leases s' !! id = Some l → l_Status l = "active"%string →
  runtime_leases s !! id = Some l ∧
  ∀ token, token ∈ Tokens snapshot → rotated s token → l_TokenID l ≠ st_ID token.
Proof.
  intros (_ & s1 & Hi & ->)%Apply_inv Hl Ha. apply finish_active in Hl; [|done].
  rewrite (insert_identities_leases _ _ _ Hi), prepared_leases in Hl.
  destruct (revoke_rotated_active _ _ _ _ Hl Ha) as [Hl0 Hall]. split; [done|].
  intros token Hin Hr Hid. rewrite Forall_forall in Hall. by apply (Hall token Hin).
Qed.

(** ** Order of revisions and the reset window *)

Lemma revision_errors_iff s snapshot :
  revision_errors s snapshot = inr tt ↔
  (Baseline snapshot = true → identityResetPending s = true) ∧
  ¬ (Baseline snapshot = true ∧ Incremental snapshot = true) ∧ 0 < Revision snapshot ∧
  (Baseline snapshot = true → ∀ previous, last_revision s = Some previous → previous < Revision snapshot) ∧
  (Incremental snapshot = true → ∃ previous, last_revision s = Some previous ∧ previous < Revision snapshot).
Proof.
  unfold revision_errors. destruct (Baseline snapshot), (Incremental snapshot), (identityResetPending s),
    (last_revision s) as [previous|], (bool_decide_reflect (Revision snapshot ≤ 0));
    try destruct (bool_decide_reflect (Revision snapshot ≤ previous)); cbn; split; intros H; try done;
    try (destruct_and! H); try naive_solver lia.
Qed.

(** C30: revisions only go forward: a baseline page or an incremental update is
    applied only on top of a smaller revision, which it replaces, a baseline only
    inside the window that a cache reset opens, and an incremental update only
    after a first synchronization. *)
Theorem ApplyIdentitySnapshot_revisions s now now' snapshot s' :
  ApplyIdentitySnapshot julianday s now now' (inr snapshot) = inr s' →
  last_revision s' = Some (Revision snapshot) ∧ 0 < Revision snapshot ∧
  (Baseline snapshot = true → identityResetPending s = true ∧ Incremental snapshot = false) ∧
  (Baseline snapshot = true ∨ Incremental snapshot = true →
   ∀ previous, last_revision s = Some previous → previous < Revision snapshot) ∧
  (Incremental snapshot = true → is_Some (last_revision s)).
Proof.
  intros (Hr & s1 & Hi & ->)%Apply_inv. apply revision_errors_iff in Hr as (H1 & H2 & H3 & H4 & H5).
  split_and!; [|done|..].
  - unfold finish. destruct (complete snapshot), (Incremental snapshot); reflexivity.
  - intros Hb. split; [by apply H1|]. destruct (Incremental snapshot); naive_solver.
  - naive_solver.
  - intros Hinc. destruct (H5 Hinc) as (previous & Hp & _). by exists previous.
Qed.

Lemma Apply_pending s now now' snapshot s' :
  ApplyIdentitySnapshot julianday s now now' (inr snapshot) = inr s' →
  identityResetPending s' =
  if negb (Incremental snapshot) && complete snapshot then false else identityResetPending s.
Proof.
  intros (_ & s1 & Hi & ->)%Apply_inv.
  apply insert_identities_inv in Hi as (? & ? & ? & ? & ? & _ & _ & _ & _ & _ & ->).
  unfold finish. rewrite <- (prepared_pending s snapshot).
  destruct (complete snapshot), (Incremental snapshot); reflexivity.
Qed.

(** Snapshots arriving one after the other; a rejected one changes nothing. *)
Definition receive (s : Store) (m : time * time * IdentitySnapshot) : Store :=
  let '(now, now', snapshot) := m in
  match ApplyIdentitySnapshot julianday s now now' (inr snapshot) with inr s' => s' | inl _ => s end.

Definition completes (m : time * time * IdentitySnapshot) : bool :=
  negb (Incremental m.2) && complete m.2.

Lemma receive_pending s ms :
  identityResetPending s = true → forallb (λ m, negb (completes m)) ms = true →
  identityResetPending (foldl receive s ms) = true.
Proof.
  revert s. induction ms as [|[[now now'] snapshot] ms IH]; intros s Hp Hms; cbn [foldl]; [done|].
  cbn [forallb] in Hms. apply andb_true_iff in Hms as [Hm Hms]. apply negb_true_iff in Hm.
  apply IH; [|done]. unfold receive.
  destruct (ApplyIdentitySnapshot _ _ _ _ _) as [e|s'] eqn:Happ; [done|].
  apply Apply_pending in Happ. unfold completes in Hm. cbn in Hm. by rewrite Happ, Hm.
Qed.

(** C28: the window of a cache reset is closed only by a complete identity: after
    a reset, whatever pages and updates arrive in whatever order, as long as none
    of them is a full snapshot or the last page of a baseline, no lease can be
    created and every DPI policy lookup answers that it is synchronizing. *)
Theorem reset_window s boot ms lease allocations flow :
  forallb (λ m, negb (completes m)) ms = true →
  let s' := foldl receive (resetIdentityCache s boot) ms in
  CreateLease s' lease allocations = inl (ErrText "identity cache is synchronizing; retry later") ∧
  GetPolicy s' flow = inl ErrPolicySynchronizing.
Proof.
  intros Hms. cbn zeta. unfold CreateLease, GetPolicy.
  rewrite receive_pending; [by split| |done]. by destruct boot.
Qed.

(** ** Rows inserted by a snapshot *)

Lemma insert_row_inr {K V} `{Countable K} (k : K) (v : V) (t t' : gmap K V) :
  insert_row k v t = inr t' ↔ t !! k = None ∧ t' = <[k := v]> t.
Proof. unfold insert_row. destruct (t !! k); naive_solver. Qed.

Lemma insert_rows_app {K V} `{Countable K} (key : V → K) xs ys (t : gmap K V) :
  insert_rows key (xs ++ ys) t = rbind (insert_rows key xs t) (insert_rows key ys).
Proof.
  revert t. induction xs as [|x xs IH]; intros t; cbn; [done|].
  destruct (insert_row (key x) x t); cbn; [done|]. apply IH.
Qed.

Lemma insert_tokens_app xs ys t :
  insert_tokens (xs ++ ys) t = rbind (insert_tokens xs t) (insert_tokens ys).
Proof.
  revert t. induction xs as [|x xs IH]; intros t; cbn; [done|].
  destruct (hash_taken _ _); [done|]. destruct (insert_row _ _ _); cbn; [done|]. apply IH.
Qed.

(** The rows of a table after the insertions are the old and the new ones. *)
Lemma insert_rows_lookup {K V} `{Countable K} (key : V → K) vs (t t' : gmap K V) k v :
  insert_rows key vs t = inr t' → t' !! k = Some v → t !! k = Some v ∨ (v ∈ vs ∧ key v = k).
Proof.
  revert t. induction vs as [|x vs IH]; intros t; cbn; [intros [= <-]; by left|].
  intros (t1 & (Hn & ->)%insert_row_inr & Hr)%rbind_inr Hk.
  destruct (IH _ Hr Hk) as [Hi|[Hi Hkey]]; [|right; split; [by right|done]].
  apply lookup_insert_Some in Hi as [[<- <-]|[_ Hi]]; [right; split; [by left|done]|by left].
Qed.

Lemma insert_tokens_fresh vs t t' :
  insert_tokens vs t = inr t' → Forall (λ v, t !! st_ID v = None) vs.
Proof.
  revert t. induction vs as [|x vs IH]; intros t; cbn; [constructor|].
  destruct (hash_taken _ _); [done|]. intros (t1 & (Hn & ->)%insert_row_inr & Hr)%rbind_inr.
  constructor; [done|]. eapply Forall_impl; [exact (IH _ Hr)|]. cbn.
  intros v Hv. apply lookup_insert_None in Hv. by destruct Hv.
Qed.

(** ** A controller that does not enforce node access *)

(** the edge fails closed on a controller that does not synchronize node
    access: after its full snapshot no cached user is active, so every lease is
    revoked and no credential is accepted. *)
Theorem unenforced_snapshot_closed s now now' snapshot s' :
  ApplyIdentitySnapshot julianday s now now' (inr snapshot) = inr s' →
  NodeAccessEnforced snapshot = false → Baseline snapshot = false → Incremental snapshot = false →
  (∀ id l, runtime_leases s' !! id = Some l → l_Status l ≠ "active"%string) ∧
  (∀ t hash client create s'' token user c,
     Credential s' hash client create = (s'', inr (token, user, c)) →
     is_Some (ValidateCredential t token user c)).
Proof.
  intros (_ & s1 & Hi & ->)%Apply_inv He Hb Hinc.
  assert (Hc : complete snapshot = true) by (unfold complete; by rewrite Hb).
  assert (Hbanned : ∀ id u, cached_users s1 !! id = Some u → su_Status u = "banned"%string).
  { apply insert_identities_inv in Hi as (users & ? & ? & ? & ? & Hu & _ & _ & _ & _ & ->). cbn.
    intros id u Hlook. unfold prepared, remove_old in Hu. rewrite Hinc, Hb in Hu. cbn in Hu.
    destruct (insert_rows_lookup _ _ _ _ _ _ Hu Hlook) as [Hx|[Hx _]]; [by rewrite lookup_empty in Hx|].
    apply list_elem_of_fmap in Hx as (v & -> & _). unfold cached_user. by rewrite He. }
  split.
  - intros id l Hl Ha. rewrite finish_leases, Hc in Hl.
    destruct (revoke_where_active _ _ _ _ Hl Ha) as [_ Hs]. apply negb_false_iff in Hs.
    unfold lease_supported in Hs. destruct (cached_users s1 !! l_UserID l) as [u|] eqn:Hu; [|done].
    by rewrite (Hbanned _ _ Hu) in Hs.
  - intros t hash client create s'' token user c Hcred. unfold Credential in Hcred.
    assert (Husers : cached_users (finish snapshot now now' s1) = cached_users s1)
      by (unfold finish; destruct (complete snapshot), (Incremental snapshot); reflexivity).
    rewrite Husers in Hcred. destruct (find_row _ _) as [tok|]; [|done].
    destruct (cached_users s1 !! st_UserID tok) as [u|] eqn:Hu; [|done].
    destruct (find_row _ _); [|done]. injection Hcred as _ _ <- _.
    unfold ValidateCredential. cbn. rewrite (Hbanned _ _ Hu), orb_true_r. by eexists.
Qed.

(** ** Paged baselines *)

(** A page of a baseline as the controller sends it: the blocked addresses come
    with the last page only. *)
Definition page_ok (p : IdentitySnapshot) : Prop :=
  Baseline p = true ∧ Incremental p = false ∧ NodeAccessEnforced p = true.
Definition inner_page (p : IdentitySnapshot) : Prop :=
  page_ok p ∧ BaselineEnd p = false ∧ ReplaceBlockedIPs p = false ∧ BlockedIPs p = [] ∧ RemovedBlockedIPs p = [].

(** Two pages in one. *)
Definition merge_page (p q : IdentitySnapshot) : IdentitySnapshot :=
  mkSnapshot true (BaselineEnd q) (ReplaceBlockedIPs q) false [] true (Revision q)
    (Users p ++ Users q) (Tokens p ++ Tokens q) (Policies p ++ Policies q) (Grants_ p ++ Grants_ q)
    (DPIPolicies p ++ DPIPolicies q) (BlockedIPs q) (RemovedBlockedIPs q).

Lemma revoke_where_false cond leases : (∀ l, cond l = false) → revoke_where cond leases = leases.
Proof.
  intros Hc. unfold revoke_where. rewrite <- (map_fmap_id leases) at 2.
  apply map_fmap_ext. intros id l _. by rewrite Hc, andb_false_r.
Qed.

Lemma revoke_rotated_fresh tokens s :
  Forall (λ v, cached_tokens s !! st_ID v = None) tokens → foldl revoke_rotated s tokens = s.
Proof.
  induction tokens as [|v tokens IH]; intros Hall; [done|]. apply Forall_cons in Hall as [Hv Hall].
  cbn [foldl]. replace (revoke_rotated s v) with s; [by apply IH|].
  unfold revoke_rotated. rewrite Hv, revoke_where_false; [by destruct s|]. intros l. apply andb_false_r.
Qed.

Lemma insert_identities_tokens snapshot s s1 :
  insert_identities snapshot s = inr s1 → Forall (λ v, cached_tokens s !! st_ID v = None) (Tokens snapshot).
Proof. intros (? & ? & ? & ? & ? & _ & Ht & _)%insert_identities_inv. by eapply insert_tokens_fresh. Qed.

(** A page is its insertions: nothing is removed or rotated. *)
Lemma Apply_page s now now' p s' :
  page_ok p →
  ApplyIdentitySnapshot julianday s now now' (inr p) = inr s' ↔
  revision_errors s p = inr tt ∧ ∃ s1, insert_identities p s = inr s1 ∧ s' = finish p now now' s1.
Proof.
  intros (Hb & Hi & _). rewrite Apply_inv. f_equiv. f_equiv. intros s1.
  apply and_iff_compat_r. unfold prepared, remove_old. rewrite Hb, Hi. cbn [negb].
  split; intros Hins; assert (Hf := insert_identities_tokens _ _ _ Hins).
  - rewrite (foldl_frame revoke_rotated cached_tokens) in Hf by done.
    by rewrite revoke_rotated_fresh in Hins.
  - by rewrite revoke_rotated_fresh.
Qed.

Lemma insert_identities_iff snapshot s s1 :
  insert_identities snapshot s = inr s1 ↔
  insert_rows su_ID (cached_user snapshot <$> Users snapshot) (cached_users s) = inr (cached_users s1) ∧
  insert_tokens (Tokens snapshot) (cached_tokens s) = inr (cached_tokens s1) ∧
  insert_rows rp_UserID (Policies snapshot) (cached_policies s) = inr (cached_policies s1) ∧
  insert_rows g_ID (Grants_ snapshot) (cached_grants s) = inr (cached_grants s1) ∧
  insert_rows p_UserID (DPIPolicies snapshot) (cached_dpi_policies s) = inr (cached_dpi_policies s1) ∧
  s1 = s <| cached_users := cached_users s1 |> <| cached_tokens := cached_tokens s1 |>
         <| cached_policies := cached_policies s1 |> <| cached_grants := cached_grants s1 |>
         <| cached_dpi_policies := cached_dpi_policies s1 |>.
Proof.
  split.
  - by intros (? & ? & ? & ? & ? & ? & ? & ? & ? & ? & ->)%insert_identities_inv.
  - intros (Hu & Ht & Hp & Hg & Hd & ->). unfold insert_identities. cbn in *.
    by rewrite Hu, Ht, Hp, Hg, Hd.
Qed.

Lemma cached_user_enforced snapshot (users : list SnapshotUser) :
  NodeAccessEnforced snapshot = true → cached_user snapshot <$> users = users.
Proof.
  intros He. rewrite <- (list_fmap_id users) at 2. apply list_fmap_ext. intros i u _.
  unfold cached_user. by rewrite He.
Qed.

Lemma insert_identities_merge p q s s2 :
  NodeAccessEnforced p = true → NodeAccessEnforced q = true →
  insert_identities (merge_page p q) s = inr s2 ↔
  ∃ s1, insert_identities p s = inr s1 ∧ insert_identities q s1 = inr s2.
Proof.
  intros Hp Hq. rewrite insert_identities_iff. setoid_rewrite insert_identities_iff.
  rewrite !cached_user_enforced by done. cbn [merge_page Users Tokens Policies Grants_ DPIPolicies].
  rewrite !insert_rows_app, insert_tokens_app, !rbind_inr. split.
  - intros ((u & Hu1 & Hu2) & (t & Ht1 & Ht2) & (po & Hp1 & Hp2) & (g & Hg1 & Hg2) & (d & Hd1 & Hd2) & Hs2).
    exists (s <| cached_users := u |> <| cached_tokens := t |> <| cached_policies := po |>
              <| cached_grants := g |> <| cached_dpi_policies := d |>).
    cbn. split_and!; done.
  - intros (s1 & (Hu1 & Ht1 & Hp1 & Hg1 & Hd1 & Hs1) & (Hu2 & Ht2 & Hp2 & Hg2 & Hd2 & Hs2)).
    split_and!; try (eexists; split; eassumption).
    rewrite Hs2. rewrite Hs1. reflexivity.
Qed.

Lemma finish_inner p now now' s1 :
  inner_page p →
  finish p now now' s1 = s1 <| last_revision := Some (Revision p) |> <| last_sync_at := Some now' |>
                            <| edge_clients := reset_notified p (edge_clients s1) |>.
Proof.
  intros ((Hb & Hi & _) & He & Hr & Hbl & Hrm). unfold finish, complete, apply_blocked_ips, complete.
  rewrite Hb, Hi, He, Hr, Hbl, Hrm. by destruct s1.
Qed.

(** The rows of the next page do not see what an inner page has finished. *)
Lemma insert_identities_finish p q now now' s1 s3 :
  inner_page p →
  insert_identities q (finish p now now' s1) = inr s3 ↔
  ∃ s2, insert_identities q s1 = inr s2 ∧ s3 = finish p now now' s2.
Proof.
  intros Hp. rewrite (finish_inner p now now' s1 Hp). split.
  - intros (u & t & po & g & d & Hu & Ht & Hpo & Hg & Hd & ->)%insert_identities_inv. cbn in *.
    eexists. split; [unfold insert_identities; rewrite Hu, Ht, Hpo, Hg, Hd; reflexivity|].
    by rewrite (finish_inner _ _ _ _ Hp).
  - intros (s2 & (u & t & po & g & d & Hu & Ht & Hpo & Hg & Hd & ->)%insert_identities_inv & ->).
    unfold insert_identities. cbn. rewrite Hu, Ht, Hpo, Hg, Hd. cbn. by rewrite (finish_inner _ _ _ _ Hp).
Qed.

Lemma reset_notified_twice p q clients :
  Incremental p = false → Incremental q = false →
  reset_notified q (reset_notified p clients) = reset_notified (merge_page p q) clients.
Proof.
  intros Hp Hq. unfold reset_notified. rewrite <- map_fmap_compose. apply map_fmap_ext.
  intros id c _. cbn. by rewrite Hp, Hq.
Qed.

Lemma finish_merge p q n n' now now' s :
  inner_page p → page_ok q →
  finish q now now' (finish p n n' s) = finish (merge_page p q) now now' s.
Proof.
  intros Hp (Hb & Hi & _). rewrite (finish_inner _ _ _ _ Hp). destruct Hp as ((_ & Hpi & _) & _).
  unfold finish, complete, apply_blocked_ips, complete.
  cbn [merge_page Baseline BaselineEnd Incremental ReplaceBlockedIPs BlockedIPs RemovedBlockedIPs Revision].
  rewrite Hb, Hi. destruct (BaselineEnd q); cbn -[reset_notified merge_page]; by rewrite <- reset_notified_twice.
Qed.

Lemma page_revision s p :
  page_ok p → identityResetPending s = true → 0 < Revision p →
  (∀ previous, last_revision s = Some previous → previous < Revision p) →
  revision_errors s p = inr tt.
Proof. intros (Hb & Hi & _) Hs Hr Hprev. apply revision_errors_iff. rewrite Hb, Hi. naive_solver. Qed.

(** Two consecutive pages are one page. *)
Lemma Apply_two_pages s n n' now now' p q s2 :
  inner_page p → page_ok q → identityResetPending s = true → 0 < Revision p → Revision p < Revision q →
  (∀ previous, last_revision s = Some previous → previous < Revision p) →
  (∃ s1, ApplyIdentitySnapshot julianday s n n' (inr p) = inr s1 ∧
         ApplyIdentitySnapshot julianday s1 now now' (inr q) = inr s2) ↔
  ApplyIdentitySnapshot julianday s now now' (inr (merge_page p q)) = inr s2.
Proof.
  intros Hp Hq Hs H0 Hpq Hprev. assert (Hpok := proj1 Hp).
  assert (Hm : page_ok (merge_page p q)) by done.
  rewrite (Apply_page s now now' _ s2 Hm). setoid_rewrite (λ s1, Apply_page s n n' p s1 Hpok).
  setoid_rewrite (λ s1, Apply_page s1 now now' q s2 Hq).
  setoid_rewrite (λ s1, insert_identities_merge p q s s1 (proj2 (proj2 Hpok)) (proj2 (proj2 Hq))).
  split.
  - intros (s1 & (_ & sp & Hsp & ->) & _ & sq & Hsq & ->).
    apply (insert_identities_finish _ _ _ _ _ _ Hp) in Hsq as (s3 & Hs3 & ->).
    split; [apply page_revision; try done; cbn; [lia|intros pr Hpr; specialize (Hprev pr Hpr); lia]|].
    exists s3. split; [by exists sp|]. by apply finish_merge.
  - intros (_ & s3 & (sp & Hsp & Hs3) & ->). exists (finish p n n' sp).
    split; [split; [by apply page_revision|by exists sp]|]. split.
    + apply insert_identities_inv in Hsp as (? & ? & ? & ? & ? & _ & _ & _ & _ & _ & ->).
      rewrite (finish_inner _ _ _ _ Hp). apply page_revision; try done; cbn; [lia|]. by intros ? [= <-].
    + exists (finish p n n' s3). split; [apply insert_identities_finish; [done|by exists s3]|].
      symmetry. by apply finish_merge.
Qed.

Fixpoint run_pages (s : Store) (ms : list (time * time * IdentitySnapshot)) : result Store :=
  match ms with
  | [] => inr s
  | (now, now', p) :: ms => s <-- ApplyIdentitySnapshot julianday s now now' (inr p); run_pages s ms
  end.

(** Pages with increasing revisions, all but the last of them inner ones. *)
Fixpoint page_chain (p : IdentitySnapshot) (ms : list (time * time * IdentitySnapshot)) : Prop :=
  match ms with
  | [] => page_ok p
  | m :: ms => inner_page p ∧ Revision p < Revision m.2 ∧ page_chain m.2 ms
  end.

Lemma page_chain_ok p ms : page_chain p ms → page_ok p.
Proof. destruct ms; [done|]. by intros ((? & _) & _). Qed.

Lemma page_chain_merge p q ms : page_chain q ms → page_chain (merge_page p q) ms.
Proof.
  destruct ms as [|m ms]; [done|]. cbn. intros ((_ & He & Hr & Hbl & Hrm) & Hlt & Hch).
  split; [|done]. by split_and!.
Qed.

Lemma last_default {A} (x : A) xs d d' : List.last (x :: xs) d = List.last (x :: xs) d'.
Proof. revert x. induction xs as [|y xs IH]; intros x; [done|]. apply (IH y). Qed.

(** C16: sending the identity in pages is the same as sending it at once: on a
    store whose cache was reset, a baseline in any number of pages with growing
    revisions is accepted exactly when the single page with all of their rows,
    and the last page's revision, flags and blocked addresses, is accepted, and
    then leaves the same store. *)
Theorem paged_baseline_equivalent ms s now now' p s' :
  page_chain p ms → identityResetPending s = true → 0 < Revision p →
  (∀ previous, last_revision s = Some previous → previous < Revision p) →
  run_pages s ((now, now', p) :: ms) = inr s' ↔
  let last := List.last ms (now, now', p) in
  ApplyIdentitySnapshot julianday s last.1.1 last.1.2
    (inr (foldl (λ acc m, merge_page acc m.2) p ms)) = inr s'.
Proof.
  revert now now' p. induction ms as [|[[n n'] q] ms IH]; intros now now' p Hch Hs H0 Hprev.
  { cbn [run_pages foldl List.last fst snd]. rewrite rbind_inr. naive_solver. }
  cbn [page_chain snd] in Hch. destruct Hch as (Hp & Hpq & Hch). assert (Hq := page_chain_ok _ _ Hch).
  transitivity (run_pages s ((n, n', merge_page p q) :: ms) = inr s').
  - cbn [run_pages]. rewrite !rbind_inr.
    pose proof (λ s2, Apply_two_pages s now now' n n' p q s2 Hp Hq Hs H0 Hpq Hprev) as Htwo.
    split.
    + intros (s1 & H1 & (s2 & H2 & Hrun)%rbind_inr). exists s2. split; [apply Htwo; by exists s1|done].
    + intros (s2 & (s1 & H1 & H2)%Htwo & Hrun). exists s1. split; [done|]. apply rbind_inr. by exists s2.
  - rewrite (IH n n' (merge_page p q)); [|by apply page_chain_merge|done|cbn; lia|].
    + cbn [foldl snd]. destruct ms as [|m ms']; [done|].
      change (List.last ((n, n', q) :: m :: ms') (now, now', p)) with (List.last (m :: ms') (now, now', p)).
      by rewrite (last_default m ms' (n, n', merge_page p q) (now, now', p)).
    + intros pr Hpr. specialize (Hprev pr Hpr). cbn. lia.
Qed.
End identity.

(** ** Witnesses *)

Definition demo_julianday (t : time) : Z := t / 1000000.
Lemma demo_julianday_mono a b : a ≤ b → demo_julianday a ≤ demo_julianday b.
Proof. intros H. apply Z.div_le_mono; lia. Qed.

Definition demo_user (id : Z) : SnapshotUser := mkSUser id "u" "user" "active" "".
Definition demo_token (id user : Z) (hash : string) : SnapshotToken :=
  mkSToken id user "t" hash "active" "" 0 None.
Definition demo_policy (user : Z) : UserResourcePolicy := mkResourcePolicy user 2000 3000 0 ["tcp"%string] true.
Definition demo_page (first last : bool) (revision user token : Z) (hash : string) : IdentitySnapshot :=
  mkSnapshot first last false false [] true revision [demo_user user] [demo_token token user hash]
    [demo_policy user] [] [] [] [].
Definition demo_lease : RuntimeLease := mkLease 0 "L" 1 7 "c" "h" "active" 5000000000.
Definition demo_store : Store :=
  empty_store <| runtime_leases := {["L"%string := demo_lease]} |>
              <| lease_issuers := {["L"%string := "hash7"%string]} |>
              <| cached_tokens := {[7 := demo_token 7 1 "hash7"]} |>
              <| cached_users := {[1 := demo_user 1]} |>.
Definition or_empty (r : result Store) : Store := match r with inr s => s | inl _ => empty_store end.
Definition demo_applied (snapshot : IdentitySnapshot) : Store :=
  or_empty (ApplyIdentitySnapshot demo_julianday demo_store 10 11 (inr snapshot)).

Lemma ApplyIdentitySnapshot_authorizes_witness :
  RuntimeAuthorized (demo_applied (demo_page false false 3 1 7 "hash7")) 10 1 7 = None.
Proof.
  refine (proj1 (ApplyIdentitySnapshot_authorizes demo_julianday demo_julianday_mono demo_store 10 11
    (demo_page false false 3 1 7 "hash7") _ "L" demo_lease _ _ _ _)); vm_compute; reflexivity.
Defined.

(** Token 9 is rotated by the snapshot: the lease that stays is not one of its. *)
Definition demo_rotating : IdentitySnapshot :=
  mkSnapshot false false false false [] true 3 [demo_user 1]
    [demo_token 7 1 "hash7"; demo_token 9 1 "new9"] [demo_policy 1] [] [] [] [].
Definition demo_store9 : Store :=
  demo_store <| cached_tokens := <[9 := demo_token 9 1 "old9"]> (cached_tokens demo_store) |>
             <| runtime_leases := <["M"%string := mkLease 0 "M" 1 9 "c" "k" "active" 5000000000]>
                                    (runtime_leases demo_store) |>.
Definition demo_rotated : Store :=
  or_empty (ApplyIdentitySnapshot demo_julianday demo_store9 10 11 (inr demo_rotating)).
Lemma ApplyIdentitySnapshot_rotation_witness :
  l_TokenID demo_lease ≠ 9 ∧ (l_Status <$> runtime_leases demo_rotated !! "M"%string) = Some "revoked"%string.
Proof.
  split; [|vm_compute; reflexivity].
  refine (proj2 (ApplyIdentitySnapshot_rotation demo_julianday demo_store9 10 11 demo_rotating
    demo_rotated "L" demo_lease _ _ _) (demo_token 9 1 "new9") _ _); try (vm_compute; reflexivity).
  - right. left.
  - exists (demo_token 9 1 "old9"). split; [vm_compute; reflexivity|]. intros H. discriminate H.
Defined.

Lemma ApplyIdentitySnapshot_revisions_witness :
  last_revision (demo_applied (demo_page false false 3 1 7 "hash7")) = Some 3.
Proof.
  refine (proj1 (ApplyIdentitySnapshot_revisions demo_julianday demo_store 10 11
    (demo_page false false 3 1 7 "hash7") _ _)); vm_compute; reflexivity.
Defined.

Lemma reset_window_witness :
  GetPolicy (foldl (receive demo_julianday) (resetIdentityCache demo_store false)
    [(10, 11, demo_page true false 3 1 7 "hash7")]) (mkFlow 1 7 "c" "L" "web" "tcp" 0 "" "" "" ∅) =
  inl ErrPolicySynchronizing.
Proof.
  refine (proj2 (reset_window demo_julianday demo_store false [(10, 11, demo_page true false 3 1 7 "hash7")]
    demo_lease [] _ _)); vm_compute; reflexivity.
Defined.

Definition demo_unenforced : IdentitySnapshot :=
  mkSnapshot false false false false [] false 3 [demo_user 1] [demo_token 7 1 "hash7"] [demo_policy 1] [] [] [] [].
Lemma unenforced_snapshot_closed_witness :
  ApplyIdentitySnapshot demo_julianday demo_store 10 11 (inr demo_unenforced) = inr (demo_applied demo_unenforced) ∧
  ∀ id l, runtime_leases (demo_applied demo_unenforced) !! id = Some l → l_Status l ≠ "active"%string.
Proof.
  split; [vm_compute; reflexivity|].
  refine (proj1 (unenforced_snapshot_closed demo_julianday demo_store 10 11 demo_unenforced _ _ _ _ _));
    vm_compute; reflexivity.
Defined.

(** Two pages on a reset store, equal to their merge. *)
Lemma paged_baseline_equivalent_witness :
  let s := resetIdentityCache demo_store false in
  let p := demo_page true false 3 1 7 "hash7" in
  let q := demo_page true true 4 2 8 "hash8" in
  ApplyIdentitySnapshot demo_julianday s 20 21 (inr (merge_page p q)) =
  inr (or_empty (run_pages demo_julianday s [(10, 11, p); (20, 21, q)])).
Proof.
  cbn zeta.
  refine (proj1 (paged_baseline_equivalent demo_julianday [(20, 21, demo_page true true 4 2 8 "hash8")]
    (resetIdentityCache demo_store false) 10 11 (demo_page true false 3 1 7 "hash7") _ _ _ _ _) _).
  - vm_compute. repeat split.
  - reflexivity.
  - reflexivity.
  - intros previous H. discriminate H.
  - vm_compute. reflexivity.
Defined.
