(* ===== verification/ControllerDB.v ===== *)
(** * The controller's database

    [internal/db]: the MySQL schema of the controller, one finite map per table
    keyed by its primary key, and one function per method of [db.Store] on
    users, access tokens, grants, policies, node access and the per-node cache
    index ([store.go], [dpi.go], [user_nodes.go], [user_node_cache.go],
    [connections.go]).  The tables of nodes are used by [NodeDirectory]; of
    the controller's own clients only the status and the deletion are here.

    A method answers the new database only when it succeeds, which is what its
    transaction does.  A statement that breaks a key or a foreign key answers
    [ErrConstraint].  A lost connection is not an outcome of a method: the
    callers that must survive one take it as an argument.  A nullable text column
    is always read through [COALESCE(.,'')], so its NULL is the empty string.
    Column widths, collations and the AUTO_INCREMENT values that a rolled back
    insert skips are not modelled. *)
From Stdlib Require Import ZArith Lia Ascii String.
From stdpp Require Import gmap strings list fin_maps sorting.
From S2P Require Import Prelude GoStrings Types DpiEngine DpiService EdgeStore EdgeIdentity.
Local Open Scope Z_scope.

(** ** Rows *)

Record AdminAPIToken := mkAdminToken {
  at_UserID : Z; at_TokenHash : string; at_TokenPrefix : string; at_Status : string;
  at_CreatedAt : time; at_UpdatedAt : time }.
#[export] Instance eta_admin_token : Eta AdminAPIToken := λ r,
  mkAdminToken (at_UserID r) (at_TokenHash r) (at_TokenPrefix r) (at_Status r) (at_CreatedAt r) (at_UpdatedAt r).

(** [user_resource_policies]: the protocols are one text column. *)
Record PolicyRow := mkPolicyRow {
  pr_PortStart : Z; pr_PortEnd : Z; pr_MaxPorts : Z; pr_AllowedProtocols : string; pr_Enabled : bool }.

(** [dpi_user_policies]: the detectors are one text column. *)
Record DPIPolicyRow := mkDPIPolicyRow {
  dr_Enabled : bool; dr_Mode : string; dr_EnabledDetectors : string; dr_BlockOnAnyFinding : bool;
  dr_AllowHTTP : bool; dr_AllowTLS : bool; dr_AllowQUIC : bool; dr_AllowEncryptedTunnel : bool;
  dr_MaxInspectBytes : Z; dr_TemporaryBlockTTL : Z; dr_EncryptedTunnelMode : string }.

(** [user_node_cache]. *)
Record CacheRow := mkCacheRow {
  nc_session : string; nc_applied : Z; nc_desired : Z; nc_cached_at : option time }.
#[export] Instance eta_cache_row : Eta CacheRow := λ r,
  mkCacheRow (nc_session r) (nc_applied r) (nc_desired r) (nc_cached_at r).

Record ClientCommand := mkClientCommand {
  cc_ID : Z; cc_ClientID : Z; cc_Command : string; cc_Message : string; cc_Status : string;
  cc_CreatedBy : Z; cc_CreatedAt : time; cc_DeliveredAt : option time; cc_AcknowledgedAt : option time }.
#[export] Instance eta_client_command : Eta ClientCommand := λ r,
  mkClientCommand (cc_ID r) (cc_ClientID r) (cc_Command r) (cc_Message r) (cc_Status r) (cc_CreatedBy r)
    (cc_CreatedAt r) (cc_DeliveredAt r) (cc_AcknowledgedAt r).

(** [frp_proxy_sessions], unique by lease and proxy name. *)
Record ProxySession := mkProxySession {
  ps_UserID : Z; ps_TokenID : Z; ps_ClientID : string; ps_ProxyType : string; ps_RemotePort : Z;
  ps_Domain : string; ps_Subdomain : string; ps_RunID : string; ps_Status : string;
  ps_CloseReason : string; ps_ClosedAt : option time }.
#[export] Instance eta_proxy_session : Eta ProxySession := λ r,
  mkProxySession (ps_UserID r) (ps_TokenID r) (ps_ClientID r) (ps_ProxyType r) (ps_RemotePort r)
    (ps_Domain r) (ps_Subdomain r) (ps_RunID r) (ps_Status r) (ps_CloseReason r) (ps_ClosedAt r).

Record EdgeNode := mkEdgeNode {
  en_NodeID : string; en_Name : string; en_CertificateSerial : string; en_Status : string;
  en_LastSeenAt : option time; en_LastRemoteAddr : string; en_PublicAPIURL : string;
  en_Selectable : bool; en_CapabilitiesJSON : string; en_CreatedAt : time; en_UpdatedAt : time }.
#[export] Instance eta_edge_node : Eta EdgeNode := λ r,
  mkEdgeNode (en_NodeID r) (en_Name r) (en_CertificateSerial r) (en_Status r) (en_LastSeenAt r)
    (en_LastRemoteAddr r) (en_PublicAPIURL r) (en_Selectable r) (en_CapabilitiesJSON r)
    (en_CreatedAt r) (en_UpdatedAt r).

(** [node_enrollment_tokens]; the plain token is NULL in old rows. *)
Record EnrollmentToken := mkEnrollment {
  et_TokenHash : string; et_PlainToken : option string; et_TokenPrefix : string; et_Status : string;
  et_MaxUses : Z; et_UseCount : Z; et_ExpiresAt : time; et_CreatedBy : Z; et_UsedAt : option time;
  et_Settings : option string }.
#[export] Instance eta_enrollment : Eta EnrollmentToken := λ r,
  mkEnrollment (et_TokenHash r) (et_PlainToken r) (et_TokenPrefix r) (et_Status r) (et_MaxUses r)
    (et_UseCount r) (et_ExpiresAt r) (et_CreatedBy r) (et_UsedAt r) (et_Settings r).

Record NodeCommandRecord := mkNodeCommand {
  ncr_CommandID : string; ncr_NodeID : string; ncr_CommandType : string; ncr_PayloadJSON : string;
  ncr_Status : string; ncr_ResultJSON : string; ncr_ExpiresAt : time; ncr_CreatedAt : time }.
#[export] Instance eta_node_command : Eta NodeCommandRecord := λ r,
  mkNodeCommand (ncr_CommandID r) (ncr_NodeID r) (ncr_CommandType r) (ncr_PayloadJSON r) (ncr_Status r)
    (ncr_ResultJSON r) (ncr_ExpiresAt r) (ncr_CreatedAt r).

Record NodeEventRecord := mkNodeEvent {
  ne_NodeID : string; ne_Sequence : Z; ne_EventType : string; ne_EventID : string; ne_PayloadJSON : string }.

Record EdgeClientPresence := mkPresence {
  ep_UserID : Z; ep_TokenID : Z; ep_ClientID : string; ep_FRPCRunning : bool; ep_LastSeenAt : time }.
#[export] Instance presence_eq_dec : EqDecision EdgeClientPresence.
Proof. solve_decision. Defined.

(** [edge_connection_presence] and [edge_node_traffic]; the node is in the key. *)
Record EdgeConnectionPresence := mkConnPresence {
  cn_ConnectionID : string; cn_Protocol : string; cn_UserID : Z; cn_TokenID : Z; cn_ClientID : string;
  cn_ClientAddr : string; cn_LeaseID : string; cn_ProxyName : string; cn_ProxyType : string; cn_RemotePort : Z;
  cn_InboundAddr : string; cn_InboundIP : string; cn_InboundPort : Z; cn_ServerAddr : string;
  cn_OpenedAt : time; cn_LastSeenAt : time; cn_CanTerminate : bool }.
#[export] Instance conn_presence_eq_dec : EqDecision EdgeConnectionPresence.
Proof. solve_decision. Defined.
Record EdgeNodeTraffic := mkNodeTraffic {
  nt_BytesInbound : Z; nt_BytesOutbound : Z; nt_SamplesInbound : Z; nt_SamplesOutbound : Z;
  nt_StartedAt : time; nt_CapturedAt : time; nt_UpdatedAt : time }.
#[export] Instance eta_node_traffic : Eta EdgeNodeTraffic := λ r,
  mkNodeTraffic (nt_BytesInbound r) (nt_BytesOutbound r) (nt_SamplesInbound r) (nt_SamplesOutbound r)
    (nt_StartedAt r) (nt_CapturedAt r) (nt_UpdatedAt r).
#[export] Instance node_traffic_eq_dec : EqDecision EdgeNodeTraffic.
Proof. solve_decision. Defined.

(** ** The database *)

Record ControllerDB := mkDB {
  d_settings : gmap string string;
  d_users : gmap Z User; d_user_seq : Z;
  d_tokens : gmap Z AccessToken; d_token_seq : Z;
  d_admin_tokens : gmap Z AdminAPIToken;
  d_grants : gmap Z PortGrant; d_grant_seq : Z;
  d_policies : gmap Z PolicyRow;
  d_dpi_policies : gmap Z DPIPolicyRow;
  d_access : gset (Z * string);                        (** [user_node_access] *)
  d_cache : gmap (Z * string) CacheRow;                (** [user_node_cache] *)
  d_sessions : gmap string (string * string);          (** [node_cache_sessions]: session, boot *)
  d_sequence : Z;                                      (** [identity_sync_sequence] *)
  d_blocked : gmap string BlockedIP;
  d_clients : gmap Z Client; d_client_seq : Z;
  d_commands : gmap Z ClientCommand; d_command_seq : Z;
  d_leases : gmap string RuntimeLease; d_lease_seq : Z;
  d_allocations : gmap (string * string) ProxyAllocationInput;
  d_proxy_sessions : gmap (string * string) ProxySession;
  d_nodes : gmap string EdgeNode;
  d_enrollments : gmap string EnrollmentToken;
  d_node_commands : gmap string NodeCommandRecord;
  d_node_events : gmap Z NodeEventRecord; d_event_seq : Z;
  d_dpi_events : gmap Z (string * Event); d_dpi_seq : Z;
  d_presence : gmap (string * Z * string) EdgeClientPresence;
  d_conn_presence : gmap (string * string) EdgeConnectionPresence;
  d_traffic : gmap string EdgeNodeTraffic }.
#[export] Instance eta_db : Eta ControllerDB := λ d,
  mkDB (d_settings d) (d_users d) (d_user_seq d) (d_tokens d) (d_token_seq d) (d_admin_tokens d)
    (d_grants d) (d_grant_seq d) (d_policies d) (d_dpi_policies d) (d_access d) (d_cache d)
    (d_sessions d) (d_sequence d) (d_blocked d) (d_clients d) (d_client_seq d) (d_commands d)
    (d_command_seq d) (d_leases d) (d_lease_seq d) (d_allocations d) (d_proxy_sessions d)
    (d_nodes d) (d_enrollments d) (d_node_commands d) (d_node_events d) (d_event_seq d)
    (d_dpi_events d) (d_dpi_seq d) (d_presence d) (d_conn_presence d) (d_traffic d).

(** The database after its first migration. *)
Definition empty_db : ControllerDB :=
  mkDB ∅ ∅ 0 ∅ 0 ∅ ∅ 0 ∅ ∅ ∅ ∅ ∅ 0 ∅ ∅ 0 ∅ 0 ∅ 0 ∅ ∅ ∅ ∅ ∅ ∅ 0 ∅ 0 ∅ ∅ ∅.

(** ** SQL *)

(** [UPDATE t SET ... WHERE p]. *)
Definition update_where {K V} `{Countable K} (p : V → bool) (f : V → V) (t : gmap K V) : gmap K V :=
  (λ v, if p v then f v else v) <$> t.
(** [DELETE FROM t WHERE p]. *)
Definition delete_where {K V} `{Countable K} (p : K → V → bool) (t : gmap K V) : gmap K V :=
  filter (λ kv, p kv.1 kv.2 = false) t.
(** Some row satisfies [p]. *)
Definition exists_row {K V} `{Countable K} (p : V → bool) (t : gmap K V) : bool :=
  existsb (λ kv : K * V, p kv.2) (map_to_list t).
(** The keys of a table in ascending order, and its rows in that order. *)
Definition sorted_keys {V} (t : gmap Z V) : list Z := merge_sort Z.le (map_to_list t).*1.
Definition rows_of {V} (t : gmap Z V) (ids : list Z) : list V := omap (λ id, t !! id) ids.
Definition sorted_rows {V} (t : gmap Z V) : list V := rows_of t (sorted_keys t).

(** ** Protocol lists and detector lists *)

Definition known_protocols : list string := ["tcp"; "udp"; "http"; "https"; "tcpmux"; "stcp"; "xtcp"]%string.
Fixpoint normalizeProtocolList_from (seen : list string) (protocols : list string) : list string :=
  match protocols with
  | [] => []
  | p :: rest =>
      let p := ToLower (TrimSpace p) in
      if negb (bool_decide (p ∈ known_protocols)) || bool_decide (p ∈ seen)
      then normalizeProtocolList_from seen rest
      else p :: normalizeProtocolList_from (p :: seen) rest
  end.
Definition normalizeProtocolList : list string → list string := normalizeProtocolList_from [].

(** [strings.Join(parts, ",")]. *)
Fixpoint join_comma (parts : list string) : string :=
  match parts with
  | [] => ""
  | [p] => p
  | p :: rest => (p ++ "," ++ join_comma rest)%string
  end.
Definition comma : ascii := ",".
Definition JoinProtocols (protocols : list string) : string := join_comma (normalizeProtocolList protocols).
Definition SplitProtocols (value : string) : list string := normalizeProtocolList (split_char comma value).
Definition splitCSV (value : string) : list string :=
  filter (λ p, p ≠ ""%string) (TrimSpace <$> split_char comma value).

Definition scanUserResourcePolicy (userID : Z) (r : PolicyRow) : UserResourcePolicy :=
  mkResourcePolicy userID (pr_PortStart r) (pr_PortEnd r) (pr_MaxPorts r)
    (SplitProtocols (pr_AllowedProtocols r)) (pr_Enabled r).
Definition scanDPIPolicy (userID : Z) (r : DPIPolicyRow) : Policy :=
  mkPolicy userID (dr_Enabled r) (dr_Mode r) (splitCSV (dr_EnabledDetectors r)) (dr_BlockOnAnyFinding r)
    (dr_AllowHTTP r) (dr_AllowTLS r) (dr_AllowQUIC r) (dr_AllowEncryptedTunnel r)
    (dr_MaxInspectBytes r) (dr_TemporaryBlockTTL r) (dr_EncryptedTunnelMode r).

(** ** The revision counter and the cache index *)

Definition NextIdentityRevision (d : ControllerDB) : result (ControllerDB * Z) :=
  let revision := d_sequence d + 1 in
  if bool_decide (revision ≤ 0) then inl (ErrText "identity revision counter is unavailable")
  else inr (d <| d_sequence := revision |>, revision).

Definition ResetNodeIdentityCache (d : ControllerDB) (nodeID sessionID bootID : string) : ControllerDB :=
  d <| d_sessions := <[nodeID := (sessionID, bootID)]> (d_sessions d) |>
    <| d_cache := delete_where (λ k _, bool_decide (k.2 = nodeID)) (d_cache d) |>.

(** [INSERT ... ON DUPLICATE KEY UPDATE desired_revision=GREATEST(...)]. *)
Definition want_revision (cache : gmap (Z * string) CacheRow) (userID : Z) (nodeID sessionID : string) (revision : Z) :
    gmap (Z * string) CacheRow :=
  <[(userID, nodeID) :=
      match cache !! (userID, nodeID) with
      | Some r => r <| nc_desired := Z.max (nc_desired r) revision |>
      | None => mkCacheRow sessionID 0 revision None
      end]> cache.

(** The registered nodes that cache the user or may serve them. *)
Definition dirty_targets (d : ControllerDB) (userID : Z) : list string :=
  elements (filter (λ n, is_Some (d_nodes d !! n))
    (set_map snd (filter (λ k, k.1 = userID) (dom (d_cache d) ∪ d_access d) : gset (Z * string)) : gset string)).

Definition session_of (d : ControllerDB) (nodeID : string) : string :=
  match d_sessions d !! nodeID with Some s => s.1 | None => ""%string end.

Definition markUserIdentityDirtyTx (d : ControllerDB) (userID : Z) : result ControllerDB :=
  let revision := d_sequence d + 1 in
  if bool_decide (revision ≤ 0) then inl (ErrText "identity revision counter unavailable")
  else
    inr (d <| d_sequence := revision |>
           <| d_cache := foldl (λ c n, want_revision c userID n (session_of d n) revision)
                           (d_cache d) (dirty_targets d userID) |>).
Definition MarkUserIdentityDirty : ControllerDB → Z → result ControllerDB := markUserIdentityDirtyTx.

(** The business statement and the marking commit together. *)
Definition execUserIdentityChange (d : ControllerDB) (userID : Z) (query : ControllerDB → result ControllerDB) :
    result ControllerDB :=
  d <-- query d; markUserIdentityDirtyTx d userID.

Definition dirty_row (sessionID : string) (r : CacheRow) : bool :=
  bool_decide (nc_session r = sessionID) && bool_decide (nc_applied r < nc_desired r).
(** The users of a node whose row satisfies [p], in ascending order. *)
Definition node_users (d : ControllerDB) (nodeID : string) (p : CacheRow → bool) : list Z :=
  merge_sort Z.le
    (omap (λ kr : Z * string * CacheRow,
       if bool_decide (kr.1.2 = nodeID) && p kr.2 then Some kr.1.1 else None) (map_to_list (d_cache d))).
Definition PendingNodeIdentityUsers (d : ControllerDB) (nodeID sessionID : string) : list Z :=
  take 64 (node_users d nodeID (dirty_row sessionID)).

Definition lockCacheSession (d : ControllerDB) (nodeID sessionID : string) : result unit :=
  match d_sessions d !! nodeID with
  | None => inl ErrNoRows
  | Some (current, _) => guard_err (negb (bool_decide (current = sessionID))) "superseded edge cache session"
  end.

Definition PrepareNodeIdentityCache (d : ControllerDB) (nodeID sessionID : string) (revision : Z) (userIDs : list Z) :
    result ControllerDB :=
  _ <-- lockCacheSession d nodeID sessionID;
  inr (d <| d_cache := foldl (λ c id, want_revision c id nodeID sessionID revision) (d_cache d) userIDs |>).

(** The statements of the confirmation on the cache index. *)
Definition confirm_user (now : time) (nodeID sessionID : string) (revision : Z) (cache : gmap (Z * string) CacheRow) (id : Z) :
    gmap (Z * string) CacheRow :=
  alter (λ r, if bool_decide (nc_session r = sessionID)
              then r <| nc_applied := Z.max (nc_applied r) revision |> <| nc_cached_at := Some now |> else r)
    (id, nodeID) cache.
Definition confirm_removed (nodeID sessionID : string) (revision : Z) (cache : gmap (Z * string) CacheRow) (id : Z) :
    gmap (Z * string) CacheRow :=
  match cache !! (id, nodeID) with
  | Some r =>
      if bool_decide (nc_session r = sessionID) then
        if bool_decide (nc_desired r ≤ revision) then delete (id, nodeID) cache
        else <[(id, nodeID) := r <| nc_cached_at := None |> <| nc_applied := Z.max (nc_applied r) revision |>]> cache
      else cache
  | None => cache
  end.
Definition confirm_full (nodeID sessionID : string) (revision : Z) (cache : gmap (Z * string) CacheRow) :
    gmap (Z * string) CacheRow :=
  let mine k r := bool_decide ((k : Z * string).2 = nodeID) && bool_decide (nc_session r = sessionID) in
  let cache := map_imap (λ k r, Some (if mine k r && bool_decide (nc_applied r < revision)
                                      then r <| nc_cached_at := None |> <| nc_applied := revision |> else r)) cache in
  delete_where (λ k r, mine k r && bool_decide (nc_desired r ≤ revision) && bool_decide (nc_cached_at r = None)) cache.

Definition ConfirmNodeIdentityCache (d : ControllerDB) (now : time) (nodeID sessionID : string) (revision : Z)
    (users removed : list Z) (full : bool) : result ControllerDB :=
  _ <-- lockCacheSession d nodeID sessionID;
  let cache := foldl (confirm_user now nodeID sessionID revision) (d_cache d) users in
  let cache := foldl (confirm_removed nodeID sessionID revision) cache removed in
  let cache := if full then confirm_full nodeID sessionID revision cache else cache in
  inr (d <| d_cache := cache |>).

(** The rows that the administrator sees for a user. *)
Record UserNodeCacheState := mkCacheState {
  cs_NodeID : string; cs_NodeName : string; cs_BootID : string; cs_AppliedRevision : Z;
  cs_DesiredRevision : Z; cs_CachedAt : option time; cs_Pending : bool }.
Definition cache_state (d : ControllerDB) (nodeID : string) (r : CacheRow) : option UserNodeCacheState :=
  e ← d_nodes d !! nodeID;
  Some (mkCacheState nodeID (en_Name e) (match d_sessions d !! nodeID with Some s => s.2 | None => ""%string end)
          (nc_applied r) (nc_desired r) (nc_cached_at r) (bool_decide (nc_applied r < nc_desired r))).
(** In the order of the node ids, which is a parameter: the column's collation. *)
Definition UserIdentityCacheStates (sort_nodes : list (Z * string * CacheRow) → list (Z * string * CacheRow))
    (d : ControllerDB) (userID : Z) : list UserNodeCacheState :=
  omap (λ kr : Z * string * CacheRow, cache_state d kr.1.2 kr.2)
    (sort_nodes (filter (λ kr : Z * string * CacheRow, kr.1.1 = userID) (map_to_list (d_cache d)))).

(** ** Users *)

Definition no_row {A} (o : option A) : result A := match o with Some a => inr a | None => inl ErrNotFound end.
Definition GetUserByID (d : ControllerDB) (id : Z) : result User := no_row (d_users d !! id).
Definition GetUserByUsername (d : ControllerDB) (username : string) : result User :=
  no_row (find_row (λ u, bool_decide (u_Username u = username)) (d_users d)).
Definition ListUsers (d : ControllerDB) : list User := reverse (sorted_rows (d_users d)).

Definition IsInitialized (d : ControllerDB) : bool :=
  match d_settings d !! "initialized"%string with Some v => bool_decide (v = "true"%string) | None => false end.
Definition SetSetting (d : ControllerDB) (key value : string) : ControllerDB :=
  d <| d_settings := <[key := value]> (d_settings d) |>.

(** [INSERT INTO users(...) VALUES(?, ?, ?, role, 'active')]. *)
Definition insert_user (d : ControllerDB) (now : time) (username displayName passwordHash role : string) :
    result (ControllerDB * Z) :=
  if exists_row (λ u, bool_decide (u_Username u = username)) (d_users d) then inl ErrConstraint else
  let id := d_user_seq d + 1 in
  inr (d <| d_user_seq := id |>
         <| d_users := <[id := mkUser id username displayName passwordHash role "active" "" now now]> (d_users d) |>, id).

(** [INSERT INTO access_tokens(...)]: the hash is unique, the user must exist. *)
Definition insert_token (d : ControllerDB) (now : time) (userID : Z) (name plainToken tokenHash tokenPrefix : string)
    (maxProxyCount : Z) (expiresAt : option time) : result (ControllerDB * Z) :=
  if exists_row (λ t, bool_decide (t_TokenHash t = tokenHash)) (d_tokens d) then inl ErrConstraint else
  match d_users d !! userID with
  | None => inl ErrConstraint
  | Some _ =>
      let id := d_token_seq d + 1 in
      inr (d <| d_token_seq := id |>
             <| d_tokens := <[id := mkAccessToken id userID name tokenHash tokenPrefix plainToken "active" ""
                                      maxProxyCount expiresAt now now]> (d_tokens d) |>, id)
  end.

Definition CreateInitialAdmin (d : ControllerDB) (now : time) (username displayName passwordHash : string) :
    result (ControllerDB * User) :=
  if exists_row (λ u, bool_decide (u_Role u = "admin"%string)) (d_users d)
  then inl (ErrText "admin already exists") else
  p <-- insert_user d now username displayName passwordHash "admin";
  let d := SetSetting p.1 "initialized" "true" in
  u <-- GetUserByID d p.2; inr (d, u).

Definition CreateUser (d : ControllerDB) (now : time) (username displayName passwordHash role : string) :
    result (ControllerDB * User) :=
  let role := if bool_decide (role = ""%string) then "user"%string else role in
  p <-- insert_user d now username displayName passwordHash role;
  u <-- GetUserByID p.1 p.2; inr (p.1, u).

Definition default_policy_row : PolicyRow := mkPolicyRow 1024 65535 1 "tcp,udp" true.

Definition GetAccessTokenByID (d : ControllerDB) (id : Z) : result AccessToken := no_row (d_tokens d !! id).
Definition GetAccessTokenByHash (d : ControllerDB) (hash : string) : result AccessToken :=
  no_row (find_row (λ t, bool_decide (t_TokenHash t = hash)) (d_tokens d)).
Definition ListAccessTokens (d : ControllerDB) : list AccessToken := reverse (sorted_rows (d_tokens d)).

Definition CreateUserWithAccessToken (d : ControllerDB) (now : time)
    (username displayName passwordHash role tokenName plainToken tokenHash tokenPrefix : string) (maxProxyCount : Z) :
    result (ControllerDB * (User * AccessToken)) :=
  let role := if bool_decide (role = ""%string) then "user"%string else role in
  let tokenName := if bool_decide (tokenName = ""%string) then "HTTPS API Token"%string else tokenName in
  let maxProxyCount := if bool_decide (maxProxyCount ≤ 0) then 1 else maxProxyCount in
  p <-- insert_user d now username displayName passwordHash role;
  q <-- insert_token p.1 now p.2 tokenName plainToken tokenHash tokenPrefix maxProxyCount None;
  policies <-- insert_row p.2 default_policy_row (d_policies q.1);
  let d := q.1 <| d_policies := policies |> in
  u <-- GetUserByID d p.2;
  t <-- GetAccessTokenByID d q.2;
  inr (d, (u, t)).

Definition SetUserStatus (d : ControllerDB) (now : time) (id : Z) (status reason : string) : result ControllerDB :=
  execUserIdentityChange d id (λ d,
    inr (d <| d_users := alter (λ u, u <| u_Status := status |> <| u_BanReason := reason |> <| u_UpdatedAt := now |>)
                           id (d_users d) |>)).

(** [ErrLastAdmin]. *)
Definition ErrLastAdmin : store_error := ErrText "cannot delete the last active admin user".

(** The thirteen deletions.  [access_tokens] is referenced by clients and
    leases without a cascade; no row of [dpi_block_rules] is ever written. *)
Definition delete_user_rows (d : ControllerDB) (id : Z) : result ControllerDB :=
  let lease_of (leaseID : string) := match d_leases d !! leaseID with Some l => bool_decide (l_UserID l = id) | None => false end in
  let token_of_user (tokenID : Z) := match d_tokens d !! tokenID with Some t => bool_decide (t_UserID t = id) | None => false end in
  let clients := delete_where (λ _ c, bool_decide (c_UserID c = id)) (d_clients d) in
  let leases := delete_where (λ _ l, bool_decide (l_UserID l = id)) (d_leases d) in
  if exists_row (λ c, token_of_user (c_TokenID c)) clients || exists_row (λ l, token_of_user (l_TokenID l)) leases
  then inl ErrConstraint else
  inr (d <| d_allocations := delete_where (λ k _, lease_of k.1) (d_allocations d) |>
         <| d_proxy_sessions := delete_where (λ _ s, bool_decide (ps_UserID s = id)) (d_proxy_sessions d) |>
         <| d_dpi_events := delete_where (λ _ e, bool_decide (flow_UserID (e_Flow e.2) = id)) (d_dpi_events d) |>
         <| d_leases := leases |>
         <| d_commands := delete_where (λ _ c, match d_clients d !! cc_ClientID c with
                                               | Some c => bool_decide (c_UserID c = id) | None => false end) (d_commands d) |>
         <| d_clients := clients |>
         <| d_grants := delete_where (λ _ g, token_of_user (g_TokenID g)) (d_grants d) |>
         <| d_tokens := delete_where (λ _ t, bool_decide (t_UserID t = id)) (d_tokens d) |>
         <| d_admin_tokens := delete id (d_admin_tokens d) |>
         <| d_policies := delete id (d_policies d) |>
         <| d_dpi_policies := delete id (d_dpi_policies d) |>
         <| d_access := filter (λ k, k.1 ≠ id) (d_access d) |>
         <| d_users := delete id (d_users d) |>).

Definition other_active_admin (id : Z) (u : User) : bool :=
  bool_decide (u_Role u = "admin"%string) && bool_decide (u_Status u = "active"%string) && negb (bool_decide (u_ID u = id)).

Definition DeleteUser (d : ControllerDB) (id : Z) : result ControllerDB :=
  match d_users d !! id with
  | None => inl ErrNotFound
  | Some u =>
      if bool_decide (u_Role u = "admin"%string) && negb (exists_row (other_active_admin id) (d_users d))
      then inl ErrLastAdmin
      else d <-- delete_user_rows d id; markUserIdentityDirtyTx d id
  end.

(** ** Clients of the controller's own node *)

Definition SetClientStatus (d : ControllerDB) (id : Z) (status reason : string) : ControllerDB :=
  d <| d_clients := alter (λ c, c <| c_Status := status |> <| c_BanReason := reason |>) id (d_clients d) |>.
Definition DeleteClient (d : ControllerDB) (id : Z) : result (ControllerDB * Client) :=
  match d_clients d !! id with
  | None => inl ErrNotFound
  | Some client =>
      let of_client (tokenID : Z) (clientID : string) := bool_decide (tokenID = c_TokenID client) && bool_decide (clientID = c_ClientID client) in
      let of_lease (leaseID : string) := match d_leases d !! leaseID with Some l => of_client (l_TokenID l) (l_ClientID l) | None => false end in
      inr (d <| d_allocations := delete_where (λ k _, of_lease k.1) (d_allocations d) |>
             <| d_proxy_sessions := delete_where (λ _ s, of_client (ps_TokenID s) (ps_ClientID s)) (d_proxy_sessions d) |>
             <| d_dpi_events := delete_where (λ _ e, of_client (flow_TokenID (e_Flow e.2)) (flow_ClientID (e_Flow e.2))) (d_dpi_events d) |>
             <| d_leases := delete_where (λ _ l, of_client (l_TokenID l) (l_ClientID l)) (d_leases d) |>
             <| d_commands := delete_where (λ _ c, bool_decide (cc_ClientID c = c_ID client)) (d_commands d) |>
             <| d_clients := delete (c_ID client) (d_clients d) |>, client)
  end.

(** ** Policies *)

Definition GetUserResourcePolicy (d : ControllerDB) (userID : Z) : result UserResourcePolicy :=
  r <-- no_row (d_policies d !! userID); inr (scanUserResourcePolicy userID r).
Definition ListUserResourcePolicies (d : ControllerDB) : list UserResourcePolicy :=
  reverse (omap (λ id, scanUserResourcePolicy id <$> d_policies d !! id) (sorted_keys (d_policies d))).

Definition UpsertUserResourcePolicy (d : ControllerDB) (policy : UserResourcePolicy) :
    result (ControllerDB * UserResourcePolicy) :=
  let maxPorts := if bool_decide (rp_MaxPorts policy ≤ 0) then 1 else rp_MaxPorts policy in
  let row := mkPolicyRow (rp_PortStart policy) (rp_PortEnd policy) maxPorts
               (JoinProtocols (rp_AllowedProtocols policy)) (rp_Enabled policy) in
  d <-- execUserIdentityChange d (rp_UserID policy) (λ d,
    match d_users d !! rp_UserID policy with
    | None => inl ErrConstraint
    | Some _ => inr (d <| d_policies := <[rp_UserID policy := row]> (d_policies d) |>)
    end);
  p <-- GetUserResourcePolicy d (rp_UserID policy); inr (d, p).

(** [nil_detectors]: the slice of detectors is nil. *)
Definition normalizeDPIPolicy (nil_detectors : bool) (p : Policy) : Policy :=
  let p := if bool_decide (p_Mode p = ""%string) then p <| p_Mode := ModeMonitor |> else p in
  let p := if nil_detectors then p <| p_EnabledDetectors := p_EnabledDetectors DefaultPolicy |> else p in
  let p := if bool_decide (p_MaxInspectBytes p ≤ 0) then p <| p_MaxInspectBytes := p_MaxInspectBytes DefaultPolicy |> else p in
  let p := if bool_decide (p_TemporaryBlockTTL p ≤ 0) then p <| p_TemporaryBlockTTL := p_TemporaryBlockTTL DefaultPolicy |> else p in
  if bool_decide (p_EncryptedTunnelMode p = ""%string) then p <| p_EncryptedTunnelMode := ModeMonitor |> else p.

Definition GetDPIPolicy (d : ControllerDB) (userID : Z) : Policy :=
  match d_dpi_policies d !! userID with Some r => scanDPIPolicy userID r | None => DefaultPolicy end.
Definition ListDPIPolicies (d : ControllerDB) : list Policy :=
  reverse (omap (λ id, scanDPIPolicy id <$> d_dpi_policies d !! id) (sorted_keys (d_dpi_policies d))).

Definition UpsertDPIPolicy (d : ControllerDB) (nil_detectors : bool) (policy : Policy) : result (ControllerDB * Policy) :=
  let p := normalizeDPIPolicy nil_detectors policy in
  let row := mkDPIPolicyRow (p_Enabled p) (p_Mode p) (join_comma (p_EnabledDetectors p)) (p_BlockOnAnyFinding p)
               (p_AllowHTTP p) (p_AllowTLS p) (p_AllowQUIC p) (p_AllowEncryptedTunnel p)
               (p_MaxInspectBytes p) (p_TemporaryBlockTTL p) (p_EncryptedTunnelMode p) in
  d <-- execUserIdentityChange d (p_UserID p) (λ d,
    match d_users d !! p_UserID p with
    | None => inl ErrConstraint
    | Some _ => inr (d <| d_dpi_policies := <[p_UserID p := row]> (d_dpi_policies d) |>)
    end);
  inr (d, GetDPIPolicy d (p_UserID p)).

(** The DPI policy of a flow, whose user may be known by its lease only. *)
Definition GetPolicy (d : ControllerDB) (flow : FlowContext) : Policy :=
  let userID := if bool_decide (flow_UserID flow ≤ 0) && negb (bool_decide (flow_LeaseID flow = ""%string))
                then match d_leases d !! flow_LeaseID flow with Some l => l_UserID l | None => flow_UserID flow end
                else flow_UserID flow in
  if bool_decide (userID ≤ 0) then DefaultPolicy else GetDPIPolicy d userID.

(** ** Access tokens and grants *)

Definition CreateAccessToken (d : ControllerDB) (now : time) (userID : Z) (name plainToken tokenHash tokenPrefix : string)
    (maxProxyCount : Z) (expiresAt : option time) : result (ControllerDB * AccessToken) :=
  q <-- insert_token d now userID name plainToken tokenHash tokenPrefix maxProxyCount expiresAt;
  d <-- markUserIdentityDirtyTx q.1 userID;
  t <-- GetAccessTokenByID d q.2; inr (d, t).

Definition SetAccessTokenStatus (d : ControllerDB) (now : time) (id : Z) (status reason : string) : result ControllerDB :=
  token <-- GetAccessTokenByID d id;
  execUserIdentityChange d (t_UserID token) (λ d,
    inr (d <| d_tokens := alter (λ t, t <| t_Status := status |> <| t_BanReason := reason |> <| t_UpdatedAt := now |>)
                            id (d_tokens d) |>)).

Definition RotateAccessToken (d : ControllerDB) (now : time) (id : Z) (plainToken tokenHash tokenPrefix : string) :
    result (ControllerDB * AccessToken) :=
  token <-- GetAccessTokenByID d id;
  d <-- execUserIdentityChange d (t_UserID token) (λ d,
    if exists_row (λ t, bool_decide (t_TokenHash t = tokenHash) && negb (bool_decide (t_ID t = id))) (d_tokens d)
    then inl ErrConstraint
    else inr (d <| d_tokens := alter (λ t, t <| t_TokenHash := tokenHash |> <| t_TokenPrefix := tokenPrefix |>
                                             <| t_PlainToken := plainToken |> <| t_Status := "active"%string |>
                                             <| t_BanReason := ""%string |> <| t_UpdatedAt := now |>) id (d_tokens d) |>));
  t <-- GetAccessTokenByID d id; inr (d, t).

Definition CreatePortGrant (d : ControllerDB) (grant : PortGrant) : result (ControllerDB * PortGrant) :=
  token <-- GetAccessTokenByID d (g_TokenID grant);
  let id := d_grant_seq d + 1 in
  let row := mkGrant id (g_TokenID grant) (g_Protocol grant) (g_RemotePortStart grant) (g_RemotePortEnd grant)
               (g_MaxCount grant) (g_Domain grant) (g_Subdomain grant) (g_Enabled grant) in
  d <-- execUserIdentityChange d (t_UserID token) (λ d,
    inr (d <| d_grant_seq := id |> <| d_grants := <[id := row]> (d_grants d) |>));
  inr (d, row).

Definition ListPortGrants (d : ControllerDB) (tokenID : Z) : list PortGrant :=
  filter (λ g, g_TokenID g = tokenID) (sorted_rows (d_grants d)).
Definition ListAllPortGrants (d : ControllerDB) : list PortGrant := sorted_rows (d_grants d).

(** The key of the insert is the user; its hash is unique as well, so that a
    hash of another user makes the statement update that user's row. *)
Definition CreateAdminAPIToken (d : ControllerDB) (now : time) (userID : Z) (tokenHash tokenPrefix : string) :
    result (ControllerDB * AdminAPIToken) :=
  let renew (t : AdminAPIToken) := t <| at_TokenHash := tokenHash |> <| at_TokenPrefix := tokenPrefix |>
                                     <| at_Status := "active"%string |> <| at_UpdatedAt := now |> in
  let owner := find_row (λ t, bool_decide (at_TokenHash t = tokenHash)) (d_admin_tokens d) in
  d <-- (match d_admin_tokens d !! userID, owner with
         | Some t, Some o => if bool_decide (at_UserID o = userID)
                             then inr (d <| d_admin_tokens := <[userID := renew t]> (d_admin_tokens d) |>)
                             else inl ErrConstraint
         | Some t, None => inr (d <| d_admin_tokens := <[userID := renew t]> (d_admin_tokens d) |>)
         | None, Some o => inr (d <| d_admin_tokens := <[at_UserID o := renew o]> (d_admin_tokens d) |>)
         | None, None =>
             match d_users d !! userID with
             | None => inl ErrConstraint
             | Some _ => inr (d <| d_admin_tokens := <[userID := mkAdminToken userID tokenHash tokenPrefix "active" now now]>
                                                       (d_admin_tokens d) |>)
             end
         end);
  t <-- no_row (d_admin_tokens d !! userID); inr (d, t).
Definition GetAdminAPITokenByUserID (d : ControllerDB) (userID : Z) : result AdminAPIToken :=
  no_row (d_admin_tokens d !! userID).

(** ** Node access *)

Definition ListNodeUserAccess (d : ControllerDB) (nodeID : string) : gset Z :=
  set_map fst (filter (λ k : Z * string, k.2 = nodeID) (d_access d)).
Definition CanAccessNode (d : ControllerDB) (userID : Z) (nodeID : string) : bool :=
  bool_decide ((userID, nodeID) ∈ d_access d).

Definition SaveUserNodeAccess (d : ControllerDB) (userID : Z) (nodes : list string) : result ControllerDB :=
  let access := filter (λ k, k.1 ≠ userID) (d_access d) ∪ list_to_set ((λ n, (userID, n)) <$> nodes) in
  let leases := if bool_decide ((userID, "controller"%string) ∈ access) then d_leases d
                else revoke_where (λ l, bool_decide (l_UserID l = userID)) (d_leases d) in
  markUserIdentityDirtyTx (d <| d_access := access |> <| d_leases := leases |>) userID.

(** ** Blocked addresses *)

Definition UpsertBlockedInboundIP (d : ControllerDB) (now : time) (ip reason : string) (createdBy : Z) :
    ControllerDB * BlockedIP :=
  let row := match d_blocked d !! ip with
             | Some b => mkBlockedIP ip reason createdBy (bi_CreatedAt b)
             | None => mkBlockedIP ip reason createdBy now
             end in
  (d <| d_blocked := <[ip := row]> (d_blocked d) |>, row).
Definition GetBlockedInboundIP (d : ControllerDB) (ip : string) : result BlockedIP := no_row (d_blocked d !! ip).
Definition created_desc (a b : BlockedIP) : Prop := bi_CreatedAt b ≤ bi_CreatedAt a.
#[export] Instance created_desc_dec : RelDecision created_desc := λ a b, decide (bi_CreatedAt b ≤ bi_CreatedAt a).
Definition ListBlockedInboundIPs (d : ControllerDB) : list BlockedIP := merge_sort created_desc (map_to_list (d_blocked d)).*2.
Definition DeleteBlockedInboundIP (d : ControllerDB) (ip : string) : ControllerDB :=
  d <| d_blocked := delete ip (d_blocked d) |>.
