(* ===== verification/NodeDirectory.v ===== *)
(** * Nodes, their commands, events and reports in the controller's database

    [db/nodes.go], [db/node_control.go] and [db/node_event_ingest.go]: the node
    directory, the enrollment tokens, the stored commands, the reliable events
    with the DPI view made of them, and the last report of a node.

    [CURRENT_TIMESTAMP] and [time.Now] are arguments.  An [ORDER BY] on a column
    whose values may be equal leaves the order of these rows to the database, so a
    sorting function is an argument there.  Payloads are JSON texts: what the code
    reads from them ([encoding/json]) is a parameter, and an error of decoding
    leaves the zero value where the code ignores the error. *)
From Stdlib Require Import ZArith Lia Ascii String.
From stdpp Require Import gmap strings list fin_maps sorting.
From S2P Require Import Prelude GoStrings Types DpiEngine DpiService EdgeStore EdgeIdentity Config ControllerDB.
Local Open Scope Z_scope.

(** ** The directory *)

Definition UpsertEdgeNode (d : ControllerDB) (now : time) (node : EdgeNode) : ControllerDB :=
  let row :=
    match d_nodes d !! en_NodeID node with
    | Some r => r <| en_Name := en_Name node |> <| en_CertificateSerial := en_CertificateSerial node |>
                  <| en_Status := "active"%string |> <| en_CapabilitiesJSON := en_CapabilitiesJSON node |>
                  <| en_UpdatedAt := now |>
    | None => mkEdgeNode (en_NodeID node) (en_Name node) (en_CertificateSerial node) "active" None "" "" false
                (en_CapabilitiesJSON node) now now
    end in
  d <| d_nodes := <[en_NodeID node := row]> (d_nodes d) |>.
Definition TouchEdgeNode (d : ControllerDB) (now : time) (nodeID remoteAddr capabilitiesJSON : string) : ControllerDB :=
  d <| d_nodes := alter (λ r, if bool_decide (en_Status r = "active"%string)
                              then r <| en_LastSeenAt := Some now |> <| en_LastRemoteAddr := remoteAddr |>
                                     <| en_CapabilitiesJSON := capabilitiesJSON |> <| en_UpdatedAt := now |>
                              else r) nodeID (d_nodes d) |>.
Definition GetEdgeNode (d : ControllerDB) (nodeID : string) : result EdgeNode :=
  match d_nodes d !! nodeID with Some r => inr r | None => inl ErrNotFound end.
Definition ListEdgeNodes (sort : list EdgeNode → list EdgeNode) (d : ControllerDB) : list EdgeNode :=
  sort (map_to_list (d_nodes d)).*2.
Definition ListPublicEdgeNodes (sort : list EdgeNode → list EdgeNode) (d : ControllerDB) : list EdgeNode :=
  sort (filter (λ r, en_Status r = "active"%string ∧ en_Selectable r = true ∧ en_PublicAPIURL r ≠ ""%string)
          (map_to_list (d_nodes d)).*2).
(** MySQL counts the rows that changed. *)
Definition UpdateEdgeNodeDirectory (d : ControllerDB) (now : time) (nodeID name publicAPIURL : string) (selectable : bool) :
    ControllerDB * option store_error :=
  match d_nodes d !! nodeID with
  | None => (d, Some ErrNotFound)
  | Some r =>
      let r' := r <| en_Name := name |> <| en_PublicAPIURL := publicAPIURL |> <| en_Selectable := selectable |>
                  <| en_UpdatedAt := now |> in
      if bool_decide (en_Name r = name) && bool_decide (en_PublicAPIURL r = publicAPIURL) &&
         bool_decide (en_Selectable r = selectable) && bool_decide (en_UpdatedAt r = now)
      then (d, Some ErrNotFound)
      else (d <| d_nodes := <[nodeID := r']> (d_nodes d) |>, None)
  end.

(** The foreign keys of the node's telemetry, presence and commands cascade. *)
Definition DeleteEdgeNode (d : ControllerDB) (nodeID : string) : result ControllerDB :=
  match d_nodes d !! nodeID with
  | None => inl ErrNotFound
  | Some _ =>
      inr (d <| d_access := filter (λ k, k.2 ≠ nodeID) (d_access d) |>
             <| d_dpi_events := delete_where (λ _ r, bool_decide (r.1 = nodeID)) (d_dpi_events d) |>
             <| d_cache := delete_where (λ k _, bool_decide (k.2 = nodeID)) (d_cache d) |>
             <| d_sessions := delete nodeID (d_sessions d) |>
             <| d_nodes := delete nodeID (d_nodes d) |>
             <| d_node_events := delete_where (λ _ r, bool_decide (ne_NodeID r = nodeID)) (d_node_events d) |>
             <| d_node_commands := delete_where (λ _ r, bool_decide (ncr_NodeID r = nodeID)) (d_node_commands d) |>
             <| d_presence := delete_where (λ k _, bool_decide (k.1.1 = nodeID)) (d_presence d) |>
             <| d_conn_presence := delete_where (λ k _, bool_decide (k.1 = nodeID)) (d_conn_presence d) |>
             <| d_traffic := delete nodeID (d_traffic d) |>)
  end.

(** ** Enrollment tokens *)

Section enrollment.
(** MySQL's [SHA2(., 256)]. *)
Context (SHA2 : string → string).

Definition CreateEnrollmentTokenWithSettings (d : ControllerDB) (tokenValue tokenPrefix : string) (maxUses : Z)
    (expiresAt : time) (createdBy : Z) (settings : string) : result ControllerDB :=
  let maxUses := if bool_decide (maxUses ≤ 0) then 1 else maxUses in
  if exists_row (λ r, bool_decide (et_PlainToken r = Some tokenValue)) (d_enrollments d) then inl ErrConstraint
  else
    t <-- insert_row (SHA2 tokenValue)
            (mkEnrollment (SHA2 tokenValue) (Some tokenValue) tokenPrefix "active" maxUses 0 expiresAt createdBy None (Some settings))
            (d_enrollments d);
    inr (d <| d_enrollments := t |>).
Definition CreateEnrollmentToken (d : ControllerDB) (tokenValue tokenPrefix : string) (maxUses : Z) (expiresAt : time)
    (createdBy : Z) : result ControllerDB :=
  CreateEnrollmentTokenWithSettings d tokenValue tokenPrefix maxUses expiresAt createdBy "".

Definition enrollment_matches (tokenValue : string) (r : EnrollmentToken) : bool :=
  bool_decide (et_PlainToken r = Some tokenValue) || bool_decide (et_TokenHash r = tokenValue) ||
  bool_decide (et_TokenHash r = SHA2 tokenValue).
(** The row that is read is the first that matches. *)
Definition ConsumeEnrollmentTokenSettings (d : ControllerDB) (now : time) (tokenValue : string) : result (ControllerDB * string) :=
  match find_row (enrollment_matches tokenValue) (d_enrollments d) with
  | None => inl ErrNotFound
  | Some r =>
      if negb (bool_decide (et_Status r = "active"%string)) || bool_decide (et_MaxUses r ≤ et_UseCount r) || After now (et_ExpiresAt r)
      then inl (ErrText "enrollment token is expired or already used")
      else
        let newStatus := if bool_decide (et_MaxUses r ≤ et_UseCount r + 1) then "used"%string else "active"%string in
        inr (d <| d_enrollments := update_where (enrollment_matches tokenValue)
                    (λ r, r <| et_UseCount := et_UseCount r + 1 |> <| et_Status := newStatus |> <| et_UsedAt := Some now |>)
                    (d_enrollments d) |>,
             default ""%string (et_Settings r))
  end.
Definition ConsumeEnrollmentToken (d : ControllerDB) (now : time) (tokenValue : string) : result ControllerDB :=
  r <-- ConsumeEnrollmentTokenSettings d now tokenValue; inr r.1.
End enrollment.

(** ** Commands *)

(** Settings commands do not expire. *)
Definition settings_command (kind : string) : bool :=
  bool_decide (kind ∈ ["update_edge_runtime_settings"; "update_edge_permissions"; "update_edge_advanced_settings"]%string).
Definition CreateNodeCommand (d : ControllerDB) (now : time) (c : NodeCommandRecord) : result ControllerDB :=
  if bool_decide (d_nodes d !! ncr_NodeID c = None) then inl ErrConstraint
  else
    t <-- insert_row (ncr_CommandID c)
            (mkNodeCommand (ncr_CommandID c) (ncr_NodeID c) (ncr_CommandType c) (ncr_PayloadJSON c) "pending" ""
               (ncr_ExpiresAt c) now) (d_node_commands d);
    inr (d <| d_node_commands := t |>).
Definition pending_command (now : time) (nodeID : string) (c : NodeCommandRecord) : bool :=
  bool_decide (ncr_NodeID c = nodeID) && bool_decide (ncr_Status c ∈ ["pending"; "delivered"]%string) &&
  (After (ncr_ExpiresAt c) now || settings_command (ncr_CommandType c)).
Definition ListPendingNodeCommands (sort : list NodeCommandRecord → list NodeCommandRecord) (d : ControllerDB) (now : time)
    (nodeID : string) : list NodeCommandRecord :=
  take 100 (sort (filter (λ c, pending_command now nodeID c = true) (map_to_list (d_node_commands d)).*2)).
Definition MarkNodeCommandDelivered (d : ControllerDB) (id : string) : ControllerDB :=
  d <| d_node_commands := alter (λ c, if bool_decide (ncr_Status c = "pending"%string)
                                      then c <| ncr_Status := "delivered"%string |> else c) id (d_node_commands d) |>.

(** What [encoding/json] reads: the revision of a payload ([None] is an error),
    its settings, and whether a result says that it was superseded. *)
Class CommandJSON := {
  configuration_revision : string → option Z;
  node_config : string → option NodeRuntimeConfig;
  result_superseded : string → bool }.

Section commands.
Context `{json : CommandJSON}.

Definition completed_settings (nodeID : string) (c : NodeCommandRecord) : bool :=
  bool_decide (ncr_NodeID c = nodeID) && bool_decide (ncr_CommandType c = "update_edge_runtime_settings"%string) &&
  bool_decide (ncr_Status c = "succeeded"%string).
Definition greatestCompletedConfigurationRevision (d : ControllerDB) (nodeID : string) : Z :=
  foldr (λ c greatest, match configuration_revision (ncr_PayloadJSON c) with
                       | Some revision => if bool_decide (greatest < revision) then revision else greatest
                       | None => greatest
                       end) 0 (filter (λ c, completed_settings nodeID c = true) (map_to_list (d_node_commands d)).*2).

(** The catalogue fields of an acknowledged command; [updated_at] changes with them. *)
Definition write_catalog (now : time) (cfg : NodeRuntimeConfig) (r : EdgeNode) : EdgeNode :=
  if negb (bool_decide (en_Status r = "active"%string)) then r
  else if bool_decide (en_Name r = n_Tag cfg) && bool_decide (en_PublicAPIURL r = n_PublicAPIURL cfg) &&
          bool_decide (en_Selectable r = n_Selectable cfg) then r
  else r <| en_Name := n_Tag cfg |> <| en_PublicAPIURL := n_PublicAPIURL cfg |> <| en_Selectable := n_Selectable cfg |>
         <| en_UpdatedAt := now |>.

(** [json_error] is the error of decoding the settings. *)
Definition CompleteNodeCommand (json_error : store_error) (d : ControllerDB) (now : time) (nodeID id status resultJSON : string) :
    result ControllerDB :=
  let status := if bool_decide (status ∈ ["succeeded"; "failed"; "retry"]%string) then status else "failed"%string in
  match d_nodes d !! nodeID, d_node_commands d !! id with
  | Some _, Some c =>
      if negb (bool_decide (ncr_NodeID c = nodeID)) then inl ErrNotFound
      else if bool_decide (ncr_Status c = "succeeded"%string) || bool_decide (ncr_Status c = "failed"%string) then inr d
      else
        let status := if bool_decide (status = "retry"%string) then "pending"%string else status in
        let d := d <| d_node_commands := <[id := c <| ncr_Status := status |> <| ncr_ResultJSON := resultJSON |>]> (d_node_commands d) |> in
        if bool_decide (ncr_CommandType c = "update_edge_runtime_settings"%string) && bool_decide (status = "succeeded"%string) then
          let revision := default 0 (configuration_revision (ncr_PayloadJSON c)) in
          if result_superseded resultJSON || bool_decide (revision < greatestCompletedConfigurationRevision d nodeID) then inr d
          else match node_config (ncr_PayloadJSON c) with
          | None => inl json_error
          | Some cfg => inr (d <| d_nodes := alter (write_catalog now cfg) nodeID (d_nodes d) |>)
          end
        else inr d
  | _, _ => inl ErrNotFound
  end.
End commands.

(** ** Events *)

(** Some row of the node has the sequence number or the id. *)
Definition event_taken (d : ControllerDB) (nodeID : string) (sequence : Z) (eventID : string) : bool :=
  exists_row (λ r, bool_decide (ne_NodeID r = nodeID) &&
                   (bool_decide (ne_Sequence r = sequence) || bool_decide (ne_EventID r = eventID))) (d_node_events d).
Definition event_exists (d : ControllerDB) (nodeID eventID : string) : bool :=
  exists_row (λ r, bool_decide (ne_NodeID r = nodeID) && bool_decide (ne_EventID r = eventID)) (d_node_events d).
(** [INSERT IGNORE]: no row when a unique key is taken or the node is unknown. *)
Definition insert_event (d : ControllerDB) (nodeID : string) (sequence : Z) (eventID kind payload : string) : ControllerDB * bool :=
  if event_taken d nodeID sequence eventID || bool_decide (d_nodes d !! nodeID = None) then (d, false)
  else (d <| d_event_seq := d_event_seq d + 1 |>
          <| d_node_events := <[d_event_seq d + 1 := mkNodeEvent nodeID sequence kind eventID payload]> (d_node_events d) |>, true).
Definition insertEdgeDPIEvent (d : ControllerDB) (nodeID : string) (event : Event) : ControllerDB :=
  d <| d_dpi_seq := d_dpi_seq d + 1 |> <| d_dpi_events := <[d_dpi_seq d + 1 := (nodeID, event)]> (d_dpi_events d) |>.
Definition RecordEdgeDPIEvent : ControllerDB → string → Event → ControllerDB := insertEdgeDPIEvent.

(** Only the newest 5000 runtime logs of a node are kept. *)
Definition runtime_logs (d : ControllerDB) (nodeID : string) : list Z :=
  filter (λ id, match d_node_events d !! id with
                | Some r => bool_decide (ne_NodeID r = nodeID) && bool_decide (ne_EventType r = "runtime_log"%string)
                | None => false
                end = true) (sorted_keys (d_node_events d)).
Definition prune_runtime_logs (d : ControllerDB) (nodeID : string) : ControllerDB :=
  let retained := take 5000 (reverse (runtime_logs d nodeID)) in
  d <| d_node_events := delete_where (λ id r, bool_decide (ne_NodeID r = nodeID) &&
                                              bool_decide (ne_EventType r = "runtime_log"%string) &&
                                              negb (bool_decide (id ∈ retained))) (d_node_events d) |>.

Section events.
(** [json.Unmarshal] of a DPI event, with its error. *)
Context (decode_event : string → store_error + Event).

(** [prune] says whether the statement that follows the transaction succeeds. *)
Definition RecordNodeEventDurably (d : ControllerDB) (nodeID : string) (sequence : Z) (eventID kind payload : string) (prune : bool) :
    result ControllerDB :=
  let dpi := bool_decide (kind = "dpi_event"%string) in
  event <-- (if dpi then e <-- decode_event payload; inr (Some e) else inr None);
  let '(d', inserted) := insert_event d nodeID sequence eventID kind payload in
  d <-- (if negb inserted then
           if event_exists d nodeID eventID then inr d'
           else inl (ErrText ("node event sequence collision: " ++ fmt_d sequence)%string)
         else match event with Some e => inr (insertEdgeDPIEvent d' nodeID e) | None => inr d' end);
  inr (if bool_decide (kind = "runtime_log"%string) && prune then prune_runtime_logs d nodeID else d).
Definition RecordNodeEvent (d : ControllerDB) (nodeID : string) (sequence : Z) (eventID kind payload : string) (prune : bool) :
    ControllerDB * bool :=
  let '(d, inserted) := insert_event d nodeID sequence eventID kind payload in
  (if bool_decide (kind = "runtime_log"%string) && prune then prune_runtime_logs d nodeID else d, inserted).
End events.

Definition ListNodeEvents (d : ControllerDB) (nodeID eventType : string) (limit : Z) : list (Z * NodeEventRecord) :=
  let limit := if bool_decide (limit ≤ 0) || bool_decide (500 < limit) then 100 else limit in
  take (Z.to_nat limit) (reverse (omap (λ id, r ← d_node_events d !! id;
    if (bool_decide (nodeID = ""%string) || bool_decide (ne_NodeID r = nodeID)) &&
       (bool_decide (eventType = ""%string) || bool_decide (ne_EventType r = eventType))
    then Some (id, r) else None) (sorted_keys (d_node_events d)))).

(** ** Reports *)

(** Rows of an unknown node violate the foreign key. *)
Definition ReplaceEdgeClientPresence (d : ControllerDB) (nodeID : string) (clients : list EdgeClientPresence) : result ControllerDB :=
  let t := delete_where (λ k _, bool_decide (k.1.1 = nodeID)) (d_presence d) in
  if negb (bool_decide (clients = [])) && bool_decide (d_nodes d !! nodeID = None) then inl ErrConstraint
  else inr (d <| d_presence := foldl (λ t c, <[(nodeID, ep_TokenID c, ep_ClientID c) := c]> t) t clients |>).
Definition ListEdgeClientPresence (sort : list (string * Z * string * EdgeClientPresence) → list (string * Z * string * EdgeClientPresence))
    (d : ControllerDB) (nodeID : string) : list (string * Z * string * EdgeClientPresence) :=
  sort (filter (λ kr : string * Z * string * EdgeClientPresence, nodeID = ""%string ∨ kr.1.1.1 = nodeID) (map_to_list (d_presence d))).
Definition ReplaceEdgeConnectionPresence (d : ControllerDB) (nodeID : string) (connections : list EdgeConnectionPresence) : result ControllerDB :=
  let t := delete_where (λ k _, bool_decide (k.1 = nodeID)) (d_conn_presence d) in
  if negb (bool_decide (connections = [])) && bool_decide (d_nodes d !! nodeID = None) then inl ErrConstraint
  else
    t <-- insert_rows (λ c, (nodeID, cn_ConnectionID c)) connections t;
    inr (d <| d_conn_presence := t |>).
Definition ListEdgeConnectionPresence (sort : list (string * string * EdgeConnectionPresence) → list (string * string * EdgeConnectionPresence))
    (d : ControllerDB) (nodeID : string) : list (string * string * EdgeConnectionPresence) :=
  sort (filter (λ kr : string * string * EdgeConnectionPresence, nodeID = ""%string ∨ kr.1.1 = nodeID) (map_to_list (d_conn_presence d))).
(** [updated_at] changes when another column does. *)
Definition UpsertEdgeNodeTraffic (d : ControllerDB) (now : time) (nodeID : string) (traffic : EdgeNodeTraffic) : result ControllerDB :=
  if bool_decide (d_nodes d !! nodeID = None) then inl ErrConstraint
  else
    let updated := match d_traffic d !! nodeID with
                   | Some r => if bool_decide (traffic <| nt_UpdatedAt := nt_UpdatedAt r |> = r) then nt_UpdatedAt r else now
                   | None => now
                   end in
    inr (d <| d_traffic := <[nodeID := traffic <| nt_UpdatedAt := updated |>]> (d_traffic d) |>).
Definition ListEdgeNodeTraffic (sort : list (string * EdgeNodeTraffic) → list (string * EdgeNodeTraffic)) (d : ControllerDB)
    (nodeID : string) : list (string * EdgeNodeTraffic) :=
  sort (filter (λ kr : string * EdgeNodeTraffic, nodeID = ""%string ∨ kr.1 = nodeID) (map_to_list (d_traffic d))).
