(* ===== verification/IdentityPage.v ===== *)
(** * What a node knows of a user

    [db/identity_page.go] and the part of a user that concerns a node: the page
    that the controller reads for a node, the rows that a node should hold of a
    user ([db_view]), those a message carries ([snapshot_view]) and those an edge
    holds ([edge_view]).  A page carries the controller's view of the users that
    it covers, and applying a message replaces the view of exactly those users. *)
From Stdlib Require Import ZArith Lia Ascii String.
From stdpp Require Import gmap strings list fin_maps sorting.
From S2P Require Import Prelude GoStrings Types DpiEngine DpiService EdgeStore EdgeIdentity ControllerDB.
Local Open Scope Z_scope.

(** ** Reading a page *)

Record NodeIdentityPage := mkPage {
  np_Users : list User; np_Tokens : list AccessToken; np_Policies : list UserResourcePolicy;
  np_Grants : list PortGrant; np_DPIPolicies : list Policy; np_Removed : list Z;
  np_LastID : Z; np_End : bool }.

(** The columns that the page selects. *)
Definition page_user (u : User) : User :=
  mkUser (u_ID u) (u_Username u) "" "" (u_Role u) (u_Status u) (u_BanReason u) zero_time zero_time.
Definition page_token (t : AccessToken) : AccessToken :=
  mkAccessToken (t_ID t) (t_UserID t) (t_Name t) (t_TokenHash t) "" "" (t_Status t) (t_BanReason t)
    (t_MaxProxyCount t) (t_ExpiresAt t) zero_time zero_time.

(** The users of the node after the cursor, in ascending order. *)
Definition page_candidates (d : ControllerDB) (nodeID : string) (after : Z) (requested : option (list Z)) : list Z :=
  filter (λ id, CanAccessNode d id nodeID && bool_decide (after < id) &&
                match requested with Some ids => bool_decide (id ∈ ids) | None => true end = true)
    (sorted_keys (d_users d)).

Definition owner_in (d : ControllerDB) (ids : list Z) (tokenID : Z) : bool :=
  match d_tokens d !! tokenID with Some t => bool_decide (t_UserID t ∈ ids) | None => false end.

(** [requested = None] is a nil slice. *)
Definition ReadNodeIdentityPage (d : ControllerDB) (nodeID : string) (after : Z) (requested : option (list Z)) (limit : Z) :
    result NodeIdentityPage :=
  if bool_decide (limit < 1) ||
     match requested with Some ids => bool_decide (limit < len ids) || negb (bool_decide (after = 0)) | None => false end
  then inl (ErrText ("invalid identity page: requested=" ++ fmt_d (len (default [] requested)) ++
                     " limit=" ++ fmt_d limit ++ " cursor=" ++ fmt_d after)%string)
  else if bool_decide (requested = Some []) then inr (mkPage [] [] [] [] [] [] after true) else
  let found := take (Z.to_nat limit + 1) (page_candidates d nodeID after requested) in
  let ids := take (Z.to_nat limit) found in
  let removed := filter (λ id, id ∉ ids) (default [] requested) in
  let last_id := default after (last ids) in
  let is_end := bool_decide (len found ≤ limit) in
  if bool_decide (ids = []) then inr (mkPage [] [] [] [] [] removed last_id is_end) else
  inr (mkPage (page_user <$> rows_of (d_users d) ids)
         (page_token <$> filter (λ t, t_UserID t ∈ ids) (sorted_rows (d_tokens d)))
         (omap (λ id, scanUserResourcePolicy id <$> d_policies d !! id)
            (filter (λ id, id ∈ ids) (sorted_keys (d_policies d))))
         (filter (λ g, owner_in d ids (g_TokenID g) = true) (sorted_rows (d_grants d)))
         (omap (λ id, scanDPIPolicy id <$> d_dpi_policies d !! id)
            (filter (λ id, id ∈ ids) (sorted_keys (d_dpi_policies d))))
         removed last_id is_end).

(** The rows as [identityPageMessage] and [identitySnapshotForUsers] send them. *)
Definition snapshot_user (u : User) : SnapshotUser :=
  mkSUser (u_ID u) (u_Username u) (u_Role u) (u_Status u) (u_BanReason u).
Definition snapshot_token (t : AccessToken) : SnapshotToken :=
  mkSToken (t_ID t) (t_UserID t) (t_Name t) (t_TokenHash t) (t_Status t) (t_BanReason t)
    (t_MaxProxyCount t) (t_ExpiresAt t).

(** ** Views *)

Record UserView := mkView {
  v_user : option SnapshotUser; v_tokens : gmap Z SnapshotToken; v_policy : option UserResourcePolicy;
  v_grants : gmap Z PortGrant; v_dpi : option Policy }.
Definition empty_view : UserView := mkView None ∅ None ∅ None.

(** [None] for a token that is not there. *)
Definition owned_by {V} (owner : V → Z) (tokens : gmap Z V) (userID : Z) (g : PortGrant) : Prop :=
  owner <$> tokens !! g_TokenID g = Some userID.
#[export] Instance owned_by_dec {V} (owner : V → Z) tokens userID g : base.Decision (owned_by owner tokens userID g) :=
  decide (owner <$> tokens !! g_TokenID g = Some userID).

(** What the edge holds. *)
Definition edge_view (s : Store) (userID : Z) : UserView :=
  mkView (cached_users s !! userID)
    (filter (λ kt, st_UserID kt.2 = userID) (cached_tokens s))
    (cached_policies s !! userID)
    (filter (λ kg, owned_by st_UserID (cached_tokens s) userID kg.2) (cached_grants s))
    (cached_dpi_policies s !! userID).

(** What the controller wants the node to hold. *)
Definition db_view (d : ControllerDB) (nodeID : string) (userID : Z) : UserView :=
  match d_users d !! userID with
  | Some u =>
      if CanAccessNode d userID nodeID then
        mkView (Some (snapshot_user u))
          (snapshot_token <$> filter (λ kt, t_UserID kt.2 = userID) (d_tokens d))
          (scanUserResourcePolicy userID <$> d_policies d !! userID)
          (filter (λ kg, owned_by t_UserID (d_tokens d) userID kg.2) (d_grants d))
          (scanDPIPolicy userID <$> d_dpi_policies d !! userID)
      else empty_view
  | None => empty_view
  end.

(** What a message carries. *)
Definition by_key {V} (key : V → Z) (vs : list V) : gmap Z V := list_to_map ((λ v, (key v, v)) <$> vs).
Definition snapshot_view (p : IdentitySnapshot) (userID : Z) : UserView :=
  mkView (by_key su_ID (Users p) !! userID)
    (filter (λ kt, st_UserID kt.2 = userID) (by_key st_ID (Tokens p)))
    (by_key rp_UserID (Policies p) !! userID)
    (filter (λ kg, owned_by st_UserID (by_key st_ID (Tokens p)) userID kg.2) (by_key g_ID (Grants_ p)))
    (by_key p_UserID (DPIPolicies p) !! userID).

(** Every row of a message belongs to a user of it. *)
Definition closed_message (p : IdentitySnapshot) : Prop :=
  NodeAccessEnforced p = true ∧
  (∀ t, t ∈ Tokens p → st_UserID t ∈ su_ID <$> Users p) ∧
  (∀ r, r ∈ Policies p → rp_UserID r ∈ su_ID <$> Users p) ∧
  (∀ g, g ∈ Grants_ p → ∃ t, t ∈ Tokens p ∧ st_ID t = g_TokenID g) ∧
  (∀ r, r ∈ DPIPolicies p → p_UserID r ∈ su_ID <$> Users p).

(** ** Ordered tables *)

#[export] Instance Z_le_total : Total Z.le.
Proof. intros x y. lia. Qed.
#[export] Instance Z_le_trans : Transitive Z.le.
Proof. intros x y z. lia. Qed.

Lemma elem_of_sorted_keys {V} (t : gmap Z V) id : id ∈ sorted_keys t ↔ is_Some (t !! id).
Proof.
  unfold sorted_keys. rewrite merge_sort_Permutation, list_elem_of_fmap. split.
  - intros ([k v] & -> & Hv%elem_of_map_to_list). by exists v.
  - intros [v Hv]. exists (id, v). by rewrite elem_of_map_to_list.
Qed.

Lemma NoDup_sorted_keys {V} (t : gmap Z V) : NoDup (sorted_keys t).
Proof. unfold sorted_keys. rewrite merge_sort_Permutation. apply NoDup_fst_map_to_list. Qed.

Lemma sorted_sorted_keys {V} (t : gmap Z V) : StronglySorted Z.le (sorted_keys t).
Proof. apply (StronglySorted_merge_sort Z.le). Qed.

Lemma elem_of_rows_of {V} (t : gmap Z V) ids v : v ∈ rows_of t ids ↔ ∃ id, id ∈ ids ∧ t !! id = Some v.
Proof. unfold rows_of. apply list_elem_of_omap. Qed.

Lemma elem_of_sorted_rows {V} (t : gmap Z V) v : v ∈ sorted_rows t ↔ ∃ id, t !! id = Some v.
Proof.
  unfold sorted_rows. rewrite elem_of_rows_of. split; [naive_solver|].
  intros [id Hid]. exists id. by rewrite elem_of_sorted_keys, Hid.
Qed.

(** The rows of a table keep its keys when each row holds its own key. *)
Definition keyed {V} (key : V → Z) (t : gmap Z V) : Prop := map_Forall (λ id v, key v = id) t.

Lemma fmap_rows_of {V} (key : V → Z) (t : gmap Z V) ids :
  keyed key t → Forall (λ id, is_Some (t !! id)) ids → key <$> rows_of t ids = ids.
Proof.
  intros Hk. unfold rows_of. induction 1 as [|id ids [v Hv] _ IH]; [done|].
  cbn. rewrite Hv, fmap_cons, IH. f_equal. by apply Hk.
Qed.

Lemma NoDup_fmap_sorted_rows {V} (key : V → Z) (t : gmap Z V) : keyed key t → NoDup (key <$> sorted_rows t).
Proof.
  intros Hk. unfold sorted_rows. rewrite fmap_rows_of; [apply NoDup_sorted_keys|done|].
  apply Forall_forall. intros id. apply elem_of_sorted_keys.
Qed.

Lemma NoDup_fmap_filter {A B} (f : A → B) (P : A → Prop) `{∀ x, base.Decision (P x)} (l : list A) :
  NoDup (f <$> l) → NoDup (f <$> filter P l).
Proof.
  induction l as [|x l IH]; [done|]. rewrite fmap_cons, NoDup_cons, filter_cons. intros [Hx Hl].
  case_decide; [|by apply IH]. rewrite fmap_cons, NoDup_cons. split; [|by apply IH].
  intros (y & Hy & Hin)%list_elem_of_fmap. apply Hx, list_elem_of_fmap. exists y.
  apply list_elem_of_filter in Hin. naive_solver.
Qed.

Lemma fmap_fst_by_key {V} (key : V → Z) (vs : list V) : ((λ v, (key v, v)) <$> vs).*1 = key <$> vs.
Proof. rewrite <- list_fmap_compose. done. Qed.

Lemma by_key_lookup {V} (key : V → Z) (vs : list V) k v :
  NoDup (key <$> vs) → by_key key vs !! k = Some v ↔ v ∈ vs ∧ key v = k.
Proof.
  intros Hnd. unfold by_key. rewrite <- elem_of_list_to_map by by rewrite fmap_fst_by_key.
  rewrite list_elem_of_fmap. naive_solver.
Qed.

Lemma by_key_Some {V} (key : V → Z) (vs : list V) k v : by_key key vs !! k = Some v → v ∈ vs ∧ key v = k.
Proof.
  unfold by_key. intros H%elem_of_list_to_map_2. apply list_elem_of_fmap in H. naive_solver.
Qed.

Lemma by_key_None {V} (key : V → Z) (vs : list V) k : k ∉ key <$> vs → by_key key vs !! k = None.
Proof.
  intros H. destruct (by_key key vs !! k) eqn:E; [|done]. apply by_key_Some in E as [Hv <-].
  destruct H. apply list_elem_of_fmap. eauto.
Qed.

(** ** Insertions as a union *)

Lemma insert_rows_union {V} (key : V → Z) vs (t t' : gmap Z V) :
  insert_rows key vs t = inr t' ↔
  NoDup (key <$> vs) ∧ Forall (λ v, t !! key v = None) vs ∧ t' = by_key key vs ∪ t.
Proof.
  revert t. induction vs as [|v vs IH]; intros t; cbn [insert_rows].
  - unfold by_key. cbn. rewrite (left_id_L ∅ (∪)). split; [intros [= ->]|naive_solver].
    split_and!; [constructor|constructor|done].
  - rewrite rbind_inr. unfold by_key. rewrite !fmap_cons, list_to_map_cons, NoDup_cons, Forall_cons. split.
    + intros (t1 & (Hn & ->)%insert_row_inr & (Hnd & Hf & ->)%IH). split_and!; [|done|done|..].
      * intros (w & Hw & Hin)%list_elem_of_fmap. rewrite Forall_forall in Hf. specialize (Hf w Hin).
        rewrite <- Hw in Hf. by rewrite lookup_insert_eq in Hf.
      * eapply Forall_impl; [exact Hf|]. cbn. intros w Hw%lookup_insert_None. tauto.
      * fold (by_key key vs). rewrite <- insert_union_r; [by rewrite insert_union_l|].
        apply by_key_None. intros (w & Hw & Hin)%list_elem_of_fmap. rewrite Forall_forall in Hf.
        specialize (Hf w Hin). rewrite <- Hw in Hf. by rewrite lookup_insert_eq in Hf.
    + intros ([Hv Hnd] & [Hn Hf] & ->). exists (<[key v := v]> t). rewrite insert_row_inr. split; [done|].
      apply IH. split_and!; [done|..].
      * apply Forall_forall. intros w Hw. rewrite lookup_insert_ne.
        -- rewrite Forall_forall in Hf. by apply Hf.
        -- intros Heq. apply Hv. rewrite Heq. apply list_elem_of_fmap. eauto.
      * fold (by_key key vs). rewrite <- insert_union_r; [by rewrite insert_union_l|].
        by apply by_key_None.
Qed.

Lemma insert_tokens_rows vs t t' : insert_tokens vs t = inr t' → insert_rows st_ID vs t = inr t'.
Proof.
  revert t. induction vs as [|v vs IH]; intros t; cbn; [done|].
  destruct (hash_taken _ _); [done|]. intros (t1 & Ht1 & Hr)%rbind_inr. rewrite Ht1. cbn. by apply IH.
Qed.
