(* ===== verification/DBInvariant.v ===== *)
(** * Integrity of the controller's database

    The constraints of [db/schema.go] and the bounds of the cache index, which
    every method of [ControllerDB] that an administrator's request runs keeps,
    and the outbox: a transaction that changes what a registered node should hold
    of a user also marks the user as dirty for that node, unless the node has no row
    of the user and is to hold nothing of them. *)
From Stdlib Require Import ZArith Lia Ascii String.
From stdpp Require Import gmap strings list fin_maps sorting.
From S2P Require Import Prelude GoStrings Types DpiEngine DpiService EdgeStore EdgeIdentity ControllerDB NodeDirectory IdentityPage.
Local Open Scope Z_scope.

(** ** Integrity *)

Definition unique_by {V A} (f : V → A) (t : gmap Z V) : Prop :=
  ∀ i j v w, t !! i = Some v → t !! j = Some w → f v = f w → i = j.
Definition ids_within {V} (t : gmap Z V) (seq : Z) : Prop := ∀ id, is_Some (t !! id) → 0 < id ≤ seq.
(** Rows of [t] refer to rows of [target]. *)
Definition references {K V W} `{Countable K} (t : gmap K V) (f : V → Z) (target : gmap Z W) : Prop :=
  ∀ k v, t !! k = Some v → is_Some (target !! f v).

Record db_ok (d : ControllerDB) : Prop := mkDBOk {
  ok_users : keyed u_ID (d_users d);
  ok_user_ids : ids_within (d_users d) (d_user_seq d);
  ok_usernames : unique_by u_Username (d_users d);
  ok_user_seq : 0 ≤ d_user_seq d;
  ok_tokens : keyed t_ID (d_tokens d);
  ok_token_ids : ids_within (d_tokens d) (d_token_seq d);
  ok_hashes : unique_by t_TokenHash (d_tokens d);
  ok_token_seq : 0 ≤ d_token_seq d;
  ok_token_users : references (d_tokens d) t_UserID (d_users d);
  ok_grants : keyed g_ID (d_grants d);
  ok_grant_ids : ids_within (d_grants d) (d_grant_seq d);
  ok_grant_seq : 0 ≤ d_grant_seq d;
  ok_grant_tokens : references (d_grants d) g_TokenID (d_tokens d);
  ok_policies : dom (d_policies d) ⊆ dom (d_users d);
  ok_dpi_policies : dom (d_dpi_policies d) ⊆ dom (d_users d);
  ok_admin_tokens : keyed at_UserID (d_admin_tokens d);
  ok_admin_users : dom (d_admin_tokens d) ⊆ dom (d_users d);
  ok_access : ∀ u n, (u, n) ∈ d_access d → is_Some (d_users d !! u);
  ok_clients : references (d_clients d) c_UserID (d_users d) ∧ references (d_clients d) c_TokenID (d_tokens d);
  ok_leases : references (d_leases d) l_UserID (d_users d) ∧ references (d_leases d) l_TokenID (d_tokens d);
  ok_sequence : 0 ≤ d_sequence d;
  ok_cache : ∀ u n r, d_cache d !! (u, n) = Some r →
    nc_session r = session_of d n ∧ 0 ≤ nc_applied r ≤ d_sequence d ∧ 0 < nc_desired r ≤ d_sequence d;
  ok_blocked : map_Forall (λ ip b, bi_IP b = ip) (d_blocked d) }.

(** ** The administrator's operations *)

Inductive db_op :=
  | OpInitialAdmin (now : time) (username displayName passwordHash : string)
  | OpCreateUser (now : time) (username displayName passwordHash role : string)
  | OpCreateUserWithToken (now : time) (username displayName passwordHash role name plain hash prefix : string) (max : Z)
  | OpSetUserStatus (now : time) (id : Z) (status reason : string)
  | OpDeleteUser (id : Z)
  | OpResourcePolicy (policy : UserResourcePolicy)
  | OpDPIPolicy (nil_detectors : bool) (policy : Policy)
  | OpCreateToken (now : time) (userID : Z) (name plain hash prefix : string) (max : Z) (expires : option time)
  | OpTokenStatus (now : time) (id : Z) (status reason : string)
  | OpRotateToken (now : time) (id : Z) (plain hash prefix : string)
  | OpCreateGrant (grant : PortGrant)
  | OpAdminToken (now : time) (userID : Z) (hash prefix : string)
  | OpNodeAccess (listed : list EdgeNode) (userID : Z) (nodes : list string)
  | OpBlock (now : time) (ip reason : string) (createdBy : Z)
  | OpUnblock (ip : string)
  | OpClientStatus (id : Z) (status reason : string)
  | OpDeleteClient (id : Z)
  | OpDeleteNode (nodeID : string).

(** [userNodeAccess] of [handlers_account_login.go]: the user exists and is not
    an administrator, and every node is the controller or an active edge.  The nodes
    are listed before the transaction, which the deletion of a node may precede, so
    the list is an argument. *)
Definition known_node (listed : list EdgeNode) (n : string) : bool :=
  bool_decide (n = "controller"%string) ||
  existsb (λ e, bool_decide (en_NodeID e = n) && bool_decide (en_Status e = "active"%string)) listed.
Definition userNodeAccess (d : ControllerDB) (listed : list EdgeNode) (userID : Z) (nodeIDs : list string) : result ControllerDB :=
  match d_users d !! userID with
  | None => inl (ErrText "请选择普通用户")
  | Some u =>
      if negb (bool_decide (u_Role u = "user"%string)) then inl (ErrText "请选择普通用户")
      else if negb (forallb (known_node listed) nodeIDs) then inl (ErrText "节点不存在或已禁用，请刷新后重试")
      else SaveUserNodeAccess d userID nodeIDs
  end.
(** The transaction of [deleteEdgeNode]; the handler then forgets the node. *)
Definition deleteEdgeNode (d : ControllerDB) (nodeID : string) : result ControllerDB :=
  let nodeID := TrimSpace nodeID in
  if bool_decide (nodeID = ""%string) || bool_decide (nodeID = "controller"%string)
  then inl (ErrText "只能删除边缘节点，不能删除中心自身")
  else DeleteEdgeNode d nodeID.

Definition fst_ok {A} (r : result (ControllerDB * A)) : result ControllerDB := p <-- r; inr p.1.
Definition db_exec (d : ControllerDB) (op : db_op) : result ControllerDB :=
  match op with
  | OpInitialAdmin now username displayName passwordHash =>
      fst_ok (CreateInitialAdmin d now username displayName passwordHash)
  | OpCreateUser now username displayName passwordHash role =>
      fst_ok (CreateUser d now username displayName passwordHash role)
  | OpCreateUserWithToken now username displayName passwordHash role name plain hash prefix max =>
      fst_ok (CreateUserWithAccessToken d now username displayName passwordHash role name plain hash prefix max)
  | OpSetUserStatus now id status reason => SetUserStatus d now id status reason
  | OpDeleteUser id => DeleteUser d id
  | OpResourcePolicy policy => fst_ok (UpsertUserResourcePolicy d policy)
  | OpDPIPolicy nil_detectors policy => fst_ok (UpsertDPIPolicy d nil_detectors policy)
  | OpCreateToken now userID name plain hash prefix max expires =>
      fst_ok (CreateAccessToken d now userID name plain hash prefix max expires)
  | OpTokenStatus now id status reason => SetAccessTokenStatus d now id status reason
  | OpRotateToken now id plain hash prefix => fst_ok (RotateAccessToken d now id plain hash prefix)
  | OpCreateGrant grant => fst_ok (CreatePortGrant d grant)
  | OpAdminToken now userID hash prefix => fst_ok (CreateAdminAPIToken d now userID hash prefix)
  | OpNodeAccess listed userID nodes => userNodeAccess d listed userID nodes
  | OpBlock now ip reason createdBy => inr (UpsertBlockedInboundIP d now ip reason createdBy).1
  | OpUnblock ip => inr (DeleteBlockedInboundIP d ip)
  | OpClientStatus id status reason => inr (SetClientStatus d id status reason)
  | OpDeleteClient id => fst_ok (DeleteClient d id)
  | OpDeleteNode nodeID => deleteEdgeNode d nodeID
  end.

(** Requests one after another; a request that fails leaves the database as it was. *)
Definition db_run (d : ControllerDB) (ops : list db_op) : ControllerDB :=
  foldl (λ d op, match db_exec d op with inr d' => d' | inl _ => d end) d ops.

(** ** Generic facts *)

Lemma fst_ok_inr {A} (r : result (ControllerDB * A)) d : fst_ok r = inr d ↔ ∃ a, r = inr (d, a).
Proof. unfold fst_ok. rewrite rbind_inr. split; [intros ([] & -> & [= <-]); eauto|naive_solver]. Qed.

Lemma no_row_inr {A} (o : option A) a : no_row o = inr a ↔ o = Some a.
Proof. destruct o; cbn; naive_solver. Qed.

Lemma exists_row_false {K V} `{Countable K} (p : V → bool) (t : gmap K V) :
  exists_row p t = false ↔ ∀ k v, t !! k = Some v → p v = false.
Proof.
  unfold exists_row. rewrite <- not_true_iff_false, existsb_exists. split.
  - intros Hn k v Hv. apply not_true_iff_false. intros Hp. apply Hn. exists (k, v).
    by rewrite <- list_elem_of_In, elem_of_map_to_list.
  - intros Hall ([k v] & Hin & Hp). rewrite <- list_elem_of_In, elem_of_map_to_list in Hin.
    cbn in Hp. by rewrite (Hall _ _ Hin) in Hp.
Qed.

Lemma delete_where_Some {K V} `{Countable K} (p : K → V → bool) (t : gmap K V) k v :
  delete_where p t !! k = Some v ↔ t !! k = Some v ∧ p k v = false.
Proof. unfold delete_where. by rewrite map_lookup_filter_Some. Qed.

Lemma keyed_insert {V} (key : V → Z) t v : keyed key t → keyed key (<[key v := v]> t).
Proof. intros Ht. by apply map_Forall_insert_2. Qed.

Lemma keyed_alter {V} (key : V → Z) (f : V → V) i t : (∀ v, key (f v) = key v) → keyed key t → keyed key (alter f i t).
Proof.
  intros Hf Ht k v. rewrite lookup_alter_Some. intros [(-> & w & Hw & ->)|[_ Hv]]; [rewrite Hf|]; by apply Ht.
Qed.

Lemma keyed_delete_where {V} (key : V → Z) p t : keyed key t → keyed key (delete_where p t).
Proof. intros Ht k v [Hv _]%delete_where_Some. by apply Ht. Qed.

Lemma is_Some_alter {K V} `{Countable K} (f : V → V) i (t : gmap K V) k : is_Some (alter f i t !! k) ↔ is_Some (t !! k).
Proof.
  destruct (decide (i = k)) as [->|Hne]; [rewrite lookup_alter_eq, fmap_is_Some|rewrite lookup_alter_ne]; done.
Qed.

Lemma unique_by_insert {V A} (f : V → A) (t : gmap Z V) i v :
  unique_by f t → (∀ k w, t !! k = Some w → k ≠ i → f w ≠ f v) → unique_by f (<[i := v]> t).
Proof.
  intros Hu Hv a b x y Ha Hb Hxy.
  apply lookup_insert_Some in Ha as [[<- <-]|[Hai Ha]]; apply lookup_insert_Some in Hb as [[<- <-]|[Hbi Hb]]; [done|..].
  - by edestruct (Hv _ _ Hb).
  - by edestruct (Hv _ _ Ha).
  - by eapply Hu.
Qed.

Lemma references_insert_target {K V W} `{Countable K} (t : gmap K V) (f : V → Z) (target : gmap Z W) i w :
  references t f target → references t f (<[i := w]> target).
Proof. intros Hr k v Hv. rewrite lookup_insert_is_Some'. right. by eapply Hr. Qed.

Lemma references_alter_target {K V W} `{Countable K} (t : gmap K V) (f : V → Z) (target : gmap Z W) g i :
  references t f target → references t f (alter g i target).
Proof. intros Hr k v Hv. rewrite is_Some_alter. by eapply Hr. Qed.

Lemma references_weaken {K V W} `{Countable K} (t t' : gmap K V) (f : V → Z) (target : gmap Z W) :
  references t f target → (∀ k v, t' !! k = Some v → ∃ k' v', t !! k' = Some v' ∧ f v' = f v) → references t' f target.
Proof. intros Hr Ht k v Hv. destruct (Ht k v Hv) as (k' & v' & Hv' & <-). by eapply Hr. Qed.

Lemma subset_dom_insert {V W} (t : gmap Z V) (target : gmap Z W) i w :
  dom t ⊆ dom target → dom t ⊆ dom (<[i := w]> target).
Proof. rewrite dom_insert_L. set_solver. Qed.

(** ** Marking as dirty *)

(** A row of the index once [revision] is wanted. *)
Definition raised (cache : gmap (Z * string) CacheRow) (k : Z * string) (sessionID : string) (revision : Z) : CacheRow :=
  match cache !! k with
  | Some r => r <| nc_desired := Z.max (nc_desired r) revision |>
  | None => mkCacheRow sessionID 0 revision None
  end.

Definition want_keys (session : Z * string → string) (revision : Z) (cache : gmap (Z * string) CacheRow)
    (ks : list (Z * string)) : gmap (Z * string) CacheRow :=
  foldl (λ c k, want_revision c k.1 k.2 (session k) revision) cache ks.

Lemma want_revision_raised cache u n session revision :
  want_revision cache u n session revision = <[(u, n) := raised cache (u, n) session revision]> cache.
Proof. done. Qed.

Lemma want_keys_lookup session revision cache ks k :
  want_keys session revision cache ks !! k =
  if bool_decide (k ∈ ks) then Some (raised cache k (session k) revision) else cache !! k.
Proof.
  unfold want_keys. revert cache. induction ks as [|k' ks IH]; intros cache; [done|]. cbn [foldl].
  rewrite IH, want_revision_raised, <- (surjective_pairing k').
  destruct (decide (k = k')) as [->|Hne].
  - rewrite (bool_decide_true (k' ∈ k' :: ks)) by by left.
    unfold raised at 1. rewrite lookup_insert_eq. case_bool_decide; [|done]. f_equal.
    unfold raised. destruct (cache !! k') as [[a b c e]|].
    + change (mkCacheRow a b ((c `max` revision) `max` revision) e = mkCacheRow a b (c `max` revision) e). f_equal. lia.
    + change (mkCacheRow (session k') 0 (revision `max` revision) None = mkCacheRow (session k') 0 revision None).
      f_equal. lia.
  - rewrite (bool_decide_ext (k ∈ k' :: ks) (k ∈ ks)) by set_solver.
    unfold raised at 1. rewrite lookup_insert_ne by done. done.
Qed.

Lemma foldl_map {A B C} (f : A → B → A) (g : C → B) a xs : foldl (λ a x, f a (g x)) a xs = foldl f a (g <$> xs).
Proof. revert a. induction xs as [|x xs IH]; intros a; cbn; [done|]. apply IH. Qed.

Lemma elem_of_dirty_targets d u n :
  n ∈ dirty_targets d u ↔ is_Some (d_nodes d !! n) ∧ (is_Some (d_cache d !! (u, n)) ∨ (u, n) ∈ d_access d).
Proof.
  unfold dirty_targets. rewrite elem_of_elements, elem_of_filter, elem_of_map. split.
  - intros (Hn & [u' n'] & -> & ([= ->] & Hin)%elem_of_filter). rewrite elem_of_union, elem_of_dom in Hin. done.
  - intros (Hn & Hin). split; [done|]. exists (u, n). split; [done|].
    by rewrite elem_of_filter, elem_of_union, elem_of_dom.
Qed.

(** The database after a user is marked: the counter has moved, and every
    registered node that caches the user or may serve them wants the new revision. *)
Lemma mark_dirty_inv d u d' :
  markUserIdentityDirtyTx d u = inr d' →
  0 < d_sequence d' ∧ d_sequence d' = d_sequence d + 1 ∧
  d' = d <| d_sequence := d_sequence d' |> <| d_cache := d_cache d' |> ∧
  ∀ k, d_cache d' !! k =
    if bool_decide (k.1 = u ∧ k.2 ∈ dirty_targets d u)
    then Some (raised (d_cache d) k (session_of d k.2) (d_sequence d')) else d_cache d !! k.
Proof.
  unfold markUserIdentityDirtyTx. case_bool_decide; [done|]. intros [= <-]. cbn. split_and!; [lia|done|done|].
  intros k. set (session := λ k : Z * string, session_of d k.2).
  rewrite (foldl_map (λ c k, want_revision c k.1 k.2 (session k) (d_sequence d + 1)) (λ n, (u, n))).
  fold (want_keys session (d_sequence d + 1) (d_cache d) ((λ n, (u, n)) <$> dirty_targets d u)).
  rewrite want_keys_lookup.
  erewrite bool_decide_ext; [done|]. rewrite list_elem_of_fmap. destruct k. naive_solver.
Qed.

(** ** Preservation *)

Ltac frame H := destruct H; constructor; cbn; try assumption.

Lemma mark_dirty_ok d u d' : db_ok d → markUserIdentityDirtyTx d u = inr d' → db_ok d'.
Proof.
  intros Hok (Hpos & Hseq & Hd & Hc)%mark_dirty_inv. rewrite Hd. frame Hok; [lia|].
  intros u' n r Hr. rewrite Hc in Hr. unfold session_of in *. cbn.
  case_bool_decide as Hb.
  - injection Hr as <-. unfold raised. cbn [snd]. destruct (d_cache d !! (u', n)) as [r0|] eqn:Hr0.
    + specialize (ok_cache0 _ _ _ Hr0) as (Hs & Ha & Hde). cbn. split_and!; [done|lia..].
    + cbn. split_and!; [done|lia..].
  - specialize (ok_cache0 _ _ _ Hr) as (Hs & Ha & Hde). split_and!; [done|lia..].
Qed.

Lemma insert_user_ok d now username displayName passwordHash role d' id :
  db_ok d → insert_user d now username displayName passwordHash role = inr (d', id) →
  db_ok d' ∧ id = d_user_seq d + 1 ∧ d_users d !! id = None ∧
  d' = d <| d_user_seq := id |>
         <| d_users := <[id := mkUser id username displayName passwordHash role "active" "" now now]> (d_users d) |>.
Proof.
  unfold insert_user. intros Hok. destruct (exists_row _ _) eqn:He; [done|]. intros [= <- <-].
  assert (Hfresh : d_users d !! (d_user_seq d + 1) = None).
  { apply eq_None_not_Some. intros Hs%(ok_user_ids d Hok). lia. }
  split_and!; [|done..]. rewrite exists_row_false in He. frame Hok.
  - by apply (keyed_insert u_ID _ (mkUser _ _ _ _ _ _ _ _ _)).
  - intros id. rewrite lookup_insert_is_Some'. intros [<-|Hs%ok_user_ids0]; lia.
  - apply unique_by_insert; [done|]. intros k w Hw _ Heq. cbn in Heq.
    specialize (He _ _ Hw). by rewrite Heq, bool_decide_true in He.
  - lia.
  - by apply references_insert_target.
  - by apply subset_dom_insert.
  - by apply subset_dom_insert.
  - by apply subset_dom_insert.
  - intros u n Hin%ok_access0. rewrite lookup_insert_is_Some'. by right.
  - split; [apply references_insert_target|]; apply ok_clients0.
  - split; [apply references_insert_target|]; apply ok_leases0.
Qed.

Lemma insert_token_ok d now userID name plain hash prefix max expires d' id :
  db_ok d → insert_token d now userID name plain hash prefix max expires = inr (d', id) →
  db_ok d' ∧ id = d_token_seq d + 1 ∧ d_tokens d !! id = None ∧ is_Some (d_users d !! userID) ∧
  d' = d <| d_token_seq := id |>
         <| d_tokens := <[id := mkAccessToken id userID name hash prefix plain "active" "" max expires now now]> (d_tokens d) |>.
Proof.
  unfold insert_token. intros Hok. destruct (exists_row _ _) eqn:He; [done|].
  destruct (d_users d !! userID) as [u|] eqn:Hu; [|done]. intros [= <- <-].
  assert (Hfresh : d_tokens d !! (d_token_seq d + 1) = None).
  { apply eq_None_not_Some. intros Hs%(ok_token_ids d Hok). lia. }
  split_and!; [|done..]. rewrite exists_row_false in He. frame Hok.
  - by apply (keyed_insert t_ID _ (mkAccessToken _ _ _ _ _ _ _ _ _ _ _ _)).
  - intros id. rewrite lookup_insert_is_Some'. intros [<-|Hs%ok_token_ids0]; lia.
  - apply unique_by_insert; [done|]. intros k w Hw _ Heq. cbn in Heq.
    specialize (He _ _ Hw). by rewrite Heq, bool_decide_true in He.
  - lia.
  - intros k t [[<- <-]|[_ Ht]]%lookup_insert_Some; [by exists u|]. by eapply ok_token_users0.
  - by apply references_insert_target.
  - split; [|apply references_insert_target]; apply ok_clients0.
  - split; [|apply references_insert_target]; apply ok_leases0.
Qed.

Lemma alter_user_ok d f id :
  (∀ u, u_ID (f u) = u_ID u ∧ u_Username (f u) = u_Username u) → db_ok d →
  db_ok (d <| d_users := alter f id (d_users d) |>).
Proof.
  intros Hf Hok. frame Hok.
  - apply keyed_alter; [apply Hf|done].
  - intros i. rewrite is_Some_alter. apply ok_user_ids0.
  - intros i j v w Hi Hj.
    apply lookup_alter_Some in Hi as [(<- & v0 & Hi & ->)|[_ Hi]];
      apply lookup_alter_Some in Hj as [(<- & w0 & Hj & ->)|[_ Hj]]; [done|..];
      rewrite ?(proj2 (Hf _)); by eapply ok_usernames0.
  - by apply references_alter_target.
  - by rewrite dom_alter_L.
  - by rewrite dom_alter_L.
  - by rewrite dom_alter_L.
  - intros u n Hin%ok_access0. by rewrite is_Some_alter.
  - split; [apply references_alter_target|]; apply ok_clients0.
  - split; [apply references_alter_target|]; apply ok_leases0.
Qed.

Lemma alter_token_ok d f id :
  (∀ t, t_ID (f t) = t_ID t ∧ t_UserID (f t) = t_UserID t) →
  unique_by t_TokenHash (alter f id (d_tokens d)) → db_ok d →
  db_ok (d <| d_tokens := alter f id (d_tokens d) |>).
Proof.
  intros Hf Hu Hok. frame Hok.
  - apply keyed_alter; [apply Hf|done].
  - intros i. rewrite is_Some_alter. apply ok_token_ids0.
  - eapply references_weaken; [done|]. intros k v.
    intros [(<- & v0 & Hv & ->)|[_ Hv]]%lookup_alter_Some; rewrite ?(proj2 (Hf _)); eauto.
  - by apply references_alter_target.
  - split; [|apply references_alter_target]; apply ok_clients0.
  - split; [|apply references_alter_target]; apply ok_leases0.
Qed.

(** The shape of a deletion: what remains has lost the rows of the user, and no
    client or lease of another user refers to a deleted token. *)
Lemma delete_user_rows_inv d id d' :
  delete_user_rows d id = inr d' →
  d_users d' = delete id (d_users d) ∧ d_tokens d' = delete_where (λ _ t, bool_decide (t_UserID t = id)) (d_tokens d) ∧
  d_grants d' = delete_where (λ _ g, match d_tokens d !! g_TokenID g with
                                     | Some t => bool_decide (t_UserID t = id) | None => false end) (d_grants d) ∧
  d_policies d' = delete id (d_policies d) ∧ d_dpi_policies d' = delete id (d_dpi_policies d) ∧
  d_access d' = filter (λ k, k.1 ≠ id) (d_access d) ∧ d_cache d' = d_cache d ∧ d_sequence d' = d_sequence d ∧
  d_nodes d' = d_nodes d ∧ d_sessions d' = d_sessions d ∧ d_blocked d' = d_blocked d.
Proof. unfold delete_user_rows. destruct (_ || _); [done|]. intros [= <-]. by split_and!. Qed.

Lemma delete_user_rows_ok d id d' : db_ok d → delete_user_rows d id = inr d' → db_ok d'.
Proof.
  intros Hok. unfold delete_user_rows. destruct (_ || _) eqn:He; [done|]. intros [= <-].
  apply orb_false_iff in He as [Hc Hl]. rewrite exists_row_false in Hc. rewrite exists_row_false in Hl.
  assert (Hdel : ∀ i, i ≠ id → is_Some (d_users d !! i) → is_Some (delete id (d_users d) !! i)).
  { intros i Hi Hs. by rewrite lookup_delete_ne. }
  assert (Htok : ∀ i t, d_tokens d !! i = Some t → t_UserID t ≠ id →
            is_Some (delete_where (λ _ t, bool_decide (t_UserID t = id)) (d_tokens d) !! i)).
  { intros i t Ht Hne. exists t. apply delete_where_Some. split; [done|]. by apply bool_decide_false. }
  frame Hok.
  - by apply map_Forall_delete.
  - intros i [u Hu]. apply lookup_delete_Some in Hu as [_ Hu]. eauto.
  - intros i j v w [_ Hi]%lookup_delete_Some [_ Hj]%lookup_delete_Some. by eapply ok_usernames0.
  - by apply keyed_delete_where.
  - intros i [t [Ht _]%delete_where_Some]. eauto.
  - intros i j v w [Hi _]%delete_where_Some [Hj _]%delete_where_Some. by eapply ok_hashes0.
  - intros k t [Ht Hne%bool_decide_eq_false]%delete_where_Some. apply Hdel; [done|]. by eapply ok_token_users0.
  - by apply keyed_delete_where.
  - intros i [g [Hg _]%delete_where_Some]. eauto.
  - intros k g [Hg Hne]%delete_where_Some. destruct (ok_grant_tokens0 _ _ Hg) as [t Ht]. rewrite Ht in Hne.
    apply bool_decide_eq_false in Hne. by eapply Htok.
  - rewrite !dom_delete_L. set_solver.
  - rewrite !dom_delete_L. set_solver.
  - by apply map_Forall_delete.
  - rewrite !dom_delete_L. set_solver.
  - intros u n [Hne Hin]%elem_of_filter. apply Hdel; [done|]. by eapply ok_access0.
  - destruct ok_clients0 as [Hcu Hct]. split; intros k c Hk; assert (Hk' := Hk);
      apply delete_where_Some in Hk as [Hk Hne%bool_decide_eq_false].
    + apply Hdel; [done|]. by eapply Hcu.
    + specialize (Hc _ _ Hk'). destruct (Hct _ _ Hk) as [t Ht]. rewrite Ht in Hc.
      apply bool_decide_eq_false in Hc. by eapply Htok.
  - destruct ok_leases0 as [Hlu Hlt]. split; intros k l Hk; assert (Hk' := Hk);
      apply delete_where_Some in Hk as [Hk Hne%bool_decide_eq_false].
    + apply Hdel; [done|]. by eapply Hlu.
    + specialize (Hl _ _ Hk'). destruct (Hlt _ _ Hk) as [t Ht]. rewrite Ht in Hl.
      apply bool_decide_eq_false in Hl. by eapply Htok.
Qed.

Lemma revoke_where_references (leases : gmap string RuntimeLease) cond (f : RuntimeLease → Z) {W} (target : gmap Z W) :
  (∀ l, f (revoke_lease l) = f l) → references leases f target → references (revoke_where cond leases) f target.
Proof.
  intros Hf Hr. eapply references_weaken; [done|]. intros k v. rewrite lookup_revoke_where.
  intros (l & Hl & ->)%fmap_Some. exists k, l. split; [done|]. destruct (_ && _); by rewrite ?Hf.
Qed.

Lemma insert_policy_ok d id row : is_Some (d_users d !! id) → db_ok d → db_ok (d <| d_policies := <[id := row]> (d_policies d) |>).
Proof. intros Hu%elem_of_dom Hok. frame Hok. rewrite dom_insert_L. set_solver. Qed.

Lemma insert_dpi_policy_ok d id row :
  is_Some (d_users d !! id) → db_ok d → db_ok (d <| d_dpi_policies := <[id := row]> (d_dpi_policies d) |>).
Proof. intros Hu%elem_of_dom Hok. frame Hok. rewrite dom_insert_L. set_solver. Qed.

Lemma insert_grant_ok d g :
  g_ID g = d_grant_seq d + 1 → is_Some (d_tokens d !! g_TokenID g) → db_ok d →
  db_ok (d <| d_grant_seq := g_ID g |> <| d_grants := <[g_ID g := g]> (d_grants d) |>).
Proof.
  intros Hid Ht Hok. frame Hok.
  - by apply (keyed_insert g_ID).
  - intros i. rewrite lookup_insert_is_Some'. intros [<-|Hs%ok_grant_ids0]; lia.
  - lia.
  - intros k w [[<- <-]|[_ Hw]]%lookup_insert_Some; [done|]. by eapply ok_grant_tokens0.
Qed.

Lemma insert_admin_token_ok d t :
  is_Some (d_users d !! at_UserID t) → db_ok d →
  db_ok (d <| d_admin_tokens := <[at_UserID t := t]> (d_admin_tokens d) |>).
Proof.
  intros Hu%elem_of_dom Hok. frame Hok; [by apply (keyed_insert at_UserID)|]. rewrite dom_insert_L. set_solver.
Qed.

Lemma save_access_ok d userID nodes d' :
  is_Some (d_users d !! userID) → db_ok d → SaveUserNodeAccess d userID nodes = inr d' → db_ok d'.
Proof.
  intros Hu Hok. apply mark_dirty_ok. frame Hok.
  - intros u n. rewrite elem_of_union, elem_of_filter, elem_of_list_to_set, list_elem_of_fmap.
    intros [[_ Hin]|(n' & [= -> ->] & _)]; [by eapply ok_access0|done].
  - destruct ok_leases0. case_bool_decide; [by split|]. split; by apply revoke_where_references.
Qed.

(** Each operation is its business statement, which keeps the integrity, followed
    by the marking of one user or by nothing. *)
Lemma with_mark_ok d u (query : ControllerDB → result ControllerDB) d' :
  (∀ d1, query d = inr d1 → db_ok d1) → execUserIdentityChange d u query = inr d' → db_ok d'.
Proof. intros Hq (d1 & Hd1%Hq & Hm)%rbind_inr. by eapply mark_dirty_ok. Qed.

Lemma create_admin_token_ok d now userID hash prefix d' t :
  db_ok d → CreateAdminAPIToken d now userID hash prefix = inr (d', t) → db_ok d'.
Proof.
  intros Hok. unfold CreateAdminAPIToken. intros (d1 & Hd1 & (t' & _ & [= <- _])%rbind_inr)%rbind_inr.
  assert (Hadm : ∀ k v, d_admin_tokens d !! k = Some v → at_UserID v = k ∧ is_Some (d_users d !! at_UserID v)).
  { intros k v Hv. assert (Hk := ok_admin_tokens d Hok k v Hv). split; [done|]. rewrite Hk, <- elem_of_dom.
    apply (ok_admin_users d Hok), elem_of_dom. by exists v. }
  assert (Hrow : ∀ k v f, d_admin_tokens d !! k = Some v → at_UserID (f v) = at_UserID v →
            db_ok (d <| d_admin_tokens := <[k := f v]> (d_admin_tokens d) |>)).
  { intros k v f Hv Hf. destruct (Hadm _ _ Hv) as [<- Hu]. rewrite <- Hf. apply insert_admin_token_ok; [by rewrite Hf|done]. }
  destruct (d_admin_tokens d !! userID) as [t0|] eqn:Ht0, (find_row _ _) as [o|] eqn:Ho.
  - destruct (bool_decide _); [|done]. injection Hd1 as <-. by apply (Hrow userID t0 (λ t, _)).
  - injection Hd1 as <-. by apply (Hrow userID t0 (λ t, _)).
  - injection Hd1 as <-. unfold find_row in Ho. apply fmap_Some in Ho as ([k v] & Hin%head_Some_elem_of & ->).
    apply list_elem_of_filter in Hin as [_ Hin%elem_of_map_to_list]. cbn.
    destruct (Hadm _ _ Hin) as [Hk _]. rewrite Hk. by apply (Hrow k v (λ t, _)).
  - destruct (d_users d !! userID) as [u|] eqn:Hu; [|done]. injection Hd1 as <-.
    apply (insert_admin_token_ok d (mkAdminToken userID hash prefix "active" now now)); [by exists u|done].
Qed.

Lemma create_user_ok d now username displayName passwordHash role d' u :
  db_ok d → CreateUser d now username displayName passwordHash role = inr (d', u) → db_ok d'.
Proof.
  intros Hok ([d1 id] & (Hok1 & _)%insert_user_ok & Hu)%rbind_inr; [|done].
  by apply rbind_inr in Hu as (u' & _ & [= <- _]).
Qed.
Lemma create_with_token_ok d now username displayName passwordHash role name plain hash prefix max d' r :
  db_ok d → CreateUserWithAccessToken d now username displayName passwordHash role name plain hash prefix max = inr (d', r) → db_ok d'.
Proof.
  intros Hok ([d1 id] & (Hok1 & -> & _ & Hd1)%insert_user_ok & Hr)%rbind_inr; [|done].
  apply rbind_inr in Hr as ([d2 tid] & (Hok2 & _ & _ & Hu & Hd2)%insert_token_ok & Hr); [|done].
  apply rbind_inr in Hr as (pol & (_ & ->)%insert_row_inr & Hr).
  apply rbind_inr in Hr as (u' & _ & (t' & _ & [= <- _])%rbind_inr).
  apply insert_policy_ok; [|done]. by rewrite Hd2.
Qed.
Lemma token_status_ok d now id status reason d' :
  db_ok d → SetAccessTokenStatus d now id status reason = inr d' → db_ok d'.
Proof.
  intros Hok (t & _ & Hr)%rbind_inr. revert Hr. apply with_mark_ok. intros d1 [= <-].
  apply alter_token_ok; [done| |done]. intros i j v w Hi Hj.
  apply lookup_alter_Some in Hi as [(<- & v0 & Hi & ->)|[_ Hi]];
    apply lookup_alter_Some in Hj as [(<- & w0 & Hj & ->)|[_ Hj]]; [done|..];
    intros Heq; exact (ok_hashes d Hok _ _ _ _ Hi Hj Heq).
Qed.
Lemma rotate_token_ok d now id plain hash prefix d' t :
  db_ok d → RotateAccessToken d now id plain hash prefix = inr (d', t) → db_ok d'.
Proof.
  intros Hok (t0 & _ & (d1 & Hd1 & (t1 & _ & [= <- _])%rbind_inr)%rbind_inr)%rbind_inr. revert Hd1.
  apply with_mark_ok. intros d2. destruct (exists_row _ _) eqn:He; [done|]. intros [= <-].
  rewrite exists_row_false in He. apply alter_token_ok; [done| |done].
  assert (Hfree : ∀ k w, d_tokens d !! k = Some w → k ≠ id → t_TokenHash w ≠ hash).
  { intros k w Hw Hne Heq. specialize (He _ _ Hw). rewrite (ok_tokens d Hok _ _ Hw) in He.
    by rewrite bool_decide_true, bool_decide_false in He. }
  intros i j v w Hi Hj.
  apply lookup_alter_Some in Hi as [(<- & v0 & Hi & ->)|[Hni Hi]];
    apply lookup_alter_Some in Hj as [(<- & w0 & Hj & ->)|[Hnj Hj]]; [done|..]; cbn; intros Heq.
  - by edestruct (Hfree _ _ Hj).
  - by edestruct (Hfree _ _ Hi).
  - by eapply (ok_hashes d Hok).
Qed.

Lemma client_status_ok d id status reason : db_ok d → db_ok (SetClientStatus d id status reason).
Proof.
  intros Hok. frame Hok. destruct ok_clients0 as [Hu Ht].
  split; intros k c [(<- & c0 & Hc & ->)|[_ Hc]]%lookup_alter_Some; first [exact (Hu _ _ Hc)|exact (Ht _ _ Hc)].
Qed.
Lemma delete_client_ok d id d' c : db_ok d → DeleteClient d id = inr (d', c) → db_ok d'.
Proof.
  intros Hok. unfold DeleteClient. destruct (d_clients d !! id); [|done]. intros [= <- _]. frame Hok.
  - destruct ok_clients0 as [Hu Ht]. split; intros k c1 [_ Hc]%lookup_delete_Some; first [exact (Hu _ _ Hc)|exact (Ht _ _ Hc)].
  - destruct ok_leases0 as [Hu Ht]. split; intros k l [Hl _]%delete_where_Some; first [exact (Hu _ _ Hl)|exact (Ht _ _ Hl)].
Qed.
(** The rows of the other nodes stay, and with the session of the node its index goes. *)
Lemma delete_node_ok d n d' : db_ok d → DeleteEdgeNode d n = inr d' → db_ok d'.
Proof.
  intros Hok. unfold DeleteEdgeNode. destruct (d_nodes d !! n); [|done]. intros [= <-]. frame Hok.
  - intros u m [_ Hin]%elem_of_filter. eauto.
  - intros u m r [Hr Hne%bool_decide_eq_false]%delete_where_Some. cbn in Hne. apply ok_cache0 in Hr. unfold session_of in *. cbn.
    by rewrite lookup_delete_ne.
Qed.

Lemma db_exec_keeps d op d' : db_ok d → db_exec d op = inr d' → db_ok d'.
Proof.
  intros Hok. destruct op; cbn [db_exec].
  - intros (u & Hu)%fst_ok_inr. unfold CreateInitialAdmin in Hu. destruct (exists_row _ _); [done|].
    apply rbind_inr in Hu as ([d1 id] & (Hok1 & _)%insert_user_ok & Hu); [|done].
    apply rbind_inr in Hu as (u' & _ & [= <- _]). by frame Hok1.
  - intros (u & Hu)%fst_ok_inr. by eapply create_user_ok.
  - intros (r & Hr)%fst_ok_inr. by eapply create_with_token_ok.
  - apply with_mark_ok. intros d1 [= <-]. by apply alter_user_ok.
  - unfold DeleteUser. destruct (d_users d !! id); [|done]. destruct (_ && _); [done|].
    intros (d1 & Hd1%delete_user_rows_ok & Hm)%rbind_inr; [|done]. by eapply mark_dirty_ok.
  - intros (p & (d1 & Hd1 & (q & _ & [= <- _])%rbind_inr)%rbind_inr)%fst_ok_inr. revert Hd1.
    apply with_mark_ok. intros d2. destruct (d_users d !! _) eqn:Hu; [|done]. intros [= <-]. by apply insert_policy_ok.
  - intros (p & (d1 & Hd1 & [= <- _])%rbind_inr)%fst_ok_inr. revert Hd1.
    apply with_mark_ok. intros d2. destruct (d_users d !! _) eqn:Hu; [|done]. intros [= <-]. by apply insert_dpi_policy_ok.
  - intros (t & ([d1 tid] & (Hok1 & _)%insert_token_ok & Hr)%rbind_inr)%fst_ok_inr; [|done].
    apply rbind_inr in Hr as (d2 & Hd2 & (t' & _ & [= <- _])%rbind_inr). by eapply mark_dirty_ok.
  - by apply token_status_ok.
  - intros (t & Ht)%fst_ok_inr. by eapply rotate_token_ok.
  - intros (g & (t0 & Ht0%no_row_inr & (d1 & Hd1 & [= <- _])%rbind_inr)%rbind_inr)%fst_ok_inr. revert Hd1.
    apply with_mark_ok. intros d2 [= <-]. apply (insert_grant_ok d (mkGrant _ _ _ _ _ _ _ _ _)); [done| |done]. by exists t0.
  - intros (t & Ht)%fst_ok_inr. by eapply create_admin_token_ok.
  - unfold userNodeAccess. destruct (d_users d !! userID) as [u|] eqn:Hu; [|done].
    destruct (negb _); [done|]. destruct (negb _); [done|]. apply save_access_ok; [by exists u|done].
  - intros [= <-]. unfold UpsertBlockedInboundIP. frame Hok. apply map_Forall_insert_2; [|done].
    by destruct (d_blocked d !! ip).
  - intros [= <-]. frame Hok. by apply map_Forall_delete.
  - intros [= <-]. by apply client_status_ok.
  - intros (c & Hc)%fst_ok_inr. by eapply delete_client_ok.
  - unfold deleteEdgeNode. destruct (_ || _); [done|]. by apply delete_node_ok.
Qed.

Lemma db_run_keeps d ops : db_ok d → db_ok (db_run d ops).
Proof.
  revert d. induction ops as [|op ops IH]; intros d Hok; [done|]. apply IH.
  destruct (db_exec d op) as [e|d1] eqn:Hx; [done|by eapply db_exec_keeps].
Qed.

(** C14: the integrity of the controller's database is kept by every operation of
    an administrator: keys, unique user names and token hashes, foreign keys, the
    bounds of the ids, and the index of cached users, in which every row belongs
    to the current session of its node and no revision is ahead of the counter. *)
Theorem db_exec_ok d ops : db_ok d → db_ok (db_run d ops).
Proof. apply db_run_keeps. Qed.

(** ** The outbox *)

(** Two databases agree on everything a node should hold of a user. *)
Lemma db_view_ext d d' n u :
  d_users d' !! u = d_users d !! u → CanAccessNode d' u n = CanAccessNode d u n →
  filter (λ kt, t_UserID kt.2 = u) (d_tokens d') = filter (λ kt, t_UserID kt.2 = u) (d_tokens d) →
  d_policies d' !! u = d_policies d !! u →
  filter (λ kg, owned_by t_UserID (d_tokens d') u kg.2) (d_grants d') =
    filter (λ kg, owned_by t_UserID (d_tokens d) u kg.2) (d_grants d) →
  d_dpi_policies d' !! u = d_dpi_policies d !! u → db_view d' n u = db_view d n u.
Proof. unfold db_view. by intros -> -> -> -> -> ->. Qed.

Lemma filter_insert_not {V} (P : Z * V → Prop) `{∀ x, base.Decision (P x)} (m : gmap Z V) i v :
  ¬ P (i, v) → (∀ w, m !! i = Some w → ¬ P (i, w)) → filter P (<[i := v]> m) = filter P m.
Proof.
  intros Hv Hw. rewrite map_filter_insert_False by done. apply map_filter_delete_not. done.
Qed.

Lemma filter_alter_not {V} (P : Z * V → Prop) `{∀ x, base.Decision (P x)} (m : gmap Z V) f i :
  (∀ v, m !! i = Some v → ¬ P (i, v) ∧ ¬ P (i, f v)) → filter P (alter f i m) = filter P m.
Proof.
  intros Hv. apply map_eq. intros k. apply option_eq. intros v.
  rewrite !map_lookup_filter_Some, lookup_alter_Some. split.
  - intros [[(<- & w & Hw & ->)|[_ Hk]] HP]; [|done]. by destruct (Hv w Hw).
  - intros [Hk HP]. split; [|done]. destruct (decide (i = k)) as [<-|Hne]; [|by right]. by destruct (Hv v Hk).
Qed.

(** [d1] differs from [d] only in what concerns the user [u]. *)
Record touches (u : Z) (d d1 : ControllerDB) : Prop := mkTouches {
  tch_view : ∀ n v, v ≠ u → db_view d1 n v = db_view d n v;
  tch_access : ∀ n v, v ≠ u → (v, n) ∈ d_access d1 ↔ (v, n) ∈ d_access d;
  tch_cache : d_cache d1 = d_cache d;
  tch_sequence : d_sequence d1 = d_sequence d;
  tch_sessions : d_sessions d1 = d_sessions d;
  tch_nodes : d_nodes d1 = d_nodes d }.

(** What a node may observe of a step of the database: rows of its index are
    only raised or added above the old counter, and when the wanted view of a
    user changes, either their row is raised or they have no row and are not
    wanted any more. *)
Record evolves (n : string) (d d' : ControllerDB) : Prop := mkEvolves {
  ev_sequence : d_sequence d ≤ d_sequence d';
  ev_session : d_sessions d' !! n = d_sessions d !! n;
  ev_row : ∀ u r, d_cache d !! (u, n) = Some r →
    ∃ r', d_cache d' !! (u, n) = Some r' ∧ nc_applied r' = nc_applied r ∧ nc_session r' = nc_session r ∧
      (nc_desired r' = nc_desired r ∨ d_sequence d < nc_desired r');
  ev_new : ∀ u r', d_cache d !! (u, n) = None → d_cache d' !! (u, n) = Some r' →
    nc_applied r' = 0 ∧ nc_session r' = session_of d n ∧ d_sequence d < nc_desired r';
  ev_view : ∀ u,
    (∃ r', d_cache d' !! (u, n) = Some r' ∧ d_sequence d < nc_desired r') ∨
    db_view d' n u = db_view d n u ∨
    (d_cache d' !! (u, n) = None ∧ db_view d' n u = empty_view);
  ev_node : is_Some (d_nodes d !! n) → is_Some (d_nodes d' !! n) }.

Lemma evolves_same n d d' :
  d_sequence d ≤ d_sequence d' → d_sessions d' !! n = d_sessions d !! n →
  (∀ u, d_cache d' !! (u, n) = d_cache d !! (u, n)) → (∀ u, db_view d' n u = db_view d n u) →
  d_nodes d' !! n = d_nodes d !! n → evolves n d d'.
Proof.
  intros Hq Hs Hc Hv Hno. constructor; [done|done|..|by rewrite Hno].
  - intros u r Hr. exists r. rewrite Hc. naive_solver.
  - intros u r' Hn. rewrite Hc, Hn. done.
  - intros u. right. by left.
Qed.

Lemma evolves_trans n d1 d2 d3 : evolves n d1 d2 → evolves n d2 d3 → evolves n d1 d3.
Proof.
  intros [S1 E1 R1 N1 V1 K1] [S2 E2 R2 N2 V2 K2].
  assert (Hraise : ∀ u r, d_cache d2 !! (u, n) = Some r → d_sequence d1 < nc_desired r →
    ∃ r', d_cache d3 !! (u, n) = Some r' ∧ d_sequence d1 < nc_desired r').
  { intros u r Hr Hd. destruct (R2 _ _ Hr) as (r' & Hr' & _ & _ & Hd'). exists r'. split; [done|lia]. }
  constructor; [lia|congruence|intros u r Hr|intros u r Hn Hr|intros u|auto].
  - destruct (R1 _ _ Hr) as (r2 & Hr2 & Ha2 & Hs2 & Hd2). destruct (R2 _ _ Hr2) as (r3 & Hr3 & Ha3 & Hs3 & Hd3).
    exists r3. split_and!; [done|lia|congruence|lia].
  - destruct (d_cache d2 !! (u, n)) as [r2|] eqn:Hr2.
    + destruct (N1 _ _ Hn Hr2) as (Ha & Hs & Hd). destruct (R2 _ _ Hr2) as (r3 & Hr3 & Ha3 & Hs3 & Hd3).
      rewrite Hr in Hr3. injection Hr3 as <-. split_and!; [lia|congruence|lia].
    + destruct (N2 _ _ Hr2 Hr) as (Ha & Hs & Hd). split_and!; [done| |lia]. rewrite Hs. unfold session_of. by rewrite E1.
  - destruct (V2 u) as [(r3 & Hr3 & Hd3)|H2]; [left; exists r3; split; [done|lia]|].
    destruct (V1 u) as [(r2 & Hr2 & Hd2)|[H1|[Hc1 H1]]]; [left; by eapply Hraise| |].
    + rewrite <- H1. by right.
    + destruct (d_cache d3 !! (u, n)) as [r3|] eqn:Hr3.
      * left. exists r3. split; [done|]. destruct (N2 _ _ Hc1 Hr3) as (_ & _ & Hd). lia.
      * right; right. split; [done|]. destruct H2 as [->|[_ ?]]; done.
Qed.

Lemma mark_dirty_view d u d' n v : markUserIdentityDirtyTx d u = inr d' → db_view d' n v = db_view d n v.
Proof. intros (_ & _ & Hd & _)%mark_dirty_inv. rewrite Hd. by apply db_view_ext. Qed.

Lemma no_access_view d n u : (u, n) ∉ d_access d → db_view d n u = empty_view.
Proof.
  intros Hn. unfold db_view, CanAccessNode. rewrite bool_decide_false by done. by destruct (d_users d !! u).
Qed.

(** A statement on one user and the marking of that user. *)
Lemma touch_mark_evolves n u d d1 d' :
  db_ok d → is_Some (d_nodes d !! n) → touches u d d1 → markUserIdentityDirtyTx d1 u = inr d' → evolves n d d'.
Proof.
  intros Hok Hn [Hview _ Hcache Hseq Hsess Hnodes] Hm. assert (Hm' := Hm).
  apply mark_dirty_inv in Hm' as (Hpos & Hs & Hd & Hc). rewrite Hcache in Hc.
  assert (Hso : session_of d1 n = session_of d n) by (unfold session_of; by rewrite Hsess).
  assert (Hdirty : ∀ v r, d_cache d !! (v, n) = Some r → nc_desired r ≤ d_sequence d) by
    (intros v r Hr; by apply (ok_cache d Hok) in Hr as (_ & _ & _ & ?)).
  constructor.
  - lia.
  - by rewrite Hd, <- Hsess.
  - intros v r Hr. rewrite Hc. case_bool_decide; [|exists r; naive_solver].
    eexists. split; [done|]. unfold raised. rewrite Hr. cbn -[Z.max]. split_and!; [done|done|right].
    specialize (Hdirty _ _ Hr). lia.
  - intros v r' Hnone. rewrite Hc, Hnone. case_bool_decide; [|done]. intros [= <-]. unfold raised. rewrite Hnone.
    cbn -[Z.max]. split_and!; [done|done|lia].
  - intros v. rewrite (mark_dirty_view _ _ _ _ _ Hm). destruct (decide (v = u)) as [->|Hne]; [|right; left; by apply Hview].
    specialize (Hc (u, n)). cbn in Hc. case_bool_decide as Ht.
    + left. eexists. split; [done|]. unfold raised. destruct (d_cache d !! (u, n)) as [r|] eqn:Hr; cbn -[Z.max]; lia.
    + right. right. assert (Hno : n ∉ dirty_targets d1 u) by naive_solver. rewrite elem_of_dirty_targets, Hnodes, Hcache in Hno.
      split; [rewrite Hc; apply eq_None_not_Some; tauto|]. apply no_access_view. tauto.
  - by rewrite Hd, <- Hnodes.
Qed.

(** *** The statements *)

Lemma touches_users d f id : touches id d (d <| d_users := alter f id (d_users d) |>).
Proof.
  constructor; cbn; [|done..]. intros n v Hne. apply db_view_ext; cbn; [|done..]. by rewrite lookup_alter_ne.
Qed.

Lemma touches_policies d id row : touches id d (d <| d_policies := <[id := row]> (d_policies d) |>).
Proof.
  constructor; cbn; [|done..]. intros n v Hne. apply db_view_ext; cbn; try done. by rewrite lookup_insert_ne.
Qed.

Lemma touches_dpi_policies d id row : touches id d (d <| d_dpi_policies := <[id := row]> (d_dpi_policies d) |>).
Proof.
  constructor; cbn; [|done..]. intros n v Hne. apply db_view_ext; cbn; try done. by rewrite lookup_insert_ne.
Qed.

Lemma touches_tokens d f id t :
  d_tokens d !! id = Some t → (∀ t, t_UserID (f t) = t_UserID t) →
  touches (t_UserID t) d (d <| d_tokens := alter f id (d_tokens d) |>).
Proof.
  intros Ht Hf. constructor; cbn; [|done..]. intros n v Hne. apply db_view_ext; cbn; try done.
  - apply filter_alter_not. intros w Hw. rewrite Ht in Hw. injection Hw as <-. cbn. rewrite Hf. naive_solver.
  - apply map_filter_ext. intros i g _. unfold owned_by. cbn.
    destruct (decide (id = g_TokenID g)) as [<-|Hn]; [|by rewrite lookup_alter_ne].
    rewrite lookup_alter_eq, Ht. cbn. by rewrite Hf.
Qed.

Lemma touches_new_token d id seq t :
  db_ok d → d_tokens d !! id = None →
  touches (t_UserID t) d (d <| d_token_seq := seq |> <| d_tokens := <[id := t]> (d_tokens d) |>).
Proof.
  intros Hok Hid. constructor; cbn; [|done..]. intros n v Hne. apply db_view_ext; cbn; try done.
  - apply filter_insert_not; cbn; [naive_solver|]. intros w Hw. by rewrite Hid in Hw.
  - apply map_filter_ext. intros i g Hg. unfold owned_by. cbn. rewrite lookup_insert_ne; [done|].
    intros Heq. destruct (ok_grant_tokens d Hok _ _ Hg) as [w Hw]. by rewrite <- Heq, Hid in Hw.
Qed.

Lemma touches_grants d id seq g t :
  db_ok d → d_grants d !! id = None → d_tokens d !! g_TokenID g = Some t →
  touches (t_UserID t) d (d <| d_grant_seq := seq |> <| d_grants := <[id := g]> (d_grants d) |>).
Proof.
  intros Hok Hid Ht. constructor; cbn; [|done..]. intros n v Hne. apply db_view_ext; cbn; try done.
  apply filter_insert_not; unfold owned_by; cbn; [rewrite Ht; cbn; naive_solver|]. intros w Hw. by rewrite Hid in Hw.
Qed.

Lemma touches_delete d id d1 : delete_user_rows d id = inr d1 → touches id d d1.
Proof.
  intros (Hu & Ht & Hg & Hp & Hdp & Ha & Hc & Hs & Hn & Hse & _)%delete_user_rows_inv.
  assert (Hacc : ∀ n v, v ≠ id → (v, n) ∈ d_access d1 ↔ (v, n) ∈ d_access d).
  { intros n v Hne. rewrite Ha, elem_of_filter. naive_solver. }
  constructor; [|done..]. intros n v Hne. apply db_view_ext; rewrite ?Hu, ?Hp, ?Hdp, ?lookup_delete_ne by done; try done.
  - unfold CanAccessNode. by apply bool_decide_ext, Hacc.
  - rewrite Ht. unfold delete_where. rewrite map_filter_filter. apply map_filter_ext. intros i t _. cbn.
    rewrite bool_decide_eq_false. naive_solver.
  - rewrite Hg. unfold delete_where. rewrite map_filter_filter. apply map_filter_ext. intros i g _. cbn.
    unfold owned_by. rewrite Ht. destruct (d_tokens d !! g_TokenID g) as [t|] eqn:Htok.
    + destruct (decide (t_UserID t = id)) as [He|He].
      * replace (delete_where _ _ !! _) with (@None AccessToken).
        -- rewrite bool_decide_true by done. cbn. naive_solver.
        -- symmetry. apply eq_None_not_Some. intros [w [Hw Hb]%delete_where_Some]. rewrite Htok in Hw. injection Hw as <-.
           by apply bool_decide_eq_false in Hb.
      * replace (delete_where _ _ !! _) with (Some t); [rewrite bool_decide_false by done; naive_solver|].
        symmetry. apply delete_where_Some. by rewrite bool_decide_false.
    + replace (delete_where _ _ !! _) with (@None AccessToken); [naive_solver|].
      symmetry. apply eq_None_not_Some. intros [w [Hw _]%delete_where_Some]. by rewrite Htok in Hw.
Qed.

Lemma touches_access d userID nodes leases :
  touches userID d (d <| d_access := filter (λ k, k.1 ≠ userID) (d_access d) ∪ list_to_set ((λ n, (userID, n)) <$> nodes) |>
                      <| d_leases := leases |>).
Proof.
  assert (Hacc : ∀ n v, v ≠ userID →
    (v, n) ∈ filter (λ k, k.1 ≠ userID) (d_access d) ∪ list_to_set ((λ n, (userID, n)) <$> nodes) ↔ (v, n) ∈ d_access d).
  { intros n v Hne. rewrite elem_of_union, elem_of_filter, elem_of_list_to_set, list_elem_of_fmap. naive_solver. }
  constructor; cbn; [|done..]. intros n v Hne. apply db_view_ext; cbn; try done.
  unfold CanAccessNode. cbn. by apply bool_decide_ext, Hacc.
Qed.

(** A new user is not wanted anywhere. *)
Lemma insert_user_view d now username displayName passwordHash role d' id n u :
  db_ok d → insert_user d now username displayName passwordHash role = inr (d', id) → db_view d' n u = db_view d n u.
Proof.
  intros Hok (_ & _ & Hfresh & ->)%insert_user_ok; [|done]. destruct (decide (u = id)) as [->|Hne].
  - assert ((id, n) ∉ d_access d). { intros [w Hw]%(ok_access d Hok). by rewrite Hfresh in Hw. }
    by rewrite !no_access_view.
  - apply db_view_ext; cbn; try done. by rewrite lookup_insert_ne.
Qed.

Lemma touches_no_access u d d1 n v :
  touches u d d1 → (u, n) ∉ d_access d → (u, n) ∉ d_access d1 → db_view d1 n v = db_view d n v.
Proof.
  intros Ht H1 H2. destruct (decide (v = u)) as [->|Hne]; [by rewrite !no_access_view|by apply Ht].
Qed.

Lemma create_with_token_view d now username displayName passwordHash role name plain hash prefix max d' r n v :
  db_ok d →
  CreateUserWithAccessToken d now username displayName passwordHash role name plain hash prefix max = inr (d', r) →
  db_view d' n v = db_view d n v ∧ d_cache d' = d_cache d ∧ d_sequence d' = d_sequence d ∧ d_sessions d' = d_sessions d ∧ d_nodes d' = d_nodes d.
Proof.
  intros Hok Hr. unfold CreateUserWithAccessToken in Hr.
  apply rbind_inr in Hr as ([d1 id] & Hi & Hr). assert (Hv := insert_user_view _ _ _ _ _ _ _ _ n v Hok Hi).
  apply insert_user_ok in Hi as (Hok1 & _ & Hfresh & Hd1); [|done]. cbn [fst snd] in Hr.
  apply rbind_inr in Hr as ([d2 tid] & (Hok2 & _ & Htid & _ & Hd2)%insert_token_ok & Hr); [|done].
  apply rbind_inr in Hr as (pol & (_ & ->)%insert_row_inr & Hr).
  apply rbind_inr in Hr as (u' & _ & (t' & _ & [= <- _])%rbind_inr). cbn [fst snd].
  assert (Hno : (id, n) ∉ d_access d). { intros [w Hw]%(ok_access d Hok). by rewrite Hfresh in Hw. }
  split_and!; [|by rewrite Hd2, Hd1..].
  rewrite <- Hv, <- (touches_no_access id d1 d2 n v).
  - apply (touches_no_access id); [apply touches_policies|by rewrite Hd2, Hd1..].
  - rewrite Hd2. by apply (touches_new_token d1 tid tid (mkAccessToken _ id _ _ _ _ _ _ _ _ _ _)).
  - by rewrite Hd1.
  - by rewrite Hd2, Hd1.
Qed.

Lemma exec_change_inr d u query d' :
  execUserIdentityChange d u query = inr d' ↔ ∃ d1, query d = inr d1 ∧ markUserIdentityDirtyTx d1 u = inr d'.
Proof. apply rbind_inr. Qed.

(** A request is a statement on one user followed by the marking of that user, or it
    changes nothing that a node observes, or it deletes a node. *)
Definition deletes (op : db_op) (n : string) : Prop := match op with OpDeleteNode m => TrimSpace m = n | _ => False end.
#[export] Instance deletes_dec op n : base.Decision (deletes op n).
Proof. destruct op; cbn; apply _. Defined.
Inductive db_shape (op : db_op) (d d' : ControllerDB) : Prop :=
  | shape_mark u d1 : touches u d d1 → markUserIdentityDirtyTx d1 u = inr d' → db_shape op d d'
  | shape_same : d_sequence d' = d_sequence d → d_sessions d' = d_sessions d → d_cache d' = d_cache d → d_nodes d' = d_nodes d →
      (∀ n u, db_view d' n u = db_view d n u) → db_shape op d d'
  | shape_delete m : deletes op m → DeleteEdgeNode d m = inr d' → db_shape op d d'.

Lemma admin_token_shape op d now userID hash prefix d' t :
  CreateAdminAPIToken d now userID hash prefix = inr (d', t) → db_shape op d d'.
Proof.
  intros (d1 & Hd1 & (t' & _ & [= <- _])%rbind_inr)%rbind_inr.
  assert (Hsame : ∃ m, d1 = d <| d_admin_tokens := m |>).
  { destruct (d_admin_tokens d !! userID), (find_row _ _); try destruct (bool_decide _);
      try destruct (d_users d !! userID); naive_solver. }
  destruct Hsame as [m ->]. by apply shape_same.
Qed.
Lemma create_token_shape op d now userID name plain hash prefix max expires d' t :
  db_ok d → CreateAccessToken d now userID name plain hash prefix max expires = inr (d', t) → db_shape op d d'.
Proof.
  intros Hok ([d1 tid] & (_ & _ & Htid & _ & ->)%insert_token_ok & Hr)%rbind_inr; [|done].
  apply rbind_inr in Hr as (d2 & Hd2 & (t' & _ & [= <- _])%rbind_inr). eapply shape_mark; [|exact Hd2].
  by apply (touches_new_token d tid tid (mkAccessToken _ userID _ _ _ _ _ _ _ _ _ _)).
Qed.

Lemma db_exec_shape d op d' : db_ok d → db_exec d op = inr d' → db_shape op d d'.
Proof.
  intros Hok. destruct op; cbn [db_exec].
  - intros (u & Hu)%fst_ok_inr. unfold CreateInitialAdmin in Hu. destruct (exists_row _ _); [done|].
    apply rbind_inr in Hu as ([d1 id] & Hi & (u' & _ & [= <- _])%rbind_inr).
    assert (Hv := λ n v, insert_user_view _ _ _ _ _ _ _ _ n v Hok Hi).
    apply insert_user_ok in Hi as (_ & _ & _ & Hd1); [|done]. rewrite Hd1 in *. by apply shape_same.
  - intros (u & ([d1 id] & Hi & (u' & _ & [= <- _])%rbind_inr)%rbind_inr)%fst_ok_inr.
    assert (Hv := λ n v, insert_user_view _ _ _ _ _ _ _ _ n v Hok Hi).
    apply insert_user_ok in Hi as (_ & _ & _ & Hd1); [|done]. cbn [fst]. rewrite Hd1 in *. by apply shape_same.
  - intros (r & Hr)%fst_ok_inr.
    assert (Hv := λ n v, create_with_token_view _ _ _ _ _ _ _ _ _ _ _ _ _ n v Hok Hr).
    destruct (Hv ""%string 0) as (_ & Hc & Hs & Hse & Hno). apply shape_same; try done. apply Hv.
  - unfold SetUserStatus. intros (d1 & [= <-] & Hm)%exec_change_inr. eapply shape_mark; [apply touches_users|done].
  - unfold DeleteUser. destruct (d_users d !! id); [|done]. destruct (_ && _); [done|].
    intros (d1 & Hd1%touches_delete & Hm)%rbind_inr. by eapply shape_mark.
  - intros (p & (d1 & (d2 & Hd2 & Hm)%exec_change_inr & (q & _ & [= <- _])%rbind_inr)%rbind_inr)%fst_ok_inr.
    destruct (d_users d !! _); [|done]. injection Hd2 as <-. eapply shape_mark; [apply touches_policies|done].
  - intros (p & (d1 & (d2 & Hd2 & Hm)%exec_change_inr & [= <- _])%rbind_inr)%fst_ok_inr.
    destruct (d_users d !! _); [|done]. injection Hd2 as <-. eapply shape_mark; [apply touches_dpi_policies|done].
  - intros (t & Ht)%fst_ok_inr. by eapply create_token_shape.
  - intros (t & Ht%no_row_inr & (d1 & [= <-] & Hm)%exec_change_inr)%rbind_inr. eapply shape_mark; [|exact Hm]. by apply touches_tokens.
  - intros (t & (t0 & Ht0%no_row_inr & (d1 & (d2 & Hd2 & Hm)%exec_change_inr & (t1 & _ & [= <- _])%rbind_inr)%rbind_inr)%rbind_inr)%fst_ok_inr.
    destruct (exists_row _ _); [done|]. injection Hd2 as <-. eapply shape_mark; [|exact Hm]. by apply touches_tokens.
  - intros (g & (t0 & Ht0%no_row_inr & (d1 & (d2 & [= <-] & Hm)%exec_change_inr & [= <- _])%rbind_inr)%rbind_inr)%fst_ok_inr.
    eapply shape_mark; [|exact Hm]. apply (touches_grants d _ _ (mkGrant _ _ _ _ _ _ _ _ _)); [done| |done].
    apply eq_None_not_Some. intros Hs%(ok_grant_ids d Hok). lia.
  - intros (t & Ht)%fst_ok_inr. by eapply admin_token_shape.
  - unfold userNodeAccess. destruct (d_users d !! userID) as [u|] eqn:Hu; [|done].
    destruct (negb _); [done|]. destruct (negb _); [done|]. intros Hm. eapply shape_mark; [apply touches_access|exact Hm].
  - intros [= <-]. by apply shape_same.
  - intros [= <-]. by apply shape_same.
  - intros [= <-]. by apply shape_same.
  - intros (c & Hc)%fst_ok_inr. unfold DeleteClient in Hc. destruct (d_clients d !! id); [|done]. injection Hc as <- _. by apply shape_same.
  - unfold deleteEdgeNode. destruct (_ || _); [done|]. intros H. by eapply shape_delete.
Qed.

(** The deletion of another node. *)
Lemma delete_node_evolves d m d' n : m ≠ n → DeleteEdgeNode d m = inr d' → evolves n d d'.
Proof.
  intros Hne. unfold DeleteEdgeNode. destruct (d_nodes d !! m); [|done]. intros [= <-]. apply evolves_same; cbn; [done|by rewrite lookup_delete_ne|..].
  - intros u. unfold delete_where. apply option_eq. intros r. rewrite map_lookup_filter_Some. cbn. rewrite bool_decide_eq_false. naive_solver.
  - intros u. apply db_view_ext; cbn; try done. unfold CanAccessNode. cbn. apply bool_decide_ext. rewrite elem_of_filter. naive_solver.
  - by rewrite lookup_delete_ne.
Qed.

Lemma deleted_node d op d' n : deletes op n → db_exec d op = inr d' →
  d_nodes d' !! n = None ∧ ∀ u, d_cache d' !! (u, n) = None ∧ db_view d' n u = empty_view.
Proof.
  destruct op; try done. cbn. unfold deleteEdgeNode, DeleteEdgeNode. intros ->. destruct (_ || _); [done|]. destruct (d_nodes d !! n); [|done].
  intros [= <-]. cbn. split; [by rewrite lookup_delete_eq|]. intros u. split.
  - apply eq_None_not_Some. intros [r [_ Hr%bool_decide_eq_false]%delete_where_Some]. done.
  - apply no_access_view. cbn. intros [Hne _]%elem_of_filter. done.
Qed.

Lemma db_exec_evolves d op d' n :
  db_ok d → is_Some (d_nodes d !! n) → ¬ deletes op n → db_exec d op = inr d' → evolves n d d'.
Proof.
  intros Hok Hn Hdel [u d1 Ht Hm|Hq Hs Hc Hno Hv|m Hm Hd]%db_exec_shape; [|..|done].
  - by eapply touch_mark_evolves.
  - apply evolves_same; [by rewrite Hq|by rewrite Hs|by rewrite Hc|apply Hv|by rewrite Hno].
  - eapply delete_node_evolves; [|exact Hd]. by intros ->.
Qed.
(** The counter never goes back, and a node leaves the directory only by its deletion. *)
Lemma db_exec_frame d op d' : db_ok d → db_exec d op = inr d' →
  d_sequence d ≤ d_sequence d' ∧ ∀ n, is_Some (d_nodes d' !! n) → is_Some (d_nodes d !! n) ∧ ¬ deletes op n.
Proof.
  intros Hok Hx. assert (Hdel := λ n H, proj1 (deleted_node _ _ _ n H Hx)).
  assert (Hn : d_sequence d ≤ d_sequence d' ∧ ∀ n, is_Some (d_nodes d' !! n) → is_Some (d_nodes d !! n)).
  { destruct (db_exec_shape _ _ _ Hok Hx) as [u d1 Ht Hm|Hq Hs Hc Hno Hv|m Hm Hd].
    - apply mark_dirty_inv in Hm as (_ & Hq & Hd & _). rewrite Hq, (tch_sequence _ _ _ Ht), <- (tch_nodes _ _ _ Ht), Hd. by split; [lia|].
    - by rewrite Hq, Hno.
    - unfold DeleteEdgeNode in Hd. destruct (d_nodes d !! m); [|done]. injection Hd as <-. cbn. split; [done|].
      intros n. rewrite lookup_delete_is_Some. tauto. }
  destruct Hn as [Hq Hn]. split; [done|]. intros n Hs. split; [by apply Hn|]. intros H. apply Hdel in H. rewrite H in Hs. by destruct Hs.
Qed.


(** ** A small installation *)

Lemma empty_db_ok : db_ok empty_db.
Proof. constructor; cbn; try done; try (intros u m r Hr; by rewrite lookup_empty in Hr). all: intros i [x Hx]; by rewrite lookup_empty in Hx. Qed.

(** One node, and one user with a token who may use it. *)
Definition demo_node : EdgeNode := mkEdgeNode "edge-1" "edge" "01" "active" None "" "" true "{}" 0 0.
Definition demo_ops : list db_op :=
  [OpCreateUserWithToken 10 "alice" "Alice" "hash" "user" "home" "" "token-hash" "prefix" 2; OpNodeAccess [demo_node] 1 ["edge-1"%string]].
Definition demo_db : ControllerDB := db_run (empty_db <| d_nodes := {["edge-1"%string := demo_node]} |>) demo_ops.
Lemma nodes_ok d nodes : db_ok d → db_ok (d <| d_nodes := nodes |>).
Proof. intros Hok. by frame Hok. Qed.

Lemma db_exec_ok_witness :
  db_ok demo_db ∧ is_Some (d_users demo_db !! 1) ∧ (1, "edge-1"%string) ∈ d_access demo_db ∧ is_Some (d_cache demo_db !! (1, "edge-1"%string)).
Proof.
  split; [apply (db_exec_ok _ demo_ops), nodes_ok, empty_db_ok|].
  split_and!; [vm_compute; eauto|by apply (bool_decide_eq_true_1 _); vm_compute|vm_compute; eauto].
Defined.

Lemma demo_db_ok : db_ok demo_db.
Proof. apply db_run_keeps, nodes_ok, empty_db_ok. Qed.

Definition result_or {A} (r : result A) (a : A) : A := match r with inr x => x | inl _ => a end.
