(* ===== verification/IdentityView.v ===== *)
(** * Views of a user across the wire

    Applying a message replaces the edge's view of the users it covers and keeps
    the others; a page read from the controller's database carries the view that
    the controller wants the node to hold, and the cursor of a baseline leaves no
    user behind. *)
From Stdlib Require Import ZArith Lia Ascii String.
From stdpp Require Import gmap strings list fin_maps sorting.
From S2P Require Import Prelude GoStrings Types DpiEngine DpiService EdgeStore EdgeIdentity ControllerDB IdentityPage DBInvariant.
Local Open Scope Z_scope.

(** The message built from a page ([identityPageMessage]). *)
Definition page_snapshot (revision : Z) (baseline : bool) (page : NodeIdentityPage) (blocked : list BlockedIP) : IdentitySnapshot :=
  let baseline_end := baseline && np_End page in
  mkSnapshot baseline baseline_end baseline_end (negb baseline) (np_Removed page) true revision
    (snapshot_user <$> np_Users page) (snapshot_token <$> np_Tokens page) (np_Policies page) (np_Grants page)
    (np_DPIPolicies page) (if baseline_end then blocked else []) [].

(** ** Applying a message *)

(** No cached grant without its token. *)
Definition edge_closed (s : Store) : Prop := references (cached_grants s) g_TokenID (cached_tokens s).

Lemma edge_view_ext s s' u :
  cached_users s' = cached_users s → cached_tokens s' = cached_tokens s → cached_policies s' = cached_policies s →
  cached_grants s' = cached_grants s → cached_dpi_policies s' = cached_dpi_policies s → edge_view s' u = edge_view s u.
Proof. unfold edge_view. by intros -> -> -> -> ->. Qed.

Lemma empty_cache_view s u :
  cached_users s = ∅ → cached_tokens s = ∅ → cached_policies s = ∅ → cached_grants s = ∅ →
  cached_dpi_policies s = ∅ → edge_view s u = empty_view.
Proof. unfold edge_view, empty_view. intros -> -> -> -> ->. by rewrite !lookup_empty, !map_filter_empty. Qed.

Lemma delete_user_view s id u : edge_view (delete_user s id) u = if bool_decide (u = id) then empty_view else edge_view s u.
Proof.
  unfold edge_view, delete_user. cbn. case_bool_decide as Hu.
  - subst u. rewrite !lookup_delete_eq. unfold empty_view. f_equal.
    + apply map_empty. intros i. apply eq_None_not_Some. intros [t Ht]. rewrite !map_lookup_filter_Some in Ht. naive_solver.
    + apply map_empty. intros i. apply eq_None_not_Some. intros [g Hg]. rewrite !map_lookup_filter_Some in Hg.
      destruct Hg as [_ Hg]. unfold owned_by in Hg. cbn in Hg. apply fmap_Some in Hg as (t & Ht & Heq).
      rewrite map_lookup_filter_Some in Ht. naive_solver.
  - rewrite !lookup_delete_ne by done. f_equal.
    + rewrite map_filter_filter. apply map_filter_ext. intros i t _. cbn. naive_solver.
    + rewrite map_filter_filter. apply map_filter_ext. intros i g _. cbn. unfold owned_by.
      destruct (cached_tokens s !! g_TokenID g) as [t|] eqn:Ht.
      * destruct (decide (st_UserID t = id)) as [He|He].
        -- rewrite bool_decide_true by done. replace (filter _ _ !! _) with (@None SnapshotToken); [cbn; naive_solver|].
           symmetry. apply eq_None_not_Some. intros [w Hw]. rewrite map_lookup_filter_Some in Hw. naive_solver.
        -- rewrite bool_decide_false by done. replace (filter _ _ !! _) with (Some t); [cbn; naive_solver|].
           symmetry. by apply map_lookup_filter_Some_2.
      * replace (filter _ _ !! _) with (@None SnapshotToken); [cbn; naive_solver|].
        symmetry. apply eq_None_not_Some. intros [w Hw]. rewrite map_lookup_filter_Some in Hw. naive_solver.
Qed.

Lemma delete_user_closed s id : edge_closed s → edge_closed (delete_user s id).
Proof.
  intros Hc k g. cbn. rewrite map_lookup_filter_Some. intros [Hg Ho]. destruct (Hc _ _ Hg) as [t Ht]. exists t.
  apply map_lookup_filter_Some_2; [done|]. cbn in *. rewrite Ht in Ho. by apply bool_decide_eq_false in Ho.
Qed.

Lemma delete_users_view ids s u :
  edge_view (foldl delete_user s ids) u = if bool_decide (u ∈ ids) then empty_view else edge_view s u.
Proof.
  revert s. induction ids as [|id ids IH]; intros s; [done|]. cbn [foldl]. rewrite IH, delete_user_view.
  destruct (decide (u ∈ ids)); [by rewrite !bool_decide_true by set_solver|].
  rewrite (bool_decide_false (u ∈ ids)) by done. by rewrite (bool_decide_ext (u ∈ id :: ids) (u = id)) by set_solver.
Qed.

Lemma delete_users_closed ids s : edge_closed s → edge_closed (foldl delete_user s ids).
Proof. revert s. induction ids as [|id ids IH]; intros s Hc; cbn; [done|]. by apply IH, delete_user_closed. Qed.

Lemma revoke_rotated_tables tokens s :
  let s' := foldl revoke_rotated s tokens in
  cached_users s' = cached_users s ∧ cached_tokens s' = cached_tokens s ∧ cached_policies s' = cached_policies s ∧
  cached_grants s' = cached_grants s ∧ cached_dpi_policies s' = cached_dpi_policies s ∧
  controller_blocked_ips s' = controller_blocked_ips s ∧ last_revision s' = last_revision s.
Proof. cbn. split_and!; by apply foldl_frame. Qed.

(** The users whose rows are removed before the rows of the message are
    inserted; a page of a baseline removes none. *)
Lemma prepared_view s p u :
  edge_view (prepared s p) u =
  if Incremental p then (if bool_decide (u ∈ touched_users p) then empty_view else edge_view s u)
  else if Baseline p then edge_view s u else empty_view.
Proof.
  unfold prepared, remove_old. destruct (revoke_rotated_tables (Tokens p) s) as (Hu & Ht & Hp & Hg & Hd & _).
  destruct (Incremental p).
  - rewrite delete_users_view. case_bool_decide; [done|]. by apply edge_view_ext.
  - destruct (Baseline p); cbn [negb]; [by apply edge_view_ext|by apply empty_cache_view].
Qed.

Lemma prepared_closed s p : edge_closed s → edge_closed (prepared s p).
Proof.
  intros Hc. unfold prepared, remove_old. destruct (revoke_rotated_tables (Tokens p) s) as (_ & Ht & _ & Hg & _).
  assert (Hc' : edge_closed (foldl revoke_rotated s (Tokens p))) by (unfold edge_closed; by rewrite Ht, Hg).
  destruct (Incremental p); [by apply delete_users_closed|]. destruct (Baseline p); cbn [negb]; [done|].
  intros k g. cbn. by rewrite lookup_empty.
Qed.

(** The tables after the rows of the message are inserted. *)
Lemma insert_identities_union p s s1 :
  NodeAccessEnforced p = true → insert_identities p s = inr s1 →
  cached_users s1 = by_key su_ID (Users p) ∪ cached_users s ∧
  cached_tokens s1 = by_key st_ID (Tokens p) ∪ cached_tokens s ∧
  cached_policies s1 = by_key rp_UserID (Policies p) ∪ cached_policies s ∧
  cached_grants s1 = by_key g_ID (Grants_ p) ∪ cached_grants s ∧
  cached_dpi_policies s1 = by_key p_UserID (DPIPolicies p) ∪ cached_dpi_policies s ∧
  by_key st_ID (Tokens p) ##ₘ cached_tokens s ∧ by_key g_ID (Grants_ p) ##ₘ cached_grants s ∧
  NoDup (st_ID <$> Tokens p).
Proof.
  intros He (users & tokens & policies & grants & dpi & Hu & Ht & Hp & Hg & Hd & ->)%insert_identities_inv. cbn.
  rewrite cached_user_enforced in Hu by done.
  apply insert_rows_union in Hu as (_ & _ & ->). apply insert_tokens_rows, insert_rows_union in Ht as (Hnd & Htf & ->).
  apply insert_rows_union in Hp as (_ & _ & ->). apply insert_rows_union in Hg as (_ & Hgf & ->).
  apply insert_rows_union in Hd as (_ & _ & ->).
  split_and!; try done; apply map_disjoint_spec; intros k v w [Hv <-]%by_key_Some Hw.
  - rewrite Forall_forall in Htf. by rewrite (Htf v Hv) in Hw.
  - rewrite Forall_forall in Hgf. by rewrite (Hgf v Hv) in Hw.
Qed.

Lemma filter_union_left {V} (P : Z * V → Prop) `{∀ x, base.Decision (P x)} (A B : gmap Z V) :
  A ##ₘ B → (∀ k v, A !! k = Some v → ¬ P (k, v)) → filter P (A ∪ B) = filter P B.
Proof.
  intros Hdis HA. rewrite map_filter_union by done. rewrite (map_empty_filter_2 P A) by done. apply (left_id_L ∅ (∪)).
Qed.

Lemma filter_union_right {V} (P : Z * V → Prop) `{∀ x, base.Decision (P x)} (A B : gmap Z V) :
  A ##ₘ B → (∀ k v, B !! k = Some v → ¬ P (k, v)) → filter P (A ∪ B) = filter P A.
Proof.
  intros Hdis HB. rewrite map_filter_union by done. rewrite (map_empty_filter_2 P B) by done. apply (right_id_L ∅ (∪)).
Qed.

Section insert.
Context (p : IdentitySnapshot) (s s1 : Store).
Context (Hclosed : closed_message p) (Hs : edge_closed s) (Hins : insert_identities p s = inr s1).

(** A grant of the message, or an old one, is owned as before. *)
Lemma owned_new k g u : by_key g_ID (Grants_ p) !! k = Some g →
  owned_by st_UserID (cached_tokens s1) u g ↔ owned_by st_UserID (by_key st_ID (Tokens p)) u g.
Proof using Hclosed Hins.
  destruct Hclosed as (He & _ & _ & Hg & _). destruct (insert_identities_union _ _ _ He Hins) as (_ & Ht & _ & _ & _ & _ & _ & Hnd).
  intros [Hin _]%by_key_Some. destruct (Hg g Hin) as (t & Htin & Hid). unfold owned_by. rewrite Ht.
  assert (Hl : by_key st_ID (Tokens p) !! g_TokenID g = Some t) by by apply by_key_lookup.
  by rewrite (lookup_union_Some_l _ _ _ _ Hl), Hl.
Qed.

Lemma owned_old k g u : cached_grants s !! k = Some g →
  owned_by st_UserID (cached_tokens s1) u g ↔ owned_by st_UserID (cached_tokens s) u g.
Proof using Hclosed Hs Hins.
  destruct Hclosed as (He & _). destruct (insert_identities_union _ _ _ He Hins) as (_ & Ht & _ & _ & _ & Hdis & _).
  intros Hg. destruct (Hs _ _ Hg) as [t Htok]. unfold owned_by. rewrite Ht.
  by rewrite (lookup_union_Some_r _ _ _ t), Htok.
Qed.

Lemma insert_view_other u : u ∉ su_ID <$> Users p → edge_view s1 u = edge_view s u.
Proof using Hclosed Hs Hins.
  intros Hu. assert (Hc := Hclosed). destruct Hc as (He & Htok & Hpol & Hg & Hdpi).
  destruct (insert_identities_union _ _ _ He Hins) as (Hus & Hts & Hps & Hgs & Hds & Hdt & Hdg & Hnd).
  unfold edge_view. f_equal.
  - by rewrite Hus, lookup_union_r by by apply by_key_None.
  - rewrite Hts. apply filter_union_left; [done|]. intros k t [Hin _]%by_key_Some Heq. cbn in Heq. subst. by apply Hu, Htok.
  - rewrite Hps, lookup_union_r; [done|]. apply by_key_None. intros (r & -> & Hr)%list_elem_of_fmap. by apply Hu, Hpol.
  - rewrite Hgs. rewrite filter_union_left; [|done|].
    + apply map_filter_ext. intros k g Hk. by eapply owned_old.
    + intros k g Hk Ho. cbn in Ho. apply (owned_new k) in Ho; [|done]. apply fmap_Some in Ho as (t & [Hin _]%by_key_Some & ->).
      by apply Hu, Htok.
  - rewrite Hds, lookup_union_r; [done|]. apply by_key_None. intros (r & -> & Hr)%list_elem_of_fmap. by apply Hu, Hdpi.
Qed.

Lemma insert_view_own u : edge_view s u = empty_view → edge_view s1 u = snapshot_view p u.
Proof using Hclosed Hs Hins.
  intros Hempty. assert (Hc := Hclosed). destruct Hc as (He & Htok & Hpol & Hg & Hdpi).
  destruct (insert_identities_union _ _ _ He Hins) as (Hus & Hts & Hps & Hgs & Hds & Hdt & Hdg & Hnd).
  injection Hempty as Hu0 Ht0 Hp0 Hg0 Hd0. unfold edge_view, snapshot_view. f_equal.
  - by rewrite Hus, lookup_union, Hu0, (right_id_L None (∪)).
  - rewrite Hts. apply filter_union_right; [done|]. by apply map_empty_filter_1 in Ht0.
  - by rewrite Hps, lookup_union, Hp0, (right_id_L None (∪)).
  - rewrite Hgs, filter_union_right; [|done|].
    + apply map_filter_ext. intros k g Hk. by eapply owned_new.
    + intros k g Hk Ho. cbn in Ho. apply (owned_old k) in Ho; [|done].
      apply map_empty_filter_1 in Hg0. by apply (Hg0 k g Hk).
  - by rewrite Hds, lookup_union, Hd0, (right_id_L None (∪)).
Qed.

Lemma insert_closed : edge_closed s1.
Proof using Hclosed Hs Hins.
  assert (Hc := Hclosed). destruct Hc as (He & _ & _ & Hg & _).
  destruct (insert_identities_union _ _ _ He Hins) as (_ & Hts & _ & Hgs & _ & _ & _ & Hnd).
  intros k g Hk. rewrite Hgs in Hk. rewrite Hts. apply lookup_union_Some_raw in Hk as [[Hin _]%by_key_Some|[_ Hk]].
  - destruct (Hg g Hin) as (t & Ht & <-). exists t. apply lookup_union_Some_l. by apply by_key_lookup.
  - rewrite lookup_union_is_Some. right. by eapply Hs.
Qed.
End insert.

Section apply.
Context (julianday : time → Z).

Lemma finish_tables p now now' s1 :
  let s' := finish julianday p now now' s1 in
  cached_users s' = cached_users s1 ∧ cached_tokens s' = cached_tokens s1 ∧ cached_policies s' = cached_policies s1 ∧
  cached_grants s' = cached_grants s1 ∧ cached_dpi_policies s' = cached_dpi_policies s1 ∧
  controller_blocked_ips s' = apply_blocked_ips p (controller_blocked_ips s1) ∧ last_revision s' = Some (Revision p).
Proof. unfold finish. by destruct (complete p), (Incremental p). Qed.

(** Applying a message: the view of a user that it covers becomes the one it
    carries, the views of the others stay, and no grant loses its token. *)
Lemma Apply_view s now now' p s' u :
  closed_message p → edge_closed s →
  ApplyIdentitySnapshot julianday s now now' (inr p) = inr s' →
  edge_closed s' ∧
  (edge_view (prepared s p) u = empty_view → edge_view s' u = snapshot_view p u) ∧
  (u ∉ touched_users p → Incremental p || Baseline p = true → edge_view s' u = edge_view s u).
Proof.
  intros Hcl Hs (_ & s1 & Hins & ->)%Apply_inv.
  destruct (finish_tables p now now' s1) as (Hu & Ht & Hp & Hg & Hd & _).
  assert (Hpc := prepared_closed s p Hs). split_and!.
  - unfold edge_closed. rewrite Hg, Ht. by eapply insert_closed.
  - intros Hempty. rewrite (edge_view_ext s1) by done. by eapply insert_view_own.
  - intros Hun Hflag. rewrite (edge_view_ext s1) by done.
    assert (Hnot : u ∉ su_ID <$> Users p) by (intros Hin; apply Hun; unfold touched_users; set_solver).
    rewrite (insert_view_other p (prepared s p) s1) by done. rewrite prepared_view, bool_decide_false by done.
    by destruct (Incremental p), (Baseline p).
Qed.
End apply.

(** ** Reading a page *)

Definition page_of (d : ControllerDB) (ids removed : list Z) (last_id : Z) (is_end : bool) : NodeIdentityPage :=
  mkPage (page_user <$> rows_of (d_users d) ids)
    (page_token <$> filter (λ t, t_UserID t ∈ ids) (sorted_rows (d_tokens d)))
    (omap (λ id, scanUserResourcePolicy id <$> d_policies d !! id) (filter (λ id, id ∈ ids) (sorted_keys (d_policies d))))
    (filter (λ g, owner_in d ids (g_TokenID g) = true) (sorted_rows (d_grants d)))
    (omap (λ id, scanDPIPolicy id <$> d_dpi_policies d !! id) (filter (λ id, id ∈ ids) (sorted_keys (d_dpi_policies d))))
    removed last_id is_end.

Lemma filter_none {A} (P : A → Prop) `{∀ x, base.Decision (P x)} (l : list A) : (∀ x, ¬ P x) → filter P l = [].
Proof. intros Hn. induction l as [|x l IH]; [done|]. rewrite filter_cons. by case_decide; [edestruct Hn|]. Qed.

Lemma page_of_nil d removed last_id is_end : page_of d [] removed last_id is_end = mkPage [] [] [] [] [] removed last_id is_end.
Proof.
  unfold page_of. rewrite !filter_none; [done|..]; try (intros x Hx; by apply elem_of_nil in Hx).
  intros g. unfold owner_in. destruct (d_tokens d !! _); [|done]. rewrite bool_decide_false; [done|]. apply not_elem_of_nil.
Qed.

(** A page is made of the first candidates. *)
Lemma read_page_inv d n after requested limit page :
  ReadNodeIdentityPage d n after requested limit = inr page →
  let cands := page_candidates d n after requested in
  let ids := take (Z.to_nat limit) cands in
  1 ≤ limit ∧ (∀ ids, requested = Some ids → len ids ≤ limit ∧ after = 0) ∧
  page = page_of d ids (filter (λ id, id ∉ ids) (default [] requested)) (default after (last ids)) (bool_decide (len cands ≤ limit)).
Proof.
  unfold ReadNodeIdentityPage. destruct (_ || _) eqn:Hg; [done|]. apply orb_false_iff in Hg as [Hl Hr].
  apply bool_decide_eq_false in Hl. intros Hp. cbn zeta. split; [lia|]. split.
  { intros ids ->. apply orb_false_iff in Hr as [H1 H2]. apply negb_false_iff in H2. by apply bool_decide_eq_false in H1;
      apply bool_decide_eq_true in H2; split; [lia|]. }
  assert (Hend : bool_decide (len (take (Z.to_nat limit + 1) (page_candidates d n after requested)) ≤ limit) =
                 bool_decide (len (page_candidates d n after requested) ≤ limit)).
  { apply bool_decide_ext. unfold len. rewrite length_take. lia. }
  rewrite take_take, Hend in Hp. replace (Z.to_nat limit `min` (Z.to_nat limit + 1))%nat with (Z.to_nat limit) in Hp by lia.
  destruct (bool_decide_reflect (requested = Some [])) as [Hreq|Hreq].
  - injection Hp as <-. subst requested. replace (page_candidates d n after (Some [])) with (@nil Z).
    + rewrite take_nil, page_of_nil. cbn. f_equal. symmetry. apply bool_decide_true. unfold len. cbn. lia.
    + symmetry. apply filter_none. intros x Hx. rewrite (bool_decide_false (x ∈ [])), andb_false_r in Hx by apply not_elem_of_nil. done.
  - destruct (bool_decide_reflect (take (Z.to_nat limit) (page_candidates d n after requested) = [])) as [Hids|Hids];
      injection Hp as <-; [|done]. by rewrite Hids, page_of_nil.
Qed.

Lemma elem_of_candidates d n after requested u :
  u ∈ page_candidates d n after requested ↔
  is_Some (d_users d !! u) ∧ (u, n) ∈ d_access d ∧ after < u ∧ (∀ ids, requested = Some ids → u ∈ ids).
Proof.
  unfold page_candidates, CanAccessNode. rewrite list_elem_of_filter, elem_of_sorted_keys, !andb_true_iff, !bool_decide_eq_true.
  destruct requested; rewrite ?bool_decide_eq_true; naive_solver.
Qed.

Lemma NoDup_candidates d n after requested : NoDup (page_candidates d n after requested).
Proof. apply NoDup_filter, NoDup_sorted_keys. Qed.

Lemma sorted_candidates d n after requested : StronglySorted Z.lt (page_candidates d n after requested).
Proof.
  assert (Hnd := NoDup_candidates d n after requested). revert Hnd. unfold page_candidates.
  assert (Hs := sorted_sorted_keys (d_users d)). induction Hs as [|x l Hl IH Hx]; [constructor|].
  rewrite filter_cons. case_decide; [|done]. intros [Hnin Hnd]%NoDup_cons. constructor; [by apply IH|].
  apply Forall_forall. intros y Hy. assert (x ≠ y) by naive_solver.
  apply list_elem_of_filter in Hy as [_ Hy]. rewrite Forall_forall in Hx. specialize (Hx y Hy). lia.
Qed.

Lemma key_omap {R X} (key : X → Z) (f : Z → R → X) (t : gmap Z R) (P : Z → Prop) `{∀ x, base.Decision (P x)} :
  (∀ id r, key (f id r) = id) →
  key <$> omap (λ id, f id <$> t !! id) (filter P (sorted_keys t)) = filter P (sorted_keys t).
Proof.
  intros Hk. assert (Hall : Forall (λ id, is_Some (t !! id)) (filter P (sorted_keys t))).
  { apply Forall_forall. intros id [_ Hid]%list_elem_of_filter. by apply elem_of_sorted_keys. }
  induction Hall as [|id l [r Hr] _ IH]; [done|]. cbn. rewrite Hr. cbn. by rewrite Hk, IH.
Qed.

(** The rows of a table with a key of [ids], by key. *)
Lemma by_key_omap {R X} (key : X → Z) (f : Z → R → X) (t : gmap Z R) (ids : list Z) u :
  (∀ id r, key (f id r) = id) → u ∈ ids →
  by_key key (omap (λ id, f id <$> t !! id) (filter (λ id, id ∈ ids) (sorted_keys t))) !! u = f u <$> t !! u.
Proof.
  intros Hk Hu. apply option_eq. intros x.
  rewrite by_key_lookup by (rewrite key_omap by done; apply NoDup_filter, NoDup_sorted_keys).
  rewrite list_elem_of_omap. split.
  - intros [(id & _ & (r & Hr & ->)%fmap_Some) <-]. by rewrite Hk, Hr.
  - intros (r & Hr & ->)%fmap_Some. rewrite Hk. split; [|done]. exists u. rewrite Hr.
    split; [|done]. apply list_elem_of_filter. split; [done|]. apply elem_of_sorted_keys. by exists r.
Qed.

(** The filtered rows of a table, by key. *)
Lemma by_key_rows {R X} (key : R → Z) (key' : X → Z) (f : R → X) (t : gmap Z R) (P : R → Prop) `{∀ x, base.Decision (P x)} k x :
  keyed key t → (∀ r, key' (f r) = key r) →
  by_key key' (f <$> filter P (sorted_rows t)) !! k = Some x ↔ ∃ r, t !! k = Some r ∧ P r ∧ x = f r.
Proof.
  intros Ht Hf.
  assert (Hnd : NoDup (key' <$> (f <$> filter P (sorted_rows t)))).
  { rewrite <- list_fmap_compose. rewrite (list_fmap_ext _ key) by (intros; apply Hf).
    by apply NoDup_fmap_filter, NoDup_fmap_sorted_rows. }
  rewrite by_key_lookup by done. rewrite list_elem_of_fmap. split.
  - intros [(r & -> & [HP (id & Hid)%elem_of_sorted_rows]%list_elem_of_filter) <-].
    exists r. rewrite Hf, (Ht _ _ Hid). done.
  - intros (r & Hr & HP & ->). rewrite Hf. split; [|by apply Ht]. exists r. split; [done|].
    apply list_elem_of_filter. split; [done|]. apply elem_of_sorted_rows. by exists k.
Qed.

Section page.
Context (d : ControllerDB) (n : string) (ids removed : list Z) (last_id : Z) (is_end : bool).
Context (revision : Z) (baseline : bool) (blocked : list BlockedIP).
Context (Hok : db_ok d) (Hnd : NoDup ids).
Context (Hids : ∀ u, u ∈ ids → is_Some (d_users d !! u) ∧ (u, n) ∈ d_access d).
Let p := page_snapshot revision baseline (page_of d ids removed last_id is_end) blocked.

Lemma page_users : su_ID <$> Users p = ids.
Proof using Hok Hids.
  cbn. rewrite <- !list_fmap_compose. erewrite (list_fmap_ext _ u_ID) by done. apply fmap_rows_of; [apply Hok|].
  apply Forall_forall. intros u Hu. by apply Hids.
Qed.

Lemma page_tokens k st :
  by_key st_ID (Tokens p) !! k = Some st ↔ ∃ t, d_tokens d !! k = Some t ∧ t_UserID t ∈ ids ∧ st = snapshot_token t.
Proof using Hok.
  cbn -[by_key]. rewrite <- list_fmap_compose. rewrite (by_key_rows t_ID) by (done || apply Hok).
  split; intros (t & Ht & Hin & ->); by exists t.
Qed.

Lemma page_grants k g : by_key g_ID (Grants_ p) !! k = Some g ↔ d_grants d !! k = Some g ∧ owner_in d ids (g_TokenID g) = true.
Proof using Hok.
  cbn -[by_key]. assert (Hrows := by_key_rows g_ID g_ID id (d_grants d) (λ g, owner_in d ids (g_TokenID g) = true) k g (ok_grants d Hok)).
  rewrite list_fmap_id in Hrows. rewrite Hrows by done.
  split; [intros (g' & Hg & Ho & ->); done|]. intros [Hg Ho]. by exists g.
Qed.

Lemma page_closed : closed_message p.
Proof using Hok Hids.
  unfold closed_message. rewrite page_users. split_and!; [done|..].
  - cbn. intros t. rewrite <- list_fmap_compose. intros (t0 & -> & [Hin _]%list_elem_of_filter)%list_elem_of_fmap. done.
  - cbn. intros r (id & Hin & (row & _ & ->)%fmap_Some)%list_elem_of_omap. by apply list_elem_of_filter in Hin as [? _].
  - cbn. intros g [Ho _]%list_elem_of_filter. unfold owner_in in Ho.
    destruct (d_tokens d !! g_TokenID g) as [t|] eqn:Ht; [|done]. apply bool_decide_eq_true in Ho.
    exists (snapshot_token (page_token t)). split; [|exact (ok_tokens d Hok _ _ Ht)].
    apply list_elem_of_fmap_2, list_elem_of_fmap_2, list_elem_of_filter. split; [done|]. apply elem_of_sorted_rows. by eexists.
  - cbn. intros r (id & Hin & (row & _ & ->)%fmap_Some)%list_elem_of_omap. by apply list_elem_of_filter in Hin as [? _].
Qed.

Lemma page_owned g u : u ∈ ids → owned_by st_UserID (by_key st_ID (Tokens p)) u g ↔ owned_by t_UserID (d_tokens d) u g.
Proof using Hok.
  intros Hu. unfold owned_by. rewrite !fmap_Some. split.
  - intros (st & (t & Ht & _ & ->)%page_tokens & ->). by exists t.
  - intros (t & Ht & ->). exists (snapshot_token t). split; [|done]. apply page_tokens. by exists t.
Qed.

(** The page carries the view that the controller wants. *)
Lemma page_view u : u ∈ ids → snapshot_view p u = db_view d n u.
Proof using Hok Hids Hnd.
  intros Hu. destruct (Hids u Hu) as [[usr Husr] Hacc]. unfold snapshot_view, db_view, CanAccessNode.
  rewrite Husr, bool_decide_true by done. f_equal.
  - apply by_key_lookup; [by rewrite page_users|]. cbn. split; [|exact (ok_users d Hok _ _ Husr)].
    rewrite <- list_fmap_compose. apply list_elem_of_fmap. exists usr. split; [done|]. apply elem_of_rows_of. by exists u.
  - apply map_eq. intros k. apply option_eq. intros st. rewrite map_lookup_filter_Some, page_tokens, lookup_fmap, fmap_Some.
    split.
    + intros [(t & Ht & _ & ->) Heq]. exists t. split; [|done]. by apply map_lookup_filter_Some_2.
    + intros (t & [Ht Heq]%map_lookup_filter_Some & ->). cbn in *. subst u. split; [|done]. by exists t.
  - by apply by_key_omap.
  - apply map_eq. intros k. apply option_eq. intros g. rewrite !map_lookup_filter_Some, page_grants.
    cbn [snd]. rewrite page_owned by done. split; [naive_solver|]. intros [Hg Ho]. split_and!; [done| |done].
    unfold owner_in. apply fmap_Some in Ho as (t & -> & ->). by apply bool_decide_true.
  - by apply by_key_omap.
Qed.

Lemma page_view_other u : u ∉ ids → snapshot_view p u = empty_view.
Proof using Hok Hids.
  intros Hu. unfold snapshot_view, empty_view. f_equal.
  - apply by_key_None. by rewrite page_users.
  - apply map_empty_filter_2. intros k st (t & _ & Hin & ->)%page_tokens Heq. cbn in Heq. naive_solver.
  - apply by_key_None. unfold p. cbn [Policies np_Policies page_snapshot page_of]. rewrite (key_omap rp_UserID) by done. by intros [? _]%list_elem_of_filter.
  - apply map_empty_filter_2. intros k g Hg Ho. cbn in Ho.
    apply fmap_Some in Ho as (st & (t & _ & Hin & ->)%page_tokens & ->). done.
  - apply by_key_None. unfold p. cbn [DPIPolicies np_DPIPolicies page_snapshot page_of]. rewrite (key_omap p_UserID) by done. by intros [? _]%list_elem_of_filter.
Qed.
End page.

Lemma candidates_ok d n after requested k u :
  u ∈ take k (page_candidates d n after requested) → is_Some (d_users d !! u) ∧ (u, n) ∈ d_access d.
Proof. intros Hu. apply elem_of_take in Hu as (i & Hi & _). apply list_elem_of_lookup_2, elem_of_candidates in Hi. tauto. Qed.

Lemma NoDup_take_candidates d n after requested k : NoDup (take k (page_candidates d n after requested)).
Proof.
  assert (H := NoDup_candidates d n after requested). rewrite <- (take_drop k) in H. by apply NoDup_app in H as [? _].
Qed.

(** An incremental page covers exactly the requested users. *)
Lemma incremental_page d n requested page revision blocked :
  db_ok d → ReadNodeIdentityPage d n 0 (Some requested) 64 = inr page →
  let p := page_snapshot revision false page blocked in
  closed_message p ∧ (∀ u, u ∈ touched_users p ↔ u ∈ requested) ∧
  (∀ u, u ∈ RemovedUserIDs p → u ∉ su_ID <$> Users p) ∧
  (∀ u, u ∈ requested → snapshot_view p u = db_view d n u).
Proof.
  intros Hok (_ & Hreq & ->)%read_page_inv. set (ids := take (Z.to_nat 64) (page_candidates d n 0 (Some requested))).
  assert (Hids : ∀ u, u ∈ ids → is_Some (d_users d !! u) ∧ (u, n) ∈ d_access d) by (intros u; apply candidates_ok).
  destruct (Hreq requested eq_refl) as [Hlen _]. cbn zeta.
  assert (Hall : ids = page_candidates d n 0 (Some requested)).
  { apply take_ge. assert (Hsub : page_candidates d n 0 (Some requested) ⊆+ requested).
    - apply NoDup_submseteq; [apply NoDup_candidates|]. intros u Hu%elem_of_candidates. naive_solver.
    - apply submseteq_length in Hsub. unfold len in Hlen. lia. }
  split_and!.
  - by apply (page_closed d n).
  - intros u. unfold touched_users. rewrite elem_of_app, (page_users d n) by done. cbn. rewrite list_elem_of_filter. split.
    + intros [[_ H]|H]; [done|]. rewrite Hall in H. apply elem_of_candidates in H. naive_solver.
    + intros Hu. destruct (decide (u ∈ ids)); [by right|by left].
  - intros u. rewrite (page_users d n) by done. cbn. rewrite list_elem_of_filter. tauto.
  - intros u Hu. destruct (decide (u ∈ ids)) as [Hin|Hin].
    + apply page_view; [done|apply NoDup_take_candidates|done|done].
    + rewrite (page_view_other d n) by done. rewrite Hall, elem_of_candidates in Hin. unfold db_view, CanAccessNode.
      destruct (d_users d !! u) as [usr|] eqn:Husr; [|done]. rewrite bool_decide_false; [done|]. intros Hacc.
      assert (Hs : is_Some (d_users d !! u)) by (by exists usr). apply Hin. split_and!; [by exists usr|done| |naive_solver].
      apply (ok_user_ids d Hok) in Hs. lia.
Qed.

(** A page of a baseline covers the users between the old cursor and the new
    one; the last page covers all that remain, the others move the cursor. *)
Lemma baseline_page d n cursor page revision blocked :
  db_ok d → ReadNodeIdentityPage d n cursor None 64 = inr page →
  let p := page_snapshot revision true page blocked in
  closed_message p ∧ RemovedUserIDs p = [] ∧ cursor ≤ np_LastID page ∧
  (np_End page = false → cursor < np_LastID page) ∧
  (∀ u, u ∈ su_ID <$> Users p → cursor < u ≤ np_LastID page ∧ snapshot_view p u = db_view d n u) ∧
  (∀ u, cursor < u → np_End page = true ∨ u ≤ np_LastID page → u ∉ su_ID <$> Users p → db_view d n u = empty_view).
Proof.
  intros Hok (_ & _ & ->)%read_page_inv. set (cands := page_candidates d n cursor None).
  set (ids := take (Z.to_nat 64) cands).
  assert (Hids : ∀ u, u ∈ ids → is_Some (d_users d !! u) ∧ (u, n) ∈ d_access d) by (intros u; apply candidates_ok).
  assert (Hcur : ∀ u, u ∈ cands → cursor < u) by (intros u Hu%elem_of_candidates; naive_solver).
  assert (Hsub : ∀ u, u ∈ ids → u ∈ cands).
  { intros u Hu. unfold ids in Hu. apply elem_of_take in Hu as (i & Hi & _). by eapply list_elem_of_lookup_2. }
  assert (Hsorted : StronglySorted Z.lt (ids ++ drop (Z.to_nat 64) cands)) by (unfold ids; rewrite take_drop; apply sorted_candidates).
  assert (Hlast : ∀ l, last ids = Some l → l ∈ ids ∧ (∀ u, u ∈ ids → u ≤ l) ∧ ∀ u, u ∈ drop (Z.to_nat 64) cands → l < u).
  { intros l Hl. apply last_Some in Hl as [init Hinit]. rewrite Hinit in *. split; [set_solver|].
    rewrite <- app_assoc in Hsorted. split.
    - intros u [Hu| ->%list_elem_of_singleton]%elem_of_app; [|done].
      assert (u < l); [|lia]. eapply StronglySorted_app_1_elem_of; [exact Hsorted|done|by left].
    - intros u Hu. apply StronglySorted_app_1_r in Hsorted. cbn in Hsorted. apply StronglySorted_inv in Hsorted as [_ Hall].
      rewrite Forall_forall in Hall. by apply Hall. }
  cbn zeta. rewrite (page_users d n) by done. split_and!.
  - by apply (page_closed d n).
  - done.
  - cbn. destruct (last ids) as [l|] eqn:Hl; cbn; [|lia]. destruct (Hlast l eq_refl) as [Hin _]. apply Hsub, Hcur in Hin. lia.
  - cbn. intros Hend%bool_decide_eq_false. destruct (last ids) as [l|] eqn:Hl; cbn.
    + destruct (Hlast l eq_refl) as [Hin _]. by apply Hcur, Hsub.
    + exfalso. apply last_None in Hl. unfold ids in Hl. apply (f_equal length) in Hl. rewrite length_take in Hl.
      unfold len in Hend. cbn in Hl. lia.
  - intros u Hu. split; [|by apply page_view; [|apply NoDup_take_candidates|..]]. split; [by apply Hcur, Hsub|]. cbn.
    destruct (last ids) as [l|] eqn:Hl; cbn; [by apply (Hlast l eq_refl)|]. apply last_None in Hl. rewrite Hl in Hu. by apply elem_of_nil in Hu.
  - cbn. intros u Hu Hend Hnin. unfold db_view, CanAccessNode. destruct (d_users d !! u) as [usr|] eqn:Husr; [|done].
    rewrite bool_decide_false; [done|]. intros Hacc.
    assert (Hcand : u ∈ cands) by (apply elem_of_candidates; split_and!; [by exists usr|done|done|done]).
    rewrite <- (take_drop (Z.to_nat 64) cands) in Hcand. apply elem_of_app in Hcand as [?|Hd]; [done|].
    destruct Hend as [Hend%bool_decide_eq_true|Hle].
    + apply list_elem_of_lookup in Hd as [i Hi]. apply lookup_lt_Some in Hi. rewrite length_drop in Hi. unfold len in Hend. lia.
    + destruct (last ids) as [l|] eqn:Hl; cbn in Hle; [destruct (Hlast l eq_refl) as (_ & _ & Hgt); specialize (Hgt u Hd); lia|].
      lia.
Qed.
