(* ===== verification/CacheIndex.v ===== *)
(** * The cache index of a node

    The operations of [db/user_node_cache.go] that the control stream uses, and
    the relation they keep between the database, the rows of a node and the
    identities cached at its edge: a user is cached as the database wants them or
    their row is dirty.  [settled] is that relation between two messages,
    [carried] what a message on its way guarantees and [absorbed] the relation
    after the edge has applied it and before the controller has confirmed it. *)
From Stdlib Require Import ZArith Lia Ascii String.
From stdpp Require Import gmap strings list fin_maps sorting.
From S2P Require Import Prelude GoStrings Types DpiEngine DpiService EdgeStore EdgeIdentity ControllerDB IdentityPage DBInvariant IdentityView.
Local Open Scope Z_scope.

(** ** The index under its operations *)

Lemma session_of_lock d n e u : lockCacheSession d n e = inr u → session_of d n = e.
Proof.
  unfold lockCacheSession, session_of. destruct (d_sessions d !! n) as [[cur b]|]; [|done].
  intros H%guard_err_inr. cbn. destruct (bool_decide_reflect (cur = e)); [done|discriminate].
Qed.

Lemma next_revision_inv d d' revision :
  NextIdentityRevision d = inr (d', revision) → revision = d_sequence d + 1 ∧ d' = d <| d_sequence := revision |>.
Proof. unfold NextIdentityRevision. case_bool_decide; [done|]. by intros [= <- <-]. Qed.

Lemma next_revision_ok d d' revision : db_ok d → NextIdentityRevision d = inr (d', revision) → db_ok d'.
Proof.
  intros Hok (-> & ->)%next_revision_inv. frame Hok; [lia|].
  intros u n r Hr. unfold session_of. cbn. specialize (ok_cache _ _ _ Hr) as (Hs & Ha & Hd). split_and!; [done|lia..].
Qed.

Lemma next_revision_evolves n d d' revision : NextIdentityRevision d = inr (d', revision) → evolves n d d'.
Proof. intros (-> & ->)%next_revision_inv. apply evolves_same; [cbn; lia|done..]. Qed.

Lemma prepare_inv d m e revision ids d' :
  PrepareNodeIdentityCache d m e revision ids = inr d' →
  session_of d m = e ∧ d' = d <| d_cache := d_cache d' |> ∧
  ∀ k, d_cache d' !! k = if bool_decide (k.1 ∈ ids ∧ k.2 = m) then Some (raised (d_cache d) k e revision) else d_cache d !! k.
Proof.
  intros (x & Hl%session_of_lock & [= <-])%rbind_inr. split; [done|]. split; [done|]. intros [u n]. cbn [d_cache upd].
  change (foldl _ (d_cache d) ids) with (foldl (λ c id, want_revision c (id, m).1 (id, m).2 e revision) (d_cache d) ids).
  rewrite (foldl_map (λ c (k : Z * string), want_revision c k.1 k.2 e revision) (λ id, (id, m))).
  fold (want_keys (λ _, e) revision (d_cache d) ((λ id, (id, m)) <$> ids)). rewrite want_keys_lookup. cbn.
  rewrite (bool_decide_ext _ (u ∈ ids ∧ n = m)); [done|]. rewrite list_elem_of_fmap. naive_solver.
Qed.

Lemma prepare_ok d m e revision ids d' :
  db_ok d → 0 < revision ≤ d_sequence d → PrepareNodeIdentityCache d m e revision ids = inr d' → db_ok d'.
Proof.
  intros Hok Hrev (He & Hd & Hc)%prepare_inv. rewrite Hd. frame Hok.
  intros u n r Hr. rewrite Hc in Hr. unfold session_of in *. cbn.
  case_bool_decide as Hb; [|by eapply ok_cache]. destruct Hb as [_ Hm]. cbn in Hm. subst m.
  injection Hr as <-. unfold raised. destruct (d_cache d !! (u, n)) as [r0|] eqn:Hr0; cbn.
  - specialize (ok_cache _ _ _ Hr0) as (Hs & Ha & Hde). split_and!; [done|lia..].
  - split_and!; [done|lia..].
Qed.

(** Allocating a revision and preparing a message with it. *)
Lemma prepare_evolves n d d1 m e revision ids d' :
  NextIdentityRevision d = inr (d1, revision) → PrepareNodeIdentityCache d1 m e revision ids = inr d' → evolves n d d'.
Proof.
  intros (-> & ->)%next_revision_inv (He & Hd & Hc)%prepare_inv. rewrite Hd.
  constructor; cbn; [lia|done|intros u r Hr|intros u r' Hn Hr'|intros u; right; by left|done].
  - rewrite Hc. cbn. case_bool_decide; [|exists r; naive_solver]. eexists. split; [done|]. unfold raised. cbn. rewrite Hr. cbn.
    split_and!; [done|done|lia].
  - rewrite Hc in Hr'. cbn in Hr'. case_bool_decide as Hb; [|congruence]. destruct Hb as [_ <-].
    injection Hr' as <-. unfold raised. cbn. rewrite Hn. cbn. unfold session_of in *. cbn in He. split_and!; [done|done|lia].
Qed.

Lemma reset_lookup d n e b u m :
  d_cache (ResetNodeIdentityCache d n e b) !! (u, m) = if bool_decide (m = n) then None else d_cache d !! (u, m).
Proof.
  cbn. destruct (delete_where _ _ !! _) as [r|] eqn:Hr.
  - apply delete_where_Some in Hr as [Hr Hp]. cbn in Hp. by rewrite Hp.
  - case_bool_decide as Hm; [done|]. symmetry. apply eq_None_ne_Some. intros r Hr'.
    assert (Hs : delete_where (λ k _, bool_decide (k.2 = n)) (d_cache d) !! (u, m) = Some r)
      by (apply delete_where_Some; split; [done|]; cbn; by rewrite bool_decide_false). congruence.
Qed.

Lemma reset_ok d n e b : db_ok d → db_ok (ResetNodeIdentityCache d n e b).
Proof.
  intros Hok. assert (Hl := reset_lookup d n e b). revert Hl. unfold ResetNodeIdentityCache. intros Hl. frame Hok.
  intros u m r Hr. cbn in Hl. rewrite Hl in Hr. case_bool_decide as Hm; [done|].
  specialize (ok_cache _ _ _ Hr). unfold session_of in *. cbn. by rewrite lookup_insert_ne.
Qed.

Lemma reset_evolves_other n d m e b : n ≠ m → evolves n d (ResetNodeIdentityCache d m e b).
Proof.
  intros Hne. apply evolves_same; [done|cbn; by rewrite lookup_insert_ne| |done|done].
  intros u. rewrite reset_lookup. by rewrite bool_decide_false.
Qed.

(** ** Confirmation *)

Definition confirm_row (now : time) (revision : Z) (r : CacheRow) : CacheRow :=
  r <| nc_applied := Z.max (nc_applied r) revision |> <| nc_cached_at := Some now |>.
Definition forget_row (revision : Z) (r : CacheRow) : option CacheRow :=
  if bool_decide (nc_desired r ≤ revision) then None
  else Some (r <| nc_cached_at := None |> <| nc_applied := Z.max (nc_applied r) revision |>).

Lemma confirm_users_lookup now n e revision users cache k :
  (∀ u r, cache !! (u, n) = Some r → nc_session r = e) →
  foldl (confirm_user now n e revision) cache users !! k =
  if bool_decide (k.1 ∈ users ∧ k.2 = n) then confirm_row now revision <$> cache !! k else cache !! k.
Proof.
  revert cache. induction users as [|id users IH]; intros cache Hses; cbn [foldl].
  - rewrite bool_decide_false; [done|]. intros [H _]. by apply not_elem_of_nil in H.
  - assert (Hsame : confirm_user now n e revision cache id = alter (confirm_row now revision) (id, n) cache).
    { unfold confirm_user. apply map_eq. intros j. destruct (decide (j = (id, n))) as [->|Hj].
      - rewrite !lookup_alter_eq. destruct (cache !! (id, n)) as [r|] eqn:Hr; [|done]. cbn.
        by rewrite (bool_decide_true _ (Hses _ _ Hr)).
      - by rewrite !lookup_alter_ne. }
    rewrite Hsame, IH.
    2:{ intros u r Hr. destruct (decide (u = id)) as [->|Hu].
        - rewrite lookup_alter_eq in Hr. destruct (cache !! (id, n)) as [r0|] eqn:Hr0; [|done].
          injection Hr as <-. cbn. eauto.
        - rewrite lookup_alter_ne in Hr by congruence. eauto. }
    destruct k as [u m]; cbn [fst snd]. destruct (decide ((u, m) = (id, n))) as [[= -> ->]|Hne].
    + clear IH. rewrite lookup_alter_eq. rewrite (bool_decide_true (id ∈ id :: users ∧ n = n)) by (split; [left|done]).
      case_bool_decide; [|done]. destruct (cache !! (id, n)) as [r|]; [|done]. cbn.
      unfold confirm_row. destruct r; cbn. by rewrite <-Z.max_assoc, Z.max_id.
    + rewrite lookup_alter_ne by done. erewrite bool_decide_ext; [done|]. rewrite elem_of_cons. naive_solver.
Qed.

Lemma confirm_removed_lookup n e revision removed cache k :
  (∀ u r, cache !! (u, n) = Some r → nc_session r = e) →
  foldl (confirm_removed n e revision) cache removed !! k =
  if bool_decide (k.1 ∈ removed ∧ k.2 = n) then cache !! k ≫= forget_row revision else cache !! k.
Proof.
  revert cache. induction removed as [|id removed IH]; intros cache Hses; cbn [foldl].
  - rewrite bool_decide_false; [done|]. intros [H _]. by apply not_elem_of_nil in H.
  - assert (Hsame : confirm_removed n e revision cache id = partial_alter (λ o, o ≫= forget_row revision) (id, n) cache).
    { unfold confirm_removed. destruct (cache !! (id, n)) as [r|] eqn:Hr.
      - rewrite (bool_decide_true _ (Hses _ _ Hr)). apply map_eq. intros j. destruct (decide (j = (id, n))) as [->|Hj].
        + rewrite lookup_partial_alter_eq, Hr. cbn. unfold forget_row. destruct (bool_decide (nc_desired r ≤ revision));
            [by rewrite lookup_delete_eq|by rewrite lookup_insert_eq].
        + rewrite lookup_partial_alter_ne by done. destruct (bool_decide (nc_desired r ≤ revision)); [by rewrite lookup_delete_ne|by rewrite lookup_insert_ne].
      - symmetry. apply partial_alter_id. by rewrite Hr. }
    rewrite Hsame, IH.
    2:{ intros u r Hr. destruct (decide (u = id)) as [->|Hu].
        - rewrite lookup_partial_alter_eq in Hr. destruct (cache !! (id, n)) as [r0|] eqn:Hr0; [|done]. cbn in Hr.
          unfold forget_row in Hr. destruct (bool_decide (nc_desired r0 ≤ revision)); [done|]. injection Hr as <-. cbn. eauto.
        - rewrite lookup_partial_alter_ne in Hr by congruence. eauto. }
    destruct k as [u m]; cbn [fst snd]. destruct (decide ((u, m) = (id, n))) as [[= -> ->]|Hne].
    + clear IH. rewrite lookup_partial_alter_eq. rewrite (bool_decide_true (id ∈ id :: removed ∧ n = n)) by (split; [left|done]).
      destruct (cache !! (id, n)) as [r|]; [|by destruct (bool_decide _)]. cbn.
      assert (Hid : forget_row revision r ≫= forget_row revision = forget_row revision r).
      { unfold forget_row at 2 3. destruct (bool_decide_reflect (nc_desired r ≤ revision)) as [|Hd]; [done|].
        cbn. unfold forget_row. cbn. rewrite bool_decide_false by done. destruct r; cbn. by rewrite <-Z.max_assoc, Z.max_id. }
      by destruct (bool_decide _).
    + rewrite lookup_partial_alter_ne by done. erewrite bool_decide_ext; [done|]. rewrite elem_of_cons. naive_solver.
Qed.

(** The confirmation of a page: the users sent are applied, the rows of removed
    users disappear unless they changed meanwhile. *)
Lemma confirm_page_inv d now n e revision users removed d' :
  db_ok d → (∀ u, u ∈ removed → u ∉ users) →
  ConfirmNodeIdentityCache d now n e revision users removed false = inr d' →
  session_of d n = e ∧ d' = d <| d_cache := d_cache d' |> ∧
  ∀ u m, d_cache d' !! (u, m) =
    if bool_decide (u ∈ users ∧ m = n) then confirm_row now revision <$> d_cache d !! (u, m)
    else if bool_decide (u ∈ removed ∧ m = n) then d_cache d !! (u, m) ≫= forget_row revision
    else d_cache d !! (u, m).
Proof.
  intros Hok Hdisj (x & Hl%session_of_lock & [= <-])%rbind_inr. split; [done|]. split; [done|]. intros u m.
  assert (Hses : ∀ u r, d_cache d !! (u, n) = Some r → nc_session r = e).
  { intros v r Hr. apply (ok_cache d Hok) in Hr as [-> _]. done. }
  cbn -[bool_decide]. rewrite confirm_removed_lookup.
  2:{ intros v r. rewrite confirm_users_lookup by done. case_bool_decide; [|apply Hses].
      intros (r0 & Hr0 & ->)%fmap_Some. cbn. eauto. }
  rewrite confirm_users_lookup by done. cbn [fst snd].
  destruct (bool_decide_reflect (u ∈ users ∧ m = n)) as [[Hu ->]|Hu]; [|done].
  rewrite bool_decide_false; [done|]. naive_solver.
Qed.

Lemma confirm_ok d now n e revision users removed full d' :
  db_ok d → 0 < revision ≤ d_sequence d →
  ConfirmNodeIdentityCache d now n e revision users removed full = inr d' → db_ok d'.
Proof.
  intros Hok Hrev (x & Hl & [= <-])%rbind_inr. clear Hl x.
  pose (P := λ k (r : CacheRow), nc_session r = session_of d (k : Z * string).2 ∧ 0 ≤ nc_applied r ≤ d_sequence d ∧ 0 < nc_desired r ≤ d_sequence d).
  assert (H0 : map_Forall P (d_cache d)) by (intros [u m] r Hr; by apply (ok_cache d Hok) in Hr).
  assert (H1 : map_Forall P (foldl (confirm_user now n e revision) (d_cache d) users)).
  { revert H0. generalize (d_cache d). induction users as [|id users IH]; intros cache H0; [done|]. cbn. apply IH.
    intros k r. unfold confirm_user. rewrite lookup_alter_Some.
    intros [(<- & r0 & Hr0 & ->)|[_ Hr]]; [|by apply H0]. specialize (H0 _ _ Hr0) as (Hs & Ha & Hd).
    case_bool_decide; unfold P; cbn; split_and!; try done; lia. }
  revert H1. generalize (foldl (confirm_user now n e revision) (d_cache d) users). clear H0. intros cache H0.
  assert (H1 : map_Forall P (foldl (confirm_removed n e revision) cache removed)).
  { revert cache H0. induction removed as [|id removed IH]; intros cache H0; [done|]. cbn. apply IH.
    unfold confirm_removed. destruct (cache !! (id, n)) as [r0|] eqn:Hr0; [|done]. case_bool_decide; [|done].
    specialize (H0 _ _ Hr0) as Hp. destruct Hp as (Hs & Ha & Hd). case_bool_decide.
    - by apply map_Forall_delete.
    - apply map_Forall_insert_2; [|done]. unfold P; cbn; split_and!; try done; lia. }
  revert H1. generalize (foldl (confirm_removed n e revision) cache removed). clear H0 cache. intros cache H0.
  assert (H1 : map_Forall P (if full then confirm_full n e revision cache else cache)).
  2:{ frame Hok. intros u m r Hr. exact (H1 _ _ Hr). }
  destruct full; [|done]. intros k r1. unfold confirm_full. rewrite delete_where_Some, map_lookup_imap.
  intros [(r0 & Hr0 & [= <-])%bind_Some _]. specialize (H0 _ _ Hr0) as (Hs & Ha & Hd).
  destruct (_ && _); [|done]. unfold P; cbn; split_and!; try done; lia.
Qed.

Lemma confirm_users_other now n e revision users cache u m :
  m ≠ n → foldl (confirm_user now n e revision) cache users !! (u, m) = cache !! (u, m).
Proof.
  intros Hne. revert cache. induction users as [|id users IH]; intros cache; [done|]. cbn. rewrite IH.
  unfold confirm_user. rewrite lookup_alter_ne; [done|congruence].
Qed.
Lemma confirm_removed_other n e revision removed cache u m :
  m ≠ n → foldl (confirm_removed n e revision) cache removed !! (u, m) = cache !! (u, m).
Proof.
  intros Hne. revert cache. induction removed as [|id removed IH]; intros cache; [done|]. cbn. rewrite IH.
  unfold confirm_removed. destruct (cache !! (id, n)) as [r|]; [|done]. case_bool_decide; [|done].
  case_bool_decide; [by rewrite lookup_delete_ne by congruence|by rewrite lookup_insert_ne by congruence].
Qed.
Lemma confirm_full_other n e revision cache u m : m ≠ n → confirm_full n e revision cache !! (u, m) = cache !! (u, m).
Proof.
  intros Hne. unfold confirm_full. apply option_eq. intros r. rewrite delete_where_Some, map_lookup_imap, bind_Some. cbn.
  rewrite (bool_decide_false (m = n)) by done. cbn. naive_solver.
Qed.
Lemma confirm_evolves_other n d now m e revision users removed full d' :
  n ≠ m → ConfirmNodeIdentityCache d now m e revision users removed full = inr d' → evolves n d d'.
Proof.
  intros Hne (x & Hl & [= <-])%rbind_inr. apply evolves_same; [done|done| |done|done].
  intros u. cbn. destruct full; [rewrite confirm_full_other by done|];
    by rewrite confirm_removed_other, confirm_users_other.
Qed.

(** ** Coherence of the edge's cache *)

(** The user is pending for the node. *)
Definition stale (d : ControllerDB) (n : string) (u : Z) : Prop :=
  ∃ r, d_cache d !! (u, n) = Some r ∧ nc_applied r < nc_desired r.
(** A view is what the database wants, or the user is pending; a user whom the
    node caches has a row. *)
Definition synced (d : ControllerDB) (n : string) (view : UserView) (u : Z) : Prop :=
  (view = db_view d n u ∨ stale d n u) ∧ (view = empty_view ∨ is_Some (d_cache d !! (u, n))).

(** The users that a baseline has not reached. *)
Definition beyond (baseline : bool) (cursor u : Z) : bool := baseline && bool_decide (cursor < u).
Definition settled (d : ControllerDB) (n : string) (baseline : bool) (cursor : Z) (s : Store) : Prop :=
  edge_closed s ∧
  ∀ u, if beyond baseline cursor u then edge_view s u = empty_view else synced d n (edge_view s u) u.

(** A row that a message with this revision covers. *)
Definition covered (d : ControllerDB) (n : string) (p : IdentitySnapshot) (u : Z) : Prop :=
  ∃ r, d_cache d !! (u, n) = Some r ∧ nc_applied r < Revision p ≤ nc_desired r ∧
       (snapshot_view p u = db_view d n u ∨ Revision p < nc_desired r).
Record carried (d : ControllerDB) (n : string) (baseline : bool) (cursor last : Z) (p : IdentitySnapshot) : Prop := mkCarried {
  ca_closed : closed_message p;
  ca_revision : 0 < Revision p ≤ d_sequence d;
  ca_baseline : Baseline p = baseline;
  ca_incremental : Incremental p = negb baseline;
  ca_removed : ∀ u, u ∈ RemovedUserIDs p → u ∉ su_ID <$> Users p;
  ca_touched : ∀ u, u ∈ touched_users p → covered d n p u;
  ca_users : baseline = true → cursor ≤ last ∧ ∀ u, u ∈ touched_users p → cursor < u ≤ last;
  ca_skipped : baseline = true → ∀ u, cursor < u → BaselineEnd p = true ∨ u ≤ last → u ∉ touched_users p →
    db_view d n u = empty_view ∨ stale d n u }.

(** The edge has applied the message. *)
Definition absorbed (d : ControllerDB) (n : string) (baseline : bool) (cursor : Z) (p : IdentitySnapshot) (s : Store) : Prop :=
  edge_closed s ∧
  ∀ u, if bool_decide (u ∈ touched_users p) then edge_view s u = snapshot_view p u
       else if beyond baseline cursor u then edge_view s u = empty_view else synced d n (edge_view s u) u.

Section evolution.
Context (n : string) (d d' : ControllerDB).
Hypothesis (Hok : db_ok d) (Hev : evolves n d d').

Lemma stale_evolves u : stale d n u → stale d' n u.
Proof using Hok Hev.
  intros (r & Hr & Hlt). destruct (ev_row _ _ _ Hev _ _ Hr) as (r' & Hr' & Ha & _ & Hd). exists r'. split; [done|].
  apply (ok_cache d Hok) in Hr. lia.
Qed.

(** A row that was raised is dirty. *)
Lemma raised_stale u r' : d_cache d' !! (u, n) = Some r' → d_sequence d < nc_desired r' → stale d' n u.
Proof using Hok Hev.
  intros Hr' Hd. exists r'. split; [done|]. destruct (d_cache d !! (u, n)) as [r|] eqn:Hr.
  - destruct (ev_row _ _ _ Hev _ _ Hr) as (r1 & Hr1 & Ha & _). rewrite Hr' in Hr1. injection Hr1 as <-.
    apply (ok_cache d Hok) in Hr. lia.
  - destruct (ev_new _ _ _ Hev _ _ Hr Hr') as (-> & _). pose proof (ok_sequence d Hok). lia.
Qed.

Lemma row_evolves u : is_Some (d_cache d !! (u, n)) → is_Some (d_cache d' !! (u, n)).
Proof using Hev. intros [r Hr]. destruct (ev_row _ _ _ Hev _ _ Hr) as (r' & -> & _). eauto. Qed.

Lemma synced_evolves view u : synced d n view u → synced d' n view u.
Proof using Hok Hev.
  intros [Hv Hr]. split; [|destruct Hr; [by left|right; by apply row_evolves]].
  destruct Hv as [->|Hst]; [|right; by apply stale_evolves].
  destruct (ev_view _ _ _ Hev u) as [(r' & Hr' & Hd)|[Heq|[Hn He]]].
  - right. by eapply raised_stale.
  - by left.
  - left. destruct Hr as [->|Hs]; [done|]. apply row_evolves in Hs. rewrite Hn in Hs. by destruct Hs.
Qed.

Lemma skipped_evolves u : db_view d n u = empty_view ∨ stale d n u → db_view d' n u = empty_view ∨ stale d' n u.
Proof using Hok Hev.
  intros [He|Hst]; [|right; by apply stale_evolves].
  destruct (ev_view _ _ _ Hev u) as [(r' & Hr' & Hd)|[->|[_ He']]]; [right; by eapply raised_stale|by left..].
Qed.

Lemma covered_evolves p u : Revision p ≤ d_sequence d → covered d n p u → covered d' n p u.
Proof using Hok Hev.
  intros Hseq (r & Hr & Hrev & Hv). destruct (ev_row _ _ _ Hev _ _ Hr) as (r' & Hr' & Ha & _ & Hd).
  exists r'. split; [done|]. split; [lia|]. destruct Hv as [Hv|Hv]; [|right; lia].
  destruct (ev_view _ _ _ Hev u) as [(r1 & Hr1 & Hd1)|[->|[Hn _]]].
  - rewrite Hr' in Hr1. injection Hr1 as <-. right. lia.
  - by left.
  - congruence.
Qed.

Lemma settled_evolves baseline cursor s : settled d n baseline cursor s → settled d' n baseline cursor s.
Proof using Hok Hev.
  intros [Hc H]. split; [done|]. intros u. specialize (H u). destruct (beyond _ _ _); [done|]. by apply synced_evolves.
Qed.

Lemma carried_evolves baseline cursor last p : carried d n baseline cursor last p → carried d' n baseline cursor last p.
Proof using Hok Hev.
  intros [H1 H2 H3 H4 H5 H6 H7 H8]. pose proof (ev_sequence _ _ _ Hev). constructor; try done.
  - lia.
  - intros u Hu. apply covered_evolves; [lia|auto].
  - intros Hb u Hc Hl Ht. apply skipped_evolves. auto.
Qed.

Lemma absorbed_evolves baseline cursor p s : absorbed d n baseline cursor p s → absorbed d' n baseline cursor p s.
Proof using Hok Hev.
  intros [Hc H]. split; [done|]. intros u. specialize (H u). destruct (bool_decide _); [done|].
  destruct (beyond _ _ _); [done|]. by apply synced_evolves.
Qed.
End evolution.

(** ** The life of a message *)

Lemma message_view_other p u : closed_message p → u ∉ su_ID <$> Users p → snapshot_view p u = empty_view.
Proof.
  intros (_ & Ht & Hp & Hg & Hd) Hu. unfold snapshot_view, empty_view. f_equal.
  - apply by_key_None. done.
  - apply map_empty_filter_2. intros k t Hk <-. apply by_key_Some in Hk as [Hk _]. by apply Hu, Ht.
  - apply by_key_None. intros (r & -> & Hr)%list_elem_of_fmap. by apply Hu, Hp.
  - apply map_empty_filter_2. intros k g Hk Ho. unfold owned_by in Ho. cbn in Ho.
    apply fmap_Some in Ho as (t & Hk' & ->). apply by_key_Some in Hk' as [Hk' _]. by apply Hu, Ht.
  - apply by_key_None. intros (r & -> & Hr)%list_elem_of_fmap. by apply Hu, Hd.
Qed.

(** Applying a message that is on its way. *)
Lemma settled_apply julianday d n baseline cursor last p s now now' s' :
  settled d n baseline cursor s → carried d n baseline cursor last p →
  ApplyIdentitySnapshot julianday s now now' (inr p) = inr s' → absorbed d n baseline cursor p s'.
Proof.
  intros [Hcl Hs] Hca Hap.
  assert (Hv := λ u, Apply_view julianday s now now' p s' u (ca_closed _ _ _ _ _ _ Hca) Hcl Hap).
  split; [apply (Hv 0)|]. intros u. destruct (Hv u) as (_ & Hown & Hother). specialize (Hs u).
  case_bool_decide as Hu.
  - apply Hown. rewrite prepared_view, (ca_incremental _ _ _ _ _ _ Hca), (ca_baseline _ _ _ _ _ _ Hca).
    destruct baseline; cbn; [|by rewrite bool_decide_true].
    destruct (ca_users _ _ _ _ _ _ Hca eq_refl) as [_ Hus]. specialize (Hus _ Hu).
    unfold beyond in Hs. cbn in Hs. rewrite bool_decide_true in Hs by lia. done.
  - assert (Hsame : edge_view s' u = edge_view s u).
    { apply Hother; [done|]. rewrite (ca_incremental _ _ _ _ _ _ Hca), (ca_baseline _ _ _ _ _ _ Hca). by destruct baseline. }
    by rewrite Hsame.
Qed.

(** The cursor after the confirmation of a message. *)
Lemma absorbed_confirm d n now e p baseline cursor last s d' :
  db_ok d → absorbed d n baseline cursor p s → carried d n baseline cursor last p →
  ConfirmNodeIdentityCache d now n e (Revision p) (su_ID <$> Users p) (RemovedUserIDs p) false = inr d' →
  settled d' n (baseline && negb (BaselineEnd p)) (if baseline then last else cursor) s.
Proof.
  intros Hok [Hcl Hab] Hca (He & Hd & Hc)%confirm_page_inv; [|done|apply (ca_removed _ _ _ _ _ _ Hca)].
  split; [done|]. intros u. specialize (Hab u).
  assert (Hdv : db_view d' n u = db_view d n u) by by rewrite Hd.
  case_bool_decide as Hu.
  - assert (Hin : beyond (baseline && negb (BaselineEnd p)) (if baseline then last else cursor) u = false).
    { unfold beyond. destruct baseline; [|done]. destruct (ca_users _ _ _ _ _ _ Hca eq_refl) as [_ Hus].
      specialize (Hus _ Hu). rewrite bool_decide_false by lia. by rewrite andb_false_r. }
    rewrite Hin, Hab. destruct (ca_touched _ _ _ _ _ _ Hca _ Hu) as (r & Hr & Hrev & Hv).
    unfold synced, stale. rewrite Hdv, Hc, Hr. unfold touched_users in Hu. apply elem_of_app in Hu.
    case_bool_decide as Hb.
    + cbn. split; [|right; eauto]. destruct Hv as [Hv|Hv]; [by left|]. right. eexists. split; [done|]. cbn. lia.
    + assert (Hrem : u ∈ RemovedUserIDs p) by (destruct Hu; [done|naive_solver]).
      rewrite bool_decide_true by done. cbn. unfold forget_row.
      assert (Hemp : snapshot_view p u = empty_view)
        by (apply message_view_other; [apply (ca_closed _ _ _ _ _ _ Hca)|by apply (ca_removed _ _ _ _ _ _ Hca)]).
      split; [|by left]. destruct Hv as [Hv|Hv]; [by left|]. right.
      rewrite bool_decide_false by lia. eexists. split; [done|]. cbn. lia.
  - assert (Hsame : d_cache d' !! (u, n) = d_cache d !! (u, n)).
    { rewrite Hc. unfold touched_users in Hu. rewrite elem_of_app in Hu.
      by rewrite !bool_decide_false by naive_solver. }
    assert (Hsy : ∀ v, synced d n v u → synced d' n v u)
      by (intros v; unfold synced, stale; rewrite Hsame, Hdv; done).
    unfold beyond in *. destruct baseline; cbn in *; [|by apply Hsy].
    destruct (ca_users _ _ _ _ _ _ Hca eq_refl) as [Hcur _].
    destruct (bool_decide_reflect (cursor < u)) as [Hlt|Hlt]; cbn in Hab.
    + destruct (bool_decide_reflect (last < u)) as [Hla|Hla]; [destruct (BaselineEnd p) eqn:Hend|]; cbn; rewrite ?andb_false_r; [|done|].
      all: apply Hsy; split; [|by left]; rewrite Hab.
      all: destruct (ca_skipped _ _ _ _ _ _ Hca eq_refl u Hlt) as [->|Hst]; [auto with lia|done|by left|by right].
    + rewrite (bool_decide_false (last < u)) by lia. rewrite andb_false_r. by apply Hsy.
Qed.

(** After the reset of the index and of the edge's cache. *)
Lemma settled_reset d n e b s :
  db_ok d → edge_closed s → (∀ u, edge_view s u = empty_view) →
  settled (ResetNodeIdentityCache d n e b) n true 0 s.
Proof.
  intros Hok Hcl Hs. split; [done|]. intros u. rewrite Hs. unfold beyond. cbn [andb].
  case_bool_decide as Hu; [done|]. split; [|by left]. left. symmetry.
  apply no_access_view. intros Ha%(ok_access d Hok)%(ok_user_ids d Hok). lia.
Qed.

(** ** Preparing a message *)

Section prepare.
Context (d d1 d' : ControllerDB) (n e : string) (revision : Z) (p : IdentitySnapshot).
Hypothesis (Hok : db_ok d) (Hnext : NextIdentityRevision d = inr (d1, revision)).
Hypothesis (Hrev : Revision p = revision).
Hypothesis (Hprep : PrepareNodeIdentityCache d1 n e revision (touched_users p) = inr d').

Lemma prepared_ok : db_ok d'.
Proof using Hok Hnext Hprep Hrev.
  eapply prepare_ok; [by eapply next_revision_ok| |exact Hprep].
  apply next_revision_inv in Hnext as [-> ->]. pose proof (ok_sequence d Hok). cbn. lia.
Qed.

Lemma prepared_db_view u : db_view d' n u = db_view d n u.
Proof using Hnext Hprep.
  apply next_revision_inv in Hnext as [_ ->]. apply prepare_inv in Hprep as (_ & -> & _). done.
Qed.

Lemma prepared_revision : 0 < Revision p ≤ d_sequence d'.
Proof using Hok Hnext Hprep Hrev.
  apply next_revision_inv in Hnext as [-> ->]. apply prepare_inv in Hprep as (_ & -> & _).
  rewrite Hrev. cbn. pose proof (ok_sequence d Hok). lia.
Qed.

Lemma prepared_covered u :
  u ∈ touched_users p → snapshot_view p u = db_view d n u → covered d' n p u.
Proof using Hok Hnext Hprep Hrev.
  intros Hu Hv. unfold covered. rewrite prepared_db_view. apply prepare_inv in Hprep as (_ & _ & ->).
  rewrite bool_decide_true by done. eexists. split; [done|]. split; [|by left]. rewrite Hrev.
  apply next_revision_inv in Hnext as [-> ->]. unfold raised. cbn [d_cache upd].
  destruct (d_cache d !! (u, n)) as [r|] eqn:Hr; cbn.
  - apply (ok_cache d Hok) in Hr. lia.
  - pose proof (ok_sequence d Hok). lia.
Qed.

(** A message about no user, for example one that carries blocked addresses. *)
Lemma carried_none cursor last :
  closed_message p → Baseline p = false → Incremental p = true → touched_users p = [] → carried d' n false cursor last p.
Proof using Hok Hnext Hprep Hrev.
  intros Hcl Hb Hi Ht. constructor; try done.
  - apply prepared_revision.
  - unfold touched_users in Ht. apply app_eq_nil in Ht as [-> _]. intros u Hu. by apply not_elem_of_nil in Hu.
  - rewrite Ht. intros u Hu. by apply not_elem_of_nil in Hu.
Qed.
End prepare.

Lemma carried_incremental d d1 d' n e revision requested page blocked cursor last :
  db_ok d → ReadNodeIdentityPage d n 0 (Some requested) 64 = inr page →
  NextIdentityRevision d = inr (d1, revision) →
  let p := page_snapshot revision false page blocked in
  PrepareNodeIdentityCache d1 n e revision (touched_users p) = inr d' → carried d' n false cursor last p.
Proof.
  intros Hok Hpage Hnext p Hprep.
  destruct (incremental_page d n requested page revision blocked Hok Hpage) as (Hcl & Ht & Hrem & Hv). fold p in Hcl, Ht, Hrem, Hv.
  constructor; try done.
  - by eapply prepared_revision.
  - intros u Hu. eapply prepared_covered; [done..|]. apply Hv, Ht, Hu.
Qed.

Lemma carried_baseline d d1 d' n e revision cursor page blocked :
  db_ok d → ReadNodeIdentityPage d n cursor None 64 = inr page →
  NextIdentityRevision d = inr (d1, revision) →
  let p := page_snapshot revision true page blocked in
  PrepareNodeIdentityCache d1 n e revision (touched_users p) = inr d' →
  carried d' n true cursor (np_LastID page) p ∧ BaselineEnd p = np_End page ∧
  (np_End page = false → cursor < np_LastID page).
Proof.
  intros Hok Hpage Hnext p Hprep.
  destruct (baseline_page d n cursor page revision blocked Hok Hpage) as (Hcl & Hrem & Hcur & Hmv & Hus & Hsk).
  fold p in Hcl, Hrem, Hus, Hsk.
  assert (Ht : touched_users p = su_ID <$> Users p) by (unfold touched_users; by rewrite Hrem).
  split; [|done]. constructor; try done.
  - by eapply prepared_revision.
  - rewrite Hrem. intros u Hu. by apply not_elem_of_nil in Hu.
  - intros u Hu. eapply prepared_covered; [done..|]. rewrite Ht in Hu. by apply Hus.
  - intros _. split; [done|]. rewrite Ht. intros u Hu. by apply Hus.
  - intros _ u Hlt Hend Hnin. left. rewrite (prepared_db_view d d1 d' n e revision p) by done. rewrite Ht in Hnin. by apply Hsk.
Qed.
