(* ===== verification/BaselineApply.v ===== *)
(** * Applying a page of a baseline

    The transaction with which the edge stores a page of a baseline succeeds: the
    rows of the page violate neither a primary key nor the unique token hash of
    the edge's tables, because the edge holds for every user either nothing or
    what the controller's database, whose keys are unique, wants it to hold. *)
From Stdlib Require Import ZArith Lia Ascii String.
From stdpp Require Import gmap strings list fin_maps sorting.
From S2P Require Import Prelude GoStrings Types DpiEngine DpiService EdgeStore EdgeIdentity ControllerDB IdentityPage DBInvariant IdentityView.
Local Open Scope Z_scope.

Lemma hash_taken_spec hash t : hash_taken hash t = true ↔ ∃ k v, t !! k = Some v ∧ st_TokenHash v = hash.
Proof.
  unfold hash_taken. rewrite existsb_exists. split.
  - intros ([k v] & Hin & Hh%bool_decide_eq_true). exists k, v. split; [|done].
    apply elem_of_map_to_list. by apply list_elem_of_In.
  - intros (k & v & Hk & Hh). exists (k, v). split; [|by apply bool_decide_true].
    apply list_elem_of_In. by apply elem_of_map_to_list.
Qed.

(** Tokens with distinct ids and hashes, all new, are inserted. *)
Lemma insert_tokens_succeeds vs t :
  NoDup (st_ID <$> vs) → NoDup (st_TokenHash <$> vs) → Forall (λ v, t !! st_ID v = None) vs →
  Forall (λ v, hash_taken (st_TokenHash v) t = false) vs → ∃ t', insert_tokens vs t = inr t'.
Proof.
  revert t. induction vs as [|v vs IH]; intros t; cbn [insert_tokens]; [by eexists|].
  rewrite !fmap_cons, !NoDup_cons, !Forall_cons. intros [Hi Hn] [Hh Hnh] [Ht Hts] [Hk Hks]. rewrite Hk.
  unfold insert_row. rewrite Ht. cbn. apply IH; [done|done|..]; apply Forall_forall; intros w Hw.
  - rewrite Forall_forall in Hts. rewrite lookup_insert_ne by (intros Heq; apply Hi; rewrite Heq; by apply list_elem_of_fmap_2).
    by apply Hts.
  - rewrite Forall_forall in Hks. apply not_true_iff_false. intros (k & x & Hx & Hxh)%hash_taken_spec.
    apply lookup_insert_Some in Hx as [[_ <-]|[_ Hx]].
    + apply Hh. rewrite Hxh. by apply list_elem_of_fmap_2.
    + specialize (Hks w Hw). apply not_true_iff_false in Hks. apply Hks. apply hash_taken_spec. by exists k, x.
Qed.

Lemma insert_rows_succeeds {V} (key : V → Z) vs (t : gmap Z V) :
  NoDup (key <$> vs) → (∀ v, v ∈ vs → t !! key v = None) → ∃ t', insert_rows key vs t = inr t'.
Proof.
  intros Hn Hf. exists (by_key key vs ∪ t). apply insert_rows_union. split_and!; [done| |done]. by apply Forall_forall.
Qed.

(** The tables that a page is inserted into. *)
Definition same_tables (s s' : Store) : Prop :=
  cached_users s' = cached_users s ∧ cached_tokens s' = cached_tokens s ∧ cached_policies s' = cached_policies s ∧
  cached_grants s' = cached_grants s ∧ cached_dpi_policies s' = cached_dpi_policies s.
Lemma revoke_tables tokens s : same_tables s (foldl revoke_rotated s tokens).
Proof. unfold same_tables. split_and!; by apply foldl_frame. Qed.

Section page.
Context (d : ControllerDB) (n : string) (ids removed : list Z) (last_id : Z) (is_end : bool).
Context (revision : Z) (blocked : list BlockedIP) (s : Store).
Context (Hok : db_ok d) (Hnd : NoDup ids).
Context (Hids : ∀ u, u ∈ ids → is_Some (d_users d !! u) ∧ (u, n) ∈ d_access d).
Context (Hclosed : edge_closed s).
Context (Hview : ∀ u, (edge_view s u = empty_view) ∨ (edge_view s u = db_view d n u ∧ u ∉ ids)).
Let p := page_snapshot revision true (page_of d ids removed last_id is_end) blocked.

Lemma page_absent u : u ∈ ids → edge_view s u = empty_view.
Proof using Hview. intros Hu. by destruct (Hview u) as [|[_ ?]]. Qed.

(** A token that the edge has cached is one of the database, of a user outside
    the page. *)
Lemma cached_token_db k t : cached_tokens s !! k = Some t →
  ∃ t0, d_tokens d !! k = Some t0 ∧ t = snapshot_token t0 ∧ t_UserID t0 ∉ ids.
Proof using Hview.
  intros Ht. assert (Hin : v_tokens (edge_view s (st_UserID t)) !! k = Some t) by (by apply map_lookup_filter_Some_2).
  destruct (Hview (st_UserID t)) as [He|[He Hn]]; rewrite He in Hin; [by cbn in Hin; rewrite lookup_empty in Hin|].
  unfold db_view in Hin. destruct (d_users d !! st_UserID t) as [usr|]; [|by cbn in Hin; rewrite lookup_empty in Hin].
  destruct (CanAccessNode d (st_UserID t) n); [|by cbn in Hin; rewrite lookup_empty in Hin]. cbn in Hin.
  apply lookup_fmap_Some in Hin as (t0 & <- & [Ht0 _]%map_lookup_filter_Some). by exists t0.
Qed.

Lemma page_token_new st : st ∈ Tokens p → cached_tokens s !! st_ID st = None.
Proof using Hok Hview.
  cbn. rewrite <- list_fmap_compose. intros (t & -> & [Hin (k & Hk)%elem_of_sorted_rows]%list_elem_of_filter)%list_elem_of_fmap.
  apply eq_None_ne_Some. intros t' (t0 & Ht0 & _ & Hno)%cached_token_db. assert (Hid := ok_tokens d Hok _ _ Hk).
  cbn in Ht0, Hid. by simplify_eq.
Qed.

Lemma page_grant_new g : g ∈ Grants_ p → cached_grants s !! g_ID g = None.
Proof using Hok Hview Hclosed.
  cbn. intros [Ho (k & Hk)%elem_of_sorted_rows]%list_elem_of_filter. apply eq_None_ne_Some. intros g' Hg'.
  assert (Hkg := ok_grants d Hok _ _ Hk). cbn in Hkg. rewrite Hkg in Hg'.
  destruct (Hclosed _ _ Hg') as [t Ht]. assert (Hown : owned_by st_UserID (cached_tokens s) (st_UserID t) g').
  { unfold owned_by. by rewrite Ht. }
  assert (Hin : v_grants (edge_view s (st_UserID t)) !! k = Some g') by (by apply map_lookup_filter_Some_2).
  destruct (Hview (st_UserID t)) as [He|[He Hn]]; rewrite He in Hin; [by cbn in Hin; rewrite lookup_empty in Hin|].
  unfold db_view in Hin. destruct (d_users d !! st_UserID t) as [usr|]; [|by cbn in Hin; rewrite lookup_empty in Hin].
  destruct (CanAccessNode d (st_UserID t) n); [|by cbn in Hin; rewrite lookup_empty in Hin]. cbn in Hin.
  apply map_lookup_filter_Some in Hin as [Hin Hown']. cbn in Hown'. assert (g' = g) as -> by congruence.
  unfold owned_by in Hown'. unfold owner_in in Ho. destruct (d_tokens d !! g_TokenID g) as [t1|]; [|done]. cbn in Hown'.
  apply bool_decide_eq_true in Ho. congruence.
Qed.

Lemma page_hash_new st : st ∈ Tokens p → hash_taken (st_TokenHash st) (cached_tokens s) = false.
Proof using Hok Hview.
  cbn. rewrite <- list_fmap_compose. intros (t & -> & [Hin (k & Hk)%elem_of_sorted_rows]%list_elem_of_filter)%list_elem_of_fmap.
  apply not_true_iff_false. intros (j & t' & Hj & Hh)%hash_taken_spec.
  apply cached_token_db in Hj as (t0 & Ht0 & -> & Hno). cbn in Hh.
  assert (j = k) as -> by exact (ok_hashes d Hok _ _ _ _ Ht0 Hk Hh). by simplify_eq.
Qed.

Lemma page_hashes : NoDup (st_TokenHash <$> Tokens p).
Proof using Hok.
  cbn. rewrite <- !list_fmap_compose. erewrite (list_fmap_ext _ t_TokenHash) by done. apply NoDup_fmap_filter.
  apply NoDup_fmap_2_strong; [|apply (NoDup_fmap_1 t_ID), NoDup_fmap_sorted_rows, Hok].
  intros x y (i & Hi)%elem_of_sorted_rows (j & Hj)%elem_of_sorted_rows Hxy.
  assert (i = j) as -> by exact (ok_hashes d Hok _ _ _ _ Hi Hj Hxy). congruence.
Qed.

(** No statement of the page's insertion fails. *)
Lemma insert_page_succeeds s0 : same_tables s s0 → ∃ s1, insert_identities p s0 = inr s1.
Proof using Hok Hnd Hids Hclosed Hview.
  intros (Hu & Ht & Hp & Hg & Hd). unfold insert_identities. rewrite Hu, Ht, Hp, Hg, Hd.
  assert (Habs := page_absent). assert (Hpu : su_ID <$> Users p = ids) by (by apply (page_users d n)).
  destruct (insert_rows_succeeds su_ID (cached_user p <$> Users p) (cached_users s)) as [users ->].
  { rewrite <- list_fmap_compose. rewrite (list_fmap_ext _ su_ID) by done. by rewrite Hpu. }
  { intros v (v0 & -> & Hv0)%list_elem_of_fmap. assert (Hin : su_ID v0 ∈ ids) by (rewrite <- Hpu; by apply list_elem_of_fmap_2).
    exact (f_equal v_user (Habs _ Hin)). }
  destruct (insert_tokens_succeeds (Tokens p) (cached_tokens s)) as [tokens ->]; [| |apply Forall_forall..|].
  { cbn. rewrite <- !list_fmap_compose. erewrite (list_fmap_ext _ t_ID) by done.
    apply NoDup_fmap_filter, NoDup_fmap_sorted_rows, Hok. }
  { apply page_hashes. }
  { apply page_token_new. }
  { apply page_hash_new. }
  destruct (insert_rows_succeeds rp_UserID (Policies p) (cached_policies s)) as [policies ->].
  { cbn. rewrite (key_omap rp_UserID) by done. apply NoDup_filter, NoDup_sorted_keys. }
  { cbn. intros v (id & [Hin _]%list_elem_of_filter & (r & _ & ->)%fmap_Some)%list_elem_of_omap.
    exact (f_equal v_policy (Habs _ Hin)). }
  destruct (insert_rows_succeeds g_ID (Grants_ p) (cached_grants s)) as [grants ->].
  { cbn. apply NoDup_fmap_filter, NoDup_fmap_sorted_rows, Hok. }
  { apply page_grant_new. }
  destruct (insert_rows_succeeds p_UserID (DPIPolicies p) (cached_dpi_policies s)) as [dpi ->].
  { cbn. rewrite (key_omap p_UserID) by done. apply NoDup_filter, NoDup_sorted_keys. }
  { cbn. intros v (id & [Hin _]%list_elem_of_filter & (r & _ & ->)%fmap_Some)%list_elem_of_omap.
    exact (f_equal v_dpi (Habs _ Hin)). }
  by eexists.
Qed.
End page.

(** The users of a page have ids beyond the cursor, so that the edge holds nothing
    of them as long as it only holds users up to the cursor. *)
Lemma baseline_page_applies julianday d n cursor page s revision blocked now now' :
  db_ok d → ReadNodeIdentityPage d n cursor None 64 = inr page → edge_closed s →
  (∀ u, edge_view s u = empty_view ∨ (edge_view s u = db_view d n u ∧ u ≤ cursor)) →
  identityResetPending s = true → 0 < revision → (∀ previous, last_revision s = Some previous → previous < revision) →
  ∃ s', ApplyIdentitySnapshot julianday s now now' (inr (page_snapshot revision true page blocked)) = inr s'.
Proof.
  intros Hok (_ & _ & ->)%read_page_inv Hclosed Hview Hpend Hrev Hlast.
  edestruct (insert_page_succeeds d n (take (Z.to_nat 64) (page_candidates d n cursor None))) as [s1 Hs1];
    [done|apply NoDup_take_candidates|intros u; apply candidates_ok|exact Hclosed| |apply revoke_tables|].
  - intros u. destruct (Hview u) as [|[? Hu]]; [by left|right]. split; [done|].
    intros (i & Hi & _)%elem_of_take. apply list_elem_of_lookup_2, elem_of_candidates in Hi as (_ & _ & Hi & _). lia.
  - eexists. apply Apply_inv. split; [|exists s1; split; [exact Hs1|reflexivity]]. apply revision_errors_iff. cbn. split_and!; [done|naive_solver..].
Qed.
