(* ===== verification/ControllerLink.v ===== *)
(** * The controller's side of the control stream

    [internal/cluster]: [protocol.go], [identity_transfer.go], [push.go], the
    session bookkeeping of [server.go] and the database fault of [fault.go].  A
    [*nodeSession] is a number of the heap [cs_conns]; [cs_sessions] holds the
    session that is registered for a node, so that the code's pointer comparisons
    are comparisons of numbers.  Each function is one critical section of
    [syncMu] or [mu], the unit in which sessions interleave.

    The store is a [*db.Store], so the interface assertions of the code succeed.
    A call of the store may fail at any time: [sql k] says whether the [k]-th
    call of a function succeeds.  Random identifiers are arguments, [None] when
    the random source fails.  The identity snapshot travels as bytes, because it
    is fragmented; [encoding/json] is the class [SnapshotCodec].  The payloads of
    the other messages are read back as they were written.  [SentAt], [ServerTime]
    and [connectedAt], which nothing reads, are left out, as are the transport
    fields of [ControllerServer]. *)
From Stdlib Require Import ZArith Lia Ascii String.
From stdpp Require Import gmap strings list fin_maps sorting.
From S2P Require Import Prelude GoStrings Types DpiEngine DpiService EdgeStore EdgeIdentity ControllerDB IdentityPage IdentityView.
Local Open Scope Z_scope.

(** ** Messages *)

(** [json.Marshal] and [json.Unmarshal] of an identity snapshot: a value is read
    back as it was written, and the text of a struct is not empty. *)
Class SnapshotCodec := {
  Marshal : IdentitySnapshot → bytes;
  Unmarshal : bytes → option IdentitySnapshot;
  Unmarshal_Marshal : ∀ s, Unmarshal (Marshal s) = Some s;
  Marshal_nonempty : ∀ s, Marshal s ≠ [] }.

Record IdentityChunk := mkChunk { ch_Index : Z; ch_Total : Z; ch_Data : bytes }.
Record HeartbeatAck := mkAck {
  ha_ControllerFault : bool; ha_IdentityProtocol : Z; ha_IntervalSeconds : Z; ha_ObservedAddress : string }.
Record NodeCommand := mkCommand {
  cmd_CommandID : string; cmd_NodeID : string; cmd_Command : string; cmd_Payload : string; cmd_ExpiresAt : time }.
Record CommandResult := mkCommandResult {
  rs_CommandID : string; rs_Status : string; rs_Result : string; rs_Error : string }.
#[export] Instance eta_command_result : Eta CommandResult := λ r,
  mkCommandResult (rs_CommandID r) (rs_Status r) (rs_Result r) (rs_Error r).
Record EventEnvelope := mkEnvelope { ev_EventID : string; ev_EventType : string; ev_Payload : string; ev_CreatedAt : time }.
Record ClientPresence := mkClientPresence {
  cp_UserID : Z; cp_TokenID : Z; cp_ClientID : string; cp_FRPCRunning : bool; cp_LastSeenAt : option time }.
Record EdgeConnectionSnapshot := mkEdgeConnection {
  ecs_ID : string; ecs_Protocol : string; ecs_UserID : Z; ecs_TokenID : Z; ecs_ClientID : string;
  ecs_ClientAddr : string; ecs_LeaseID : string; ecs_ProxyName : string; ecs_ProxyType : string;
  ecs_RemotePort : Z; ecs_InboundAddr : string; ecs_InboundIP : string; ecs_InboundPort : Z;
  ecs_ServerAddr : string; ecs_OpenedAt : time; ecs_LastSeenAt : time; ecs_CanTerminate : bool }.
Record EdgeTrafficSnapshot := mkEdgeTraffic {
  ets_BytesInbound : Z; ets_BytesOutbound : Z; ets_SamplesInbound : Z; ets_SamplesOutbound : Z;
  ets_StartedAt : time; ets_CapturedAt : time }.
Record HeartbeatPayload := mkHeartbeat {
  hb_ReportError : string; hb_ClientsOnline : Z; hb_FRPConnections : Z; hb_PendingEvents : Z;
  hb_Clients : list ClientPresence; hb_ReportingVersion : Z; hb_ConnectionsReportingEnabled : bool;
  hb_Connections : list EdgeConnectionSnapshot; hb_Traffic : option EdgeTrafficSnapshot }.

Inductive payload :=
  | PNone
  | PBytes (data : bytes)
  | PChunk (chunk : IdentityChunk)
  | PAck (ack : HeartbeatAck)
  | PCommand (command : NodeCommand)
  | PResult (result : CommandResult)
  | PEvents (events : list EventEnvelope)
  | PEventAck (ids : list string)
  | PReport (report : HeartbeatPayload).

Record Message := mkMessage {
  m_Type : string; m_NodeID : string; m_Sequence : Z; m_Revision : Z; m_CommandID : string;
  m_Capabilities : string; m_Payload : payload; m_BootID : string; m_CacheProtocol : Z;
  m_AdmissionProtocol : Z; m_CacheSessionID : string; m_SyncComplete : bool }.
#[export] Instance eta_message : Eta Message := λ m,
  mkMessage (m_Type m) (m_NodeID m) (m_Sequence m) (m_Revision m) (m_CommandID m) (m_Capabilities m)
    (m_Payload m) (m_BootID m) (m_CacheProtocol m) (m_AdmissionProtocol m) (m_CacheSessionID m) (m_SyncComplete m).
Definition message (type nodeID : string) : Message := mkMessage type nodeID 0 0 "" "" PNone "" 0 0 "" false.

Definition identityChunkBytes : Z := 512 * 1024.
Definition identityIdleTimeout : duration := 120 * Second.
Definition heartbeatTimeout (interval : Z) : duration :=
  let timeout := interval * 3 * Second in
  if bool_decide (timeout < 15 * Second) then 15 * Second else timeout.
Definition NormalizeControllerAddress (value : string) : string :=
  TrimSuffix (TrimPrefix (TrimPrefix (TrimSpace value) "https://") "http://") "/".

(** ** Sessions *)

Record nodeSession := mkSession {
  ns_nodeID : string; ns_cancelled : bool; ns_send : list Message; ns_lastHeartbeat : time;
  ns_capabilities : string; ns_bootID : string; ns_cacheProtocol : Z; ns_admissionProtocol : Z;
  ns_cacheSessionID : string; ns_cacheReady : bool; ns_needsFull : bool; ns_needsBlockedIPs : bool;
  ns_baselineActive : bool; ns_baselineCursor : Z; ns_pendingCursor : Z;
  ns_pendingRevision : Z; ns_appliedRevision : Z; ns_pendingIdentity : option IdentitySnapshot;
  ns_pendingPayload : bytes; ns_chunkIndex : Z; ns_chunkTotal : Z; ns_applyProgress : Z;
  ns_blockedIPs : gmap string BlockedIP; ns_syncStarted : time }.
#[export] Instance eta_session : Eta nodeSession := λ r,
  mkSession (ns_nodeID r) (ns_cancelled r) (ns_send r) (ns_lastHeartbeat r) (ns_capabilities r) (ns_bootID r)
    (ns_cacheProtocol r) (ns_admissionProtocol r) (ns_cacheSessionID r) (ns_cacheReady r) (ns_needsFull r)
    (ns_needsBlockedIPs r) (ns_baselineActive r) (ns_baselineCursor r) (ns_pendingCursor r)
    (ns_pendingRevision r) (ns_appliedRevision r) (ns_pendingIdentity r) (ns_pendingPayload r)
    (ns_chunkIndex r) (ns_chunkTotal r) (ns_applyProgress r) (ns_blockedIPs r) (ns_syncStarted r).

Definition new_session (nodeID : string) (now : time) : nodeSession :=
  mkSession nodeID false [] now "" "" 0 0 "" false false false false 0 0 0 0 None [] 0 0 0 ∅ zero_time.

Record ControllerServer := mkControllerServer {
  cs_forgottenNodes : gset string; cs_nodeCatalog : gmap string EdgeNode;
  cs_databaseFault : bool; cs_databaseSuspect : bool;
  cs_sessions : gmap string nat; cs_conns : gmap nat nodeSession;
  cs_commandWaiters : gmap string (option CommandResult);   (** a channel of capacity one *)
  cs_heartbeatInterval : Z; cs_wake : bool }.
#[export] Instance eta_controller_server : Eta ControllerServer := λ r,
  mkControllerServer (cs_forgottenNodes r) (cs_nodeCatalog r) (cs_databaseFault r) (cs_databaseSuspect r)
    (cs_sessions r) (cs_conns r) (cs_commandWaiters r) (cs_heartbeatInterval r) (cs_wake r).

Definition NewControllerServer : ControllerServer := mkControllerServer ∅ ∅ false false ∅ ∅ ∅ 5 false.

Definition update_conn (s : ControllerServer) (c : nat) (f : nodeSession → nodeSession) : ControllerServer :=
  s <| cs_conns := alter f c (cs_conns s) |>.
(** [s.sessions[session.nodeID] == session]. *)
Definition registered (s : ControllerServer) (c : nat) (session : nodeSession) : bool :=
  bool_decide (cs_sessions s !! ns_nodeID session = Some c).
Definition wakeIdentityPush (s : ControllerServer) : ControllerServer := s <| cs_wake := true |>.

(** A send that must not block: [None] when the channel is full. *)
Definition sendCapacity : nat := 128.
Definition try_send (session : nodeSession) (m : Message) : option nodeSession :=
  if bool_decide (length (ns_send session) < sendCapacity)%nat
  then Some (session <| ns_send := ns_send session ++ [m] |>) else None.

(** [identityStorageError] is [Storage]; the worker retries those. *)
Inductive call_error :=
  | Storage (e : store_error)
  | Failed (msg : string)
  | StoreError (e : store_error)
  | BadJSON
  | Panic.

Definition SetHeartbeatInterval (s : ControllerServer) (seconds : Z) : ControllerServer :=
  let seconds := if bool_decide (seconds < 2) then 2 else seconds in
  let seconds := if bool_decide (60 < seconds) then 60 else seconds in
  s <| cs_heartbeatInterval := seconds |>.
Definition HeartbeatInterval (s : ControllerServer) : Z :=
  if bool_decide (cs_heartbeatInterval s = 0) then 5 else cs_heartbeatInterval s.

Definition sessionAliveLocked (s : ControllerServer) (session : nodeSession) (now : time) : bool :=
  if IsZero (ns_lastHeartbeat session) || ns_cancelled session then false
  else bool_decide (Sub now (ns_lastHeartbeat session) ≤ heartbeatTimeout (HeartbeatInterval s)).
Definition session_of_node (s : ControllerServer) (nodeID : string) : option nodeSession :=
  c ← cs_sessions s !! nodeID; cs_conns s !! c.
Definition node_alive (s : ControllerServer) (now : time) (nodeID : string) : bool :=
  match session_of_node s nodeID with Some session => sessionAliveLocked s session now | None => false end.
(** In the order of a map iteration. *)
Definition ConnectedNodes (s : ControllerServer) (now : time) : list string :=
  filter (λ n, node_alive s now n = true) (map_to_list (cs_sessions s)).*1.
Definition NodeSession (s : ControllerServer) (now : time) (nodeID : string) : bool * string :=
  match session_of_node s nodeID with
  | Some session => if sessionAliveLocked s session now then (true, ns_capabilities session) else (false, ""%string)
  | None => (false, ""%string)
  end.
Definition DisconnectNode (s : ControllerServer) (nodeID : string) : ControllerServer :=
  match cs_sessions s !! nodeID with
  | Some c => (update_conn s c (λ r, r <| ns_cancelled := true |>)) <| cs_sessions := delete nodeID (cs_sessions s) |>
  | None => s
  end.

(** ** The node catalogue and the database fault *)

Definition ReplaceNodeCatalog (s : ControllerServer) (nodes : list EdgeNode) : ControllerServer :=
  let copy := foldl (λ m n, <[en_NodeID n := n]> m) ∅ nodes in
  s <| cs_nodeCatalog := filter (λ kn, kn.1 ∉ cs_forgottenNodes s) copy |>.
Definition NodeCatalog (s : ControllerServer) : list EdgeNode := (map_to_list (cs_nodeCatalog s)).*2.

(** [row] is the outcome of [GetEdgeNode].  The catalogue, the suspicion and the
    forgotten nodes are read again after it, so they are given twice. *)
Definition authorizedNode (s s' : ControllerServer) (row : result EdgeNode) (id : string) :
    ControllerServer * result EdgeNode :=
  if bool_decide (id ∈ cs_forgottenNodes s) then (s', inl ErrNotFound)
  else if cs_databaseSuspect s then
    (s', match cs_nodeCatalog s !! id with Some node => inr node | None => inl ErrNotFound end)
  else match row with
  | inr node =>
      if bool_decide (id ∈ cs_forgottenNodes s') then (s', inl ErrNotFound)
      else (s' <| cs_nodeCatalog := <[id := node]> (cs_nodeCatalog s') |>, inr node)
  | inl err =>
      (s', match cs_nodeCatalog s' !! id with
           | Some node => if cs_databaseSuspect s' && negb (bool_decide (err = ErrNotFound)) then inr node else inl err
           | None => inl err
           end)
  end.
Definition SetDatabaseSuspect (s : ControllerServer) (suspect : bool) : ControllerServer :=
  s <| cs_databaseSuspect := suspect |>.

(** What [SetDatabaseFault] does to one registered session. *)
Definition fault_session (interval : Z) (now : time) (wasFault fault : bool) (id : string) (session : nodeSession) :
    nodeSession :=
  if fault && bool_decide (ns_admissionProtocol session < 1) then session <| ns_cancelled := true |>
  else
    let session := session <| ns_syncStarted := now |> in
    let session := if negb fault && (wasFault || negb (ns_cacheReady session))
                   then session <| ns_needsFull := true |> else session in
    match try_send session ((message "controller_state" id) <| m_Payload := PAck (mkAck fault 0 interval "") |>) with
    | Some session => session
    | None => session <| ns_cancelled := true |>
    end.
(** A loop over [s.sessions]: the sessions are distinct, so the order is irrelevant. *)
Definition map_sessions (s : ControllerServer) (f : string → nodeSession → nodeSession) : ControllerServer :=
  s <| cs_conns := map_imap (λ c session,
         Some (if registered s c session then f (ns_nodeID session) session else session)) (cs_conns s) |>.
Definition SetDatabaseFault (s : ControllerServer) (now : time) (fault : bool) : ControllerServer :=
  let wasFault := cs_databaseFault s in
  let s := s <| cs_databaseFault := fault |> in
  let s := if negb fault then s <| cs_databaseSuspect := false |> else s in
  let s := map_sessions s (fault_session (cs_heartbeatInterval s) now wasFault fault) in
  if negb fault then wakeIdentityPush s else s.
Definition ForgetNode (s : ControllerServer) (id : string) : ControllerServer :=
  DisconnectNode (s <| cs_forgottenNodes := cs_forgottenNodes s ∪ {[id]} |>
                    <| cs_nodeCatalog := delete id (cs_nodeCatalog s) |>) id.
Definition RememberEnrolledNode (s : ControllerServer) (row : result EdgeNode) (id : string) : ControllerServer :=
  match row with
  | inl _ => s
  | inr node => s <| cs_forgottenNodes := cs_forgottenNodes s ∖ {[id]} |>
                  <| cs_nodeCatalog := <[id := node]> (cs_nodeCatalog s) |>
  end.

Definition ScheduleIdentityPush (s : ControllerServer) : ControllerServer :=
  wakeIdentityPush (map_sessions s (λ _ r, r <| ns_needsFull := true |>)).
Definition ScheduleBlockedIPPush (s : ControllerServer) : ControllerServer :=
  wakeIdentityPush (map_sessions s (λ _ r,
    if bool_decide (3 ≤ ns_cacheProtocol r) then r <| ns_needsBlockedIPs := true |> else r <| ns_needsFull := true |>)).
Definition NotifyUserIdentityChanged (s : ControllerServer) (userID : Z) : ControllerServer := wakeIdentityPush s.

(** ** Identity transfer *)

Section transfer.
Context {codec : SnapshotCodec}.
(** The errors of a failing statement and of a failing random source. *)
Context (sql_error : store_error) (rand_error : string).

Definition conn (s : ControllerServer) (c : nat) : nodeSession := default (new_session "" zero_time) (cs_conns s !! c).

Definition snapshot_message (nodeID : string) (revision : Z) (snapshot : IdentitySnapshot) : Message :=
  (message "identity_snapshot" nodeID) <| m_Revision := revision |> <| m_Payload := PBytes (Marshal snapshot) |>.

(** The blocks that differ from what the edge is known to have. *)
Definition changed_block (known : gmap string BlockedIP) (block : BlockedIP) : bool :=
  match known !! bi_IP block with
  | None => true
  | Some old => negb (bool_decide (bi_Reason old = bi_Reason block)) || negb (bool_decide (bi_CreatedAt old = bi_CreatedAt block))
  end.
Definition blocked_diff (admissionProtocol revision : Z) (known : gmap string BlockedIP) (blocks : list BlockedIP) :
    IdentitySnapshot :=
  let wanted ip := existsb (λ b, bool_decide (bi_IP b = ip)) blocks in
  let replace := bool_decide (admissionProtocol < 1) in
  mkSnapshot false false replace true [] true revision [] [] [] [] []
    (if replace then blocks else filter (λ b, changed_block known b = true) blocks)
    (if replace then [] else filter (λ ip, wanted ip = false) (map_to_list known).*1).

Definition blockedIPMessage (s : ControllerServer) (d : ControllerDB) (c : nat) (sql : nat → bool) :
    ControllerServer * ControllerDB * (call_error + Message) :=
  let session := conn s c in
  if negb (sql 0%nat) then (s, d, inl (StoreError sql_error))
  else
    let blocks := ListBlockedInboundIPs d in
    if negb (sql 1%nat) then (s, d, inl (StoreError sql_error))
    else match NextIdentityRevision d with
    | inl e => (s, d, inl (StoreError e))
    | inr (d, revision) =>
        let snapshot := blocked_diff (ns_admissionProtocol session) revision (ns_blockedIPs session) blocks in
        (update_conn s c (λ r, r <| ns_needsBlockedIPs := false |>), d,
         inr (snapshot_message (ns_nodeID session) revision snapshot))
    end.

(** [id] is the new epoch. *)
Definition requestCacheReset (s : ControllerServer) (c : nat) (now : time) (id : option string) :
    ControllerServer * option call_error :=
  match id with
  | None => (s, Some (Failed rand_error))
  | Some id =>
      let session := conn s c in
      if negb (registered s c session) then (s, Some (Failed "superseded cache reset"))
      else
        let session := session <| ns_cacheSessionID := id |> <| ns_cacheReady := false |>
                               <| ns_needsFull := false |> <| ns_syncStarted := now |> in
        let welcome := (message "welcome" (ns_nodeID session))
                         <| m_CacheSessionID := id |>
                         <| m_Payload := PAck (mkAck (cs_databaseFault s) 3 (cs_heartbeatInterval s) "") |> in
        match try_send session welcome with
        | Some session => (update_conn s c (λ _, session), None)
        | None => (update_conn s c (λ _, session), Some (Failed "cache reset send queue full"))
        end
  end.

Definition acceptCacheCleared (s : ControllerServer) (d : ControllerDB) (c : nat) (now : time) (sql : bool) (m : Message) :
    ControllerServer * ControllerDB * option call_error :=
  let session := conn s c in
  let same := bool_decide (m_CacheSessionID m = ns_cacheSessionID session) in
  if negb (registered s c session && bool_decide (3 ≤ ns_cacheProtocol session) && same) then
    if negb same then (s, d, None) else (s, d, Some (Failed "cache-cleared session mismatch"))
  else if ns_cacheReady session then (s, d, None)
  else if negb sql then (s, d, Some (Storage sql_error))
  else
    let d := ResetNodeIdentityCache d (ns_nodeID session) (ns_cacheSessionID session) (ns_bootID session) in
    let s := update_conn s c (λ r,
      r <| ns_cacheReady := true |> <| ns_needsFull := false |> <| ns_baselineActive := true |>
        <| ns_baselineCursor := 0 |> <| ns_pendingRevision := 0 |> <| ns_appliedRevision := 0 |>
        <| ns_pendingIdentity := None |> <| ns_blockedIPs := ∅ |> <| ns_syncStarted := now |>) in
    (wakeIdentityPush s, d, None).

(** [users] is [None] for a baseline. *)
Definition identityPageMessage (s : ControllerServer) (d : ControllerDB) (c : nat) (sql : nat → bool) (users : option (list Z)) :
    ControllerServer * ControllerDB * (call_error + Message) :=
  let session := conn s c in
  let baseline := ns_baselineActive session in
  let cursor := if baseline then ns_baselineCursor session else 0 in
  if negb (sql 0%nat) then (s, d, inl (StoreError sql_error))
  else match ReadNodeIdentityPage d (ns_nodeID session) cursor users 64 with
  | inl e => (s, d, inl (StoreError e))
  | inr page =>
      if negb (sql 1%nat) then (s, d, inl (StoreError sql_error))
      else match NextIdentityRevision d with
      | inl e => (s, d, inl (StoreError e))
      | inr (d, revision) =>
          if baseline && np_End page && negb (sql 2%nat) then (s, d, inl (StoreError sql_error))
          else
            let snapshot := page_snapshot revision baseline page (ListBlockedInboundIPs d) in
            (update_conn s c (λ r, r <| ns_pendingCursor := np_LastID page |>), d,
             inr (snapshot_message (ns_nodeID session) revision snapshot))
      end
  end.

(** The fragment at [chunkIndex]; slicing past the end panics. *)
Definition chunk_data (payload : bytes) (index : Z) : option bytes :=
  let start := index * identityChunkBytes in
  let stop := Z.min (start + identityChunkBytes) (len payload) in
  if bool_decide (0 ≤ start ≤ stop) then Some (take (Z.to_nat (stop - start)) (drop (Z.to_nat start) payload)) else None.
Definition chunk_message (session : nodeSession) (data : bytes) : Message :=
  (message "identity_chunk" (ns_nodeID session))
    <| m_Revision := ns_pendingRevision session |> <| m_Sequence := ns_chunkIndex session |>
    <| m_CacheSessionID := ns_cacheSessionID session |>
    <| m_Payload := PChunk (mkChunk (ns_chunkIndex session) (ns_chunkTotal session) data) |>.
Definition sendIdentityChunkLocked (session : nodeSession) : nodeSession * option call_error :=
  match chunk_data (ns_pendingPayload session) (ns_chunkIndex session) with
  | None => (session, Some Panic)
  | Some data =>
      match try_send session (chunk_message session data) with
      | Some session => (session, None)
      | None => (session, Some (Failed "identity fragment send queue full"))
      end
  end.

Definition acceptIdentityProgress (s : ControllerServer) (c : nat) (now : time) (m : Message) :
    ControllerServer * option call_error :=
  let session := conn s c in
  let current := registered s c session in
  let same := bool_decide (m_CacheSessionID m = ns_cacheSessionID session) in
  if current && negb same then (s, None)
  else if same && bool_decide (m_Revision m ≤ ns_appliedRevision session) then (s, None)
  else if negb current || bool_decide (ns_cacheProtocol session < 3) || negb same ||
          bool_decide (ns_pendingIdentity session = None) || negb (bool_decide (m_Revision m = ns_pendingRevision session))
  then (s, Some (Failed "identity progress epoch/revision mismatch"))
  else if bool_decide (m_Type m = "identity_progress"%string) then
    if bool_decide (ns_applyProgress session < m_Sequence m)
    then (update_conn s c (λ r, r <| ns_applyProgress := m_Sequence m |> <| ns_syncStarted := now |>), None)
    else (s, None)
  else if bool_decide (m_Sequence m < ns_chunkIndex session) then (s, None)
  else if negb (bool_decide (m_Sequence m = ns_chunkIndex session)) || bool_decide (ns_chunkTotal session ≤ ns_chunkIndex session)
  then (s, Some (Failed ("unexpected identity chunk acknowledgement " ++ fmt_d (m_Sequence m))))
  else
    let session := session <| ns_syncStarted := now |> <| ns_chunkIndex := ns_chunkIndex session + 1 |> in
    if bool_decide (ns_chunkIndex session < ns_chunkTotal session)
    then let '(session, err) := sendIdentityChunkLocked session in (update_conn s c (λ _, session), err)
    else (update_conn s c (λ _, session), None).

(** [syncMu] is held.  A full snapshot clears the request for one. *)
Definition enqueueIdentity (s : ControllerServer) (d : ControllerDB) (c : nat) (now : time) (sql : bool) (m : Message) :
    ControllerServer * ControllerDB * option call_error :=
  let session := conn s c in
  match m_Payload m with
  | PBytes payload =>
      match Unmarshal payload with
      | None => (s, d, Some (BadJSON))
      | Some snapshot =>
          if negb sql then (s, d, Some (StoreError sql_error))
          else match PrepareNodeIdentityCache d (ns_nodeID session) (ns_cacheSessionID session) (m_Revision m)
                       (touched_users snapshot) with
          | inl e => (s, d, Some (StoreError e))
          | inr d =>
              let m := m <| m_CacheSessionID := ns_cacheSessionID session |> in
              if negb (registered s c session) then (s, d, Some (Failed "superseded edge session"))
              else
                let session := session <| ns_pendingRevision := m_Revision m |> <| ns_pendingIdentity := Some snapshot |>
                                       <| ns_syncStarted := now |> <| ns_applyProgress := 0 |> in
                let session := if negb (Incremental snapshot) && negb (Baseline snapshot)
                               then session <| ns_needsFull := false |> else session in
                if bool_decide (3 ≤ ns_cacheProtocol session) then
                  let session := session <| ns_pendingPayload := payload |> <| ns_chunkIndex := 0 |>
                                   <| ns_chunkTotal := (len payload + identityChunkBytes - 1) / identityChunkBytes |> in
                  let '(session, err) := sendIdentityChunkLocked session in
                  (update_conn s c (λ _, session), d, err)
                else match try_send session m with
                | Some session => (update_conn s c (λ _, session), d, None)
                | None => (update_conn s c (λ _, session), d, Some (Failed "edge identity send queue full"))
                end
          end
      end
  | _ => (s, d, Some (BadJSON))
  end.

(** What the edge is known to block after a confirmation. *)
Definition confirmed_blocks (snapshot : IdentitySnapshot) (known : gmap string BlockedIP) : gmap string BlockedIP :=
  let known := if ReplaceBlockedIPs snapshot then ∅ else known in
  let known := foldl (λ m b, <[bi_IP b := b]> m) known (BlockedIPs snapshot) in
  foldl (λ m ip, delete ip m) known (RemovedBlockedIPs snapshot).
Definition confirmed_session (snapshot : IdentitySnapshot) (revision : Z) (session : nodeSession) : nodeSession :=
  let session := session <| ns_appliedRevision := revision |> <| ns_pendingIdentity := None |>
                         <| ns_pendingPayload := [] |>
                         <| ns_blockedIPs := confirmed_blocks snapshot (ns_blockedIPs session) |> in
  if Baseline snapshot
  then session <| ns_baselineCursor := ns_pendingCursor session |> <| ns_baselineActive := negb (BaselineEnd snapshot) |>
  else session.

Definition confirmIdentity (s : ControllerServer) (d : ControllerDB) (c : nat) (now : time) (sql : bool) (m : Message) :
    ControllerServer * ControllerDB * option call_error :=
  let session := conn s c in
  let protocol := ns_cacheProtocol session in
  if negb (registered s c session) then (s, d, Some (Failed "superseded cache acknowledgement"))
  else if bool_decide (2 ≤ protocol) && negb (bool_decide (m_CacheSessionID m = ns_cacheSessionID session)) then (s, d, None)
  else if bool_decide (m_Revision m ≤ ns_appliedRevision session) then (s, d, None)
  else match ns_pendingIdentity session with
  | None => (s, d, Some (Failed "unexpected identity acknowledgement revision"))
  | Some snapshot =>
      if negb (bool_decide (Revision snapshot = m_Revision m))
      then (s, d, Some (Failed "unexpected identity acknowledgement revision"))
      else if bool_decide (3 ≤ protocol) && negb (bool_decide (ns_chunkIndex session = ns_chunkTotal session))
      then (s, d, Some (Failed "identity ACK before all fragments received"))
      else if negb sql then (s, d, Some (Storage sql_error))
      else match ConfirmNodeIdentityCache d now (ns_nodeID session) (ns_cacheSessionID session) (m_Revision m)
                   (su_ID <$> Users snapshot) (RemovedUserIDs snapshot)
                   (negb (Incremental snapshot) && negb (Baseline snapshot)) with
      | inl e => (s, d, Some (Storage e))
      | inr d =>
          let session := confirmed_session snapshot (m_Revision m) session in
          if bool_decide (2 ≤ protocol) then
            let confirmed := (message "identity_confirmed" (ns_nodeID session))
              <| m_Revision := m_Revision m |> <| m_CacheSessionID := ns_cacheSessionID session |>
              <| m_SyncComplete := negb (Baseline snapshot) || BaselineEnd snapshot |> in
            match try_send session confirmed with
            | Some session => (wakeIdentityPush (update_conn s c (λ _, session)), d, None)
            | None => (update_conn s c (λ _, session), d, Some (Failed "edge identity confirmation queue full"))
            end
          else (wakeIdentityPush (update_conn s c (λ _, session)), d, None)
      end
  end.

(** The snapshot of a node that does not speak the paged protocol. *)
Definition legacy_snapshot (d : ControllerDB) (nodeID : string) (revision : Z) (requested : option (list Z)) : IdentitySnapshot :=
  let allowed := ListNodeUserAccess d nodeID in
  let wanted u := match requested with Some ids => bool_decide (u_ID u ∈ ids) | None => true end in
  let users := filter (λ u, wanted u = true ∧ u_ID u ∈ allowed) (ListUsers d) in
  let kept := u_ID <$> users in
  let tokens := filter (λ t, t_UserID t ∈ kept) (ListAccessTokens d) in
  mkSnapshot false false false (bool_decide (is_Some requested))
    (filter (λ id, id ∉ kept) (default [] requested)) true revision
    (snapshot_user <$> users) (snapshot_token <$> tokens)
    (filter (λ p, rp_UserID p ∈ kept) (ListUserResourcePolicies d))
    (filter (λ g, g_TokenID g ∈ t_ID <$> tokens) (ListAllPortGrants d))
    (filter (λ p, p_UserID p ∈ kept) (ListDPIPolicies d))
    (if bool_decide (is_Some requested) then [] else ListBlockedInboundIPs d) [].
Definition identitySnapshotForUsers (d : ControllerDB) (nodeID : string) (sql : nat → bool) (requested : option (list Z)) :
    ControllerDB * (call_error + Message) :=
  if negb (forallb sql (seq 0 6)) then (d, inl (StoreError sql_error))
  else if negb (sql 6%nat) then (d, inl (StoreError sql_error))
  else match NextIdentityRevision d with
  | inl e => (d, inl (StoreError e))
  | inr (d, revision) =>
      if negb (sql 7%nat) then (d, inl (StoreError sql_error))
      else (d, inr (snapshot_message nodeID revision (legacy_snapshot d nodeID revision requested)))
  end.

(** The epoch is drawn only when a reset is requested. *)
Definition pushNodeIdentity (s : ControllerServer) (d : ControllerDB) (nodeID : string) (now : time)
    (id : option string) (sql : nat → bool) : ControllerServer * ControllerDB :=
  if cs_databaseSuspect s then (s, d)
  else match cs_sessions s !! nodeID with
  | None => (s, d)
  | Some c =>
      let session := conn s c in
      if bool_decide (ns_cacheSessionID session = ""%string) || bool_decide (ns_appliedRevision session < ns_pendingRevision session)
      then (s, d)
      else
        let full := ns_needsFull session in
        let baseline := ns_baselineActive session in
        let blocked := ns_needsBlockedIPs session in
        let ready := ns_cacheReady session in
        let protocol := ns_cacheProtocol session in
        let reset := let '(s, err) := requestCacheReset s c now id in
                     (if err is Some _ then update_conn s c (λ r, r <| ns_cancelled := true |>) else s, d) in
        if full && negb ready && bool_decide (3 ≤ protocol) then reset
        else if negb ready then (s, d)
        else if full && negb baseline && bool_decide (3 ≤ protocol) then reset
        else if blocked && negb full && negb baseline && bool_decide (3 ≤ protocol) then
          let failed s := update_conn s c (λ r, r <| ns_needsBlockedIPs := true |>) in
          match blockedIPMessage s d c sql with
          | (s, d, inl _) => (failed s, d)
          | (s, d, inr m) =>
              let '(s, d, err) := enqueueIdentity s d c now (sql 2%nat) m in
              (if err is Some _ then failed s else s, d)
          end
        else
          let pending := PendingNodeIdentityUsers d nodeID (ns_cacheSessionID session) in
          let incremental := negb full && negb baseline in
          if incremental && (negb (sql 0%nat) || bool_decide (pending = [])) then (s, d)
          else
            let users := if incremental && bool_decide (2 ≤ protocol) then Some pending else None in
            let '(s, d, page) :=
              if bool_decide (3 ≤ protocol) then identityPageMessage s d c (λ k, sql (S k)) users
              else let '(d, page) := identitySnapshotForUsers d nodeID (λ k, sql (S k)) users in (s, d, page) in
            match page with
            | inl _ => (s, d)
            | inr m => (enqueueIdentity s d c now (sql 9%nat) m).1
            end
  end.
End transfer.

(** ** Commands to a connected edge *)

Definition SendCommand (s : ControllerServer) (now : time) (command : NodeCommand) : ControllerServer * bool :=
  match cs_sessions s !! cmd_NodeID command with
  | None => (s, false)
  | Some c =>
      let session := conn s c in
      if negb (sessionAliveLocked s session now) then (s, false)
      else match try_send session ((message "command" (cmd_NodeID command))
                   <| m_CommandID := cmd_CommandID command |> <| m_Payload := PCommand command |>) with
      | Some session => (update_conn s c (λ _, session), true)
      | None => (update_conn s c (λ r, r <| ns_cancelled := true |>), false)
      end
  end.

(** The two halves of [SendCommandAndWait]: the registration and the sending, and
    what follows the wait.  A cancelled context reads nothing from the channel. *)
Definition begin_wait (s : ControllerServer) (now : time) (command : NodeCommand) : ControllerServer * option string :=
  let id := cmd_CommandID command in
  if negb (node_alive s now (cmd_NodeID command)) then (s, Some "edge node is offline"%string)
  else if bool_decide (is_Some (cs_commandWaiters s !! id)) then (s, Some "duplicate command id"%string)
  else
    let s := s <| cs_commandWaiters := <[id := None]> (cs_commandWaiters s) |> in
    let '(s, sent) := SendCommand s now command in
    if sent then (s, None)
    else (s <| cs_commandWaiters := delete id (cs_commandWaiters s) |>, Some "edge command channel is unavailable"%string).
Definition end_wait (s : ControllerServer) (id : string) : ControllerServer * option CommandResult :=
  (s <| cs_commandWaiters := delete id (cs_commandWaiters s) |>, mjoin (cs_commandWaiters s !! id)).

Definition deliverCommandResult (s : ControllerServer) (r : CommandResult) : ControllerServer * bool :=
  match cs_commandWaiters s !! rs_CommandID r with
  | None => (s, false)
  | Some (Some _) => (s, true)
  | Some None => (s <| cs_commandWaiters := <[rs_CommandID r := Some r]> (cs_commandWaiters s) |>, true)
  end.

(** ** A connection

    [Connect] as the sequence of its critical sections.  [cl_awaiting] is the
    message that the receive loop waits to send when the channel is full. *)

Definition authorized_certificate (node : result EdgeNode) (serial : string) : bool :=
  match node with
  | inr node => bool_decide (en_Status node = "active"%string) &&
                bool_decide (ToLower (en_CertificateSerial node) = ToLower serial)
  | inl _ => false
  end.

(** The new session replaces and cancels the previous one of the node. *)
Definition register (s : ControllerServer) (c : nat) (nodeID : string) (now : time) : ControllerServer :=
  let s := match cs_sessions s !! nodeID with
           | Some previous => update_conn s previous (λ r, r <| ns_cancelled := true |>)
           | None => s
           end in
  s <| cs_conns := <[c := new_session nodeID now]> (cs_conns s) |> <| cs_sessions := <[nodeID := c]> (cs_sessions s) |>.
Definition unregister (s : ControllerServer) (c : nat) : ControllerServer :=
  let session := conn s c in
  if registered s c session then s <| cs_sessions := delete (ns_nodeID session) (cs_sessions s) |> else s.

Definition accept_hello (s : ControllerServer) (c : nat) (m : Message) : ControllerServer * option call_error :=
  let session := conn s c in
  if negb (bool_decide (m_Type m = "hello"%string)) || negb (bool_decide (m_NodeID m = ns_nodeID session))
  then (s, Some (Failed "edge hello identity mismatch"))
  else if bool_decide (128 < slen (m_BootID m)) then (s, Some (Failed "invalid edge boot epoch"))
  else
    let s := update_conn s c (λ r, r <| ns_bootID := m_BootID m |> <| ns_cacheProtocol := m_CacheProtocol m |>
                                     <| ns_admissionProtocol := m_AdmissionProtocol m |>) in
    if bool_decide (2 ≤ m_CacheProtocol m) && bool_decide (m_BootID m = ""%string)
    then (s, Some (Failed "edge boot epoch is required"))
    else (update_conn s c (λ r, r <| ns_capabilities := m_Capabilities m |>), None).
Definition open_epoch (s : ControllerServer) (c : nat) (id : string) : ControllerServer :=
  update_conn s c (λ r, r <| ns_cacheSessionID := id |>).
Definition welcome_message (s : ControllerServer) (c : nat) (id observed : string) : Message :=
  let session := conn s c in
  (message "welcome" (ns_nodeID session)) <| m_CacheSessionID := id |>
    <| m_Payload := PAck (mkAck (cs_databaseFault s) (if bool_decide (3 ≤ ns_cacheProtocol session) then 3 else 2)
                            (HeartbeatInterval s) observed) |>.
(** [enqueue] waits for room. *)
Definition enqueue (s : ControllerServer) (c : nat) (m : Message) : option ControllerServer :=
  session ← try_send (conn s c) m; Some (update_conn s c (λ _, session)).

Record ConnectLoop := mkLoop {
  cl_lastPersist : time; cl_telemetryJobs : list Message; cl_touchJobs : option string;
  cl_identityJobs : list Message; cl_identityCurrent : option Message; cl_awaiting : option Message }.
#[export] Instance eta_loop : Eta ConnectLoop := λ r,
  mkLoop (cl_lastPersist r) (cl_telemetryJobs r) (cl_touchJobs r) (cl_identityJobs r) (cl_identityCurrent r) (cl_awaiting r).
Definition new_loop : ConnectLoop := mkLoop zero_time [] None [] None None.

Definition identity_job (m : Message) : bool :=
  bool_decide (m_Type m = "cache_cleared"%string) || bool_decide (m_Type m = "identity_ack"%string).
Definition progress_message (m : Message) : bool :=
  bool_decide (m_Type m = "identity_chunk_ack"%string) || bool_decide (m_Type m = "identity_progress"%string).
Definition telemetry_message (m : Message) : bool :=
  bool_decide (m_Type m = "report"%string) || bool_decide (m_Type m = "event_batch"%string) ||
  bool_decide (m_Type m = "command_result"%string).

(** The capabilities and the time of the last message, kept only for the
    registered session. *)
Definition touch_session (s : ControllerServer) (c : nat) (now : time) (m : Message) : ControllerServer :=
  if registered s c (conn s c) then
    update_conn s c (λ r,
      let r := r <| ns_lastHeartbeat := now |> in
      if bool_decide (0 < slen (m_Capabilities m)) then r <| ns_capabilities := m_Capabilities m |> else r)
  else s.

(** One message of the receive loop; the error ends the connection. *)
Definition receive (s : ControllerServer) (l : ConnectLoop) (c : nat) (now : time) (observed : string) (m : Message) :
    ControllerServer * ConnectLoop * option call_error :=
  if negb (bool_decide (m_NodeID m = ns_nodeID (conn s c)))
  then (s, l, Some (Failed "message node identity does not match mTLS certificate"))
  else
    let s := touch_session s c now m in
    let capabilities := if bool_decide (ns_capabilities (conn s c) = ""%string) then "{}"%string else ns_capabilities (conn s c) in
    let '(s, err) := if progress_message m then acceptIdentityProgress s c now m else (s, None) in
    match err with
    | Some e => (s, l, Some e)
    | None =>
        let l := if negb (progress_message m) && identity_job m && bool_decide (length (cl_identityJobs l) < 128)%nat
                 then l <| cl_identityJobs := cl_identityJobs l ++ [m] |> else l in
        let l := if bool_decide (0 < slen (m_Capabilities m)) || IsZero (cl_lastPersist l) ||
                    bool_decide (30 * Second ≤ Sub now (cl_lastPersist l))
                 then (if cl_touchJobs l is Some _ then l else l <| cl_touchJobs := Some capabilities |>)
                        <| cl_lastPersist := now |>
                 else l in
        if bool_decide (m_Type m = "heartbeat"%string) then
          let ack := (message "heartbeat_ack" (ns_nodeID (conn s c))) <| m_Sequence := m_Sequence m |>
                       <| m_Payload := PAck (mkAck (cs_databaseFault s) 0 (HeartbeatInterval s) observed) |> in
          match enqueue s c ack with
          | Some s => (s, l, None)
          | None => (s, l <| cl_awaiting := Some ack |>, None)
          end
        else if telemetry_message m then
          if bool_decide (length (cl_telemetryJobs l) < 16)%nat
          then (s, l <| cl_telemetryJobs := cl_telemetryJobs l ++ [m] |>, None)
          else ((deliverCommandResult s (mkCommandResult (m_CommandID m) "failed" "" "persistence queue is busy; retry later")).1,
                l, None)
        else (s, l, None)
    end.

(** The tick of the watchdog. *)
Definition watchdog (s : ControllerServer) (c : nat) (now : time) : option call_error :=
  let session := conn s c in
  let overdue := (negb (ns_cacheReady session) || bool_decide (ns_appliedRevision session < ns_pendingRevision session)) &&
                 bool_decide (identityIdleTimeout < Sub now (ns_syncStarted session)) in
  if negb (sessionAliveLocked s session now) then Some (Failed "edge heartbeat timed out")
  else if overdue && negb (cs_databaseSuspect s) then Some (Failed "edge configuration acknowledgement timed out")
  else None.

Section connection.
Context {codec : SnapshotCodec}.
Context (sql_error : store_error).

(** One attempt of the identity worker.  A storage error leaves the job in place;
    any other error ends the connection. *)
Definition identity_worker (s : ControllerServer) (d : ControllerDB) (l : ConnectLoop) (c : nat) (now : time) (sql : bool) :
    ControllerServer * ControllerDB * ConnectLoop * option call_error :=
  match cl_identityCurrent l with
  | None =>
      match cl_identityJobs l with
      | [] => (s, d, l, None)
      | job :: jobs => (s, d, l <| cl_identityJobs := jobs |> <| cl_identityCurrent := Some job |>, None)
      end
  | Some job =>
      let '(s, d, err) :=
        if bool_decide (m_Type job = "cache_cleared"%string) then acceptCacheCleared sql_error s d c now sql job
        else confirmIdentity sql_error s d c now sql job in
      match err with
      | Some (Storage _) => (s, d, l, None)
      | _ => (s, d, l <| cl_identityCurrent := None |>, err)
      end
  end.

(** The start of the synchronization of a session.  The statements of an edge
    without the paged protocol run in the session's context, so that they fail
    once the session is cancelled. *)
Definition start_sync (s : ControllerServer) (d : ControllerDB) (c : nat) (now : time) (id : string) (sql : nat → bool) :
    ControllerServer * ControllerDB * option call_error :=
  let session := conn s c in
  if bool_decide (ns_cacheProtocol session < 3) then
    if negb (sql 0%nat) || ns_cancelled session then (s, d, Some (StoreError sql_error))
    else
      let d := ResetNodeIdentityCache d (ns_nodeID session) id (ns_bootID session) in
      let s := update_conn s c (λ r, r <| ns_cacheReady := true |>) in
      match identitySnapshotForUsers sql_error d (ns_nodeID session) (λ k, sql (S k)) None with
      | (d, inl e) => (s, d, Some e)
      | (d, inr m) => enqueueIdentity sql_error s d c now (sql 9%nat) m
      end
  else (update_conn s c (λ r, r <| ns_syncStarted := now |>), d, None).
End connection.
