(* ===== verification/NodeFault.v ===== *)
(** * Node faults

    [internal/httpapi/node_fault.go]: the state the server keeps about faults
    (whether admission is closed, which authenticated clients it remembers and
    which of them drain), its transitions on database and controller outages,
    and what it answers to heartbeats and FRP callbacks meanwhile.

    The server has an edge store exactly on an edge node; an edge client, when
    there is one, comes with the store.  The controller's cluster server is the one
    of [ControllerLink]: the health check tells it that the database is suspected,
    has failed or is back. *)
From Stdlib Require Import ZArith Lia Ascii String.
From stdpp Require Import gmap strings list fin_maps.
From S2P Require Import Prelude GoStrings Types Config DpiEngine DpiService FrpManager EdgeStore EdgeIdentity ControllerDB IdentityPage IdentityView ControllerLink.
Local Open Scope Z_scope.

Record faultClient := mkFaultClient {
  fcl_rowID : Z; fcl_tokenHash : string; fcl_tokenID : Z; fcl_clientID : string;
  fcl_draining : bool; fcl_warned : bool; fcl_logoutSent : bool; fcl_lastSeen : time }.
#[export] Instance eta_fault_client : Eta faultClient := λ r,
  mkFaultClient (fcl_rowID r) (fcl_tokenHash r) (fcl_tokenID r) (fcl_clientID r) (fcl_draining r)
    (fcl_warned r) (fcl_logoutSent r) (fcl_lastSeen r).

Record nodeFaultState := mkFault {
  closed : bool; databaseFailed : bool; clients : gmap string faultClient; drains : gset string;
  localFailed : bool }.
#[export] Instance eta_fault : Eta nodeFaultState := λ r,
  mkFault (closed r) (databaseFailed r) (clients r) (drains r) (localFailed r).

(** What the server asks of its control channel to the controller. *)
Record EdgeLink := mkLink { Connected : bool; SyncReady : bool; ControllerFault : bool }.

Record Server (E : Type) := mkServer {
  srv_cfg : Config; core : Manager; dpi : Service E; fault : nodeFaultState;
  edgeState : option Store; edgeClient : option EdgeLink;
  controllerControl : option ControllerServer }.
Arguments mkServer {_}. Arguments srv_cfg {_}. Arguments core {_}. Arguments dpi {_}.
Arguments fault {_}. Arguments edgeState {_}. Arguments edgeClient {_}. Arguments controllerControl {_}.
#[export] Instance eta_server E : Eta (Server E) := λ r,
  mkServer (srv_cfg r) (core r) (dpi r) (fault r) (edgeState r) (edgeClient r) (controllerControl r).

Definition clientHeartbeatInterval : Z := 10 * Second.
Definition clientHeartbeatTimeout : Z := 60 * Second.

Definition faultClientKey (hash id : string) : string := hash +:+ String ":" (TrimSpace id).
Definition faultDrainKey (tokenID : Z) (id : string) : string := fmt_d tokenID +:+ String ":" (TrimSpace id).

Section fault.
Context {E : Type} `{Engine E}.
(** SHA-256 in hexadecimal. *)
Context (TokenHash : string → string).
Implicit Types s : Server E.

Definition set_fault s (f : nodeFaultState → nodeFaultState) : Server E := s <| fault := f (fault s) |>.

(** [FinishClientDrain] and the removal from the drain set, as both branches of
    [rememberClient] do. *)
Definition finish_drain s (tokenID : Z) (clientID : string) : Server E :=
  s <| core := FinishClientDrain (core s) tokenID clientID |>
    <| fault := (fault s) <| drains := drains (fault s) ∖ {[faultDrainKey tokenID clientID]} |> |>.

(** [client] is not nil: both callers pass the client they have found. *)
Definition rememberClient s (now : time) (plain : string) (client : Client) (login : bool) : Server E :=
  let hash := TokenHash plain in
  let key := faultClientKey hash (c_ClientID client) in
  match clients (fault s) !! key with
  | Some c =>
      let ends := login && fcl_draining c && negb (closed (fault s)) &&
                  bool_decide (ClientProxyCount (core s) (fcl_tokenID c) (fcl_clientID c) = 0) in
      let s := if ends then finish_drain s (fcl_tokenID c) (fcl_clientID c) else s in
      let c := if ends then c <| fcl_draining := false |> <| fcl_warned := false |> <| fcl_logoutSent := false |>
               else c in
      set_fault s (λ f, f <| clients := <[key := c <| fcl_lastSeen := now |>]> (clients f) |>)
  | None =>
      let s := if login && negb (closed (fault s)) &&
                  bool_decide (ClientProxyCount (core s) (c_TokenID client) (c_ClientID client) = 0)
               then finish_drain s (c_TokenID client) (c_ClientID client) else s in
      let c := mkFaultClient (c_ID client) hash (c_TokenID client) (c_ClientID client) false false false now in
      set_fault s (λ f, f <| clients := <[key := c]> (clients f) |>)
  end.

Definition edgeOnlineForNewSessions s : bool :=
  negb (closed (fault s) || localFailed (fault s)) && bool_decide (is_Some (edgeState s)) &&
  match edgeClient s with
  | Some link => Connected link && SyncReady link && negb (ControllerFault link)
  | None => false
  end.

Definition nodeUnavailable s : bool :=
  if bool_decide (cfg_Mode (srv_cfg s) = ModeEdge) then negb (edgeOnlineForNewSessions s)
  else closed (fault s).

Definition nodeUnavailableEdge s : bool :=
  bool_decide (cfg_Mode (srv_cfg s) = ModeEdge) &&
  match edgeClient s with
  | None => true
  | Some link => negb (Connected link) || ControllerFault link ||
                 from_option identityResetPending false (edgeState s)
  end.

Definition clientIsDraining s (tokenID : Z) (clientID : string) : bool :=
  bool_decide (faultDrainKey tokenID clientID ∈ drains (fault s)) || ClientDraining (core s) tokenID clientID.

(** Every remembered client drains. *)
Definition drain_all (f : nodeFaultState) : nodeFaultState :=
  f <| clients := (λ c, c <| fcl_draining := true |>) <$> clients f |>
    <| drains := drains f ∪
         list_to_set ((λ kc : string * faultClient, faultDrainKey (fcl_tokenID kc.2) (fcl_clientID kc.2)) <$>
                      map_to_list (clients f)) |>.

Definition transitionNodeFault s (close : bool) : Server E :=
  if negb close && bool_decide (is_Some (edgeState s)) && localFailed (fault s) then s else
  let s := s <| core := SetAdmissionClosed (core s) close |>
             <| dpi := SetProviderUnavailable (dpi s) close (bool_decide (edgeState s = None)) |> in
  set_fault s (λ f, let f := f <| closed := close |> in if close then drain_all f else f).

Definition pauseDatabaseAdmission s : Server E :=
  s <| core := PauseAdmission (core s) |>
    <| dpi := SetProviderUnavailable (dpi s) true true |>
    <| fault := (fault s) <| closed := true |> |>.

Definition on_control s (f : ControllerServer → ControllerServer) : Server E :=
  s <| controllerControl := f <$> controllerControl s |>.

Definition databaseRejection s : Server E := on_control (pauseDatabaseAdmission s) (λ c, SetDatabaseSuspect c true).

(** One probe of the controller's database; [failed] is [err != nil].  The
    second component is [failedSince].  [clock now] is the time that
    [SetDatabaseFault] reads after the probe of [now]. *)
Definition observeControllerDatabaseHealth (clock : time → time) s (now : time) (failed : bool) (failedSince : time) :
    Server E * time :=
  if failed then
    let '(s, failedSince) :=
      if IsZero failedSince then (on_control (pauseDatabaseAdmission s) (λ c, SetDatabaseSuspect c true), now)
      else (s, failedSince) in
    if bool_decide (10 * Second ≤ Sub now failedSince) then
      let already := databaseFailed (fault s) in
      let s := set_fault s (λ f, f <| databaseFailed := true |>) in
      if already then (s, failedSince)
      else (transitionNodeFault (on_control s (λ c, SetDatabaseFault c (clock now) true)) true, failedSince)
    else (s, failedSince)
  else
    let recovering := closed (fault s) in
    let s := set_fault s (λ f, f <| databaseFailed := false |>) in
    let recovering := from_option cs_databaseSuspect false (controllerControl s) || recovering in
    let s := if recovering then transitionNodeFault (on_control s (λ c, SetDatabaseFault c (clock now) false)) false else s in
    (s, zero_time).

(** One round of the edge's health loop: [probe] is the outcome of
    [CheckHealth], when it is due and there is a store to check. *)
Definition edge_health_step s (probe : option bool) : Server E :=
  let s := match probe, edgeState s with
           | Some failed, Some _ => set_fault s (λ f, f <| localFailed := failed |>)
           | _, _ => s
           end in
  let close := match edgeClient s, edgeState s with
               | Some link, Some st => negb (Connected link) || ControllerFault link || identityResetPending st
               | _, _ => true
               end in
  let old := closed (fault s) in
  let close := close || localFailed (fault s) in
  if bool_decide (old ≠ close) then transitionNodeFault s close else s.

(** The idle sessions dropped at the end of each round of the controller. *)
Definition prune_idle s (now : time) : Server E :=
  set_fault s (λ f, f <| clients := filter (λ kc : string * faultClient,
    bool_decide (2 * clientHeartbeatTimeout < Sub now (fcl_lastSeen kc.2)) &&
    bool_decide (ClientProxyCount (core s) (fcl_tokenID kc.2) (fcl_clientID kc.2) = 0) = false) (clients f) |>).

Definition rememberRuntime s (lease : RuntimeLease) : Server E :=
  s <| core := RememberRuntimeLease (core s) lease |>
    <| dpi := PrimeLease (dpi s) (mkFlow (l_UserID lease) (l_TokenID lease) (l_ClientID lease) (l_LeaseID lease)
                                    "" "" 0 "" "" "" ∅) |>.

Definition meta (metas : gmap string string) (k : string) : string := default ""%string (metas !! k).

Definition allowFaultRuntime s (metas : gmap string string) : bool :=
  let '(lease, ok) := ExistingRuntime (core s) (meta metas "lease_id") (TokenHash (meta metas "token")) in
  ok && (closed (fault s) || nodeUnavailableEdge s || clientIsDraining s (l_TokenID lease) (l_ClientID lease)).

(** What a heartbeat is answered during a fault; [NotHandled] leaves it to the
    normal handler. *)
Inductive fault_answer :=
  | NotHandled
  | NodeFaultResponse                                  (** status 503 *)
  | NodeRecovering                                     (** ok, nothing to do *)
  | NodeFaultOK (commands : list (Z * string)) (active_proxies : Z).

(** The heartbeat's access token, client id and frpc flag.  On a controller the
    presence row is in the central database and is not part of this state. *)
Definition faultHeartbeat s (now : time) (accessToken clientID : string) (frpcRunning : bool) :
    Server E * fault_answer :=
  let key := faultClientKey (TokenHash accessToken) clientID in
  match clients (fault s) !! key with
  | None => (s, if nodeUnavailable s then NodeFaultResponse else NotHandled)
  | Some c =>
      let begins := (closed (fault s) && (bool_decide (is_Some (edgeState s)) || databaseFailed (fault s))) ||
                    nodeUnavailableEdge s in
      let c := if begins then c <| fcl_draining := true |> else c in
      let s := set_fault s (λ f, f <| clients := <[key := c]> (clients f) |>
                 <| drains := if begins then drains f ∪ {[faultDrainKey (fcl_tokenID c) (fcl_clientID c)]}
                              else drains f |>) in
      let save s c := set_fault s (λ f, f <| clients := <[key := c]> (clients f) |>) in
      if negb (fcl_draining c) then
        if closed (fault s) && bool_decide (edgeState s = None)
        then (save s (c <| fcl_lastSeen := now |>), NodeRecovering)
        else (s, NotHandled)
      else
        let c := c <| fcl_lastSeen := now |> in
        let count := ClientProxyCount (core s) (fcl_tokenID c) (fcl_clientID c) in
        let '(c, commands) :=
          if bool_decide (count = 0) && EmbeddedFRPEnabled (srv_cfg s)
          then (c <| fcl_logoutSent := true |>, [(-2, "reauth"%string)])
          else if negb (fcl_warned c) then (c <| fcl_warned := true |>, [(-1, "show_warning"%string)])
          else (c, []) in
        let s := save s c in
        let s := if localFailed (fault s) then s
                 else s <| edgeState := (λ st, TouchClient st now (fcl_rowID c)
                                          (bool_decide (0 < count) || frpcRunning)) <$> edgeState s |> in
        (s, NodeFaultOK commands count)
  end.

(** ** Outages of the controller's database *)

Section outages.
Context (clock : time → time).

(** A server in normal operation: nothing closed, suspected or failed. *)
Definition healthy s : Prop :=
  closed (fault s) = false ∧ databaseFailed (fault s) = false ∧ admissionClosed (core s) = false ∧
  providerUnavailable (dpi s) = false ∧ eventsPaused (dpi s) = false ∧ edgeState s = None ∧
  (∀ c, controllerControl s = Some c → cs_databaseSuspect c = false ∧ cs_databaseFault c = false).

Fixpoint failing_probes s (failedSince : time) (ts : list time) : Server E * time :=
  match ts with
  | [] => (s, failedSince)
  | t :: ts => let '(s, since) := observeControllerDatabaseHealth clock s t true failedSince in failing_probes s since ts
  end.

(** The server after the first failed probe. *)
Definition suspected s : Server E := databaseRejection s.

Lemma failing_brief s t0 ts :
  IsZero t0 = false → databaseFailed (fault s) = false → Forall (λ t, Sub t t0 < 10 * Second) ts →
  failing_probes s t0 ts = (s, t0).
Proof.
  intros Hz Hf. induction ts as [|t ts IH]; intros Hall; [done|]. apply Forall_cons in Hall as [Ht Hall].
  cbn [failing_probes]. unfold observeControllerDatabaseHealth. rewrite Hz, bool_decide_false by lia.
  by apply IH.
Qed.

Lemma Sub_self t : Sub t t < 10 * Second.
Proof. unfold Sub. rewrite Z.sub_diag. vm_compute. reflexivity. Qed.

Lemma first_failure s t0 ts :
  IsZero t0 = false →
  failing_probes s zero_time (t0 :: ts) = failing_probes (suspected s) t0 ts.
Proof.
  intros Hz. cbn [failing_probes]. unfold observeControllerDatabaseHealth.
  change (IsZero zero_time) with true. cbn iota beta.
  rewrite bool_decide_false; [done|]. pose proof (Sub_self t0). lia.
Qed.

(** A session of an edge after a brief outage: the time of its transfer starts
    again, only a cache that was not ready is to be rebuilt, and the edge is told
    that the controller works, or cut off when its queue is full. *)
Definition resumed_session (interval : Z) (at_ : time) (ss : nodeSession) : nodeSession :=
  let ss := ss <| ns_syncStarted := at_ |> <| ns_needsFull := ns_needsFull ss || negb (ns_cacheReady ss) |> in
  if bool_decide (length (ns_send ss) < sendCapacity)%nat
  then ss <| ns_send := ns_send ss ++ [(message "controller_state" (ns_nodeID ss)) <| m_Payload := PAck (mkAck false 0 interval "") |>] |>
  else ss <| ns_cancelled := true |>.
(** The cluster server after a brief outage: the flags are as before, the worker is
    woken, and only the registered sessions have changed. *)
Record resumed (at_ : time) (c c' : ControllerServer) : Prop := mkResumed {
  rs_flags : cs_databaseSuspect c' = false ∧ cs_databaseFault c' = false ∧ cs_wake c' = true;
  rs_tables : cs_forgottenNodes c' = cs_forgottenNodes c ∧ cs_nodeCatalog c' = cs_nodeCatalog c ∧
    cs_sessions c' = cs_sessions c ∧ cs_commandWaiters c' = cs_commandWaiters c ∧
    cs_heartbeatInterval c' = cs_heartbeatInterval c;
  rs_conns : ∀ k, cs_conns c' !! k =
    (λ ss, if registered c k ss then resumed_session (cs_heartbeatInterval c) at_ ss else ss) <$> cs_conns c !! k }.

Lemma fault_cleared at_ c :
  cs_databaseFault c = false → resumed at_ c (SetDatabaseFault (SetDatabaseSuspect c true) at_ false).
Proof.
  intros Hf. constructor; [done..|]. intros k. cbn. rewrite map_lookup_imap. destruct (cs_conns c !! k) as [ss|]; [|done].
  cbn. f_equal. change (registered _ k ss) with (registered c k ss). destruct (registered c k ss); [|done].
  unfold fault_session, resumed_session, try_send. rewrite Hf. cbn [negb andb orb].
  destruct ss as [? ? ? ? ? ? ? ? ? ready full]. cbn. destruct ready; cbn; rewrite ?orb_true_r, ?orb_false_r; by case_bool_decide.
Qed.

(** C25: a brief outage of the database is survived: if every probe from the first
    failure on fails within ten seconds of it and the next one succeeds, then
    admission was closed meanwhile and the pushes suspended, but no client was put
    into drain, and after the recovery the server is exactly as before the outage,
    its cluster server aside; of that only the registered sessions have changed: an
    edge whose cache is ready keeps it, and every edge is told that the controller
    works, or is cut off when its queue is full. *)
Theorem brief_outage_resumes s t0 ts now :
  healthy s → IsZero t0 = false → Forall (λ t, Sub t t0 < 10 * Second) ts →
  let '(s1, since) := failing_probes s zero_time (t0 :: ts) in
  let '(s2, since2) := observeControllerDatabaseHealth clock s1 now false since in
  (admissionClosed (core s1) = true ∧ drains (fault s1) = drains (fault s) ∧
   ∀ c, controllerControl s = Some c → from_option cs_databaseSuspect false (controllerControl s1) = true) ∧
  since2 = zero_time ∧ s2 <| controllerControl := controllerControl s |> = s ∧
  match controllerControl s, controllerControl s2 with
  | Some c, Some c' => resumed (clock now) c c'
  | None, None => True
  | _, _ => False
  end.
Proof.
  intros (Hc & Hd & Ha & Hp & He & Hst & Hctl) Hz Hall. rewrite first_failure, failing_brief by done.
  destruct s as [cfg [] [] [] st link ctl]. cbn in *. subst.
  destruct ctl as [c|]; cbn; [destruct (Hctl c eq_refl)|]; (split_and!; [done|done|by intros|done|done|]); [by apply fault_cleared|done].
Qed.

Lemma failing_declared s t0 ts :
  IsZero t0 = false → databaseFailed (fault s) = true → failing_probes s t0 ts = (s, t0).
Proof.
  intros Hz Hf. induction ts as [|t ts IH]; [done|].
  cbn [failing_probes]. unfold observeControllerDatabaseHealth. rewrite Hz.
  replace (set_fault s (λ f, f <| databaseFailed := true |>)) with s
    by (destruct s as [? ? ? [] ? ? ?]; cbn in *; by subst).
  rewrite Hf. by case_bool_decide.
Qed.

Lemma failing_app s since ts ts' :
  failing_probes s since (ts ++ ts') =
  let '(s1, since1) := failing_probes s since ts in failing_probes s1 since1 ts'.
Proof.
  revert s since. induction ts as [|t ts IH]; intros s since; [done|]. cbn [failing_probes app].
  destruct (observeControllerDatabaseHealth clock s t true since). apply IH.
Qed.

Lemma drain_all_draining f key c :
  clients f !! key = Some c → faultDrainKey (fcl_tokenID c) (fcl_clientID c) ∈ drains (drain_all f).
Proof.
  intros Hc. cbn. apply elem_of_union_r, elem_of_list_to_set, list_elem_of_fmap.
  exists (key, c). split; [done|]. by apply elem_of_map_to_list.
Qed.

(** C26: an outage of the database is declared a fault at the first probe that
    fails ten seconds or more after the first failure, and not before; then
    every remembered client drains, during the outage and after the recovery. *)
Theorem sustained_outage_drains s t0 ts t ts' now :
  healthy s → IsZero t0 = false → Forall (λ t, Sub t t0 < 10 * Second) ts → 10 * Second ≤ Sub t t0 →
  databaseFailed (fault (failing_probes s zero_time (t0 :: ts)).1) = false ∧
  let '(s1, since) := failing_probes s zero_time (t0 :: ts ++ t :: ts') in
  databaseFailed (fault s1) = true ∧
  ∀ key c, clients (fault s) !! key = Some c →
    clientIsDraining s1 (fcl_tokenID c) (fcl_clientID c) = true ∧
    clientIsDraining (observeControllerDatabaseHealth clock s1 now false since).1 (fcl_tokenID c) (fcl_clientID c) = true.
Proof.
  intros (Hc & Hd & Ha & Hp & He & Hst & Hctl) Hz Hall Ht. rewrite !first_failure by done.
  rewrite failing_app, (failing_brief (suspected s) t0 ts) by done. split; [done|].
  cbn [failing_probes]. unfold observeControllerDatabaseHealth at 1. rewrite Hz, bool_decide_true by done.
  change (databaseFailed (fault (suspected s))) with (databaseFailed (fault s)). rewrite Hd.
  set (s1 := transitionNodeFault _ true).
  assert (Hs1 : fault s1 = drain_all ((fault s) <| closed := true |> <| databaseFailed := true |> <| closed := true |>))
    by (unfold s1; reflexivity).
  assert (Hst1 : edgeState s1 = None) by (unfold s1; exact Hst).
  rewrite failing_declared; [|done|by rewrite Hs1]. split; [by rewrite Hs1|].
  intros key c Hkey. unfold clientIsDraining.
  assert (Hin : faultDrainKey (fcl_tokenID c) (fcl_clientID c) ∈ drains (fault s1)).
  { rewrite Hs1. by apply (drain_all_draining _ key). }
  split; [by rewrite bool_decide_true|].
  unfold observeControllerDatabaseHealth. cbn iota beta.
  assert (Hdr : ∀ s2, edgeState s2 = None → drains (fault (transitionNodeFault s2 false)) = drains (fault s2)).
  { intros s2 H2. unfold transitionNodeFault. rewrite H2, (bool_decide_false (is_Some None)) by apply is_Some_None.
    done. }
  case_match; cbn [fst].
  - rewrite Hdr by done. by rewrite bool_decide_true.
  - by rewrite bool_decide_true.
Qed.
End outages.

(** ** The end of a drain *)

(** The fault state's key of a client, as [rememberClient] looks it up. *)
Definition session_key (plain : string) (client : Client) : string :=
  faultClientKey (TokenHash plain) (c_ClientID client).

Lemma finish_drain_ends s tokenID clientID :
  ClientProxyCount (core s) tokenID clientID = 0 →
  clientIsDraining (finish_drain s tokenID clientID) tokenID clientID = false.
Proof.
  intros Hc. unfold clientIsDraining, finish_drain, ClientDraining, FinishClientDrain. cbn.
  unfold ClientProxyCount in Hc. rewrite Hc. cbn. rewrite !bool_decide_false; [done|set_solver..].
Qed.

Lemma login_drain_end s now plain client :
  closed (fault s) = false → ClientProxyCount (core s) (c_TokenID client) (c_ClientID client) = 0 →
  (∀ c, clients (fault s) !! session_key plain client = Some c →
     fcl_draining c = true ∧ fcl_tokenID c = c_TokenID client ∧ fcl_clientID c = c_ClientID client) →
  clientIsDraining (rememberClient s now plain client true) (c_TokenID client) (c_ClientID client) = false.
Proof.
  intros Hcl Hcount Hsess. unfold rememberClient. fold (session_key plain client).
  assert (Hset : ∀ s' g, drains (g (fault s')) = drains (fault s') →
    clientIsDraining (set_fault s' g) (c_TokenID client) (c_ClientID client) =
    clientIsDraining s' (c_TokenID client) (c_ClientID client)).
  { intros s' g Hg. unfold clientIsDraining. cbn. by rewrite Hg. }
  destruct (clients (fault s) !! session_key plain client) as [c|] eqn:Hc.
  - destruct (Hsess c eq_refl) as (Hd & Ht & Hi). rewrite Hd, Hcl, Ht, Hi, Hcount. cbn [negb andb].
    rewrite bool_decide_true by done. rewrite Hset by done. by apply finish_drain_ends.
  - rewrite Hcl, Hcount. cbn [negb andb]. rewrite bool_decide_true by done.
    rewrite Hset by done. by apply finish_drain_ends.
Qed.

(** a new login ends a drain: when admission is open and the client has no
    proxy left, and the session is new or marked as draining, a login leaves the
    client out of drain; it can bootstrap again. *)
Theorem login_ends_drain s now plain client :
  closed (fault s) = false → ClientProxyCount (core s) (c_TokenID client) (c_ClientID client) = 0 →
  (∀ c, clients (fault s) !! session_key plain client = Some c →
     fcl_draining c = true ∧ fcl_tokenID c = c_TokenID client ∧ fcl_clientID c = c_ClientID client) →
  clientIsDraining (rememberClient s now plain client true) (c_TokenID client) (c_ClientID client) = false.
Proof. apply login_drain_end. Qed.

(** C40: a drain can outlive its session: the controller forgets the session of a
    draining client after two minutes of silence but keeps the drain. If the
    client then comes back with a heartbeat before it logs in, the new session is
    not marked as draining and the login does not end the drain: the client is
    still refused a bootstrap although it has no proxy and the node is open. Had
    it logged in first, the drain would have ended. *)
Theorem drain_outlives_session s plain client c t1 t2 t3 :
  closed (fault s) = false → ClientProxyCount (core s) (c_TokenID client) (c_ClientID client) = 0 →
  clients (fault s) !! session_key plain client = Some c →
  fcl_tokenID c = c_TokenID client → fcl_clientID c = c_ClientID client →
  2 * clientHeartbeatTimeout < Sub t1 (fcl_lastSeen c) →
  clientIsDraining s (c_TokenID client) (c_ClientID client) = true →
  let s1 := prune_idle s t1 in
  let s2 := rememberClient s1 t2 plain client false in
  clientIsDraining (rememberClient s2 t3 plain client true) (c_TokenID client) (c_ClientID client) = true ∧
  clientIsDraining (rememberClient s1 t3 plain client true) (c_TokenID client) (c_ClientID client) = false.
Proof.
  intros Hcl Hcount Hc Ht Hi Hidle Hd. cbn zeta.
  assert (Hnone : clients (fault (prune_idle s t1)) !! session_key plain client = None).
  { cbn. apply map_lookup_filter_None. right. intros c' Hc'. rewrite Hc in Hc'. injection Hc' as <-. cbn.
    rewrite Ht, Hi, Hcount, !bool_decide_true by done. done. }
  split.
  - unfold rememberClient at 2. fold (session_key plain client). rewrite Hnone. cbn [andb].
    unfold rememberClient. fold (session_key plain client). cbn [set_fault fault clients].
    cbn -[session_key prune_idle]. rewrite lookup_insert_eq. exact Hd.
  - apply login_drain_end; [done|done|]. intros c' Hc'. by rewrite Hnone in Hc'.
Qed.
End fault.

(** ** Witnesses *)

Definition demo_hash (token : string) : string := token.
Definition demo_client : Client := mkClient 5 1 7 "c" "active" "" "" false None.
Definition demo_session (draining : bool) : faultClient := mkFaultClient 5 "tok" 7 "c" draining false false 1000.
(** One edge is connected, with a ready cache. *)
Definition demo_control : ControllerServer :=
  NewControllerServer <| cs_sessions := {["edge-1"%string := 0%nat]} |>
    <| cs_conns := {[0%nat := (new_session "edge-1" 100) <| ns_cacheReady := true |> <| ns_admissionProtocol := 1 |>]} |>.
Definition demo_server (draining : bool) : Server NoopEngine :=
  mkServer (defaults ∅) (NewManager 0) (NewService mkNoop None false)
    (mkFault false false {["tok:c"%string := demo_session draining]}
       (if draining then {["7:c"%string]} else ∅) false)
    None None (Some demo_control).

Lemma demo_healthy : healthy (demo_server false).
Proof. unfold healthy. split_and!; try done. by intros c [= <-]. Qed.

Definition demo_recovered : Server NoopEngine :=
  let '(s, since) := failing_probes (λ t, t) (demo_server false) zero_time [5000; 6000] in
  (observeControllerDatabaseHealth (λ t, t) s 7000 false since).1.
(** The edge keeps its cache and has one notice in its queue. *)
Lemma brief_outage_resumes_witness :
  demo_recovered <| controllerControl := Some demo_control |> = demo_server false ∧
  ((λ c, (λ ss, (ns_needsFull ss, length (ns_send ss))) <$> cs_conns c !! 0%nat) <$> controllerControl demo_recovered) =
    Some (Some (false, 1%nat)).
Proof.
  assert (Hz : IsZero 5000 = false) by (vm_compute; reflexivity).
  assert (Hall : Forall (λ t, Sub t 5000 < 10 * Second) [6000]).
  { constructor; [vm_compute; reflexivity|constructor]. }
  pose proof (brief_outage_resumes (λ t, t) (demo_server false) 5000 [6000] 7000 demo_healthy Hz Hall) as H.
  split; [exact (proj1 (proj2 (proj2 H)))|vm_compute; reflexivity].
Defined.

Lemma sustained_outage_drains_witness :
  databaseFailed (fault (failing_probes (λ t, t) (demo_server false) zero_time [5000; 6000]).1) = false.
Proof.
  assert (Hz : IsZero 5000 = false) by (vm_compute; reflexivity).
  assert (Hall : Forall (λ t, Sub t 5000 < 10 * Second) [6000]).
  { constructor; [vm_compute; reflexivity|constructor]. }
  refine (proj1 (sustained_outage_drains (λ t, t) (demo_server false) 5000 [6000] 10000005000 [] 10000006000
    demo_healthy Hz Hall _)). vm_compute. discriminate.
Defined.

Lemma login_ends_drain_witness :
  clientIsDraining (demo_server true) 7 "c" = true ∧
  clientIsDraining (rememberClient demo_hash (demo_server true) 2000 "tok" demo_client true) 7 "c" = false.
Proof.
  split; [vm_compute; reflexivity|].
  refine (login_ends_drain demo_hash (demo_server true) 2000 "tok" demo_client _ _ _);
    [vm_compute; reflexivity..|].
  intros c Hc. vm_compute in Hc. injection Hc as <-. vm_compute. repeat split.
Defined.

Lemma drain_outlives_session_witness :
  let s1 := prune_idle (demo_server true) 120000002000 in
  let s2 := rememberClient demo_hash s1 120000003000 "tok" demo_client false in
  clientIsDraining (rememberClient demo_hash s2 120000004000 "tok" demo_client true) 7 "c" = true.
Proof.
  refine (proj1 (drain_outlives_session demo_hash (demo_server true) "tok" demo_client (demo_session true)
    120000002000 120000003000 120000004000 _ _ _ _ _ _ _)); vm_compute; reflexivity.
Defined.
