(* ===== verification/EdgeServer.v ===== *)
(** * Client and FRP handlers of an edge

    [handlers_edge_client.go] and the edge branch of [handlers_lease_release.go]:
    credentials, resource policy, bootstrap, heartbeat, command acknowledgement,
    logout, lease release and the FRP plugin callbacks,
    over the server state of [NodeFault] and the store of [EdgeStore].  A request is its decoded body; the random tokens a handler
    draws, and the clock, are arguments.  One clock reading is used per request.
    Bootstrap and release hold [bootstrapMu], so each is one step. *)
From Stdlib Require Import ZArith Lia Ascii String.
From stdpp Require Import gmap strings list fin_maps.
From S2P Require Import Prelude GoStrings Types Config DpiEngine DpiService FrpManager NodePorts EdgeStore NodeFault.
Local Open Scope Z_scope.

(** A JSON rejection: its status and reason.  A handler that has passed
    [edgeCredential] has a store; the other branch is not taken. *)
Record reject := mkReject { rj_status : string; rj_reason : string }.

Inductive response :=
  | RDisconnected                                   (** [edgeDisconnected], 503 *)
  | RFault (answer : fault_answer)                  (** answered by the fault handler *)
  | RReject (r : reject)
  | RError (code : Z) (msg : string)
  | RBootstrap (leaseID : string) (expires : time) (allocations : list ProxyAllocationInput)
  | RPolicy (policy : UserResourcePolicy) (dpi_policy : Policy)
  | RHeartbeat (commands : list (Z * string))
  | RAcknowledged (commandID : Z)
  | RLoggedOut (terminated deleted : Z)
  | RReleased (released : bool).

(** What the FRP server is answered: [None] allows. *)
Definition frp_answer := option string.

Section edge.
Context {E : Type} `{Engine E}.
Context (TokenHash : string → string) (julianday : time → Z).
(** The text of an error, which for a table's constraint is the driver's. *)
Context (error_text : store_error → string).
Implicit Types s : Server E.

Definition edgeCredential s (now : time) (path plain clientID : string) (create : bool) :
    Server E * (reject + AccessToken * User * Client) :=
  match edgeState s with
  | None => (s, inl (mkReject "error" "edge state is unavailable"))
  | Some st =>
      let '(st, answer) := Credential st (TokenHash plain) (TrimSpace clientID) create in
      let s := s <| edgeState := Some st |> in
      match answer with
      | inl ErrNoRows | inl ErrNotFound => (s, inl (mkReject "unauthorized" "invalid access token"))
      | inl _ => (transitionNodeFault s true,
                  inl (mkReject "database_unavailable" "节点异常：本地 data 数据库暂时不可用"))
      | inr (t, u, c) =>
          match ValidateCredential now t u c with
          | Some err => (s, inl (mkReject "rejected" err))
          | None =>
              if clientIsDraining s (c_TokenID c) (c_ClientID c) && HasSuffix path "/bootstrap"
              then (s, inl (mkReject "node_fault" "节点异常：请关闭全部穿透端口后重新登录"))
              else (rememberClient TokenHash s now plain c (HasSuffix path "/resource-policy"), inr (t, u, c))
          end
      end
  end.

(** [rt] is the runtime token's hash and [lid] the lease id drawn by
    [NewOpaqueToken], or the error of the random source. *)
Definition edgeClientBootstrap s (now : time) (accessToken clientID : string)
    (proxies : list ProxyAllocationInput) (rt lid : string + string) : Server E * response :=
  if negb (edgeOnlineForNewSessions s) then (s, RDisconnected) else
  let '(s, cred) := edgeCredential s now "/api/v1/client/bootstrap" accessToken clientID false in
  match cred, edgeState s with
  | inl r, _ => (s, RReject r)
  | inr _, None => (s, RDisconnected)
  | inr (t, u, c), Some st =>
      if negb (ClientFresh st now (c_ID c) (clientHeartbeatTimeout / Second))
      then (s, RReject (mkReject "heartbeat_timeout" "client heartbeat timeout, please reconnect")) else
      match validateEdgeProxies (srv_cfg s) (ResourcePolicy st (u_ID u)) t (inr (Grants st (t_ID t)))
              (λ kind port, inr (RemotePortInUseExceptClient julianday st now kind port (t_ID t) clientID)) proxies with
      | inl err => (s, RReject (mkReject "rejected" err))
      | inr allocations =>
          match rt, lid with
          | inl err, _ | inr _, inl err => (s, RError 500 err)
          | inr runtimeHash, inr leaseID =>
              let expires := now + RuntimeTokenTTL (srv_cfg s) in
              let lease := mkLease 0 leaseID (u_ID u) (t_ID t) clientID runtimeHash "active" expires in
              match CreateLease st lease allocations with
              | inl err => (s, RError 500 (error_text err))
              | inr st => (s <| edgeState := Some st |>, RBootstrap leaseID expires allocations)
              end
          end
      end
  end.

Definition edgeClientResourcePolicy s (now : time) (accessToken clientID : string) : Server E * response :=
  if negb (edgeOnlineForNewSessions s) then (s, RDisconnected) else
  let '(s, cred) := edgeCredential s now "/api/v1/client/resource-policy" accessToken clientID true in
  match cred, edgeState s with
  | inl r, _ => (s, RReject r)
  | inr _, None => (s, RDisconnected)
  | inr (_, u, c), Some st =>
      let unconfigured := RReject (mkReject "rejected" policy_error_edge) in
      match ResourcePolicy st (u_ID u) with
      | None => (s, unconfigured)
      | Some p =>
          if negb (rp_Enabled p) then (s, unconfigured) else
          let st := TouchClientSeen st now (c_ID c) in
          let s := s <| edgeState := Some st |> in
          match intersectNodePortRange (Some p) (srv_cfg s) with
          | (Some p, true) =>
              match GetPolicy st (mkFlow (u_ID u) 0 "" "" "" "" 0 "" "" "" ∅) with
              | inl _ => (s, RError 500 "read cached DPI policy failed")
              | inr d => (s, RPolicy p d)
              end
          | _ => (s, RReject (mkReject "rejected" "node and user port ranges do not overlap"))
          end
      end
  end.

Definition edgeClientHeartbeat s (now : time) (accessToken clientID : string) (frpcRunning : bool) :
    Server E * response :=
  let '(s, answer) := faultHeartbeat TokenHash s now accessToken clientID frpcRunning in
  match answer with
  | NotHandled =>
      if negb (edgeOnlineForNewSessions s) then (s, RFault NodeFaultResponse) else
      let '(s, cred) := edgeCredential s now "/api/v1/client/heartbeat" accessToken clientID true in
      match cred, edgeState s with
      | inl r, st => (s, if from_option identityResetPending false st then RDisconnected else RReject r)
      | inr _, None => (s, RDisconnected)
      | inr (_, _, c), Some st =>
          let '(st, queued) := PopClientCommands (TouchClient st now (c_ID c) frpcRunning) (c_ID c) in
          let commands := (λ r, (cr_ID r, cr_Command r)) <$> queued in
          let s := s <| edgeState := Some st |> in
          if edgeOnlineForNewSessions s then (s, RHeartbeat commands) else
          if negb frpcRunning then (s, RDisconnected) else
          let '(st, show) := DisconnectWarning st (c_ID c) in
          (s <| edgeState := Some st |>,
           RHeartbeat (commands ++ (if show then [(-1, "show_warning"%string)] else [])))
      end
  | _ => (s, RFault answer)
  end.

Definition edgeClientCommandACK s (now : time) (commandID : Z) (accessToken clientID : string) :
    Server E * response :=
  if bool_decide (commandID ≤ 0) then (s, RError 400 "invalid command id") else
  let '(s, cred) := edgeCredential s now ("/api/v1/client/commands/" +:+ fmt_d commandID +:+ "/ack") accessToken clientID false in
  match cred, edgeState s with
  | inl r, _ => (s, RReject r)
  | inr _, None => (s, RDisconnected)
  | inr (_, _, c), Some st =>
      let '(st, err) := AcknowledgeClientCommand st commandID (c_ID c) in
      let s := s <| edgeState := Some st |> in
      match err with
      | Some ErrNotFound => (s, RError 404 "command not found")
      | Some e => (s, RError 500 (error_text e))
      | None => (s, RAcknowledged commandID)
      end
  end.

Definition edgeClientLogout s (now : time) (accessToken clientID : string) : Server E * response :=
  let '(s, cred) := edgeCredential s now "/api/v1/client/logout" accessToken clientID false in
  match cred, edgeState s with
  | inl r, _ => (s, RReject r)
  | inr _, None => (s, RDisconnected)
  | inr (t, _, c), Some st =>
      let st := RevokeClient st (t_ID t) clientID in
      let '(st, deleted) := DeleteUnacknowledgedClientCommands st (c_ID c) in
      let st := ClearClient st (c_ID c) in
      let '(m, terminated, _) := TerminateConnectionsForClient (core s) (t_ID t) clientID in
      (s <| edgeState := Some st |> <| core := m |>, RLoggedOut terminated deleted)
  end.

Definition releaseClientLease s (now : time) (accessToken clientID leaseID : string) : Server E * response :=
  let clientID := TrimSpace clientID in
  if bool_decide (accessToken = ""%string) || bool_decide (clientID = ""%string) || bool_decide (leaseID = ""%string)
  then (s, RError 400 "access_token, client_id and lease_id are required") else
  let '(s, cred) := edgeCredential s now "/api/v1/client/release-lease" accessToken clientID false in
  match cred, edgeState s with
  | inl r, _ => (s, RReject r)
  | inr _, None => (s, RDisconnected)
  | inr (t, _, _), Some st =>
      let '(st, released) := ReleaseRuntimeLease st leaseID (t_ID t) clientID in
      let s := s <| edgeState := Some st |> in
      let s := if released then s <| core := (TerminateConnectionsForLease (core s) leaseID).1.1 |> else s in
      (s, RReleased released)
  end.

(** The lease behind the metadata of an FRP callback, or why it is refused. *)
Definition edgeRuntime (st : Store) (now : time) (metas : gmap string string) : string + RuntimeLease :=
  let token := meta metas "token" in
  let leaseID := meta metas "lease_id" in
  if bool_decide (token = ""%string) || bool_decide (leaseID = ""%string)
  then inl "missing runtime token or lease_id"%string else
  match RuntimeLeaseByHash st (TokenHash token) with
  | None => inl "invalid runtime token"%string
  | Some l =>
      if bool_decide (l_LeaseID l ≠ leaseID) then inl "invalid runtime token"%string else
      if bool_decide (l_Status l ≠ "active"%string) || After now (l_ExpiresAt l)
      then inl "runtime lease expired or inactive"%string else
      match RuntimeAuthorized st now (l_UserID l) (l_TokenID l) with
      | Some err => inl (error_text err)
      | None =>
          if negb (RuntimeClientFresh st now (l_TokenID l) (l_ClientID l) (clientHeartbeatTimeout / Second))
          then inl "client heartbeat timeout"%string else inr l
      end
  end.

Definition stripFRPUserProxyPrefix (userID : Z) (proxyName leaseID : string) : string :=
  let proxyName := match cut_prefix (String "u" (fmt_d userID +:+ ".")) proxyName with
                   | Some trimmed => trimmed
                   | None => proxyName
                   end in
  TrimPrefix proxyName (leaseID +:+ ".").

(** [first] of the custom domains. *)
Definition first (values : list string) : string :=
  match values with [] => ""%string | v :: _ => TrimSpace v end.

(** The FRP operations with their decoded contents. *)
Inductive frp_op :=
  | FRPLogin (metas : gmap string string)
  | FRPNewProxy (metas : gmap string string) (name kind : string) (port : Z) (domains : list string) (subdomain : string)
  | FRPConn (metas : gmap string string)              (** Ping, NewWorkConn, NewUserConn *)
  | FRPOther.

(** [faultFRPPlugin]; [None] means that it did not answer. *)
Definition faultFRPPlugin s (op : frp_op) : option frp_answer :=
  match op with
  | FRPLogin _ | FRPNewProxy _ _ _ _ _ _ =>
      if nodeUnavailable s then Some (Some "节点异常：禁止新登录和新穿透端口"%string) else None
  | FRPConn metas => if allowFaultRuntime TokenHash s metas then Some None else None
  | FRPOther => None
  end.

Definition edgeFrpPlugin s (now : time) (op : frp_op) : Server E * frp_answer :=
  match edgeState s with
  | None => (s, Some "edge state unavailable"%string)
  | Some st =>
      match faultFRPPlugin s op with
      | Some answer => (s, answer)
      | None =>
          match op with
          | FRPLogin metas =>
              match edgeRuntime st now metas with
              | inl reason => (s, Some reason)
              | inr lease => (rememberRuntime s lease, None)
              end
          | FRPNewProxy metas proxyName kind port domains subdomain =>
              match edgeRuntime st now metas with
              | inl reason => (s, Some reason)
              | inr l =>
                  let name := stripFRPUserProxyPrefix (l_UserID l) proxyName (l_LeaseID l) in
                  if clientIsDraining s (l_TokenID l) (l_ClientID l)
                  then (s, Some "节点异常：禁止开启新穿透端口"%string) else
                  if negb (AllocationExists st (l_LeaseID l) name (normalizeProtocol kind) port (first domains)
                             (TrimSpace subdomain))
                  then (s, Some "proxy is not allocated by current lease"%string)
                  else (s <| core := BindProxy (core s) (mkBinding (l_UserID l) (l_TokenID l) (l_ClientID l) ""
                                       (l_LeaseID l) proxyName kind port) |>, None)
              end
          | FRPConn metas =>
              match edgeRuntime st now metas with
              | inl reason => (s, Some reason)
              | inr _ => (s, None)
              end
          | FRPOther => (s, None)
          end
      end
  end.

End edge.
