(* ===== verification/EdgePorts.v ===== *)
(** * Ports and leases of an edge

    The invariant of the lease tables over every sequence of requests, FRP
    callbacks, identity snapshots, cache resets and commands: two live leases
    never hold the same port.  Then what a successful FRP callback guarantees,
    and the fate of a lease requested under an untrimmed client id. *)
From Stdlib Require Import ZArith Lia Ascii String.
From stdpp Require Import gmap strings list fin_maps.
From S2P Require Import Prelude GoStrings Types Config DpiEngine DpiService FrpManager NodePorts EdgeStore EdgeIdentity NodeFault EdgeServer.
Local Open Scope Z_scope.

Section ports.
Context (julianday : time → Z).
Context (julianday_mono : ∀ a b, a ≤ b → julianday a ≤ julianday b).

(** A lease that holds its ports at [now]. *)
Definition live (st : Store) (now : time) (id : string) : Prop :=
  ∃ l, runtime_leases st !! id = Some l ∧ l_Status l = "active"%string ∧ sql_after julianday (l_ExpiresAt l) now = true.

Record lease_inv (st : Store) (now : time) : Prop := {
  li_key : ∀ id l, runtime_leases st !! id = Some l → l_LeaseID l = id;
  li_owner : ∀ id n a, lease_allocations st !! (id, n) = Some a → is_Some (runtime_leases st !! id);
  li_excl : ∀ id1 n1 a1 id2 n2 a2,
    lease_allocations st !! (id1, n1) = Some a1 → lease_allocations st !! (id2, n2) = Some a2 →
    live st now id1 → live st now id2 →
    pa_ProxyType a1 = pa_ProxyType a2 → pa_RemotePort a1 = pa_RemotePort a2 → id1 = id2 ∧ n1 = n2 }.

(** Client rows hold trimmed ids. *)
Definition clients_trimmed (st : Store) : Prop :=
  ∀ id c, edge_clients st !! id = Some c → TrimSpace (ec_ClientID c) = ec_ClientID c.
(** A change of the rows that leaves the ids alone. *)
Lemma trimmed_rows st st' :
  (∀ id, ec_ClientID <$> edge_clients st' !! id = ec_ClientID <$> edge_clients st !! id) → clients_trimmed st → clients_trimmed st'.
Proof.
  intros Hid Hst id c' Hc'. specialize (Hid id). rewrite Hc' in Hid. symmetry in Hid. apply fmap_Some in Hid as (c & Hc & ->). eauto.
Qed.
Lemma trimmed_fmap st st' f :
  (∀ c, ec_ClientID (f c) = ec_ClientID c) → edge_clients st' = f <$> edge_clients st → clients_trimmed st → clients_trimmed st'.
Proof. intros Hf Hc. apply trimmed_rows. intros id. rewrite Hc, lookup_fmap. destruct (edge_clients st !! id); cbn; by rewrite ?Hf. Qed.
Lemma trimmed_alter st st' f i :
  (∀ c, ec_ClientID (f c) = ec_ClientID c) → edge_clients st' = alter f i (edge_clients st) → clients_trimmed st → clients_trimmed st'.
Proof.
  intros Hf Hc. apply trimmed_rows. intros id. rewrite Hc. destruct (decide (i = id)) as [->|Hne]; [|by rewrite lookup_alter_ne].
  rewrite lookup_alter_eq. destruct (edge_clients st !! id); cbn; by rewrite ?Hf.
Qed.

Ltac trims :=
  solve [exact (λ H, H)
        |eapply trimmed_alter; [|reflexivity]; by intros []
        |eapply trimmed_fmap; [|reflexivity]; intros []; cbn; by try case_match].

(** ** Operations that only revoke *)

Definition lease_shrinks (o o' : option RuntimeLease) : Prop :=
  match o, o' with
  | Some l, Some l' => l_LeaseID l' = l_LeaseID l ∧ l_ExpiresAt l' = l_ExpiresAt l ∧ l_ClientID l' = l_ClientID l ∧
                       (l_Status l' = "active"%string → l_Status l = "active"%string)
  | None, None => True
  | _, _ => False
  end.
Definition shrinks (st st' : Store) : Prop :=
  lease_allocations st' = lease_allocations st ∧
  (∀ id, lease_shrinks (runtime_leases st !! id) (runtime_leases st' !! id)) ∧
  (clients_trimmed st → clients_trimmed st').

Lemma shrinks_same st st' :
  lease_allocations st' = lease_allocations st → runtime_leases st' = runtime_leases st →
  (clients_trimmed st → clients_trimmed st') → shrinks st st'.
Proof. intros Ha Hl Hc. split_and!; [done| |done]. intros id. rewrite Hl. by destruct (runtime_leases st !! id). Qed.

#[local] Instance shrinks_preorder : PreOrder shrinks.
Proof.
  split.
  - intros st. by apply shrinks_same.
  - intros s1 s2 s3 (Ha & Hl & Hc) (Ha' & Hl' & Hc'). split_and!; [congruence| |auto]. intros id. specialize (Hl id). specialize (Hl' id).
    unfold lease_shrinks in *. destruct (runtime_leases s1 !! id), (runtime_leases s2 !! id),
      (runtime_leases s3 !! id); naive_solver congruence.
Qed.

Lemma shrinks_revoke st st' cond :
  lease_allocations st' = lease_allocations st → runtime_leases st' = revoke_where cond (runtime_leases st) →
  (clients_trimmed st → clients_trimmed st') → shrinks st st'.
Proof.
  intros Ha Hl Hc. split_and!; [done| |done]. intros id. rewrite Hl, lookup_revoke_where.
  destruct (runtime_leases st !! id) as [l|]; [|done]. cbn. by destruct (_ && _).
Qed.

Lemma shrinks_live st st' now now' id :
  shrinks st st' → now ≤ now' → live st' now' id → live st now id.
Proof.
  intros (_ & Hl & _) Hle (l' & Hl' & Ha & He). specialize (Hl id). rewrite Hl' in Hl.
  destruct (runtime_leases st !! id) as [l|] eqn:Hid; [|done]. destruct Hl as (_ & Hexp & _ & Hact).
  exists l. split; [done|]. split; [auto|]. unfold sql_after in *. apply bool_decide_eq_true in He.
  apply bool_decide_eq_true. rewrite <- Hexp. specialize (julianday_mono now now' Hle). lia.
Qed.

Lemma lease_inv_shrinks st st' now now' :
  lease_inv st now → now ≤ now' → shrinks st st' → lease_inv st' now'.
Proof.
  intros [Hk Ho He] Hle Hs. pose proof Hs as (Ha & Hl & _). split.
  - intros id l' Hl'. specialize (Hl id). rewrite Hl' in Hl.
    destruct (runtime_leases st !! id) as [l|] eqn:Hid; [|done]. destruct Hl as (-> & _). by apply Hk.
  - intros id n a Hal. rewrite Ha in Hal. destruct (Ho _ _ _ Hal) as [l Hid]. specialize (Hl id).
    rewrite Hid in Hl. destruct (runtime_leases st' !! id); [by eexists|done].
  - intros id1 n1 a1 id2 n2 a2 H1 H2 L1 L2. rewrite Ha in H1, H2.
    eapply He; [done|done|by eapply shrinks_live..].
Qed.

(** ** The statements of the store *)

Ltac unleased := apply shrinks_same; [reflexivity|reflexivity|trims].
Ltac revokes := eapply shrinks_revoke; [reflexivity|reflexivity|trims].

Lemma shrinks_rotated tokens st : shrinks st (foldl revoke_rotated st tokens).
Proof.
  revert st. induction tokens as [|t tokens IH]; intros st; cbn [foldl]; [done|].
  etrans; [|apply IH]. revokes.
Qed.

Lemma shrinks_prepared st snapshot : shrinks st (prepared st snapshot).
Proof.
  unfold prepared. etrans; [apply (shrinks_rotated (Tokens snapshot))|]. generalize (foldl revoke_rotated st (Tokens snapshot)).
  intros s1. unfold remove_old. destruct (Incremental snapshot).
  - apply shrinks_same; [by apply foldl_frame..|]. apply trimmed_rows. intros id. by rewrite (foldl_frame delete_user edge_clients).
  - destruct (Baseline snapshot); cbn [negb]; unleased.
Qed.

Lemma shrinks_apply st now now' payload st' :
  ApplyIdentitySnapshot julianday st now now' payload = inr st' → shrinks st st'.
Proof.
  destruct payload as [e|snapshot]; [done|]. intros (_ & s1 & Hi & ->)%Apply_inv.
  etrans; [apply (shrinks_prepared st snapshot)|].
  apply insert_identities_inv in Hi as (? & ? & ? & ? & ? & _ & _ & _ & _ & _ & ->).
  unfold finish. destruct (complete snapshot).
  - destruct (Incremental snapshot); revokes.
  - destruct (Incremental snapshot); unleased.
Qed.

Lemma shrinks_release st leaseID t c : shrinks st (ReleaseRuntimeLease st leaseID t c).1.
Proof.
  split_and!; [done| |trims]. intros id. cbn. destruct (decide (leaseID = id)) as [->|Hne].
  - rewrite lookup_alter_eq. destruct (runtime_leases st !! id) as [l|]; [|done]. cbn. by destruct (_ && _).
  - rewrite lookup_alter_ne by done. by destruct (runtime_leases st !! id).
Qed.

Lemma shrinks_disconnect st command t c reason : shrinks st (DisconnectClientForCommand st command t c reason).1.
Proof.
  unfold DisconnectClientForCommand. destruct (command_disconnect_effects st !! command); [done|].
  destruct (find_row _ _); [|done]. revokes.
Qed.

Lemma shrinks_warning st id : shrinks st (DisconnectWarning st id).1.
Proof. unfold DisconnectWarning. destruct (edge_clients st !! id) as [c|]; [|done]. destruct (ec_DisconnectNotified c); [done|]. unleased. Qed.

(** The row that a login creates has the id that it is given. *)
Lemma shrinks_credential st hash c create : TrimSpace c = c → shrinks st (Credential st hash c create).1.
Proof.
  intros Hc. unfold Credential. destruct (find_row _ _) as [t|]; [|done]. destruct (cached_users st !! _) as [u|]; [|done].
  assert (shrinks st (if create then ensure_client st (su_ID u) (st_ID t) c else st)) as Hs.
  { destruct create; [|done]. unfold ensure_client. destruct (find_row _ _); [done|].
    apply shrinks_same; [done|done|]. intros Ht id r. cbn. intros [[_ <-]|[_ Hr]]%lookup_insert_Some; [done|by apply Ht in Hr]. }
  by destruct (find_row _ (edge_clients _)).
Qed.

(** ** Creating a lease *)

Lemma insert_allocations_lookup leaseID vs t t' id n a :
  insert_allocations leaseID vs t = inr t' → t' !! (id, n) = Some a →
  t !! (id, n) = Some a ∨ (id = leaseID ∧ n = pa_ProxyName a ∧ a ∈ vs).
Proof.
  revert t. induction vs as [|v vs IH]; intros t; cbn; [intros [= <-]; by left|].
  intros (t1 & (Hn & ->)%insert_row_inr & Hr)%rbind_inr Hk.
  destruct (IH _ Hr Hk) as [Hi|(-> & -> & Hin)]; [|right; split_and!; [done|done|by right]].
  apply lookup_insert_Some in Hi as [[[= <- <-] <-]|[_ Hi]]; [|by left].
  right. split_and!; [done|done|by left].
Qed.

Lemma NoDup_fmap_eq {A B} (f : A → B) (l : list A) x y :
  NoDup (f <$> l) → x ∈ l → y ∈ l → f x = f y → x = y.
Proof.
  induction l as [|z l IH]; [by rewrite elem_of_nil|]. rewrite fmap_cons, NoDup_cons, !elem_of_cons.
  intros [Hz Hnd] [->|Hx] [->|Hy] Heq; [done|..|by apply IH].
  - destruct Hz. rewrite Heq. by apply list_elem_of_fmap_2.
  - destruct Hz. rewrite <- Heq. by apply list_elem_of_fmap_2.
Qed.

Lemma in_use_false st now kind port t c id n a :
  RemotePortInUseExceptClient julianday st now kind port t c = false →
  lease_allocations st !! (id, n) = Some a → pa_ProxyType a = kind → pa_RemotePort a = port →
  ∀ l, runtime_leases st !! id = Some l → l_Status l = "active"%string →
       sql_after julianday (l_ExpiresAt l) now = true → of_client t c l = true.
Proof.
  intros Hu Ha <- <- l Hl Hact Hexp. destruct (of_client t c l) eqn:Hof; [done|].
  unfold RemotePortInUseExceptClient in Hu. apply not_true_iff_false in Hu. destruct Hu.
  apply existsb_exists. exists ((id, n), a). split; [by apply list_elem_of_In, elem_of_map_to_list|].
  unfold occupies. cbn [fst snd]. by rewrite Hl, Hact, Hexp, Hof, !bool_decide_true.
Qed.

Lemma CreateLease_inv st lease allocations st' :
  CreateLease st lease allocations = inr st' →
  runtime_leases st !! l_LeaseID lease = None ∧
  runtime_leases st' = <[l_LeaseID lease := lease <| l_Status := "active"%string |>]>
    (revoke_where (of_client (l_TokenID lease) (l_ClientID lease)) (runtime_leases st)) ∧
  insert_allocations (l_LeaseID lease) allocations (lease_allocations st) = inr (lease_allocations st') ∧
  edge_clients st' = edge_clients st.
Proof.
  unfold CreateLease. destruct (identityResetPending st); [done|]. destruct (runtime_hash_taken _ _); [done|].
  intros (leases & (Hn & ->)%insert_row_inr & Hk)%rbind_inr.
  destruct (cached_tokens st !! _) as [t|]; [|done].
  apply rbind_inr in Hk as (issuers & _ & (allocs & Hal & [= <-])%rbind_inr).
  rewrite lookup_revoke_where, fmap_None in Hn. done.
Qed.

(** A live lease that the creation of another one leaves live was live before
    and is not the same client's. *)
Lemma CreateLease_live_old st now lease allocations st' id :
  CreateLease st lease allocations = inr st' → live st' now id → id ≠ l_LeaseID lease →
  ∃ l, runtime_leases st !! id = Some l ∧ l_Status l = "active"%string ∧
    sql_after julianday (l_ExpiresAt l) now = true ∧ of_client (l_TokenID lease) (l_ClientID lease) l = false.
Proof.
  intros (_ & Hl & _ & _)%CreateLease_inv (l & Hid & Ha & He) Hne.
  rewrite Hl, lookup_insert_ne in Hid by done.
  destruct (revoke_where_active _ _ _ _ Hid Ha) as [Hold Hof]. by exists l.
Qed.

Lemma lease_inv_create st now lease allocations st' :
  lease_inv st now → CreateLease st lease allocations = inr st' →
  NoDup ((λ p, (pa_ProxyType p, pa_RemotePort p)) <$> allocations) →
  (∀ p, p ∈ allocations → RemotePortInUseExceptClient julianday st now (pa_ProxyType p) (pa_RemotePort p)
                            (l_TokenID lease) (l_ClientID lease) = false) →
  lease_inv st' now.
Proof.
  intros [Hk Ho He] Hc Hnd Hfree. destruct (CreateLease_inv _ _ _ _ Hc) as (Hnew & Hl & Hal & _).
  assert (Hcase : ∀ id n a, lease_allocations st' !! (id, n) = Some a →
    (lease_allocations st !! (id, n) = Some a ∧ id ≠ l_LeaseID lease) ∨
    (id = l_LeaseID lease ∧ n = pa_ProxyName a ∧ a ∈ allocations)).
  { intros id n a Ha. destruct (insert_allocations_lookup _ _ _ _ _ _ _ Hal Ha) as [Hold|Hnw]; [left|by right].
    split; [done|]. intros ->. destruct (Ho _ _ _ Hold) as [? Hx]. by rewrite Hnew in Hx. }
  assert (Hmix : ∀ id n a p, lease_allocations st !! (id, n) = Some a → id ≠ l_LeaseID lease → live st' now id →
    p ∈ allocations → pa_ProxyType a = pa_ProxyType p → pa_RemotePort a = pa_RemotePort p → False).
  { intros id n a p Ha Hne Hlive Hp Ht Hr.
    destruct (CreateLease_live_old _ _ _ _ _ _ Hc Hlive Hne) as (l & Hid & Hact & Hexp & Hof).
    rewrite (in_use_false _ _ _ _ _ _ _ _ _ (Hfree p Hp) Ha Ht Hr l Hid Hact Hexp) in Hof. done. }
  assert (Hlive : ∀ id, live st' now id → id ≠ l_LeaseID lease → live st now id).
  { intros id Hlv Hne. destruct (CreateLease_live_old _ _ _ _ _ _ Hc Hlv Hne) as (l & ? & ? & ? & _). by exists l. }
  split.
  - intros id l Hid. rewrite Hl in Hid. apply lookup_insert_Some in Hid as [[<- <-]|[_ Hid]]; [done|].
    rewrite lookup_revoke_where in Hid. apply fmap_Some in Hid as (l0 & Hl0 & ->). apply Hk in Hl0.
    by destruct (_ && _).
  - intros id n a Ha. rewrite Hl. apply lookup_insert_is_Some'.
    destruct (Hcase _ _ _ Ha) as [[Hold _]|(-> & _)]; [right|by left].
    rewrite lookup_revoke_where. apply fmap_is_Some. by apply (Ho _ _ _ Hold).
  - intros id1 n1 a1 id2 n2 a2 H1 H2 L1 L2 Ht Hr.
    destruct (Hcase _ _ _ H1) as [[O1 N1]|(-> & -> & I1)], (Hcase _ _ _ H2) as [[O2 N2]|(-> & -> & I2)].
    + eapply He; [done|done|by apply Hlive..|done|done].
    + destruct (Hmix _ _ _ _ O1 N1 L1 I2); done.
    + destruct (Hmix _ _ _ _ O2 N2 L2 I1); congruence.
    + rewrite (NoDup_fmap_eq _ _ a1 a2 Hnd I1 I2) by (by rewrite Ht, Hr). done.
Qed.

(** ** Every sequence of events *)

Section server.
Context {E : Type} `{Engine E}.
Context (TokenHash : string → string) (error_text : store_error → string).
Implicit Types s : Server E.

(** What happens to an edge. *)
Inductive edge_event :=
  | EvBootstrap (token client : string) (proxies : list ProxyAllocationInput) (rt lid : string + string)
  | EvRelease (token client lease : string)
  | EvLogout (token client : string)
  | EvResourcePolicy (token client : string)
  | EvHeartbeat (token client : string) (frpcRunning : bool)
  | EvAck (commandID : Z) (token client : string)
  | EvFrp (op : frp_op)
  | EvSnapshot (now' : time) (payload : string + IdentitySnapshot)
  | EvReset (boot : bool)
  | EvDisconnect (command : string) (token : Z) (client reason : string)
  | EvHealth (probe : option bool).

Definition on_store s (f : Store → Store) : Server E := s <| edgeState := f <$> edgeState s |>.

Definition edge_exec s (now : time) (ev : edge_event) : Server E :=
  match ev with
  | EvBootstrap token client proxies rt lid =>
      (edgeClientBootstrap TokenHash julianday error_text s now token client proxies rt lid).1
  | EvRelease token client lease => (releaseClientLease TokenHash s now token client lease).1
  | EvLogout token client => (edgeClientLogout TokenHash s now token client).1
  | EvResourcePolicy token client => (edgeClientResourcePolicy TokenHash s now token client).1
  | EvHeartbeat token client running => (edgeClientHeartbeat TokenHash s now token client running).1
  | EvAck commandID token client => (edgeClientCommandACK TokenHash error_text s now commandID token client).1
  | EvFrp op => (edgeFrpPlugin TokenHash error_text s now op).1
  | EvSnapshot now' payload =>
      on_store s (λ st, match ApplyIdentitySnapshot julianday st now now' payload with inr st' => st' | inl _ => st end)
  | EvReset boot => on_store s (λ st, resetIdentityCache st boot)
  | EvDisconnect command token client reason =>
      on_store s (λ st, (DisconnectClientForCommand st command token client reason).1)
  | EvHealth probe => edge_health_step s probe
  end.

Definition server_inv s (now : time) : Prop := ∀ st, edgeState s = Some st → lease_inv st now.

(** A handler whose store only shrinks. *)
Definition server_shrinks s s' : Prop :=
  match edgeState s, edgeState s' with
  | Some st, Some st' => shrinks st st'
  | None, None => True
  | _, _ => False
  end.

Lemma server_shrinks_same s s' : edgeState s' = edgeState s → server_shrinks s s'.
Proof. intros Heq. unfold server_shrinks. rewrite Heq. by destruct (edgeState s). Qed.

Lemma server_inv_shrinks s s' now now' :
  server_inv s now → now ≤ now' → server_shrinks s s' → server_inv s' now'.
Proof.
  intros Hs Hle Hsh st' Hst'. unfold server_shrinks in Hsh. rewrite Hst' in Hsh.
  destruct (edgeState s) as [st|] eqn:Hst; [|done]. eapply lease_inv_shrinks; [by apply Hs|done|done].
Qed.

Lemma transitionNodeFault_store s close : edgeState (transitionNodeFault s close) = edgeState s.
Proof. unfold transitionNodeFault. by case_match. Qed.

Lemma rememberClient_store s now plain client login :
  edgeState (rememberClient TokenHash s now plain client login) = edgeState s.
Proof. unfold rememberClient. by repeat case_match. Qed.

Lemma credential_shrinks s now path plain client create :
  server_shrinks s (edgeCredential TokenHash s now path plain client create).1.
Proof.
  unfold edgeCredential. destruct (edgeState s) as [st|] eqn:Hst; [|by apply server_shrinks_same].
  pose proof (shrinks_credential st (TokenHash plain) (TrimSpace client) create (TrimSpace_trimmed client)) as Hsh.
  destruct (Credential _ _ _ _) as [st1 answer]. cbn [fst] in Hsh.
  assert (Hgoal : ∀ s', edgeState s' = Some st1 → server_shrinks s s').
  { intros s' Hs'. unfold server_shrinks. by rewrite Hst, Hs'. }
  destruct answer as [[]|[[t u] c]]; cbn [fst]; try (apply Hgoal; rewrite ?transitionNodeFault_store; done).
  destruct (ValidateCredential now t u c); [by apply Hgoal|].
  destruct (_ && _); cbn [fst]; apply Hgoal; [done|]. by rewrite rememberClient_store.
Qed.

Lemma server_shrinks_trans s1 s2 s3 : server_shrinks s1 s2 → server_shrinks s2 s3 → server_shrinks s1 s3.
Proof.
  unfold server_shrinks. destruct (edgeState s1), (edgeState s2), (edgeState s3); try done. apply transitivity.
Qed.

Lemma store_shrinks s s' st st' :
  edgeState s = Some st → edgeState s' = Some st' → shrinks st st' → server_shrinks s s'.
Proof. intros Hs Hs' Hsh. unfold server_shrinks. by rewrite Hs, Hs'. Qed.

Lemma logout_shrinks s now token client :
  server_shrinks s (edgeClientLogout TokenHash s now token client).1.
Proof.
  unfold edgeClientLogout. pose proof (credential_shrinks s now "/api/v1/client/logout" token client false) as Hc.
  destruct (edgeCredential _ _ _ _ _ _) as [s1 cred]. cbn [fst] in Hc.
  destruct cred as [r|[[t u] c]]; [done|]. destruct (edgeState s1) as [st|] eqn:Hst; [|done].
  eapply server_shrinks_trans; [exact Hc|].
  cbn [DeleteUnacknowledgedClientCommands].
  destruct (TerminateConnectionsForClient (core s1) (t_ID t) client) as [[m n] closed_].
  eapply store_shrinks; [exact Hst|reflexivity|]. revokes.
Qed.

Lemma release_shrinks s now token client lease :
  server_shrinks s (releaseClientLease TokenHash s now token client lease).1.
Proof.
  unfold releaseClientLease. destruct (_ || _); [by apply server_shrinks_same|].
  pose proof (credential_shrinks s now "/api/v1/client/release-lease" token (TrimSpace client) false) as Hc.
  destruct (edgeCredential _ _ _ _ _ _) as [s1 cred]. cbn [fst] in Hc.
  destruct cred as [r|[[t u] c]]; [done|]. destruct (edgeState s1) as [st|] eqn:Hst; [|done].
  eapply server_shrinks_trans; [exact Hc|].
  pose proof (shrinks_release st lease (t_ID t) (TrimSpace client)) as Hsh.
  destruct (ReleaseRuntimeLease _ _ _ _) as [st' released]. cbn [fst] in Hsh.
  eapply store_shrinks; [exact Hst| |exact Hsh]. by destruct released.
Qed.

Lemma frp_shrinks s now op : server_shrinks s (edgeFrpPlugin TokenHash error_text s now op).1.
Proof. apply server_shrinks_same. unfold edgeFrpPlugin. by repeat case_match. Qed.

Lemma fault_heartbeat_shrinks s now token client running :
  server_shrinks s (faultHeartbeat TokenHash s now token client running).1.
Proof.
  assert (Hsame : ∀ s', edgeState s' = edgeState s ∨
    (∃ id b, edgeState s' = (λ st, TouchClient st now id b) <$> edgeState s) → server_shrinks s s').
  { intros s' [Hs|(id & b & Hs)]; unfold server_shrinks; rewrite Hs; destruct (edgeState s); try done.
    cbn. unleased. }
  apply Hsame. unfold faultHeartbeat. repeat case_match; cbn; eauto.
Qed.

(** A handler that goes on from a checked credential with a shrinking store. *)
Lemma policy_shrinks s now token client :
  server_shrinks s (edgeClientResourcePolicy TokenHash s now token client).1.
Proof.
  unfold edgeClientResourcePolicy. destruct (negb _); [by apply server_shrinks_same|].
  pose proof (credential_shrinks s now "/api/v1/client/resource-policy" token client true) as Hc.
  destruct (edgeCredential _ _ _ _ _ _) as [s1 cred]. cbn [fst] in Hc.
  destruct cred as [r|[[t u] c]]; [done|]. destruct (edgeState s1) as [st|] eqn:Hst; [|done].
  destruct (ResourcePolicy _ _) as [p|]; [|done]. destruct (negb _); [done|].
  eapply server_shrinks_trans; [exact Hc|].
  assert (Hgoal : ∀ s', edgeState s' = Some (TouchClientSeen st now (c_ID c)) → server_shrinks s1 s').
  { intros s' Hs'. eapply store_shrinks; [exact Hst|exact Hs'|]. unleased. }
  destruct (intersectNodePortRange _ _) as [[q|] []]; [|by apply Hgoal..]. by destruct (GetPolicy _ _); apply Hgoal.
Qed.

Lemma ack_shrinks s now commandID token client :
  server_shrinks s (edgeClientCommandACK TokenHash error_text s now commandID token client).1.
Proof.
  unfold edgeClientCommandACK. destruct (bool_decide _); [by apply server_shrinks_same|].
  pose proof (credential_shrinks s now ("/api/v1/client/commands/" +:+ fmt_d commandID +:+ "/ack") token client false) as Hc.
  destruct (edgeCredential _ _ _ _ _ _) as [s1 cred]. cbn [fst] in Hc.
  destruct cred as [r|[[t u] c]]; [done|]. destruct (edgeState s1) as [st|] eqn:Hst; [|done].
  eapply server_shrinks_trans; [exact Hc|].
  assert (Hsh : shrinks st (AcknowledgeClientCommand st commandID (c_ID c)).1).
  { unfold AcknowledgeClientCommand. destruct (edge_client_commands st !! commandID); [|done].
    destruct (_ && _); [unleased|done]. }
  destruct (AcknowledgeClientCommand _ _ _) as [st' err]. cbn [fst] in Hsh.
  destruct err as [[]|]; by eapply store_shrinks.
Qed.

Lemma heartbeat_shrinks s now token client running :
  server_shrinks s (edgeClientHeartbeat TokenHash s now token client running).1.
Proof.
  unfold edgeClientHeartbeat. pose proof (fault_heartbeat_shrinks s now token client running) as Hf.
  destruct (faultHeartbeat _ _ _ _ _ _) as [s0 answer]. cbn [fst] in Hf. destruct answer; try done.
  destruct (negb _); [done|]. eapply server_shrinks_trans; [exact Hf|].
  pose proof (credential_shrinks s0 now "/api/v1/client/heartbeat" token client true) as Hc.
  destruct (edgeCredential _ _ _ _ _ _) as [s1 cred]. cbn [fst] in Hc.
  destruct cred as [r|[[t u] c]]; [done|]. destruct (edgeState s1) as [st|] eqn:Hst; [|done].
  eapply server_shrinks_trans; [exact Hc|]. cbn [PopClientCommands].
  destruct (edgeOnlineForNewSessions _); [eapply store_shrinks; [exact Hst|reflexivity|unleased]|].
  destruct (negb running); [eapply store_shrinks; [exact Hst|reflexivity|unleased]|].
  match goal with |- context [DisconnectWarning ?x _] => set (st1 := x) end. pose proof (shrinks_warning st1 (c_ID c)) as Hw.
  destruct (DisconnectWarning _ _) as [st2 show]. cbn [fst] in Hw.
  eapply store_shrinks; [exact Hst|reflexivity|]. etrans; [|exact Hw]. unfold st1. unleased.
Qed.

Lemma bootstrap_inv s now token client proxies rt lid :
  server_inv s now →
  server_inv (edgeClientBootstrap TokenHash julianday error_text s now token client proxies rt lid).1 now.
Proof.
  intros Hs. unfold edgeClientBootstrap. destruct (negb _); [done|].
  pose proof (credential_shrinks s now "/api/v1/client/bootstrap" token client false) as Hc.
  destruct (edgeCredential _ _ _ _ _ _) as [s1 cred]. cbn [fst] in Hc.
  assert (Hs1 : server_inv s1 now) by (eapply server_inv_shrinks; [exact Hs|lia|exact Hc]).
  destruct cred as [r|[[t u] c]]; [done|]. destruct (edgeState s1) as [st|] eqn:Hst; [|done].
  destruct (negb (ClientFresh _ _ _ _)); [done|].
  destruct (validateEdgeProxies _ _ _ _ _ _) as [err|allocations] eqn:Hv; [done|].
  destruct rt as [err|hash], lid as [err'|leaseID]; try done.
  destruct (CreateLease _ _ _) as [err|st'] eqn:Hcreate; [done|]. intros st2 [= <-].
  apply validateEdgeProxies_iff in Hv as (_ & _ & policy & grants & _ & _ & Hok).
  destruct Hok as (_ & _ & _ & _ & Hnd & Hall).
  eapply lease_inv_create; [by apply Hs1|exact Hcreate|exact Hnd|].
  intros p Hp. rewrite Forall_forall in Hall.
  destruct (Hall p Hp) as (_ & _ & _ & _ & _ & _ & _ & _ & _ & Huse & _). by injection Huse.
Qed.

Lemma snapshot_shrinks s now t' payload : server_shrinks s (edge_exec s now (EvSnapshot t' payload)).
Proof.
  unfold server_shrinks. cbn -[ApplyIdentitySnapshot]. destruct (edgeState s) as [st|]; [|done]. cbn -[ApplyIdentitySnapshot].
  destruct (ApplyIdentitySnapshot julianday st now t' payload) eqn:Ha; [done|]. by eapply shrinks_apply.
Qed.
Lemma disconnect_shrinks s now command tok client reason : server_shrinks s (edge_exec s now (EvDisconnect command tok client reason)).
Proof. unfold server_shrinks. cbn -[DisconnectClientForCommand]. destruct (edgeState s) as [st|]; [|done]. apply shrinks_disconnect. Qed.
Lemma health_shrinks s probe : server_shrinks s (edge_health_step s probe).
Proof.
  apply server_shrinks_same. unfold edge_health_step. set (s1 := match probe with Some _ => _ | None => _ end).
  assert (Hs1 : edgeState s1 = edgeState s) by (unfold s1; destruct probe; [destruct (edgeState s) eqn:Hst; by rewrite <- Hst|done]).
  cbn zeta. destruct (bool_decide _); by rewrite ?transitionNodeFault_store.
Qed.

Lemma reset_inv st now now' boot : lease_inv st now → now ≤ now' → lease_inv (resetIdentityCache st boot) now'.
Proof.
  intros Hi Hle. destruct boot.
  - split; cbn; intros *; rewrite ?lookup_empty; done.
  - eapply lease_inv_shrinks; [exact Hi|exact Hle|]. by apply shrinks_same.
Qed.

Lemma exec_inv s now now' ev : server_inv s now → now ≤ now' → server_inv (edge_exec s now' ev) now'.
Proof.
  intros Hs Hle.
  assert (Hsh : ∀ s', server_shrinks s s' → server_inv s' now') by (intros s'; by apply (server_inv_shrinks s s' now now')).
  destruct ev as [| | | | | | |t' payload|boot|command tok client reason|probe]; cbn [edge_exec].
  - apply bootstrap_inv, Hsh. by apply server_shrinks_same.
  - apply Hsh, release_shrinks.
  - apply Hsh, logout_shrinks.
  - apply Hsh, policy_shrinks.
  - apply Hsh, heartbeat_shrinks.
  - apply Hsh, ack_shrinks.
  - apply Hsh, frp_shrinks.
  - exact (Hsh _ (snapshot_shrinks s now' t' payload)).
  - intros st Hst. cbn -[resetIdentityCache] in Hst. apply fmap_Some in Hst as (st0 & Hst0 & ->).
    eapply reset_inv; [by apply Hs|exact Hle].
  - exact (Hsh _ (disconnect_shrinks s now' command tok client reason)).
  - apply Hsh, health_shrinks.
Qed.

(** The state after timed events, and the time reached. *)
Definition edge_run s (evs : list (time * edge_event)) : Server E :=
  foldl (λ s te, edge_exec s te.1 te.2) s evs.
Fixpoint ordered (t : time) (evs : list (time * edge_event)) : Prop :=
  match evs with [] => True | te :: evs => t ≤ te.1 ∧ ordered te.1 evs end.
Definition end_time (t : time) (evs : list (time * edge_event)) : time := foldl (λ _ te, te.1) t evs.

Lemma run_inv s t evs : server_inv s t → ordered t evs → server_inv (edge_run s evs) (end_time t evs).
Proof.
  revert s t. induction evs as [|te evs IH]; intros s t Hs; cbn; [done|].
  intros [Hle Hord]. apply IH; [|done]. by eapply exec_inv.
Qed.

(** C15: no two clients share a port: from the boot of an edge on, whatever its
    store held before, after any sequence of bootstraps, releases, logouts, FRP
    callbacks, identity snapshots, cache resets, disconnect commands and faults,
    two allocations of live leases with the same protocol and remote port are
    the same allocation of the same lease. *)
Theorem edge_ports_exclusive s st0 t evs now st id1 n1 a1 id2 n2 a2 :
  edgeState s = Some (resetIdentityCache st0 true) → ordered t evs → end_time t evs ≤ now →
  edgeState (edge_run s evs) = Some st →
  lease_allocations st !! (id1, n1) = Some a1 → lease_allocations st !! (id2, n2) = Some a2 →
  live st now id1 → live st now id2 →
  pa_ProxyType a1 = pa_ProxyType a2 → pa_RemotePort a1 = pa_RemotePort a2 → id1 = id2 ∧ n1 = n2.
Proof.
  intros Hboot Hord Hnow Hst.
  assert (Hs : server_inv s t).
  { intros st' Hst'. rewrite Hboot in Hst'. injection Hst' as <-.
    split; cbn; intros *; rewrite ?lookup_empty; done. }
  assert (Hinv : lease_inv st now).
  { eapply lease_inv_shrinks; [by apply (run_inv s t evs Hs Hord)|exact Hnow|by apply shrinks_same]. }
  apply (li_excl _ _ Hinv).
Qed.

(** ** Runtime checks *)

Lemma find_row_Some {K V} `{Countable K} (p : V → bool) (t : gmap K V) v :
  find_row p t = Some v → p v = true ∧ ∃ k, t !! k = Some v.
Proof.
  unfold find_row. intros ([k v'] & Hh & ->)%fmap_Some. apply head_Some_elem_of in Hh.
  apply list_elem_of_filter in Hh as [Hp Hin]. split; [done|]. exists k. by apply elem_of_map_to_list.
Qed.

Lemma edgeRuntime_inv st now metas l :
  edgeRuntime TokenHash error_text st now metas = inr l →
  meta metas "lease_id" = l_LeaseID l ∧ l_RuntimeTokenHash l = TokenHash (meta metas "token") ∧
  (∃ id, runtime_leases st !! id = Some l) ∧ l_Status l = "active"%string ∧ now ≤ l_ExpiresAt l ∧
  RuntimeAuthorized st now (l_UserID l) (l_TokenID l) = None ∧
  RuntimeClientFresh st now (l_TokenID l) (l_ClientID l) (clientHeartbeatTimeout / Second) = true.
Proof.
  unfold edgeRuntime. destruct (_ || _); [done|].
  destruct (RuntimeLeaseByHash _ _) as [l'|] eqn:Hl; [|done].
  destruct (bool_decide_reflect (l_LeaseID l' ≠ meta metas "lease_id")) as [|Hid]; [done|].
  destruct (bool_decide_reflect (l_Status l' ≠ "active"%string)) as [|Ha]; [done|].
  destruct (After now (l_ExpiresAt l')) eqn:He; [done|]. cbn [orb].
  destruct (RuntimeAuthorized _ _ _ _) eqn:Hau; [done|].
  destruct (negb _) eqn:Hf; [done|]. intros [= <-]. apply negb_false_iff in Hf.
  apply find_row_Some in Hl as [Hh Hk]. apply bool_decide_eq_true in Hh.
  apply dec_stable in Hid, Ha. unfold After in He. apply bool_decide_eq_false in He.
  split_and!; try done. lia.
Qed.

(** C23: an FRP proxy is only opened under a valid lease: when the plugin allows
    a new proxy, the node is available, the metadata name an active unexpired
    lease by its token, its user and token are authorized, its client is fresh and
    not draining, and the lease holds an allocation of exactly this name,
    protocol, port, first domain and subdomain; the proxy is then bound to that lease. *)
Theorem NewProxy_admitted s now metas name kind port domains subdomain s' :
  edgeFrpPlugin TokenHash error_text s now (FRPNewProxy metas name kind port domains subdomain) = (s', None) →
  nodeUnavailable s = false ∧
  ∃ st l a, edgeState s = Some st ∧ meta metas "lease_id" = l_LeaseID l ∧
    l_RuntimeTokenHash l = TokenHash (meta metas "token") ∧
    (∃ id, runtime_leases st !! id = Some l) ∧ l_Status l = "active"%string ∧ now ≤ l_ExpiresAt l ∧
    RuntimeAuthorized st now (l_UserID l) (l_TokenID l) = None ∧
    RuntimeClientFresh st now (l_TokenID l) (l_ClientID l) 60 = true ∧
    clientIsDraining s (l_TokenID l) (l_ClientID l) = false ∧
    lease_allocations st !! (l_LeaseID l, stripFRPUserProxyPrefix (l_UserID l) name (l_LeaseID l)) = Some a ∧
    pa_ProxyType a = normalizeProtocol kind ∧ pa_RemotePort a = port ∧ pa_Domain a = first domains ∧
    pa_Subdomain a = TrimSpace subdomain ∧
    s' = s <| core := BindProxy (core s) (mkBinding (l_UserID l) (l_TokenID l) (l_ClientID l) "" (l_LeaseID l)
                                            name kind port) |>.
Proof.
  unfold edgeFrpPlugin. destruct (edgeState s) as [st|] eqn:Hst; [|done]. cbn [faultFRPPlugin].
  destruct (nodeUnavailable s); [done|]. intros Hok. split; [done|].
  destruct (edgeRuntime _ _ _ _ _) as [r|l] eqn:Hr; [done|].
  destruct (clientIsDraining _ _ _) eqn:Hd; [done|].
  destruct (negb _) eqn:Hal; [done|]. injection Hok as <-. apply negb_false_iff in Hal.
  unfold AllocationExists in Hal.
  destruct (lease_allocations st !! _) as [a|] eqn:Ha; [|done].
  rewrite <- !bool_decide_and, bool_decide_eq_true in Hal. destruct Hal as [[[Ht Hp] Hdm] Hsd].
  apply edgeRuntime_inv in Hr as (? & ? & ? & ? & ? & ? & ?).
  exists st, l, a. split_and!; done.
Qed.

(** ** Untrimmed client ids *)

(** The client rows hold trimmed ids, the leases are stored under their ids, and
    those whose id is in [P] belong to an untrimmed client id. *)
Record doomed (P : string → Prop) (st : Store) : Prop := mkDoomed {
  dm_clients : clients_trimmed st;
  dm_key : ∀ id l, runtime_leases st !! id = Some l → l_LeaseID l = id;
  dm_lease : ∀ id l, P id → runtime_leases st !! id = Some l → TrimSpace (l_ClientID l) ≠ l_ClientID l }.
Definition server_doomed (P : string → Prop) s : Prop := ∀ st, edgeState s = Some st → doomed P st.
(** The lease id that an event draws. *)
Definition drawn_lease (ev : edge_event) : option string :=
  match ev with EvBootstrap _ _ _ _ (inr lid) => Some lid | _ => None end.

Lemma doomed_shrinks P st st' : doomed P st → shrinks st st' → doomed P st'.
Proof.
  intros [Hc Hk Hl] (_ & Hsh & Htr). split; [auto|..].
  - intros id l' Hl'. specialize (Hsh id). rewrite Hl' in Hsh. destruct (runtime_leases st !! id) as [l|] eqn:Hid; [|done].
    destruct Hsh as (-> & _). eauto.
  - intros id l' HP Hl'. specialize (Hsh id). rewrite Hl' in Hsh. destruct (runtime_leases st !! id) as [l|] eqn:Hid; [|done].
    destruct Hsh as (_ & _ & -> & _). eauto.
Qed.
Lemma server_doomed_shrinks P s s' : server_doomed P s → server_shrinks s s' → server_doomed P s'.
Proof.
  intros Hs Hsh st' Hst'. unfold server_shrinks in Hsh. rewrite Hst' in Hsh.
  destruct (edgeState s) as [st|] eqn:Hst; [|done]. eapply doomed_shrinks; [by apply Hs|done].
Qed.
Lemma doomed_create P st lease allocations st' :
  doomed P st → CreateLease st lease allocations = inr st' →
  (P (l_LeaseID lease) → TrimSpace (l_ClientID lease) ≠ l_ClientID lease) → doomed P st'.
Proof.
  intros [Hc Hk Hl] (_ & Hle & _ & Hcl)%CreateLease_inv Hn.
  assert (Hcase : ∀ id l', runtime_leases st' !! id = Some l' →
    (id = l_LeaseID lease ∧ l_LeaseID l' = id ∧ l_ClientID l' = l_ClientID lease) ∨
    ∃ l, runtime_leases st !! id = Some l ∧ l_LeaseID l' = l_LeaseID l ∧ l_ClientID l' = l_ClientID l).
  { intros id l'. rewrite Hle. intros [[<- <-]|[_ Hid]]%lookup_insert_Some; [by left|right].
    rewrite lookup_revoke_where in Hid. apply fmap_Some in Hid as (l & Hid & ->). exists l. by destruct (_ && _). }
  split.
  - intros id c. rewrite Hcl. apply Hc.
  - intros id l' [(-> & ? & _)|(l & Hid & -> & _)]%Hcase; eauto.
  - intros id l' HP [(-> & _ & ->)|(l & Hid & _ & ->)]%Hcase; eauto.
Qed.

(** What a successful bootstrap has done, and that the others only shrink. *)
Lemma bootstrap_store s now token client proxies rt lid s' r :
  edgeClientBootstrap TokenHash julianday error_text s now token client proxies rt lid = (s', r) →
  server_shrinks s s' ∧ (∀ leaseID expires allocations, r ≠ RBootstrap leaseID expires allocations) ∨
  ∃ s1 st lease allocations st' expires, server_shrinks s s1 ∧ edgeState s1 = Some st ∧ lid = inr (l_LeaseID lease) ∧
    l_ClientID lease = client ∧ r = RBootstrap (l_LeaseID lease) expires allocations ∧
    CreateLease st lease allocations = inr st' ∧ edgeState s' = Some st'.
Proof.
  unfold edgeClientBootstrap. destruct (negb _); [intros [= <- <-]; left; split; [by apply server_shrinks_same|done]|].
  pose proof (credential_shrinks s now "/api/v1/client/bootstrap" token client false) as Hc.
  destruct (edgeCredential _ _ _ _ _ _) as [s1 cred]. cbn [fst] in Hc.
  destruct cred as [e|[[t u] c]]; [intros [= <- <-]; by left|].
  destruct (edgeState s1) as [st|] eqn:Hst; [|intros [= <- <-]; by left].
  destruct (negb (ClientFresh _ _ _ _)); [intros [= <- <-]; by left|].
  destruct (validateEdgeProxies _ _ _ _ _ _) as [err|allocations]; [intros [= <- <-]; by left|].
  destruct rt as [err|hash]; [intros [= <- <-]; by left|]. destruct lid as [err'|leaseID]; [intros [= <- <-]; by left|].
  destruct (CreateLease _ _ _) as [err|st'] eqn:Hcreate; intros [= <- <-]; [by left|right].
  match goal with _ : CreateLease _ ?lease _ = _ |- _ => exists s1, st, lease, allocations, st', (l_ExpiresAt lease) end. by split_and!.
Qed.

Lemma exec_doomed P s now ev :
  server_doomed P s → (∀ id, drawn_lease ev = Some id → ¬ P id) → server_doomed P (edge_exec s now ev).
Proof.
  intros Hs Hdr. assert (Hsh : ∀ s', server_shrinks s s' → server_doomed P s') by (intros s'; by apply server_doomed_shrinks).
  destruct ev as [token client proxies rt lid| | | | | | |t' payload|boot|command tok client reason|probe]; cbn [edge_exec].
  - destruct (edgeClientBootstrap _ _ _ _ _ _ _ _ _ _) as [s' r] eqn:Hb. cbn.
    apply bootstrap_store in Hb as [[Hb _]|(s1 & st & lease & al & st' & ex & Hb & Hst & -> & _ & _ & Hc & Hst')]; [by apply Hsh|].
    intros st0 Hst0. rewrite Hst' in Hst0. injection Hst0 as <-.
    eapply doomed_create; [by apply (Hsh s1)|exact Hc|]. intros HP. by destruct (Hdr _ eq_refl).
  - apply Hsh, release_shrinks.
  - apply Hsh, logout_shrinks.
  - apply Hsh, policy_shrinks.
  - apply Hsh, heartbeat_shrinks.
  - apply Hsh, ack_shrinks.
  - apply Hsh, frp_shrinks.
  - exact (Hsh _ (snapshot_shrinks s now t' payload)).
  - intros st Hst. cbn -[resetIdentityCache] in Hst. apply fmap_Some in Hst as (st0 & Hst0 & ->). destruct (Hs _ Hst0) as [Hc Hk Hl].
    destruct boot; [|by split]. split.
    + revert Hc. trims.
    + intros id l. cbn. by rewrite lookup_empty.
    + intros id l _. cbn. by rewrite lookup_empty.
  - exact (Hsh _ (disconnect_shrinks s now command tok client reason)).
  - apply Hsh, health_shrinks.
Qed.
Lemma run_doomed P s evs :
  server_doomed P s → Forall (λ te, ∀ id, drawn_lease te.2 = Some id → ¬ P id) evs → server_doomed P (edge_run s evs).
Proof.
  revert s. induction evs as [|te evs IH]; intros s Hs; [done|]. intros [Hte Hevs]%Forall_cons.
  apply (IH (edge_exec s te.1 te.2)); [by apply exec_doomed|done].
Qed.

(** The check of a lease of an untrimmed client id finds no fresh client. *)
Lemma doomed_refused P s st now metas :
  server_doomed P s → edgeState s = Some st → P (meta metas "lease_id") →
  ∃ reason, edgeRuntime TokenHash error_text st now metas = inl reason.
Proof.
  intros Hs Hst HP. destruct (Hs _ Hst) as [Hc Hk Hl].
  destruct (edgeRuntime _ _ _ _ _) as [reason|l] eqn:Hr; [by exists reason|]. exfalso.
  apply edgeRuntime_inv in Hr as (Hid & _ & (k & Hlk) & _ & _ & _ & Hfresh).
  assert (Hne : TrimSpace (l_ClientID l) ≠ l_ClientID l) by (apply (Hl k); [rewrite <- (Hk _ _ Hlk), <- Hid; done|done]).
  unfold RuntimeClientFresh in Hfresh. destruct (find_row _ _) as [row|] eqn:Hrow; [|done].
  apply find_row_Some in Hrow as [Hp [k' Hk']]. apply andb_true_iff in Hp as [Hp _]. unfold row_of_client in Hp.
  rewrite <- bool_decide_and, bool_decide_eq_true in Hp. destruct Hp as [_ Hp]. apply Hc in Hk'. congruence.
Qed.

(** C39: an edge accepts a bootstrap under a client id with surrounding spaces, but
    the lease it answers can never be used: it is stored under the id as sent, while
    the row of the client, which the heartbeats touch, is stored under the trimmed
    id.  From a new store on, after any events before the bootstrap and any events
    after it that do not draw the same lease id again, the FRP plugin refuses every
    login and every proxy under the lease. *)
Theorem untrimmed_bootstrap_unusable s before now token client proxies rt lid s1 leaseID expires allocations after now' metas :
  edgeState s = Some empty_store → TrimSpace client ≠ client →
  edgeClientBootstrap TokenHash julianday error_text (edge_run s before) now token client proxies rt lid =
    (s1, RBootstrap leaseID expires allocations) →
  Forall (λ te, drawn_lease te.2 ≠ Some leaseID) after → meta metas "lease_id" = leaseID →
  let s2 := edge_run s1 after in
  (∃ reason, edgeFrpPlugin TokenHash error_text s2 now' (FRPLogin metas) = (s2, Some reason)) ∧
  ∀ name kind port domains subdomain, ∃ reason,
    edgeFrpPlugin TokenHash error_text s2 now' (FRPNewProxy metas name kind port domains subdomain) = (s2, Some reason).
Proof.
  intros Hst Hne Hboot Hafter Hmeta. cbn zeta.
  assert (H0 : server_doomed (λ _, False) s) by (intros st; rewrite Hst; intros [= <-]; split; intros *; by rewrite ?lookup_empty).
  assert (Hb : server_doomed (λ _, False) (edge_run s before)) by (apply run_doomed; [done|]; by apply Forall_forall; intros te _ id _ []).
  assert (H1 : server_doomed (eq leaseID) s1).
  { apply bootstrap_store in Hboot as [[_ Hr]|(s' & st & lease & al & st' & ex & Hsh & Hst1 & _ & Hcl & [= -> _ _] & Hc & Hst')];
      [by destruct (Hr _ _ _ eq_refl)|].
    intros st0 Hst0. rewrite Hst' in Hst0. injection Hst0 as <-.
    destruct (server_doomed_shrinks _ _ _ Hb Hsh _ Hst1) as [Hc1 Hk1 _].
    eapply doomed_create; [|exact Hc|by rewrite Hcl].
    split; [done|done|]. intros id l <- Hl. apply CreateLease_inv in Hc as (Hnone & _). by rewrite Hnone in Hl. }
  assert (H2 : server_doomed (eq leaseID) (edge_run s1 after)).
  { apply run_doomed; [done|]. eapply Forall_impl; [exact Hafter|]. intros te Hte id Hid <-. done. }
  set (s2 := edge_run s1 after) in *. clearbody s2.
  split; [|intros name kind port domains subdomain]; unfold edgeFrpPlugin; destruct (edgeState s2) as [st|] eqn:Hst2; [|by eexists| |by eexists];
    cbn [faultFRPPlugin]; (destruct (nodeUnavailable s2); [by eexists|]);
    destruct (doomed_refused _ _ _ now' metas H2 Hst2 (eq_sym Hmeta)) as [reason ->]; by exists reason.
Qed.
End server.
End ports.

(** ** Witnesses *)

Definition demo_text (e : store_error) : string := match e with ErrText msg => msg | _ => ""%string end.
Definition demo_alloc (name : string) (port : Z) : ProxyAllocationInput :=
  mkAllocInput name "tcp" "127.0.0.1" 80 port "" "".
Definition demo_edge : Server NoopEngine :=
  mkServer ((defaults ∅) <| cfg_Mode := ModeEdge |>) (NewManager 0) (NewService mkNoop None false)
    (mkFault false false ∅ ∅ false) (Some (resetIdentityCache empty_store true))
    (Some (mkLink true true false)) None.

(** Two clients of one token bootstrap a port each. *)
Definition demo_events : list (time * edge_event) :=
  [(1000, EvSnapshot 1000 (inr (demo_page true true 3 1 7 "hash7")));
   (2000, EvResourcePolicy "hash7" "c"); (2000, EvResourcePolicy "hash7" "d");
   (3000, EvBootstrap "hash7" "c" [demo_alloc "web" 2001] (inr "h1"%string) (inr "L1"%string));
   (4000, EvBootstrap "hash7" "d" [demo_alloc "web" 2002] (inr "h2"%string) (inr "L2"%string));
   (5000, EvBootstrap "hash7" "d" [demo_alloc "web" 2001] (inr "h3"%string) (inr "L3"%string))].
Definition demo_run (evs : list (time * edge_event)) : Server NoopEngine :=
  edge_run demo_julianday demo_hash demo_text demo_edge evs.
Definition demo_final (evs : list (time * edge_event)) : Store := default empty_store (edgeState (demo_run evs)).

(** Both leases are live; the third request, for the first client's port, got none. *)
Lemma edge_ports_exclusive_witness :
  (live demo_julianday (demo_final demo_events) 6000 "L1" ∧ live demo_julianday (demo_final demo_events) 6000 "L2" ∧
   runtime_leases (demo_final demo_events) !! "L3"%string = None) ∧
  ("L1"%string = "L1"%string ∧ "web"%string = "web"%string).
Proof.
  assert (H1 : live demo_julianday (demo_final demo_events) 6000 "L1").
  { exists (mkLease 0 "L1" 1 7 "c" "h1" "active" 86400000003000). split_and!; vm_compute; reflexivity. }
  assert (H2 : live demo_julianday (demo_final demo_events) 6000 "L2").
  { exists (mkLease 0 "L2" 1 7 "d" "h2" "active" 86400000004000). split_and!; vm_compute; reflexivity. }
  split; [split; [exact H1|split; [exact H2|vm_compute; reflexivity]]|].
  refine (edge_ports_exclusive demo_julianday demo_julianday_mono demo_hash demo_text demo_edge empty_store 0
    demo_events 6000 (demo_final demo_events) "L1" "web" (demo_alloc "web" 2001) "L1" "web" (demo_alloc "web" 2001)
    _ _ _ _ _ _ H1 H1 _ _); try (vm_compute; reflexivity).
  - vm_compute. repeat split; discriminate.
  - vm_compute. discriminate.
Defined.

Definition demo_ready : Server NoopEngine := demo_run (take 4 demo_events).
Definition demo_metas : gmap string string := {["token"%string := "h1"%string; "lease_id"%string := "L1"%string]}.
Lemma NewProxy_admitted_witness : nodeUnavailable demo_ready = false.
Proof.
  refine (proj1 (NewProxy_admitted demo_hash demo_text demo_ready 5000 demo_metas "u1.L1.web" "tcp" 2001 [] ""
    (edgeFrpPlugin demo_hash demo_text demo_ready 5000 (FRPNewProxy demo_metas "u1.L1.web" "tcp" 2001 [] "")).1 _)).
  vm_compute. reflexivity.
Defined.

(** The client logs in, its bootstrap gets a lease, and it keeps up its heartbeats. *)
Definition demo_before : list (time * edge_event) := take 3 demo_events.
Definition demo_untrimmed : Server NoopEngine * response :=
  edgeClientBootstrap demo_hash demo_julianday demo_text (demo_run demo_before) 3000 "hash7" " c"
    [demo_alloc "web" 2001] (inr "h1"%string) (inr "L1"%string).
Definition demo_edge_new : Server NoopEngine := demo_edge <| edgeState := Some empty_store |>.
Lemma untrimmed_bootstrap_unusable_witness :
  let s := edge_run demo_julianday demo_hash demo_text demo_untrimmed.1 [(3200, EvHeartbeat "hash7" " c" true)] in
  is_Some (runtime_leases (default empty_store (edgeState s)) !! "L1"%string) ∧
  ∃ reason, edgeFrpPlugin demo_hash demo_text s 3500 (FRPLogin demo_metas) = (s, Some reason).
Proof.
  cbn zeta. split; [vm_compute; eauto|].
  refine (proj1 (untrimmed_bootstrap_unusable demo_julianday demo_hash demo_text demo_edge_new ((0, EvReset true) :: demo_before) 3000 "hash7" " c"
    [demo_alloc "web" 2001] (inr "h1"%string) (inr "L1"%string) demo_untrimmed.1 "L1" (3000 + 86400000000000)
    [demo_alloc "web" 2001] [(3200, EvHeartbeat "hash7" " c" true)] 3500 demo_metas _ _ _ _ _)).
  - reflexivity.
  - vm_compute. discriminate.
  - vm_compute. reflexivity.
  - constructor; [discriminate|constructor].
  - vm_compute. reflexivity.
Defined.
