(* ===== verification/EdgeQueue.v ===== *)
(** * The edge's durable queue and command log

    The tables of [internal/edgestate] that are not part of the identity cache:
    the events waiting for the controller ([store.go], [control.go]), the commands
    received from it ([control.go]), the applied configuration revisions
    ([configuration_revision.go]) and the node's own blocked addresses.

    [CURRENT_TIMESTAMP] is an argument.  [sql k] says whether the [k]-th statement
    of a method succeeds; the error is [sql_error]. *)
From Stdlib Require Import ZArith Lia Ascii String.
From stdpp Require Import gmap strings list fin_maps sorting.
From S2P Require Import Prelude GoStrings Types DpiEngine DpiService Config EdgeStore EdgeIdentity ControllerDB NodeDirectory IdentityPage IdentityView ControllerLink.
Local Open Scope Z_scope.

Record OutboundEvent := mkOutbound {
  ob_EventID : string; ob_EventType : string; ob_Payload : string; ob_CreatedAt : time; ob_AcknowledgedAt : option time }.
#[export] Instance eta_outbound : Eta OutboundEvent := λ r,
  mkOutbound (ob_EventID r) (ob_EventType r) (ob_Payload r) (ob_CreatedAt r) (ob_AcknowledgedAt r).
Record ReceivedCommand := mkReceived {
  rx_CommandType : string; rx_Payload : string; rx_Status : string; rx_Result : string }.
#[export] Instance eta_received : Eta ReceivedCommand := λ r,
  mkReceived (rx_CommandType r) (rx_Payload r) (rx_Status r) (rx_Result r).

Record EdgeQueue := mkQueue {
  q_events : gmap Z OutboundEvent; q_event_seq : Z;      (** [outbound_events] *)
  q_commands : gmap string ReceivedCommand;              (** [received_commands] *)
  q_revisions : gmap string Z;                           (** [configuration_revisions] *)
  q_blocked : gmap string (string * time) }.             (** [blocked_inbound_ips]: reason, created_at *)
#[export] Instance eta_queue : Eta EdgeQueue := λ r,
  mkQueue (q_events r) (q_event_seq r) (q_commands r) (q_revisions r) (q_blocked r).
Definition empty_queue : EdgeQueue := mkQueue ∅ 0 ∅ ∅ ∅.

(** ** Events *)

Definition maxQueuedTelemetryEvents : nat := 5000.
Definition event_of_type (kind : string) (r : OutboundEvent) : bool := bool_decide (ob_EventType r = kind).
(** The newest rows that satisfy [p]. *)
Definition newest (p : OutboundEvent → bool) (limit : nat) (events : gmap Z OutboundEvent) : list Z :=
  take limit (reverse (filter (λ id, match events !! id with Some r => p r | None => false end = true) (sorted_keys events))).
Definition trim_events (kind : string) (events : gmap Z OutboundEvent) : gmap Z OutboundEvent :=
  let kept := newest (event_of_type kind) maxQueuedTelemetryEvents events in
  delete_where (λ id r, event_of_type kind r && negb (bool_decide (id ∈ kept))) events.
Definition telemetry_kind (kind : string) : bool :=
  bool_decide (kind = "runtime_log"%string) || bool_decide (kind = "dpi_event"%string).

(** [enabled] is [dpiEventsEnabled()], [None] when no function is set; [encoded] is
    the outcome of [json.Marshal].  The transaction commits as a whole. *)
Definition QueueEvent (q : EdgeQueue) (now : time) (enabled : option bool) (eventID kind : string)
    (encoded : store_error + string) : result EdgeQueue :=
  if bool_decide (kind = "dpi_event"%string) && bool_decide (enabled = Some false) then inr q
  else match encoded with
  | inl err => inl err
  | inr payload =>
      let q := if exists_row (λ r, bool_decide (ob_EventID r = eventID)) (q_events q) then q
               else q <| q_event_seq := q_event_seq q + 1 |>
                      <| q_events := <[q_event_seq q + 1 := mkOutbound eventID kind payload now None]> (q_events q) |> in
      inr (if telemetry_kind kind then q <| q_events := trim_events kind (q_events q) |> else q)
  end.
Definition PruneDisabledDPIEvents (q : EdgeQueue) (enabled : option bool) : EdgeQueue :=
  if bool_decide (enabled = Some false)
  then q <| q_events := delete_where (λ _ r, event_of_type "dpi_event" r) (q_events q) |> else q.
(** [migrate] trims both kinds when the store is opened. *)
Definition migrate_events (q : EdgeQueue) : EdgeQueue :=
  q <| q_events := foldl (λ events kind, trim_events kind events) (q_events q) ["runtime_log"; "dpi_event"]%string |>.
Definition RecordDPIEvent (encode : Event → store_error + string) (q : EdgeQueue) (now : time) (enabled : option bool)
    (id : option string) (event : Event) : EdgeQueue :=
  match id with
  | None => q
  | Some eventID => match QueueEvent q now enabled eventID "dpi_event" (encode event) with inr q => q | inl _ => q end
  end.

Definition envelope (r : OutboundEvent) : EventEnvelope := mkEnvelope (ob_EventID r) (ob_EventType r) (ob_Payload r) (ob_CreatedAt r).
(** [types = []] is the query without the condition. *)
Definition pendingEvents (q : EdgeQueue) (types : list string) : list EventEnvelope :=
  take 100 (omap (λ id, r ← q_events q !! id;
    if bool_decide (ob_AcknowledgedAt r = None) && (bool_decide (types = []) || bool_decide (ob_EventType r ∈ types))
    then Some (envelope r) else None) (sorted_keys (q_events q))).
Definition PendingEvents (q : EdgeQueue) : list EventEnvelope := pendingEvents q [].
Definition PendingEventsForTypes (q : EdgeQueue) (types : list string) : list EventEnvelope :=
  if bool_decide (types = []) then [] else pendingEvents q types.

Definition acknowledge_event (now : time) (events : gmap Z OutboundEvent) (eventID : string) : gmap Z OutboundEvent :=
  update_where (λ r, bool_decide (ob_EventID r = eventID)) (λ r, r <| ob_AcknowledgedAt := Some now |>) events.
Definition discard_acknowledged (events : gmap Z OutboundEvent) : gmap Z OutboundEvent :=
  let kept := newest (λ _, true) 1000 events in
  delete_where (λ id r, bool_decide (is_Some (ob_AcknowledgedAt r)) && negb (bool_decide (id ∈ kept))) events.
(** Each statement is a transaction of its own: the ids before a failing one stay
    acknowledged. *)
Fixpoint acknowledge_events (sql_error : store_error) (q : EdgeQueue) (now : time) (ids : list string) (sql : nat → bool) :
    EdgeQueue * option store_error :=
  match ids with
  | [] => (q, None)
  | id :: ids =>
      if negb (sql 0%nat) then (q, Some sql_error)
      else acknowledge_events sql_error (q <| q_events := acknowledge_event now (q_events q) id |>) now ids (λ k, sql (S k))
  end.
Definition AcknowledgeEvents (sql_error : store_error) (q : EdgeQueue) (now : time) (ids : list string) (sql : nat → bool) (discard : bool) :
    EdgeQueue * option store_error :=
  let '(q, err) := acknowledge_events sql_error q now ids sql in
  match err with
  | Some err => (q, Some err)
  | None => (if discard then q <| q_events := discard_acknowledged (q_events q) |> else q, None)
  end.

Definition pending_count (q : EdgeQueue) : Z :=
  len (filter (λ kr : Z * OutboundEvent, ob_AcknowledgedAt kr.2 = None) (map_to_list (q_events q))).

(** The clients of the report, by row id. *)
Definition presence_of (now : time) (r : ClientRow) : option ClientPresence :=
  match ec_LastSeenAt r with
  | Some seen =>
      if negb (bool_decide (ec_Status r = "active"%string)) || bool_decide (60 * Second < Sub now seen) then None
      else Some (mkClientPresence (ec_UserID r) (ec_TokenID r) (ec_ClientID r) (ec_FRPCRunning r) (Some seen))
  | None => None
  end.
(** Reading the rows may fail after some of them, in a query, a scan or at the end. *)
Inductive client_rows :=
  | ReadAll
  | ReadFails (rows : nat) (scan : bool) (err : string).
Definition HeartbeatPayload_ (s : Store) (q : EdgeQueue) (now : time) (rows : client_rows) : HeartbeatPayload :=
  let clients ids := omap (λ id, r ← edge_clients s !! id; presence_of now r) ids in
  let ids := sorted_keys (edge_clients s) in
  match rows with
  | ReadAll => mkHeartbeat "" (len (clients ids)) 0 (pending_count q) (clients ids) 0 false [] None
  | ReadFails k scan err =>
      mkHeartbeat ((if scan then "read edge client: " else "read edge clients: ") ++ err) 0 0 0 (clients (take k ids)) 0 false [] None
  end.

(** ** Commands *)

(** [json.Marshal] and [json.Unmarshal] of a [CommandResult]. *)
Class ResultCodec := {
  encode_result : CommandResult → string;
  decode_result : string → option CommandResult }.

(** The commands that may be executed again: they set a desired state. *)
Definition idempotent_commands : list string :=
  ["update_edge_runtime_settings"; "update_edge_permissions"; "update_edge_advanced_settings"; "block_ip"; "unblock_ip";
   "disconnect_client"; "disconnect_connection"; "reset_frp_tls"]%string.

Section commands.
Context `{json : CommandJSON} `{codec : ResultCodec}.
Context (sql_error : store_error).

(** The answer says whether to execute the command, or what was answered before. *)
Definition BeginCommand (q : EdgeQueue) (command : NodeCommand) (sql : nat → bool) :
    EdgeQueue * (store_error + (bool * option CommandResult)) :=
  if negb (sql 0%nat) then (q, inl sql_error)
  else match q_commands q !! cmd_CommandID command with
  | Some r =>
      let executing := bool_decide (rx_Status r = "executing"%string) in
      if executing && bool_decide (cmd_Command command ∈ idempotent_commands) then (q, inr (true, None))
      else
        let failed := mkCommandResult (cmd_CommandID command) "failed" "" "previous command execution did not complete" in
        (q, inr (false, Some (if executing then failed else default failed (decode_result (rx_Result r)))))
  | None =>
      if negb (sql 1%nat) then (q, inl sql_error)
      else (q <| q_commands := <[cmd_CommandID command := mkReceived (cmd_Command command) (cmd_Payload command) "executing" ""]>
                                 (q_commands q) |>, inr (true, None))
  end.
Definition FinishCommand (q : EdgeQueue) (r : CommandResult) (sql : bool) : EdgeQueue * option store_error :=
  if negb sql then (q, Some sql_error)
  else (q <| q_commands := alter (λ c, c <| rx_Status := rs_Status r |> <| rx_Result := encode_result r |>)
                             (rs_CommandID r) (q_commands q) |>, None).

(** [json_error] is the error of decoding the payload. *)
Definition ConfigurationSuperseded (json_error : store_error) (q : EdgeQueue) (kind payload : string) (sql : bool) : result bool :=
  if negb (settings_command kind) then inr false
  else match configuration_revision payload with
  | None => inl json_error
  | Some revision =>
      if negb sql then inl sql_error
      else match q_revisions q !! kind with
      | None => inr false
      | Some applied => inr (bool_decide (0 < applied) && bool_decide (revision < applied))
      end
  end.
Definition ConfirmConfiguration (json_error : store_error) (q : EdgeQueue) (kind payload : string) (sql : bool) : result EdgeQueue :=
  if negb (settings_command kind) then inr q
  else match configuration_revision payload with
  | None => inl json_error
  | Some revision =>
      if negb sql then inl sql_error
      else
        let applied := match q_revisions q !! kind with Some applied => Z.max applied revision | None => revision end in
        inr (q <| q_revisions := <[kind := applied]> (q_revisions q) |>)
  end.
End commands.

(** ** Blocked addresses *)

Definition UpsertBlockedIP (q : EdgeQueue) (now : time) (ip reason : string) : EdgeQueue :=
  q <| q_blocked := <[ip := (reason, now)]> (q_blocked q) |>.
Definition DeleteBlockedIP (q : EdgeQueue) (ip : string) : EdgeQueue := q <| q_blocked := delete ip (q_blocked q) |>.
(** The controller's blocks first, then the node's own ones of other addresses. *)
Definition ListBlockedIPs (s : Store) (q : EdgeQueue) : list BlockedIP :=
  let blocks (t : gmap string (string * time)) := (λ kr, mkBlockedIP kr.1 kr.2.1 0 kr.2.2) <$> map_to_list t in
  blocks (controller_blocked_ips s) ++ blocks (filter (λ kr, controller_blocked_ips s !! kr.1 = None) (q_blocked q)).
