(* ===== verification/EdgeCommands.v ===== *)
(** * Remote commands at the edge

    The part of [httpapi/handlers_cluster.go] that an edge executes for its
    controller: [HandleEdgeCommand] with every command it knows,
    [rotateLocalEdgeAdmin], the reports and the capabilities of the node, and
    [setRuntime] of [server.go].  The server is the record of the fields these
    functions touch: the running configuration and its file, the edge's store with
    its queue, the FRP core, the transport identity and what the control channel
    announces.

    The choices of the environment are an argument: the clock, the outcome of each
    statement and file system call, fresh randomness.  Payloads and results are
    JSON texts; decoding and encoding them is a class. *)
From Stdlib Require Import ZArith Lia Ascii String.
From stdpp Require Import gmap strings list.
From S2P Require Import Prelude GoStrings Types DpiEngine DpiService FrpManager Config ConfigFile FrpTls NodePorts NodeSettings EdgeStore EdgeIdentity ControllerDB NodeDirectory ControllerLink EdgeQueue.
Local Open Scope Z_scope.

(** ** Data *)

#[export] Instance tuning_eq_dec : EqDecision ConnectionTuning.
Proof. solve_decision. Defined.

Record EdgeCapabilities := mkCapabilities {
  cap_Reporting : EdgeReportingConfig; cap_RemoteCommands : EdgeRemoteCommandsConfig; cap_ControllerAdministration : bool;
  cap_AdminUsername : string; cap_AdminDisplayName : string; cap_RuntimeSettings : NodeRuntimeConfig;
  cap_AdvancedSettings : edgeAdvancedSettings }.

(** The result field of a successful command. *)
Inductive output :=
  | OutIdentity (p : option Public)                                       (* None is the zero value *)
  | OutPermissions (reporting : EdgeReportingConfig) (commands : EdgeRemoteCommandsConfig)
  | OutRuntime (node : NodeRuntimeConfig) (restartRequired : bool)
  | OutAdvanced (settings : edgeAdvancedSettings) (restartRequired : bool)
  | OutTerminated (connections : Z)
  | OutConnection (connectionID : string)
  | OutIP (ip : string)
  | OutAdmin (username displayName : string).
Class EdgePayload := {
  decode_permissions : string → option (EdgeReportingConfig * EdgeRemoteCommandsConfig);
  decode_advanced : string → option edgeAdvancedSettings;
  decode_client : string → option (Z * string * string);
  decode_connection : string → option string;
  decode_block : string → option (string * string);
  decode_unblock : string → option string;
  decode_credentials : string → option (string * string * string);
  encode_output : output → string }.

Record EdgeNodeServer := mkNodeServer {
  es_cfg : Config; es_dir : Dir; es_restartRequired : bool; es_state : option (Store * EdgeQueue);
  es_core : option Manager; es_running : bool; es_tls_file : tls_file; es_tls : option Identity;
  es_capabilities : option EdgeCapabilities; es_controllerControl : bool }.
#[export] Instance eta_edge_node_server : Eta EdgeNodeServer := λ r,
  mkNodeServer (es_cfg r) (es_dir r) (es_restartRequired r) (es_state r) (es_core r) (es_running r) (es_tls_file r) (es_tls r)
    (es_capabilities r) (es_controllerControl r).

(** What the environment decides during one call: [oc_sql] and [oc_io] say which
    statements and file system calls succeed. *)
Record Outcomes := mkOutcomes {
  oc_now : time; oc_sql : nat → bool; oc_io : nat → bool; oc_cut : option content; oc_secret : string + string;
  oc_random : string + Random; oc_random' : string + Random; oc_random'' : string + Random;
  oc_save : option string; oc_save' : option string; oc_save'' : option string; oc_hash : option string }.

Section edge.
Context `{net : NetLib} `{json : CommandJSON} `{payloads : EdgePayload} `{codec : ResultCodec} `{calendar : Calendar}.
Context (sql_error : store_error) (json_error : store_error) (error_text : store_error → string) (os_error : nat → string).
Context (verify_error parse_error : string).

(** ** The configuration *)

Definition edgeCapabilities (cfg : Config) : EdgeCapabilities :=
  mkCapabilities (ec_Reporting (cfg_Edge cfg)) (ec_RemoteCommands (cfg_Edge cfg)) (ec_ControllerAdministrationEnabled (cfg_Edge cfg))
    (ia_Username (InitialAdmin cfg)) (ia_DisplayName (InitialAdmin cfg)) (cfg_Node cfg) (edgeAdvancedSnapshot cfg).
Definition EdgeRuntimeLogsEnabled (s : EdgeNodeServer) : bool :=
  bool_decide (cfg_Mode (es_cfg s) = ModeEdge) && er_RuntimeLogs (ec_Reporting (cfg_Edge (es_cfg s))).
Definition EdgeDPIEventsEnabled (s : EdgeNodeServer) : bool :=
  bool_decide (cfg_Mode (es_cfg s) = ModeEdge) && er_DPIEvents (ec_Reporting (cfg_Edge (es_cfg s))).

(** [setRuntime] of an edge, which has no controller database. *)
Definition setRuntime (s : EdgeNodeServer) (o : Outcomes) (cfg : Config) : EdgeNodeServer :=
  let s := s <| es_cfg := cfg <| FRPTransportTLS := true |> |> in
  let prune (q : EdgeQueue) := if oc_sql o 7%nat then PruneDisabledDPIEvents q (Some (EdgeDPIEventsEnabled s)) else q in
  s <| es_state := (λ st, (st.1, prune st.2)) <$> es_state s |>
    <| es_core := (λ m, SetUDPFlowTimeout m (UDPConnectionTTL cfg)) <$> es_core s |>.
Definition settingsNeedRestart (s : EdgeNodeServer) (cfg : Config) : bool :=
  es_restartRequired s ||
  bool_decide (is_Some (es_core s)) && negb (bool_decide (es_running s = EmbeddedFRPEnabled cfg)) ||
  bool_decide (cfg_Mode cfg = ModeController) && cc_EdgeAccessEnabled (cfg_Controller cfg) && negb (es_controllerControl s).
Definition noteSettingsRestart (s : EdgeNodeServer) (cfg : Config) (changed : bool) : EdgeNodeServer * bool :=
  let s := s <| es_restartRequired := es_restartRequired s || changed |> in (s, settingsNeedRestart s cfg).
Definition announce (s : EdgeNodeServer) (cfg : Config) : EdgeNodeServer :=
  s <| es_capabilities := (λ _, edgeCapabilities cfg) <$> es_capabilities s |>.
Definition write_config (s : EdgeNodeServer) (o : Outcomes) (cfg : Config) : EdgeNodeServer * option string :=
  let '(trace, err) := WriteFileConfig (oc_io o) os_error (oc_cut o) (oc_now o) (oc_secret o) (es_dir s) (Config_FileConfig cfg) in
  (s <| es_dir := default (es_dir s) (last trace) |>, err).
(** Write the file, then run with the new configuration. *)
Definition save_config (s : EdgeNodeServer) (o : Outcomes) (cfg : Config) : EdgeNodeServer * option string :=
  let '(s, err) := write_config s o cfg in
  match err with
  | Some err => (s, Some ("write edge config failed: " +:+ err))
  | None => (setRuntime s o cfg, None)
  end.
Definition prepareFRPIdentity (s : EdgeNodeServer) (o : Outcomes) (cfg : Config) : EdgeNodeServer * option string :=
  if negb (bool_decide (is_Some (es_core s))) || bool_decide (ConfigPath cfg = ""%string) then (s, None)
  else
    let '(file, i, err) := EnsureTLSIdentity verify_error parse_error (es_tls_file s) (es_tls s) (ConfigPath cfg) (oc_now o) (oc_random o) (oc_save o) in
    (s <| es_tls_file := file |> <| es_tls := i |>, err).

(** ** The commands: the server afterwards, and the error or the output *)

Definition effect := (EdgeNodeServer * (string + output))%type.

Definition run_reset_tls (s : EdgeNodeServer) (o : Outcomes) (command : NodeCommand) : effect :=
  let cfg := es_cfg s in
  if negb (ec_ControllerAdministrationEnabled (cfg_Edge cfg)) || negb (rc_ChangeRuntimeSettings (ec_RemoteCommands (cfg_Edge cfg))) ||
     negb (bool_decide (is_Some (es_core s)))
  then (s, inl "remote runtime settings are disabled on this edge"%string)
  else
    let '(file, i, err) := ResetTLSIdentity verify_error parse_error (es_tls_file s) (es_tls s) (ConfigPath cfg) (cmd_CommandID command)
                             (oc_now o) (oc_random o) (oc_random' o) (oc_save o) (oc_save' o) in
    let s := s <| es_tls_file := file |> <| es_tls := i |> in
    match err with
    | Some err => (s, inl ("FRP identity reset failed: " +:+ err))
    | None =>
        let '(file, i, p) := TLSPublic verify_error parse_error (es_tls_file s) (es_tls s) false (oc_now o) (oc_random'' o) (oc_save'' o) in
        (s <| es_tls_file := file |> <| es_tls := i |>, inr (OutIdentity p))
    end.

Definition run_permissions (s : EdgeNodeServer) (o : Outcomes) (command : NodeCommand) : effect :=
  let cfg := es_cfg s in
  if negb (ec_ControllerAdministrationEnabled (cfg_Edge cfg)) then (s, inl "controller administration is disabled on this edge"%string)
  else match decode_permissions (cmd_Payload command) with
  | None => (s, inl "invalid edge permissions payload"%string)
  | Some (reporting, commands) =>
      let cfg := cfg <| cfg_Edge := (cfg_Edge cfg) <| ec_Reporting := reporting |> <| ec_RemoteCommands := commands |> |> in
      let '(s, err) := save_config s o cfg in
      match err with
      | Some err => (s, inl err)
      | None => (announce s cfg, inr (OutPermissions reporting commands))
      end
  end.

Definition run_runtime (s : EdgeNodeServer) (o : Outcomes) (command : NodeCommand) : effect :=
  let cfg := es_cfg s in
  if negb (ec_ControllerAdministrationEnabled (cfg_Edge cfg)) || negb (rc_ChangeRuntimeSettings (ec_RemoteCommands (cfg_Edge cfg)))
  then (s, inl "remote runtime settings are disabled on this edge"%string)
  else match node_config (cmd_Payload command) with
  | None => (s, inl "invalid edge runtime settings payload"%string)
  | Some node =>
      let node := normalizeNodeRuntime node in
      match validateNodeRuntime node with
      | Some err => (s, inl err)
      | None =>
          let changed := negb (bool_decide (n_FRPBindPort (cfg_Node cfg) = n_FRPBindPort node)) in
          let cfg := syncLegacyFRPFields (cfg <| cfg_Node := node |>) in
          let '(s, err) := save_config s o cfg in
          match err with
          | Some err => (s, inl err)
          | None => let '(s, restart) := noteSettingsRestart s cfg changed in (announce s cfg, inr (OutRuntime node restart))
          end
      end
  end.

Definition tuning_changed (old new : Config) : bool :=
  negb (bool_decide (EmbeddedFRPEnabled old = EmbeddedFRPEnabled new)) || negb (bool_decide (FRPBindAddr old = FRPBindAddr new)) ||
  negb (bool_decide (FRPProxyBindAddr old = FRPProxyBindAddr new)) || negb (bool_decide (cfg_ConnectionTuning old = cfg_ConnectionTuning new)).
Definition run_advanced (s : EdgeNodeServer) (o : Outcomes) (command : NodeCommand) : effect :=
  let old := es_cfg s in
  if negb (ec_ControllerAdministrationEnabled (cfg_Edge old)) || negb (rc_ChangeRuntimeSettings (ec_RemoteCommands (cfg_Edge old)))
  then (s, inl "remote runtime settings are disabled on this edge"%string)
  else match decode_advanced (cmd_Payload command) with
  | None => (s, inl "invalid edge advanced settings payload"%string)
  | Some advanced =>
      match applyEdgeAdvancedSettings old advanced with
      | inl err => (s, inl err)
      | inr cfg =>
          let '(s, err) := prepareFRPIdentity s o cfg in
          match err with
          | Some err => (s, inl err)
          | None =>
              let '(s, err) := save_config s o cfg in
              match err with
              | Some err => (s, inl err)
              | None =>
                  let '(s, restart) := noteSettingsRestart s cfg (tuning_changed old cfg) in
                  (announce s cfg, inr (OutAdvanced (edgeAdvancedSnapshot cfg) restart))
              end
          end
      end
  end.

Definition terminate_leases (m : Manager) (leases : list string) : Manager * Z :=
  foldl (λ acc id, let '(m, n, _) := TerminateConnectionsForLease acc.1 id in (m, acc.2 + n)) (m, 0) leases.
Definition run_disconnect_client (s : EdgeNodeServer) (o : Outcomes) (command : NodeCommand) : effect :=
  if negb (rc_DisconnectClient (ec_RemoteCommands (cfg_Edge (es_cfg s)))) then (s, inl "disconnect_client is disabled on this edge"%string)
  else match decode_client (cmd_Payload command) with
  | None => (s, inl "invalid client payload"%string)
  | Some (tokenID, clientID, reason) =>
      if bool_decide (tokenID ≤ 0) || bool_decide (TrimSpace clientID = ""%string) then (s, inl "invalid client payload"%string)
      else match es_state s with
      | None => (s, inl "edge state unavailable"%string)
      | Some (store, q) =>
          if negb (oc_sql o 4%nat) then (s, inl (error_text sql_error))
          else
            let '(store, answer) := DisconnectClientForCommand store (cmd_CommandID command) tokenID clientID reason in
            let s := s <| es_state := Some (store, q) |> in
            match answer with
            | inl err => (s, inl (error_text err))
            | inr leases =>
                match es_core s with
                | None => (s, inr (OutTerminated 0))
                | Some m => let '(m, n) := terminate_leases m leases in (s <| es_core := Some m |>, inr (OutTerminated n))
                end
            end
      end
  end.
Definition run_disconnect_connection (s : EdgeNodeServer) (command : NodeCommand) : effect :=
  if negb (rc_DisconnectConnection (ec_RemoteCommands (cfg_Edge (es_cfg s)))) then (s, inl "disconnect_connection is disabled on this edge"%string)
  else match decode_connection (cmd_Payload command) with
  | None => (s, inl "invalid connection payload"%string)
  | Some connectionID =>
      if bool_decide (TrimSpace connectionID = ""%string) then (s, inl "invalid connection payload"%string)
      else match es_core s with
      | None => (s, inl "connection is not active or cannot be terminated"%string)
      | Some m =>
          let '(m, found, _) := TerminateTCPConnection m (TrimSpace connectionID) in
          let s := s <| es_core := Some m |> in
          if found : bool then (s, inr (OutConnection (TrimSpace connectionID)))
          else (s, inl "connection is not active or cannot be terminated"%string)
      end
  end.

Definition run_block (s : EdgeNodeServer) (o : Outcomes) (command : NodeCommand) : effect :=
  if negb (rc_BlockIP (ec_RemoteCommands (cfg_Edge (es_cfg s)))) then (s, inl "block_ip is disabled on this edge"%string)
  else match decode_block (cmd_Payload command) with
  | None => (s, inl "invalid IP payload"%string)
  | Some (ip, reason) =>
      match ParseAddr (TrimSpace ip) with
      | None => (s, inl "invalid IP address"%string)
      | Some (ip, _) =>
          if negb (oc_sql o 4%nat) then (s, inl (error_text sql_error))
          else
            let s := s <| es_state := (λ st, (st.1, UpsertBlockedIP st.2 (oc_now o) ip reason)) <$> es_state s |> in
            let block m := (BlockInboundIP m (oc_now o) ip reason).1.1 in
            (s <| es_core := block <$> es_core s |>, inr (OutIP ip))
      end
  end.
(** Removing a node-local ban must not override the global scope. *)
Definition restore_block (o : Outcomes) (st : Store * EdgeQueue) (ip : string) (m : Manager) : Manager :=
  if negb (oc_sql o 5%nat) then m
  else match List.find (λ b, bool_decide (bi_IP b = ip)) (ListBlockedIPs st.1 st.2) with
  | None => m
  | Some b => (SetBlockedInboundIP m (oc_now o) (mkBlock (bi_IP b) (bi_Reason b) (bi_CreatedAt b))).1
  end.
Definition run_unblock (s : EdgeNodeServer) (o : Outcomes) (command : NodeCommand) : effect :=
  if negb (rc_BlockIP (ec_RemoteCommands (cfg_Edge (es_cfg s)))) then (s, inl "block_ip is disabled on this edge"%string)
  else match decode_unblock (cmd_Payload command) with
  | None => (s, inl "invalid IP payload"%string)
  | Some ip =>
      match ParseAddr (TrimSpace ip) with
      | None => (s, inl "invalid IP address"%string)
      | Some (ip, _) =>
          if negb (oc_sql o 4%nat) then (s, inl (error_text sql_error))
          else
            let s := s <| es_state := (λ st, (st.1, DeleteBlockedIP st.2 ip)) <$> es_state s |> in
            let unblock m := let m := UnblockInboundIP m ip in
                             match es_state s with Some st => restore_block o st ip m | None => m end in
            (s <| es_core := unblock <$> es_core s |>, inr (OutIP ip))
      end
  end.

Definition run_command (s : EdgeNodeServer) (o : Outcomes) (command : NodeCommand) : effect :=
  let kind := cmd_Command command in
  if bool_decide (kind = "reset_frp_tls"%string) then run_reset_tls s o command
  else if bool_decide (kind = "update_edge_permissions"%string) then run_permissions s o command
  else if bool_decide (kind = "update_edge_runtime_settings"%string) then run_runtime s o command
  else if bool_decide (kind = "update_edge_advanced_settings"%string) then run_advanced s o command
  else if bool_decide (kind = "disconnect_client"%string) then run_disconnect_client s o command
  else if bool_decide (kind = "disconnect_connection"%string) then run_disconnect_connection s command
  else if bool_decide (kind = "block_ip"%string) then run_block s o command
  else if bool_decide (kind = "unblock_ip"%string) then run_unblock s o command
  else (s, inl "unsupported command"%string).

(** ** The handler *)

Definition on_queue (s : EdgeNodeServer) (q : EdgeQueue) : EdgeNodeServer :=
  s <| es_state := (λ st, (st.1, q)) <$> es_state s |>.
Definition finish (s : EdgeNodeServer) (o : Outcomes) (prefix : string) (r : CommandResult) : EdgeNodeServer * CommandResult :=
  match es_state s with
  | None => (s, r)
  | Some (_, q) =>
      let '(q, err) := FinishCommand sql_error q r (oc_sql o 3%nat) in
      (on_queue s q, match err with
                     | Some err => r <| rs_Status := "retry"%string |> <| rs_Error := prefix +:+ error_text err |>
                     | None => r
                     end)
  end.
(** Record the applied revision, then the result. *)
Definition conclude (s : EdgeNodeServer) (o : Outcomes) (command : NodeCommand) (r : CommandResult) : EdgeNodeServer * CommandResult :=
  match es_state s with
  | None => (s, r)
  | Some (_, q) =>
      if bool_decide (rs_Status r = "succeeded"%string) then
        match ConfirmConfiguration sql_error json_error q (cmd_Command command) (cmd_Payload command) (oc_sql o 6%nat) with
        | inl err => (s, r <| rs_Status := "retry"%string |> <| rs_Error := "persist configuration revision: " +:+ error_text err |>)
        | inr q => finish (on_queue s q) o "persist edge command result: " r
        end
      else finish s o "persist edge command result: " r
  end.
Definition expired (o : Outcomes) (command : NodeCommand) : bool :=
  negb (settings_command (cmd_Command command)) && negb (IsZero (cmd_ExpiresAt command)) && After (oc_now o) (cmd_ExpiresAt command).

Definition rotateLocalEdgeAdmin (s : EdgeNodeServer) (o : Outcomes) (command : NodeCommand) : EdgeNodeServer * CommandResult :=
  let failed err := mkCommandResult (cmd_CommandID command) "failed" "" err in
  let cfg := es_cfg s in
  if negb (ec_ControllerAdministrationEnabled (cfg_Edge cfg)) then (s, failed "controller administration is disabled on this edge"%string)
  else if negb (IsZero (cmd_ExpiresAt command)) && After (oc_now o) (cmd_ExpiresAt command)
  then (s, failed "credential command expired before execution"%string)
  else match decode_credentials (cmd_Payload command) with
  | None => (s, failed "invalid administrator credentials payload"%string)
  | Some (username, displayName, password) =>
      let username := TrimSpace username in
      let displayName := TrimSpace displayName in
      if bool_decide (username = ""%string) || bool_decide (64 < slen username) || bool_decide (slen password < 8) || bool_decide (72 < slen password)
      then (s, failed "invalid administrator username or password"%string)
      else match oc_hash o with
      | None => (s, failed "hash administrator password failed"%string)
      | Some hash =>
          let cfg := cfg <| InitialAdmin := mkAdmin username displayName hash |> in
          let '(s, err) := save_config s o cfg in
          match err with
          | Some err => (s, failed err)
          | None => (announce s cfg, mkCommandResult (cmd_CommandID command) "succeeded" (encode_output (OutAdmin username displayName)) "")
          end
      end
  end.

Definition superseded_result : string := "{" +:+ quoted "superseded" +:+ ":true}".
(** A command that is not answered from the log. *)
Definition execute (s : EdgeNodeServer) (q : EdgeQueue) (o : Outcomes) (command : NodeCommand) : EdgeNodeServer * CommandResult :=
  let answer status result err := mkCommandResult (cmd_CommandID command) status result err in
  match ConfigurationSuperseded sql_error json_error q (cmd_Command command) (cmd_Payload command) (oc_sql o 2%nat) with
  | inl err => (s, answer "retry"%string ""%string ("read configuration revision: " +:+ error_text err))
  | inr true => finish s o "" (answer "succeeded"%string superseded_result ""%string)
  | inr false =>
      if expired o command then
        let r := answer "failed"%string ""%string "command expired before execution"%string in
        ((finish s o "" r).1, r)
      else
        let '(s, outcome) := run_command s o command in
        let r := match outcome with
                 | inl err => answer "failed"%string ""%string err
                 | inr out => answer "succeeded"%string (encode_output out) ""%string
                 end in
        conclude s o command r
  end.
Definition HandleEdgeCommand (s : EdgeNodeServer) (o : Outcomes) (command : NodeCommand) : EdgeNodeServer * CommandResult :=
  let answer status result err := mkCommandResult (cmd_CommandID command) status result err in
  match es_state s with
  | None => (s, answer "failed"%string ""%string "edge state unavailable"%string)
  | Some (_, q) =>
      if bool_decide (cmd_Command command = "rotate_edge_admin"%string) then rotateLocalEdgeAdmin s o command
      else
        let '(q, begun) := BeginCommand sql_error q command (oc_sql o) in
        let s := on_queue s q in
        match begun with
        | inl err => (s, answer "retry"%string ""%string (error_text err))
        | inr (false, Some cached) => (s, cached)
        | inr _ => execute s q o command
        end
  end.

(** ** Reports *)

Definition connection_snapshot (c : ActiveConnection) : EdgeConnectionSnapshot :=
  mkEdgeConnection (a_ID c) (a_Protocol c) (a_UserID c) (a_TokenID c) (a_ClientID c) (a_ClientAddr c) (a_LeaseID c) (a_ProxyName c)
    (a_ProxyType c) (a_RemotePort c) (a_InboundAddr c) (a_InboundIP c) (a_InboundPort c) (a_ServerAddr c) (a_OpenedAt c) (a_LastSeenAt c)
    (a_CanTerminate c).
Definition traffic_snapshot (t : TrafficSnapshot) : EdgeTrafficSnapshot :=
  mkEdgeTraffic (BytesInbound t) (BytesOutbound t) (SamplesInbound t) (SamplesOutbound t) (StartedAt t) (CapturedAt t).
Definition EdgeHeartbeatPayload (s : EdgeNodeServer) (now : time) (rows : client_rows) : HeartbeatPayload :=
  match es_state s with
  | None => mkHeartbeat "" 0 0 0 [] 0 false [] None
  | Some (store, q) =>
      let p := HeartbeatPayload_ store q now rows in
      let reporting := ec_Reporting (cfg_Edge (es_cfg s)) in
      let connections := match es_core s with
                         | Some m => if er_Connections reporting then Some (ListConnections m now (UDPConnectionTTL (es_cfg s))) else None
                         | None => None
                         end in
      mkHeartbeat (hb_ReportError p) (if er_ClientPresence reporting then hb_ClientsOnline p else 0)
        (match connections with Some cs => len cs | None => hb_FRPConnections p end) (hb_PendingEvents p)
        (if er_ClientPresence reporting then hb_Clients p else []) 1 (er_Connections reporting)
        (match connections with Some cs => connection_snapshot <$> cs | None => hb_Connections p end)
        (match es_core s with
         | Some m => if er_TrafficStatistics reporting then Some (traffic_snapshot (take_TrafficSnapshot m now)) else hb_Traffic p
         | None => hb_Traffic p
         end)
  end.
(** [sql] is the deletion of the queued DPI events when they are not reported. *)
Definition EdgePendingEvents (s : EdgeNodeServer) (sql : bool) : EdgeNodeServer * result (list EventEnvelope) :=
  match es_state s with
  | None => (s, inr [])
  | Some (store, q) =>
      let reporting := ec_Reporting (cfg_Edge (es_cfg s)) in
      let logs := if er_RuntimeLogs reporting then ["runtime_log"%string] else [] in
      if er_DPIEvents reporting then (s, inr (PendingEventsForTypes q ("dpi_event"%string :: logs)))
      else
        let pruned := if EdgeDPIEventsEnabled s then inr q
                      else if sql then inr (PruneDisabledDPIEvents q (Some false)) else inl sql_error in
        match pruned with
        | inl err => (s, inl err)
        | inr q => (on_queue s q, inr (PendingEventsForTypes q logs))
        end
  end.
(** The public address that the controller observed replaces an automatic one. *)
Definition HandleObservedAddress (s : EdgeNodeServer) (o : Outcomes) (address : string) : EdgeNodeServer :=
  let address := TrimSpace address in
  let cfg := es_cfg s in
  if bool_decide (address = ""%string) || negb (bool_decide (cfg_Mode cfg = ModeEdge)) ||
     negb (isLocalAdvertiseAddress (n_FRPAdvertiseAddr (cfg_Node cfg))) then s
  else
    let cfg := syncLegacyFRPFields (cfg <| cfg_Node := (cfg_Node cfg) <| n_FRPAdvertiseAddr := address |> |>) in
    let '(s, err) := write_config s o cfg in
    match err with Some _ => s | None => announce (setRuntime s o cfg) cfg end.
End edge.
