(* ===== verification/CommandLog.v ===== *)
(** * Commands are answered once

    What the log of received commands ([EdgeQueue]) gives to [HandleEdgeCommand]
    over a sequence of deliveries: a command whose answer was stored is answered
    from the log and never executed again, and settings never go back to an older
    revision. *)
From Stdlib Require Import ZArith Lia Ascii String.
From stdpp Require Import gmap strings list.
From S2P Require Import Prelude GoStrings Types DpiEngine DpiService FrpManager Config ConfigFile FrpTls NodePorts NodeSettings EdgeStore EdgeIdentity ControllerDB NodeDirectory ControllerLink EdgeQueue EdgeCommands.
Local Open Scope Z_scope.

Section log.
Context `{net : NetLib} `{json : CommandJSON} `{payloads : EdgePayload} `{codec : ResultCodec} `{calendar : Calendar}.
Context (sql_error : store_error) (json_error : store_error) (error_text : store_error → string) (os_error : nat → string).
Context (verify_error parse_error : string).

Abbreviation Handle := (HandleEdgeCommand sql_error json_error error_text os_error verify_error parse_error).
Abbreviation Run := (run_command sql_error error_text os_error verify_error parse_error).

(** The queue of the server. *)
Definition queue_of (s : EdgeNodeServer) : EdgeQueue := match es_state s with Some (_, q) => q | None => empty_queue end.
Definition log_of (s : EdgeNodeServer) : gmap string ReceivedCommand := q_commands (queue_of s).
Definition revisions_of (s : EdgeNodeServer) : gmap string Z := q_revisions (queue_of s).

(** Executing a command leaves the log and the revisions to the handler. *)
Definition same_log (s s' : EdgeNodeServer) : Prop :=
  log_of s' = log_of s ∧ revisions_of s' = revisions_of s ∧ (is_Some (es_state s) → is_Some (es_state s')).
#[local] Instance same_log_pre : PreOrder same_log.
Proof.
  split; [by intros s; split_and!|]. intros a b c (H1 & H2 & H3) (H4 & H5 & H6). split_and!; [congruence|congruence|auto].
Qed.
Lemma same_log_state s f :
  (∀ st, q_commands (f st).2 = q_commands st.2 ∧ q_revisions (f st).2 = q_revisions st.2) →
  same_log s (s <| es_state := f <$> es_state s |>).
Proof.
  intros Hf. unfold same_log, log_of, revisions_of, queue_of. cbn. destruct (es_state s) as [[st q]|]; cbn; [|done].
  destruct (Hf (st, q)) as [H1 H2]. destruct (f (st, q)) as [st' q'] eqn:E. cbn in *. split_and!; [done..|]. intros _. by eexists.
Qed.
Lemma same_log_setRuntime s o cfg : same_log s (setRuntime s o cfg).
Proof.
  unfold setRuntime. set (s1 := s <| es_cfg := _ |>).
  transitivity s1; [done|]. etransitivity; [apply (same_log_state s1)|done].
  intros [st q]. cbn. destruct (oc_sql o 7%nat); [|done]. unfold PruneDisabledDPIEvents. by case_bool_decide.
Qed.
Lemma same_log_write_config s o cfg s' err : write_config os_error s o cfg = (s', err) → same_log s s'.
Proof. unfold write_config. destruct (WriteFileConfig _ _ _ _ _ _ _). by intros [= <- <-]. Qed.
Lemma same_log_save_config s o cfg s' err : save_config os_error s o cfg = (s', err) → same_log s s'.
Proof.
  unfold save_config. destruct (write_config os_error s o cfg) as [s1 e] eqn:E. apply same_log_write_config in E.
  destruct e; intros [= <- <-]; [done|]. etransitivity; [done|apply same_log_setRuntime].
Qed.
Lemma same_log_note s cfg changed s' restart : noteSettingsRestart s cfg changed = (s', restart) → same_log s s'.
Proof. unfold noteSettingsRestart. by intros [= <- <-]. Qed.
Lemma same_log_announce s cfg : same_log s (announce s cfg).
Proof. done. Qed.
Lemma same_log_prepare s o cfg s' err : prepareFRPIdentity verify_error parse_error s o cfg = (s', err) → same_log s s'.
Proof.
  unfold prepareFRPIdentity. destruct (_ || _); [by intros [= <- <-]|].
  destruct (EnsureTLSIdentity _ _ _ _ _ _ _ _) as [[file i] e]. by intros [= <- <-].
Qed.

Lemma same_log_reset_tls s o c s' r : run_reset_tls verify_error parse_error s o c = (s', r) → same_log s s'.
Proof.
  unfold run_reset_tls. destruct (_ || _); [by intros [= <- <-]|].
  destruct (ResetTLSIdentity _ _ _ _ _ _ _ _ _ _ _) as [[file i] [err|]]; [by intros [= <- <-]|].
  destruct (TLSPublic _ _ _ _ _ _ _ _) as [[file' i'] p]. by intros [= <- <-].
Qed.
Lemma same_log_permissions s o c s' r : run_permissions os_error s o c = (s', r) → same_log s s'.
Proof.
  unfold run_permissions. destruct (negb _); [by intros [= <- <-]|].
  destruct (decode_permissions _) as [[reporting commands]|]; [|by intros [= <- <-]].
  destruct (save_config os_error s o _) as [s1 [err|]] eqn:E; apply same_log_save_config in E; by intros [= <- <-].
Qed.
Lemma same_log_runtime s o c s' r : run_runtime os_error s o c = (s', r) → same_log s s'.
Proof.
  unfold run_runtime. destruct (_ || _); [by intros [= <- <-]|]. destruct (node_config _) as [node|]; [|by intros [= <- <-]].
  destruct (validateNodeRuntime _); [by intros [= <- <-]|].
  destruct (save_config os_error s o _) as [s1 [err|]] eqn:E; apply same_log_save_config in E; by intros [= <- <-].
Qed.
Lemma same_log_advanced s o c s' r : run_advanced os_error verify_error parse_error s o c = (s', r) → same_log s s'.
Proof.
  unfold run_advanced. destruct (_ || _); [by intros [= <- <-]|]. destruct (decode_advanced _) as [advanced|]; [|by intros [= <- <-]].
  destruct (applyEdgeAdvancedSettings _ _) as [err|cfg]; [by intros [= <- <-]|].
  destruct (prepareFRPIdentity _ _ s o cfg) as [s1 [err|]] eqn:E; apply same_log_prepare in E; [by intros [= <- <-]|].
  destruct (save_config os_error s1 o _) as [s2 [err|]] eqn:E2; apply same_log_save_config in E2; intros [= <- <-]; by transitivity s1.
Qed.
Lemma same_log_disconnect_client s o c s' r : run_disconnect_client sql_error error_text s o c = (s', r) → same_log s s'.
Proof.
  unfold run_disconnect_client. destruct (negb _); [by intros [= <- <-]|].
  destruct (decode_client _) as [[[tokenID clientID] reason]|]; [|by intros [= <- <-]]. destruct (_ || _); [by intros [= <- <-]|].
  destruct (es_state s) as [[store q]|] eqn:Es; [|by intros [= <- <-]]. destruct (negb _); [by intros [= <- <-]|].
  destruct (DisconnectClientForCommand _ _ _ _ _) as [store' [err|leases]];
    assert (Hs : ∀ core, same_log s (s <| es_state := Some (store', q) |> <| es_core := core |>))
      by (intros core; unfold same_log, log_of, revisions_of, queue_of; cbn; rewrite Es; split_and!; [done..|by eexists]).
  - intros [= <- <-]. apply (Hs (es_core s)).
  - cbn. destruct (es_core s) as [m|] eqn:Ec.
    + destruct (terminate_leases m leases) as [m' n]. intros [= <- <-]. apply Hs.
    + intros [= <- <-]. apply (Hs (es_core s)).
Qed.
Lemma same_log_disconnect_connection s c s' r : run_disconnect_connection s c = (s', r) → same_log s s'.
Proof.
  unfold run_disconnect_connection. destruct (negb _); [by intros [= <- <-]|].
  destruct (decode_connection _); [|by intros [= <- <-]]. case_bool_decide; [by intros [= <- <-]|].
  destruct (es_core s) as [m|]; [|by intros [= <- <-]]. destruct (TerminateTCPConnection _ _) as [[m' [|]] closed]; by intros [= <- <-].
Qed.
Lemma same_log_block s o c s' r : run_block sql_error error_text s o c = (s', r) → same_log s s'.
Proof.
  unfold run_block. destruct (negb _); [by intros [= <- <-]|]. destruct (decode_block _) as [[ip reason]|]; [|by intros [= <- <-]].
  destruct (ParseAddr _) as [[addr ?]|]; [|by intros [= <- <-]]. destruct (negb _); [by intros [= <- <-]|]. intros [= <- <-].
  etransitivity; [apply (same_log_state s (λ st, (st.1, UpsertBlockedIP st.2 (oc_now o) addr reason))); by intros [? ?]|done].
Qed.
Lemma same_log_unblock s o c s' r : run_unblock sql_error error_text s o c = (s', r) → same_log s s'.
Proof.
  unfold run_unblock. destruct (negb _); [by intros [= <- <-]|]. destruct (decode_unblock _) as [ip|]; [|by intros [= <- <-]].
  destruct (ParseAddr _) as [[addr ?]|]; [|by intros [= <- <-]]. destruct (negb _); [by intros [= <- <-]|]. intros [= <- <-].
  etransitivity; [apply (same_log_state s (λ st, (st.1, DeleteBlockedIP st.2 addr))); by intros [? ?]|done].
Qed.
Lemma same_log_run s o c s' r : Run s o c = (s', r) → same_log s s'.
Proof.
  unfold run_command. repeat case_bool_decide; eauto using same_log_reset_tls, same_log_permissions, same_log_runtime, same_log_advanced,
    same_log_disconnect_client, same_log_disconnect_connection, same_log_block, same_log_unblock. by intros [= <- <-].
Qed.

(** ** What the handler does to the log *)

Lemma on_queue_same s st q : es_state s = Some (st, q) → on_queue s q = s.
Proof. destruct s; cbn. intros ->. done. Qed.
Lemma log_on_queue s q : is_Some (es_state s) → log_of (on_queue s q) = q_commands q ∧ revisions_of (on_queue s q) = q_revisions q.
Proof. intros [[st q'] E]. unfold log_of, revisions_of, queue_of, on_queue. cbn. by rewrite E. Qed.
Lemma state_on_queue s q : is_Some (es_state s) → is_Some (es_state (on_queue s q)).
Proof. intros [[st q'] E]. unfold on_queue. cbn. rewrite E. by eexists. Qed.

(** [s'] differs from [s] in the log only. *)
Definition relogged (s s' : EdgeNodeServer) : Prop := s' = on_queue s ((queue_of s) <| q_commands := log_of s' |>).
Lemma relogged_refl s : relogged s s.
Proof. unfold relogged, log_of, queue_of, on_queue. destruct s as [? ? ? [[st []]|]]; done. Qed.
Lemma relogged_trans s1 s2 s3 : relogged s1 s2 → relogged s2 s3 → relogged s1 s3.
Proof.
  unfold relogged. intros H1 H2. rewrite H2 at 1. rewrite H1. unfold on_queue, queue_of. cbn.
  destruct (es_state s1) as [[st q]|]; done.
Qed.
Lemma relogged_on_queue s st q m : es_state s = Some (st, q) → relogged s (on_queue s (q <| q_commands := m |>)).
Proof. intros E. unfold relogged, log_of, queue_of, on_queue. cbn. by rewrite E. Qed.

(** The answer that the log holds for a command. *)
Definition logged (s : EdgeNodeServer) (id : string) (r : CommandResult) : Prop :=
  ∃ row, log_of s !! id = Some row ∧ rx_Status row ≠ "executing"%string ∧
    default (mkCommandResult id "failed" "" "previous command execution did not complete") (decode_result (rx_Result row)) = r.

Definition stored (r : CommandResult) (row : ReceivedCommand) : ReceivedCommand :=
  row <| rx_Status := rs_Status r |> <| rx_Result := encode_result r |>.
Lemma finish_cases s o prefix r s' r' :
  is_Some (es_state s) → finish sql_error error_text s o prefix r = (s', r') →
  is_Some (es_state s') ∧ revisions_of s' = revisions_of s ∧
  (oc_sql o 3%nat = true ∧ r' = r ∧ log_of s' = alter (stored r) (rs_CommandID r) (log_of s) ∨
   oc_sql o 3%nat = false ∧ rs_Status r' = "retry"%string ∧ log_of s' = log_of s).
Proof.
  intros Hs. unfold finish. destruct Hs as [[st q] E]. rewrite E. unfold FinishCommand. destruct (oc_sql o 3%nat); cbn; intros [= <- <-];
  (split; [apply state_on_queue; by eexists|]);
    (edestruct log_on_queue as [H1 H2]; [by eexists|]; rewrite H1, H2); unfold log_of, revisions_of, queue_of; rewrite E; auto.
Qed.

Lemma finish_relogged s o prefix r s' r' :
  is_Some (es_state s) → finish sql_error error_text s o prefix r = (s', r') → relogged s s'.
Proof.
  intros [[st q] E]. unfold finish. rewrite E. unfold FinishCommand. destruct (negb _).
  - rewrite (on_queue_same s st q E). intros [= <- <-]. apply relogged_refl.
  - intros [= <- <-]. by apply (relogged_on_queue s st).
Qed.
Definition rev_le (a b : gmap string Z) : Prop := ∀ kind n, a !! kind = Some n → ∃ n', b !! kind = Some n' ∧ n ≤ n'.
#[local] Instance rev_le_pre : PreOrder rev_le.
Proof.
  split; [intros a k n H; exists n; split; [done|lia]|]. intros a b c Hab Hbc k n H.
  destruct (Hab _ _ H) as (n' & H' & ?). destruct (Hbc _ _ H') as (n'' & H'' & ?). exists n''. split; [done|lia].
Qed.
Lemma rev_le_refl' a b : b = a → rev_le a b.
Proof. by intros ->. Qed.

Definition written (s s' : EdgeNodeServer) (id : string) (r : CommandResult) : Prop :=
  rs_CommandID r = id ∧ rs_Status r ≠ "executing"%string ∧ log_of s' = alter (stored r) id (log_of s).

Lemma conclude_cases s o c r s' r' :
  is_Some (es_state s) → rs_Status r ≠ "executing"%string → conclude sql_error json_error error_text s o c r = (s', r') →
  is_Some (es_state s') ∧ rev_le (revisions_of s) (revisions_of s') ∧
  (r' = r ∧ written s s' (rs_CommandID r) r ∨ rs_Status r' = "retry"%string ∧ log_of s' = log_of s).
Proof.
  intros Hs Hr. unfold conclude. destruct (es_state s) as [[st q]|] eqn:E; [|by destruct Hs].
  assert (Hq : log_of s = q_commands q ∧ revisions_of s = q_revisions q) by (unfold log_of, revisions_of, queue_of; by rewrite E).
  destruct Hq as [Hlog Hrev]. case_bool_decide.
  2: { intros F. apply finish_cases in F; [|by rewrite E]. destruct F as (? & ? & F). split_and!; [done|by apply rev_le_refl'|].
       unfold written. naive_solver. }
  destruct (ConfirmConfiguration _ _ _ _ _ _) as [err|q'] eqn:Ec.
  { intros [= <- <-]. cbn. rewrite E. split_and!; [by eexists|done|by right]. }
  assert (Hq : q_commands q' = q_commands q ∧ rev_le (q_revisions q) (q_revisions q')).
  { unfold ConfirmConfiguration in Ec. destruct (negb (settings_command _)); [by injection Ec as <-|].
    destruct (configuration_revision _) as [rev|]; [|done]. destruct (negb _); [done|]. injection Ec as <-. cbn. split; [done|].
    intros kind n Hk. destruct (decide (kind = cmd_Command c)) as [->|Hne].
    - rewrite lookup_insert_eq, Hk. eexists. split; [done|lia].
    - rewrite lookup_insert_ne by done. exists n. split; [done|lia]. }
  intros F. destruct (log_on_queue s q') as [L1 L2]; [by rewrite E|]. apply finish_cases in F; [|apply state_on_queue; by rewrite E].
  destruct F as (Hs' & Hrev' & F). rewrite L1 in F. rewrite L2 in Hrev'. destruct Hq as [Hc Hle]. rewrite Hc, <- Hlog in F.
  split_and!; [done|by rewrite Hrev, Hrev'|]. unfold written. naive_solver.
Qed.
Lemma execute_cases s o c s' r :
  is_Some (es_state s) → execute sql_error json_error error_text os_error verify_error parse_error s (queue_of s) o c = (s', r) →
  is_Some (es_state s') ∧ rev_le (revisions_of s) (revisions_of s') ∧
  (written s s' (cmd_CommandID c) r ∨
   log_of s' = log_of s ∧ (rs_Status r = "retry"%string ∨ expired o c = true ∧ oc_sql o 3%nat = false)).
Proof.
  intros Hs. unfold execute. destruct (ConfigurationSuperseded _ _ _ _ _ _) as [err|[|]].
  - intros [= <- <-]. split_and!; [done|done|]. right. auto.
  - intros F. apply finish_cases in F; [|done]. destruct F as (? & ? & F). split_and!; [done|by apply rev_le_refl'|].
    unfold written. naive_solver.
  - destruct (expired o c) eqn:Ex.
    + destruct (finish _ _ _ _ _ _) as [s1 r1] eqn:F. cbn. intros [= <- <-]. apply finish_cases in F; [|done]. destruct F as (? & ? & F).
      split_and!; [done|by apply rev_le_refl'|]. unfold written. naive_solver.
    + destruct (run_command _ _ _ _ _ s o c) as [s1 out] eqn:Er. apply same_log_run in Er. destruct Er as (L & R & S).
      intros F. apply conclude_cases in F; [|auto|by destruct out]. destruct F as (? & Hle & F). rewrite R in Hle.
      split_and!; [done..|]. destruct F as [[-> W]|[??]]; [left|right].
      * destruct W as (? & ? & W). rewrite L in W. by destruct out.
      * split; [congruence|by left].
Qed.

Lemma same_log_rotate s o c s' r : rotateLocalEdgeAdmin os_error s o c = (s', r) → same_log s s'.
Proof.
  unfold rotateLocalEdgeAdmin. destruct (negb _); [by intros [= <- <-]|]. destruct (_ && _); [by intros [= <- <-]|].
  destruct (decode_credentials _) as [[[username display] password]|]; [|by intros [= <- <-]].
  destruct (_ || _); [by intros [= <- <-]|]. destruct (oc_hash o); [|by intros [= <- <-]].
  destruct (save_config os_error s o _) as [s1 [err|]] eqn:E; apply same_log_save_config in E; by intros [= <- <-].
Qed.

(** Receiving a command: it is answered from the log or without a change, or it is executed with its row in the log. *)
Lemma handle_cases s o c s' r :
  is_Some (es_state s) → cmd_Command c ≠ "rotate_edge_admin"%string → Handle s o c = (s', r) →
  s' = s ∧ (oc_sql o 0%nat && oc_sql o 1%nat = false ∧ rs_Status r = "retry"%string ∨ logged s (cmd_CommandID c) r ∨
            cmd_Command c ∉ idempotent_commands) ∨
  ∃ s1, is_Some (es_state s1) ∧ revisions_of s1 = revisions_of s ∧ relogged s s1 ∧
    is_Some (log_of s1 !! cmd_CommandID c) ∧ (∀ id, id ≠ cmd_CommandID c → log_of s1 !! id = log_of s !! id) ∧
    (∀ row, log_of s !! cmd_CommandID c = Some row → rx_Status row = "executing"%string) ∧
    execute sql_error json_error error_text os_error verify_error parse_error s1 (queue_of s1) o c = (s', r).
Proof.
  intros Hs Hk. unfold HandleEdgeCommand. destruct (es_state s) as [[st q]|] eqn:E; [|by destruct Hs]. rewrite bool_decide_eq_false_2 by done.
  assert (Hq : queue_of s = q) by (unfold queue_of; by rewrite E).
  unfold BeginCommand. destruct (oc_sql o 0%nat) eqn:E0; cbn [negb].
  2: { rewrite (on_queue_same s st q E). intros [= <- <-]. left. auto. }
  destruct (q_commands q !! cmd_CommandID c) as [row|] eqn:Er.
  - assert (Hrow : log_of s !! cmd_CommandID c = Some row) by (unfold log_of; by rewrite Hq).
    case_bool_decide as Hx; cbn [andb].
    + case_bool_decide as Hi; cbn [andb].
      * rewrite (on_queue_same s st q E). intros F. right. exists s. rewrite Hq, E, Hrow.
        split_and!; [by eexists|done|apply relogged_refl|by eexists|done|by intros ? [= <-]|done].
      * rewrite (on_queue_same s st q E). intros [= <- <-]. left. auto.
    + rewrite (on_queue_same s st q E). intros [= <- <-]. left. split; [done|]. right; left. exists row. auto.
  - destruct (oc_sql o 1%nat) eqn:E1; cbn [negb].
    2: { rewrite (on_queue_same s st q E). intros [= <- <-]. left. auto. }
    set (q1 := q <| q_commands := _ |>). intros F. right. exists (on_queue s q1).
    destruct (log_on_queue s q1) as [L1 L2]; [by rewrite E|]. rewrite L1, L2. unfold log_of, revisions_of. rewrite Hq.
    assert (Hq1 : queue_of (on_queue s q1) = q1) by (unfold queue_of, on_queue; cbn; by rewrite E). rewrite Hq1.
    split_and!; [apply state_on_queue; rewrite E; by eexists|done|by apply (relogged_on_queue s st)| | | |done].
    + cbn. rewrite lookup_insert_eq. by eexists.
    + intros id Hid. cbn. by rewrite lookup_insert_ne by done.
    + intros row Hrow. congruence.
Qed.

Lemma handle_logged s o c id r s' r' :
  is_Some (es_state s) → logged s id r → Handle s o c = (s', r') → is_Some (es_state s') ∧ logged s' id r.
Proof.
  intros Hs HL F. destruct (decide (cmd_Command c = "rotate_edge_admin"%string)) as [Hk|Hk].
  { unfold HandleEdgeCommand in F. destruct (es_state s) as [[st q]|] eqn:Es; [|by destruct Hs]. rewrite bool_decide_eq_true_2 in F by done.
    apply same_log_rotate in F. destruct F as (L & _ & S). split; [apply S; by rewrite Es|]. destruct HL as (row & ? & ? & ?). exists row. by rewrite L. }
  apply handle_cases in F; [|done..]. destruct F as [[-> _]|(s1 & Hs1 & _ & _ & _ & Hother & Hown & F)]; [done|].
  apply execute_cases in F; [|done]. destruct F as (Hs' & _ & F). split; [done|].
  destruct HL as (row & Hrow & Hx & Hr). exists row. split; [|done].
  destruct (decide (id = cmd_CommandID c)) as [->|Hne]; [by apply Hown in Hrow|].
  destruct F as [(_ & _ & W)|[W _]]; rewrite W; [rewrite lookup_alter_ne by done|]; by rewrite Hother.
Qed.
Lemma handle_from_log s o c r :
  is_Some (es_state s) → logged s (cmd_CommandID c) r → cmd_Command c ≠ "rotate_edge_admin"%string → oc_sql o 0%nat = true →
  Handle s o c = (s, r).
Proof.
  intros Hs (row & Hrow & Hx & <-) Hk H0. unfold HandleEdgeCommand. destruct (es_state s) as [[st q]|] eqn:E; [|by destruct Hs].
  rewrite bool_decide_eq_false_2 by done. unfold BeginCommand. unfold log_of, queue_of in Hrow. rewrite E in Hrow.
  rewrite H0, Hrow. cbn. rewrite (bool_decide_eq_false_2 _ Hx). cbn. by rewrite (on_queue_same s st q E).
Qed.

Definition handle_all (s : EdgeNodeServer) (deliveries : list (Outcomes * NodeCommand)) : EdgeNodeServer :=
  foldl (λ s d, (Handle s d.1 d.2).1) s deliveries.
Lemma handle_all_logged s ds id r :
  is_Some (es_state s) → logged s id r → is_Some (es_state (handle_all s ds)) ∧ logged (handle_all s ds) id r.
Proof.
  revert s. induction ds as [|[o c] ds IH]; intros s Hs HL; [done|]. cbn. destruct (Handle s o c) as [s1 r1] eqn:F.
  destruct (handle_logged _ _ _ _ _ _ _ Hs HL F) as [Hs1 HL1]. by apply IH.
Qed.

(** C5: a logged command is answered once. Take one of the eight commands in the list [idempotent_commands], which are all that
    an edge executes except for the rotation of its administrator; that one is not logged and is executed again when it
    is delivered again. Let the edge answer the command with anything but retry, where the answer survives its JSON encoding
    and, if the command had expired, is stored. Then, whatever commands the edge receives afterwards, with whatever failures
    of the database, of the disk and of the certificates, delivering the command again at a time when the log can be read
    changes nothing at the edge and gives the same answer. *)
Theorem command_answered_once s o c s' r later o' :
  is_Some (es_state s) → cmd_Command c ∈ idempotent_commands → Handle s o c = (s', r) →
  rs_Status r ≠ "retry"%string → decode_result (encode_result r) = Some r → expired o c = false ∨ oc_sql o 3%nat = true →
  oc_sql o' 0%nat = true →
  Handle (handle_all s' later) o' c = (handle_all s' later, r).
Proof.
  intros Hs Hk F Hr Hc Hx H0.
  assert (Hk' : cmd_Command c ≠ "rotate_edge_admin"%string) by (intros E; rewrite E in Hk; revert Hk; apply (bool_decide_unpack _); vm_compute; exact I).
  assert (HL : is_Some (es_state s') ∧ logged s' (cmd_CommandID c) r).
  { apply handle_cases in F; [|done..]. destruct F as [[-> F]|(s1 & Hs1 & _ & _ & [row Hrow] & _ & _ & F)].
    - split; [done|]. by destruct F as [[_ F]|[F|F]].
    - apply execute_cases in F; [|done]. destruct F as (Hs' & _ & [W|[_ [F|[F1 F2]]]]); [|done|destruct Hx; congruence].
      split; [done|]. destruct W as (Hid & Hst & W). exists (stored r row). rewrite W, lookup_alter_eq, Hrow. split_and!; [done..|].
      cbn. by rewrite Hc. }
  destruct HL as [Hs' HL]. destruct (handle_all_logged s' later _ _ Hs' HL). by apply handle_from_log.
Qed.

(** ** Settings never go back *)

Lemma handle_revisions s o c s' r :
  is_Some (es_state s) → Handle s o c = (s', r) → is_Some (es_state s') ∧ rev_le (revisions_of s) (revisions_of s').
Proof.
  intros Hs F. destruct (decide (cmd_Command c = "rotate_edge_admin"%string)) as [Hk|Hk].
  { unfold HandleEdgeCommand in F. destruct (es_state s) as [[st q]|] eqn:Es; [|by destruct Hs]. rewrite bool_decide_eq_true_2 in F by done.
    apply same_log_rotate in F. destruct F as (_ & R & S). rewrite R. split; [apply S; by rewrite Es|done]. }
  apply handle_cases in F; [|done..]. destruct F as [[-> _]|(s1 & Hs1 & R & _ & _ & _ & _ & F)]; [done|].
  apply execute_cases in F; [|done]. rewrite R in F. naive_solver.
Qed.
Lemma handle_all_revisions s ds :
  is_Some (es_state s) → is_Some (es_state (handle_all s ds)) ∧ rev_le (revisions_of s) (revisions_of (handle_all s ds)).
Proof.
  revert s. induction ds as [|[o c] ds IH]; intros s Hs; [done|]. cbn. destruct (Handle s o c) as [s1 r1] eqn:F.
  destruct (handle_revisions _ _ _ _ _ Hs F) as [Hs1 R1]. destruct (IH s1 Hs1) as [Hs2 R2]. split; [done|]. by transitivity (revisions_of s1).
Qed.

(** After a settings command succeeded, its revision is recorded. *)
Lemma finish_revisions s o prefix r s' r' :
  is_Some (es_state s) → finish sql_error error_text s o prefix r = (s', r') → revisions_of s' = revisions_of s.
Proof. intros Hs F. apply finish_cases in F; naive_solver. Qed.
Lemma superseded_recorded s o c :
  ConfigurationSuperseded sql_error json_error (queue_of s) (cmd_Command c) (cmd_Payload c) (oc_sql o 2%nat) = inr true →
  ∃ n applied, configuration_revision (cmd_Payload c) = Some n ∧ revisions_of s !! cmd_Command c = Some applied ∧ n < applied.
Proof.
  unfold ConfigurationSuperseded, revisions_of. destruct (negb (settings_command _)); [done|].
  destruct (configuration_revision _) as [n|]; [|done]. destruct (negb _); [done|].
  destruct (q_revisions _ !! _) as [applied|]; [|done]. intros [= H]. exists n, applied.
  apply andb_true_iff in H as [_ H]. by apply bool_decide_eq_true in H.
Qed.
Lemma execute_recorded s o c s' r n :
  is_Some (es_state s) → execute sql_error json_error error_text os_error verify_error parse_error s (queue_of s) o c = (s', r) →
  settings_command (cmd_Command c) = true → configuration_revision (cmd_Payload c) = Some n → rs_Status r = "succeeded"%string →
  ∃ applied, revisions_of s' !! cmd_Command c = Some applied ∧ n ≤ applied.
Proof.
  intros Hs F Hk Hn Hr. unfold execute in F. destruct (ConfigurationSuperseded _ _ _ _ _ _) as [err|[|]] eqn:Esup.
  - by injection F as <- <-.
  - apply superseded_recorded in Esup as (n' & applied & Hn' & Ha & Hlt). apply finish_revisions in F; [|done]. rewrite F.
    exists applied. split; [done|]. assert (n' = n) by congruence. lia.
  - destruct (expired o c).
    { destruct (finish _ _ _ _ _ _). by injection F as <- <-. }
    destruct (run_command _ _ _ _ _ s o c) as [s1 out] eqn:Er. apply same_log_run in Er. destruct Er as (_ & _ & S).
    unfold conclude in F. destruct (es_state s1) as [[st q]|] eqn:E1; [|by destruct (S Hs)].
    destruct out as [err|out].
    { cbn in F. apply finish_cases in F; [|by rewrite E1]. destruct F as (_ & _ & [(_ & -> & _)|(_ & F & _)]); [done|congruence]. }
    cbn in F. unfold ConfirmConfiguration in F. rewrite Hk, Hn in F. cbn in F.
    destruct (oc_sql o 6%nat); cbn in F; [|by injection F as <- <-].
    apply finish_revisions in F; [|apply state_on_queue; by rewrite E1]. rewrite F, (proj2 (log_on_queue _ _ (ltac:(by rewrite E1)))). cbn.
    rewrite lookup_insert_eq. eexists. split; [done|]. destruct (q_revisions q !! _); lia.
Qed.

(** C6: Settings never go back to an older revision. Let an edge receive a settings command (runtime settings, advanced
    settings or permissions) for the first time and answer that it succeeded. After any further commands, a command of
    the same kind with a smaller revision, delivered late or again, changes nothing at the edge but the log of received
    commands: the configuration and its file, the FRP core, the transport identity and the announced capabilities stay
    as they are. *)
Theorem old_settings_ignored s0 o0 c0 n0 s r0 later o c n s' r :
  is_Some (es_state s0) → log_of s0 !! cmd_CommandID c0 = None → Handle s0 o0 c0 = (s, r0) → rs_Status r0 = "succeeded"%string →
  settings_command (cmd_Command c0) = true → configuration_revision (cmd_Payload c0) = Some n0 → 0 < n0 →
  cmd_Command c = cmd_Command c0 → configuration_revision (cmd_Payload c) = Some n → n < n0 →
  Handle (handle_all s later) o c = (s', r) →
  relogged (handle_all s later) s'.
Proof.
  intros Hs0 Hnew F0 Hr0 Hk Hn0 Hpos Hc Hn Hlt F.
  assert (Hrot : ∀ c', cmd_Command c' = cmd_Command c0 → cmd_Command c' ≠ "rotate_edge_admin"%string) by (intros c' -> E; by rewrite E in Hk).
  assert (Hrec : ∃ applied, revisions_of s !! cmd_Command c0 = Some applied ∧ n0 ≤ applied).
  { apply handle_cases in F0; [|auto..]. destruct F0 as [[-> F0]|(s1 & Hs1 & _ & _ & _ & _ & _ & F0)].
    - destruct F0 as [[_ F0]|[(row & Hrow & _)|Hi]]; [congruence|congruence|]. exfalso. apply Hi. revert Hk. unfold settings_command.
      rewrite bool_decide_eq_true. unfold idempotent_commands. rewrite !elem_of_cons. naive_solver.
    - by eapply execute_recorded. }
  destruct Hrec as (a0 & Ha0 & Hle0). apply handle_revisions in F0 as [Hs _]; [|done].
  destruct (handle_all_revisions s later Hs) as [Hs2 Hrev]. destruct (Hrev _ _ Ha0) as (a & Ha & Hle). revert F Hs2 Ha.
  generalize (handle_all s later). intros s2 F Hs2 Ha. apply handle_cases in F; [|auto..].
  destruct F as [[-> _]|(s1 & Hs1 & R1 & L1 & _ & _ & _ & F)]; [apply relogged_refl|].
  unfold execute, ConfigurationSuperseded in F. rewrite Hc, Hk, Hn in F. cbn in F. unfold revisions_of in R1, Ha. rewrite R1, Ha in F.
  rewrite !bool_decide_eq_true_2 in F by lia. cbn in F. destruct (oc_sql o 2%nat); cbn in F; [|by injection F as <- <-].
  apply finish_relogged in F; [|done]. by apply (relogged_trans _ s1).
Qed.
End log.

(** An edge that its controller administers, two revisions of its permissions, and an address to block. *)
Definition demo_reporting : EdgeReportingConfig := mkReporting true true true true true.
Definition demo_commands (block : bool) : EdgeRemoteCommandsConfig := mkRemoteCommands true true block true.
#[local] Instance demo_net : NetLib := {| ParseIP _ := None; url_Parse _ := None; ParseAddr s := Some (s, s) |}.
#[local] Instance demo_json : CommandJSON := {|
  configuration_revision p := if bool_decide (p = "new"%string) then Some 2 else Some 1;
  node_config _ := None; result_superseded r := bool_decide (r = superseded_result) |}.
#[local] Instance demo_payload : EdgePayload := {|
  decode_permissions p := Some (demo_reporting, demo_commands (bool_decide (p = "new"%string)));
  decode_advanced _ := None; decode_client _ := None; decode_connection _ := None;
  decode_block p := Some (p, ""%string); decode_unblock p := Some p; decode_credentials _ := None;
  encode_output out := match out with OutIP ip => ip | _ => ""%string end |}.
#[local] Instance demo_codec : ResultCodec := {|
  encode_result r := rs_Result r; decode_result s := Some (mkCommandResult "b" "succeeded" s "") |}.
#[local] Instance demo_days : Calendar := demo_calendar.
Definition demo_edge : EdgeNodeServer :=
  let cfg := demo_config <| cfg_Edge := (cfg_Edge demo_config) <| ec_ControllerAdministrationEnabled := true |>
                                          <| ec_RemoteCommands := demo_commands true |> |> in
  mkNodeServer cfg (mkDir None None None) false (Some (empty_store, empty_queue)) None false TLSMissing None None false.
Definition demo_outcomes : Outcomes :=
  mkOutcomes 0 (λ _, true) (λ _, true) None (inr "secret"%string) (inl ""%string) (inl ""%string) (inl ""%string) None None None None.
Definition demo_block : NodeCommand := mkCommand "b" "edge" "block_ip" "192.0.2.7" zero_time.
Definition demo_unblock : NodeCommand := mkCommand "u" "edge" "unblock_ip" "192.0.2.7" zero_time.
Definition demo_new : NodeCommand := mkCommand "n" "edge" "update_edge_permissions" "new" zero_time.
Definition demo_old : NodeCommand := mkCommand "o" "edge" "update_edge_permissions" "old" zero_time.
Abbreviation demo_handle := (HandleEdgeCommand ErrConstraint ErrConstraint (λ _, "e"%string) (λ _, "e"%string) "" "").
Abbreviation demo_handle_all := (handle_all ErrConstraint ErrConstraint (λ _, "e"%string) (λ _, "e"%string) "" "").

(** The address stays unblocked when the command to block it is delivered again. *)
Lemma command_answered_once_witness :
  let s := demo_handle_all (demo_handle demo_edge demo_outcomes demo_block).1 [(demo_outcomes, demo_unblock)] in
  demo_handle s demo_outcomes demo_block = (s, mkCommandResult "b" "succeeded" "192.0.2.7" "") ∧ q_blocked (queue_of s) = ∅.
Proof.
  split; [|vm_compute; reflexivity].
  eapply (command_answered_once ErrConstraint ErrConstraint (λ _, "e"%string) (λ _, "e"%string) "" "" demo_edge demo_outcomes demo_block).
  - by eexists.
  - apply (bool_decide_unpack _). vm_compute. exact I.
  - apply injective_projections; [reflexivity|vm_compute; reflexivity].
  - done.
  - reflexivity.
  - right. reflexivity.
  - reflexivity.
Defined.
Lemma old_settings_ignored_witness :
  let s := demo_handle_all (demo_handle demo_edge demo_outcomes demo_new).1 [(demo_outcomes, demo_unblock)] in
  let s' := (demo_handle s demo_outcomes demo_old).1 in
  relogged s s' ∧ ec_RemoteCommands (cfg_Edge (es_cfg s')) = demo_commands true.
Proof.
  intros s s'. split; [|vm_compute; reflexivity].
  eapply (old_settings_ignored ErrConstraint ErrConstraint (λ _, "e"%string) (λ _, "e"%string) "" "" demo_edge demo_outcomes demo_new 2
            (demo_handle demo_edge demo_outcomes demo_new).1 (demo_handle demo_edge demo_outcomes demo_new).2
            [(demo_outcomes, demo_unblock)] demo_outcomes demo_old 1 s' (demo_handle s demo_outcomes demo_old).2).
  - by eexists.
  - vm_compute; reflexivity.
  - apply surjective_pairing.
  - vm_compute; reflexivity.
  - vm_compute; reflexivity.
  - reflexivity.
  - lia.
  - reflexivity.
  - reflexivity.
  - lia.
  - apply surjective_pairing.
Defined.
