(* ===== verification/SystemSettings.v ===== *)
(** * Administrators and system settings

    The server process of either mode as the administration handlers see it:
    [requireAdmin], [login] and the tokens of [handlers_system_auth.go], and
    [updateSystemSettings] on a controller and on an edge.  The request is the
    decoded JSON; the outcomes of the clock, the database, the disk and the random
    source are arguments. *)
From Stdlib Require Import ZArith Lia Ascii String.
From stdpp Require Import gmap strings list.
From S2P Require Import Prelude GoStrings Base64 Security Types DpiEngine DpiService FrpManager Config ConfigFile FrpTls NodePorts NodeSettings Pki EdgeStore EdgeIdentity ControllerDB NodeDirectory ControllerLink EdgeQueue EdgeCommands.
Local Open Scope Z_scope.

(** A process has a node, and on a controller the database and the control channel. *)
Record System := mkSystem { sy_node : EdgeNodeServer; sy_db : option ControllerDB; sy_control : option ControllerServer }.
#[export] Instance eta_system : Eta System := λ s, mkSystem (sy_node s) (sy_db s) (sy_control s).
Definition sy_cfg (s : System) : Config := es_cfg (sy_node s).
(** The status and the message of an error. *)
Definition http_error : Type := Z * string.

(** [strings.Fields]. *)
Definition flush (word : string) : list string := if bool_decide (word = ""%string) then [] else [word].
Definition snoc (word : string) (c : ascii) : string := word +:+ String c EmptyString.
Fixpoint fields_from (word s : string) : list string :=
  match s with
  | EmptyString => flush word
  | String a s1 =>
      if is_space1 (ord a) then flush word ++ fields_from "" s1
      else match s1 with
           | EmptyString => flush (snoc word a)
           | String b s2 =>
               if is_space2 (ord a) (ord b) then flush word ++ fields_from "" s2
               else match s2 with
                    | EmptyString => fields_from (snoc word a) s1
                    | String c s3 => if is_space3 (ord a) (ord b) (ord c) then flush word ++ fields_from "" s3 else fields_from (snoc word a) s1
                    end
           end
  end.
Definition Fields (s : string) : list string := fields_from "" s.
Definition bearerToken (authorization : string) : string :=
  match Fields (TrimSpace authorization) with
  | [scheme; token] => if EqualFold scheme "Bearer" then token else ""%string
  | _ => ""%string
  end.

(** The request of [updateSystemSettings]. *)
Record updateControllerSettingsRequest := mkUpdateController {
  uc_EdgeAccessEnabled : bool; uc_ListenAddr : string; uc_PublicAddress : string; uc_HeartbeatIntervalSeconds : Z }.
Record updateSystemSettingsRequest := mkUpdateSettings {
  us_ConnectionTuning : option ConnectionTuning; us_ConfigurationMode : option string; us_NodeSelectable : option bool;
  us_EmbeddedFRPEnabled : option bool; us_FRPBindAddr : string; us_FRPProxyBindAddr : string; us_FRPServerAddr : string;
  us_FRPServerPort : Z; us_FRPTransportTLS : option bool; us_ClientConfigComment : string; us_SessionTTL : string;
  us_RuntimeTokenTTL : string; us_UDPConnectionTTL : string; us_Controller : option updateControllerSettingsRequest;
  us_Node : option NodeRuntimeConfig; us_Reporting : option EdgeReportingConfig; us_RemoteCommands : option EdgeRemoteCommandsConfig;
  us_ControllerAdministrationEnabled : option bool }.

Section system.
Context `{net : NetLib} `{json : CommandJSON} `{payloads : EdgePayload} `{calendar : Calendar} `{x509 : X509Lib}.
Context (sql_error : store_error) (error_text : store_error → string) (os_error : nat → string) (verify_error parse_error : string).
Context (sha256 : string → string) (hmac_sha256 : string → string → string) (base64_error number_error : string → string).
(** bcrypt's comparison of a hash and a password. *)
Context (CheckPassword : string → string → bool).
Context (Join : list string → string) (Dir : string → string) (IsAbs : string → bool) (pair_error : string).

(** ** Administrators *)

Definition edge_admin (cfg : Config) : User :=
  mkUser 1 (ia_Username (InitialAdmin cfg)) (ia_DisplayName (InitialAdmin cfg)) "" "admin" "active" "" zero_time zero_time.
(** The token is the bearer's, or else the cookie's. *)
Definition presented (authorization cookie : string) : string :=
  if bool_decide (bearerToken authorization = ""%string) then cookie else bearerToken authorization.
(** [sql] says which queries succeed. *)
Definition requireAdmin (s : System) (now : time) (authorization cookie : string) (sql : nat → bool) : http_error + User :=
  let cfg := sy_cfg s in
  let token := presented authorization cookie in
  let query {A} k (r : result A) : result A := if sql k then r else inl sql_error in
  if bool_decide (cfg_Mode cfg = ModeEdge) then
    if bool_decide (token = ""%string) then inl (401, "not logged in"%string)
    else match ParseAdminBrowserToken hmac_sha256 base64_error number_error token (ia_PasswordHash (InitialAdmin cfg)) (CookieSecret cfg) now with
    | inr (userID, _) => if bool_decide (userID = 1) then inr (edge_admin cfg) else inl (401, "invalid admin token"%string)
    | inl _ => inl (401, "invalid admin token"%string)
    end
  else match sy_db s with
  | None => inl (503, "system setup required"%string)
  | Some d =>
      if bool_decide (token = ""%string) then inl (401, "not logged in"%string)
      else match AdminBrowserTokenUserID base64_error number_error token with
      | inl _ => inl (401, "invalid admin token"%string)
      | inr userID =>
          match query 0%nat (GetUserByID d userID) with
          | inl _ => inl (403, "admin required"%string)
          | inr user =>
              if negb (bool_decide (u_Role user = "admin"%string)) || negb (bool_decide (u_Status user = "active"%string))
              then inl (403, "admin required"%string)
              else match query 1%nat (GetAdminAPITokenByUserID d userID) with
              | inl _ => inl (403, "admin token required"%string)
              | inr adminToken =>
                  if negb (bool_decide (at_Status adminToken = "active"%string)) then inl (403, "admin token required"%string)
                  else match ParseAdminBrowserToken hmac_sha256 base64_error number_error token (at_TokenHash adminToken) (CookieSecret cfg) now with
                  | inl _ => inl (401, "invalid admin token"%string)
                  | inr _ => inr user
                  end
              end
          end
      end
  end.

Definition issueEdgeAdminBrowserToken (cfg : Config) (now : time) (nonce : string + string) (user : User) : string + (string * time) :=
  NewAdminBrowserToken hmac_sha256 (u_ID user) (ia_PasswordHash (InitialAdmin cfg)) (CookieSecret cfg) (SessionTTL cfg) now nonce.
Definition create_fixed_token (d : ControllerDB) (now : time) (raw : string + string) (sql : bool) (userID : Z) :
    ControllerDB * (string + AdminAPIToken) :=
  match NewOpaqueToken sha256 raw "adm_" with
  | inl err => (d, inl err)
  | inr (plain, hash) =>
      match (if sql then CreateAdminAPIToken d now userID hash (TokenPrefix plain) else inl sql_error) with
      | inl err => (d, inl (error_text err))
      | inr (d, t) => (d, inr t)
      end
  end.
Definition ensureAdminFixedToken (d : ControllerDB) (now : time) (raw : string + string) (sql : nat → bool) (userID : Z) :
    ControllerDB * (string + AdminAPIToken) :=
  match (if sql 0%nat then GetAdminAPITokenByUserID d userID else inl sql_error) with
  | inr t => if bool_decide (at_Status t = "active"%string) then (d, inr t) else create_fixed_token d now raw (sql 1%nat) userID
  | inl err => if bool_decide (err = ErrNotFound) then create_fixed_token d now raw (sql 1%nat) userID else (d, inl (error_text err))
  end.
Definition issueAdminBrowserToken (d : ControllerDB) (cfg : Config) (now : time) (raw nonce : string + string) (sql : nat → bool) (user : User) :
    ControllerDB * (string + (string * time)) :=
  match ensureAdminFixedToken d now raw sql (u_ID user) with
  | (d, inl err) => (d, inl err)
  | (d, inr t) => (d, NewAdminBrowserToken hmac_sha256 (u_ID user) (at_TokenHash t) (CookieSecret cfg) (SessionTTL cfg) now nonce)
  end.
Definition login (s : System) (now : time) (raw nonce : string + string) (sql : nat → bool) (username password : string) :
    System * (http_error + (User * string * time)) :=
  let cfg := sy_cfg s in
  if bool_decide (cfg_Mode cfg = ModeEdge) then
    if negb (bool_decide (TrimSpace username = ia_Username (InitialAdmin cfg))) || negb (CheckPassword (ia_PasswordHash (InitialAdmin cfg)) password)
    then (s, inl (401, "invalid username or password"%string))
    else (s, match issueEdgeAdminBrowserToken cfg now nonce (edge_admin cfg) with
             | inl err => inl (500, err)
             | inr (token, expires) => inr (edge_admin cfg, token, expires)
             end)
  else match sy_db s with
  | None => (s, inl (503, "system setup required"%string))
  | Some d =>
      match (if sql 2%nat then GetUserByUsername d (TrimSpace username) else inl sql_error) with
      | inl err => (s, if bool_decide (err = ErrNotFound) then inl (401, "invalid username or password"%string) else inl (500, error_text err))
      | inr user =>
          if negb (CheckPassword (u_PasswordHash user) password) then (s, inl (401, "invalid username or password"%string))
          else if negb (bool_decide (u_Role user = "admin"%string)) || negb (bool_decide (u_Status user = "active"%string))
          then (s, inl (403, "admin account is not active"%string))
          else
            let '(d, issued) := issueAdminBrowserToken d cfg now raw nonce sql user in
            (s <| sy_db := Some d |>, match issued with inl err => inl (500, err) | inr (token, expires) => inr (user, token, expires) end)
      end
  end.

(** ** Settings *)

Definition opt_set {A} (v : option A) (current : A) : A := default current v.
Definition tuning_of (req : updateSystemSettingsRequest) : RuntimeTuning :=
  mkRuntimeTuning (us_SessionTTL req) (us_RuntimeTokenTTL req) (us_UDPConnectionTTL req) (us_FRPBindAddr req) (us_FRPProxyBindAddr req)
    (us_ClientConfigComment req).
Definition set_tuning (cfg : Config) (tuning : option ConnectionTuning) : http_error + Config :=
  match tuning with
  | None => inr cfg
  | Some tuning => match ValidateConnectionTuning tuning with
                   | Some err => inl (400, err)
                   | None => inr (cfg <| cfg_ConnectionTuning := tuning |>)
                   end
  end.
Definition set_mode (cfg : Config) (mode : option string) : http_error + Config :=
  match mode with
  | None => inr cfg
  | Some mode =>
      if negb (bool_decide (mode = ConfigurationAutomatic)) && negb (bool_decide (mode = ConfigurationManual))
      then inl (400, "configuration_mode must be automatic or manual"%string)
      else inr (cfg <| ConfigurationMode := mode |>)
  end.
(** What both modes do with the request first. *)
Definition common_settings (cfg : Config) (req : updateSystemSettingsRequest) : http_error + Config :=
  match set_tuning cfg (us_ConnectionTuning req) with
  | inl err => inl err
  | inr cfg =>
      match set_mode cfg (us_ConfigurationMode req) with
      | inl err => inl err
      | inr cfg => match applyRuntimeTuning cfg (tuning_of req) with inl err => inl (400, err) | inr cfg => inr cfg end
      end
  end.
Definition node_settings (cfg : Config) (node : NodeRuntimeConfig) : http_error + Config :=
  let node := normalizeNodeRuntime node in
  match validateNodeRuntime node with
  | Some err => inl (400, err)
  | None => inr (syncLegacyFRPFields (cfg <| cfg_Node := node |>))
  end.
Definition set_selectable (cfg : Config) (selectable : option bool) : Config :=
  cfg <| cfg_Node := (cfg_Node cfg) <| n_Selectable := opt_set selectable (n_Selectable (cfg_Node cfg)) |> |>.
Definition edge_node (cfg : Config) (node : option NodeRuntimeConfig) : http_error + Config :=
  match node with None => inr cfg | Some node => node_settings cfg node end.
Definition edge_settings (cfg : Config) (req : updateSystemSettingsRequest) : http_error + Config :=
  let cfg := cfg <| EmbeddedFRPEnabled := opt_set (us_EmbeddedFRPEnabled req) (EmbeddedFRPEnabled cfg) |>
                 <| FRPTransportTLS := opt_set (us_FRPTransportTLS req) (FRPTransportTLS cfg) |> in
  match edge_node cfg (us_Node req) with
  | inl err => inl err
  | inr cfg =>
      let edge := cfg_Edge cfg in
      let edge := edge <| ec_Reporting := opt_set (us_Reporting req) (ec_Reporting edge) |>
                       <| ec_RemoteCommands := opt_set (us_RemoteCommands req) (ec_RemoteCommands edge) |>
                       <| ec_ControllerAdministrationEnabled := opt_set (us_ControllerAdministrationEnabled req) (ec_ControllerAdministrationEnabled edge) |> in
      let cfg := set_selectable (cfg <| cfg_Edge := edge |>) (us_NodeSelectable req) in
      match prepareAdvancedSettings cfg with inl err => inl (400, err) | inr cfg => inr cfg end
  end.
(** The legacy request changes the address and the port only. *)
Definition legacy_node (cfg : Config) (req : updateSystemSettingsRequest) : Config :=
  let node := cfg_Node cfg in
  let node := if bool_decide (us_FRPServerAddr req = ""%string) then node else node <| n_FRPAdvertiseAddr := TrimSpace (us_FRPServerAddr req) |> in
  let node := if bool_decide (us_FRPServerPort req = 0) then node else node <| n_FRPBindPort := us_FRPServerPort req |> in
  syncLegacyFRPFields (cfg <| cfg_Node := node |>).
Definition control_settings (cfg : Config) (req : updateControllerSettingsRequest) : http_error + Config :=
  let c := (cfg_Controller cfg) <| cc_EdgeAccessEnabled := uc_EdgeAccessEnabled req |> in
  let c := if bool_decide (TrimSpace (uc_ListenAddr req) = ""%string) then c else c <| cc_ListenAddr := TrimSpace (uc_ListenAddr req) |> in
  let c := if bool_decide (TrimSpace (uc_PublicAddress req) = ""%string) then c
           else c <| cc_PublicAddress := NormalizeControllerAddress (uc_PublicAddress req) |> in
  if bool_decide (uc_HeartbeatIntervalSeconds req = 0) then inr (cfg <| cfg_Controller := c |>)
  else if bool_decide (uc_HeartbeatIntervalSeconds req < 2) || bool_decide (60 < uc_HeartbeatIntervalSeconds req)
  then inl (400, "heartbeat interval must be between 2 and 60 seconds"%string)
  else inr (cfg <| cfg_Controller := c <| cc_HeartbeatIntervalSeconds := uc_HeartbeatIntervalSeconds req |> |>).
Definition controller_node (cfg : Config) (req : updateSystemSettingsRequest) : http_error + Config :=
  match us_Node req with
  | Some node => node_settings cfg node
  | None => if negb (bool_decide (us_FRPServerAddr req = ""%string)) || negb (bool_decide (us_FRPServerPort req = 0))
            then inr (legacy_node cfg req) else inr cfg
  end.
Definition set_control (cfg : Config) (req : option updateControllerSettingsRequest) : http_error + Config :=
  match req with None => inr cfg | Some req => control_settings cfg req end.
Definition controller_settings (files : string → string + string) (now : time) (fresh fresh' : string + Fresh) (cfg : Config)
    (req : updateSystemSettingsRequest) : http_error + Config :=
  match controller_node cfg req with
  | inl err => inl err
  | inr cfg =>
      let cfg := set_selectable cfg (us_NodeSelectable req) in
      if bool_decide (FRPServerAddr cfg = ""%string) then inl (400, "frp_server_addr is required"%string)
      else if bool_decide (FRPServerPort cfg ≤ 0) || bool_decide (65535 < FRPServerPort cfg) then inl (400, "frp_server_port is invalid"%string)
      else
        let given v current := if bool_decide (TrimSpace v = ""%string) then current else TrimSpace v in
        let cfg := cfg <| EmbeddedFRPEnabled := opt_set (us_EmbeddedFRPEnabled req) (EmbeddedFRPEnabled cfg) |>
                       <| FRPBindAddr := given (us_FRPBindAddr req) (FRPBindAddr cfg) |>
                       <| FRPProxyBindAddr := given (us_FRPProxyBindAddr req) (FRPProxyBindAddr cfg) |>
                       <| FRPTransportTLS := opt_set (us_FRPTransportTLS req) (FRPTransportTLS cfg) |>
                       <| ClientConfigComment := given (us_ClientConfigComment req) (ClientConfigComment cfg) |> in
        match set_control cfg (us_Controller req) with
        | inl err => inl err
        | inr cfg =>
            match prepareAdvancedSettings cfg with
            | inl err => inl (400, err)
            | inr cfg =>
                if negb (cc_EdgeAccessEnabled (cfg_Controller cfg)) then inr cfg
                else if bool_decide (cc_PublicAddress (cfg_Controller cfg) = ""%string)
                then inl (400, "controller public_address is required when edge access is enabled"%string)
                else match ensureControllerPKI Join Dir IsAbs base64_error pair_error files cfg now fresh fresh' with
                | inl err => inl (500, "prepare controller PKI failed: " +:+ err)
                | inr cfg => inr cfg
                end
            end
        end
  end.

(** Prepare the identity, write the file and run with the configuration. *)
Definition install_settings (node : EdgeNodeServer) (o : Outcomes) (cfg : Config) : EdgeNodeServer * option http_error :=
  match prepareFRPIdentity verify_error parse_error node o cfg with
  | (node, Some err) => (node, Some (500, "prepare FRP identity failed: " +:+ err))
  | (node, None) =>
      match write_config os_error node o cfg with
      | (node, Some err) => (node, Some (500, "write config failed: " +:+ err))
      | (node, None) => (setRuntime node o cfg, None)
      end
  end.
Definition edge_changed (old cfg : Config) : bool :=
  negb (bool_decide (n_FRPBindPort (cfg_Node old) = n_FRPBindPort (cfg_Node cfg))) ||
  negb (bool_decide (EmbeddedFRPEnabled old = EmbeddedFRPEnabled cfg)) || negb (bool_decide (FRPBindAddr old = FRPBindAddr cfg)) ||
  negb (bool_decide (FRPProxyBindAddr old = FRPProxyBindAddr cfg)) || negb (bool_decide (cfg_ConnectionTuning old = cfg_ConnectionTuning cfg)).
Definition controller_changed (old cfg : Config) : bool :=
  let oc := cfg_Controller old in
  let cc := cfg_Controller cfg in
  negb (bool_decide (EmbeddedFRPEnabled old = EmbeddedFRPEnabled cfg)) || negb (bool_decide (FRPBindAddr old = FRPBindAddr cfg)) ||
  negb (bool_decide (FRPProxyBindAddr old = FRPProxyBindAddr cfg)) || negb (bool_decide (FRPServerPort old = FRPServerPort cfg)) ||
  negb (bool_decide (cc_EdgeAccessEnabled oc = cc_EdgeAccessEnabled cc)) || negb (bool_decide (cc_ListenAddr oc = cc_ListenAddr cc)) ||
  negb (bool_decide (cc_PublicAddress oc = cc_PublicAddress cc)) || negb (bool_decide (cfg_ConnectionTuning old = cfg_ConnectionTuning cfg)).
(** The answer says whether a restart is required. *)
Definition updateSystemSettings (files : string → string + string) (s : System) (o : Outcomes) (fresh fresh' : string + Fresh)
    (req : updateSystemSettingsRequest) : System * (http_error + bool) :=
  let old := sy_cfg s in
  if bool_decide (us_FRPTransportTLS req = Some false) then (s, inl (400, "仅支持 TCP+TLS，不能关闭 FRP TLS"%string))
  else match common_settings old req with
  | inl err => (s, inl err)
  | inr cfg =>
      if bool_decide (cfg_Mode cfg = ModeEdge) then
        match edge_settings cfg req with
        | inl err => (s, inl err)
        | inr cfg =>
            match install_settings (sy_node s) o cfg with
            | (node, Some err) => (s <| sy_node := node |>, inl err)
            | (node, None) =>
                let '(node, restart) := noteSettingsRestart (announce node cfg) cfg (edge_changed old cfg) in
                (s <| sy_node := node |>, inr restart)
            end
        end
      else
        match controller_settings files (oc_now o) fresh fresh' cfg req with
        | inl err => (s, inl err)
        | inr cfg =>
            let s := s <| sy_control := (λ c, SetHeartbeatInterval c (cc_HeartbeatIntervalSeconds (cfg_Controller cfg))) <$> sy_control s |> in
            match install_settings (sy_node s) o cfg with
            | (node, Some err) => (s <| sy_node := node |>, inl err)
            | (node, None) =>
                let '(node, restart) := noteSettingsRestart node cfg (controller_changed old cfg) in
                (s <| sy_node := node |>, inr restart)
            end
        end
  end.
End system.
