(* ===== verification/SettingsRestart.v ===== *)
(** * Settings survive a restart

    A settings request that succeeds leaves a running configuration that is what
    the process loads from its file when it starts again. *)
From Stdlib Require Import ZArith Lia Ascii String.
From stdpp Require Import gmap strings list.
From S2P Require Import Prelude GoStrings Base64 Security Types DpiEngine DpiService FrpManager Config ConfigFile FrpTls NodePorts NodeSettings Pki EdgeStore EdgeIdentity ControllerDB NodeDirectory ControllerLink EdgeQueue EdgeCommands SystemSettings.
Local Open Scope Z_scope.

(** ** What keeps a configuration settled *)

(** The conditions of [Validate]. *)
Record valid_config (c : Config) : Prop := mkValid {
  vc_tuning : ValidateConnectionTuning (cfg_ConnectionTuning c) = None;
  vc_mode : ConfigurationMode c = ""%string ∨ ConfigurationMode c = ConfigurationAutomatic ∨ ConfigurationMode c = ConfigurationManual;
  vc_kind : cfg_Mode c = ModeController ∨ cfg_Mode c = ModeEdge;
  vc_initialized : Initialized c = true;
  vc_admin : ia_Username (InitialAdmin c) ≠ ""%string ∧ ia_PasswordHash (InitialAdmin c) ≠ ""%string;
  vc_controller : cfg_Mode c = ModeController → MySQLDSN c ≠ ""%string;
  vc_edge : cfg_Mode c = ModeEdge → ec_NodeID (cfg_Edge c) ≠ ""%string ∧ ec_ControllerAddr (cfg_Edge c) ≠ ""%string ∧
    (hasEmbeddedTLS (ec_TLS (cfg_Edge c)) = true ∨ hasFileTLS (ec_TLS (cfg_Edge c)) = true);
  vc_node : ValidateNodeRuntime (cfg_Node c) = None }.
Lemma Validate_iff c : Validate c = None ↔ valid_config c.
Proof.
  unfold Validate. split.
  - destruct (ValidateConnectionTuning _) eqn:Et; [done|]. intros Hv.
    destruct (bool_decide (ConfigurationMode c ≠ _) && _ && _) eqn:Em; [done|].
    destruct (bool_decide (cfg_Mode c ≠ _) && _) eqn:Ek; [done|]. destruct (Initialized c) eqn:Ei; [|done]. cbn [negb] in Hv.
    destruct (bool_decide (ia_Username _ = _) || _) eqn:Ea; [done|].
    destruct (bool_decide (cfg_Mode c = ModeController) && _) eqn:Ec; [done|].
    destruct (bool_decide (cfg_Mode c = ModeEdge) && (_ || _)) eqn:Ee; [done|].
    destruct (bool_decide (cfg_Mode c = ModeEdge) && _ && _) eqn:Es; [done|].
    split; [done|..|done].
    + repeat case_bool_decide; first [tauto|done].
    + repeat case_bool_decide; first [tauto|done].
    + done.
    + bools. done.
    + intros Hm. rewrite bool_decide_eq_true_2 in Ec by done. cbn in Ec. by bools.
    + intros Hm. rewrite bool_decide_eq_true_2 in Ee, Es by done. cbn in Ee, Es. bools. split_and!; [done..|].
      destruct (hasEmbeddedTLS _); [by left|right]. by destruct (hasFileTLS _).
  - intros [Ht Hm Hk Hi [Hu Hp] Hc He Hn]. rewrite Ht, Hi. cbn [negb].
    assert (E1 : bool_decide (ConfigurationMode c ≠ ""%string) && bool_decide (ConfigurationMode c ≠ ConfigurationAutomatic) &&
                 bool_decide (ConfigurationMode c ≠ ConfigurationManual) = false) by (repeat case_bool_decide; naive_solver).
    assert (E2 : bool_decide (cfg_Mode c ≠ ModeController) && bool_decide (cfg_Mode c ≠ ModeEdge) = false)
      by (repeat case_bool_decide; naive_solver).
    rewrite E1, E2, !(bool_decide_eq_false_2 (ia_Username _ = _)), (bool_decide_eq_false_2 (ia_PasswordHash _ = _)) by done. cbn [orb].
    assert (E3 : bool_decide (cfg_Mode c = ModeController) && bool_decide (MySQLDSN c = ""%string) = false)
      by (repeat case_bool_decide; naive_solver).
    rewrite E3. destruct (decide (cfg_Mode c = ModeEdge)) as [Hedge|Hedge]; [|by rewrite !(bool_decide_eq_false_2 (cfg_Mode c = ModeEdge))].
    rewrite !(bool_decide_eq_true_2 (cfg_Mode c = ModeEdge)) by done. destruct (He Hedge) as (Hid & Haddr & Htls).
    rewrite !(bool_decide_eq_false_2 (_ = ""%string)) by done. cbn. destruct Htls as [-> | ->]; cbn; [done|]. by rewrite andb_false_r.
Qed.

(** The fields that settings requests and commands leave alone. *)
Record kept (c c' : Config) : Prop := mkKept {
  kp_path : ConfigPath c' = ConfigPath c; kp_http : HTTPAddr c' = HTTPAddr c; kp_version : ConfigVersion c' = ConfigVersion c;
  kp_mode : cfg_Mode c' = cfg_Mode c; kp_state : ConfigState c' = ConfigState c ∧ ConfigError c' = ConfigError c;
  kp_dsn : MySQLDSN c' = MySQLDSN c; kp_secret : CookieSecret c' = CookieSecret c; kp_init : Initialized c' = Initialized c;
  kp_admin : InitialAdmin c' = InitialAdmin c;
  kp_edge : ec_NodeID (cfg_Edge c') = ec_NodeID (cfg_Edge c) ∧ ec_ControllerAddr (cfg_Edge c') = ec_ControllerAddr (cfg_Edge c) ∧
    ec_TLS (cfg_Edge c') = ec_TLS (cfg_Edge c) ∧ ec_StatePath (cfg_Edge c') = ec_StatePath (cfg_Edge c) }.
#[export] Instance kept_pre : PreOrder kept.
Proof.
  split; [by split|]. intros a b c [] []. destruct_and!. split; try congruence; split_and!; congruence.
Qed.
(** The fields that they may set. *)
Record sound (c : Config) : Prop := mkSound {
  so_tuning : ValidateConnectionTuning (cfg_ConnectionTuning c) = None;
  so_mode : ConfigurationMode c = ConfigurationAutomatic ∨ ConfigurationMode c = ConfigurationManual;
  so_ttls : 0 ≤ SessionTTL c ≤ maxInt64 ∧ 0 ≤ RuntimeTokenTTL c ≤ maxInt64 ∧ 0 ≤ UDPConnectionTTL c ≤ maxInt64;
  so_addr : n_FRPAdvertiseAddr (cfg_Node c) ≠ ""%string;
  so_legacy : FRPServerAddr c = n_FRPAdvertiseAddr (cfg_Node c) ∧ FRPServerPort c = n_FRPBindPort (cfg_Node c);
  so_node : ValidateNodeRuntime (cfg_Node c) = None;
  so_controller : cc_ListenAddr (cfg_Controller c) ≠ ""%string ∧ 0 < cc_HeartbeatIntervalSeconds (cfg_Controller c) }.
Lemma settled_sound c : settled c → sound c.
Proof.
  intros Hc. pose proof (proj1 (Validate_iff c) (st_valid _ Hc)) as Hv. split; [apply Hv| |apply Hc..|apply Hv|apply Hc].
  destruct (vc_mode _ Hv) as [E|?]; [|done]. by destruct (st_version _ Hc).
Qed.
Lemma sound_settled c c' :
  settled c → kept c c' → sound c' → FRPTransportTLS c' = true → (ConfigurationMode c' = ConfigurationAutomatic → EmbeddedFRPEnabled c' = true) →
  settled c'.
Proof.
  intros Hc Hk Hs Ht Ha. pose proof (proj1 (Validate_iff c) (st_valid _ Hc)) as Hv. destruct Hk, Hs, Hc. destruct_and!.
  split; try done; try congruence; try (split; congruence).
  - apply Validate_iff. destruct Hv as [? ? Hkind Hinit Hadmin Hcontroller Hedge ?].
    split; [done|tauto|by rewrite kp_mode0|congruence|congruence|by rewrite kp_mode0, kp_dsn0| |done].
    rewrite kp_mode0. intros Hm. destruct (Hedge Hm) as (? & ? & ?). split_and!; congruence.
  - split; [congruence|]. by destruct so_mode0 as [-> | ->].
Qed.

(** ** Durations *)

Lemma digits_number_nonneg ds : Forall (λ d, 0 ≤ d) ds → 0 ≤ digits_number ds.
Proof.
  unfold digits_number. assert (H : ∀ acc, 0 ≤ acc → Forall (λ d, 0 ≤ d) ds → 0 ≤ foldl (λ acc d, acc * 10 + d) acc ds); [|by apply H].
  induction ds as [|d ds IH]; [done|]. intros acc Ha [Hd Hds]%Forall_cons. cbn. apply IH; [lia|done].
Qed.
Lemma span_digits_nonneg s ds r : span_digits s = (ds, r) → Forall (λ d, 0 ≤ d) ds.
Proof.
  revert ds r. induction s as [|c s IH]; intros ds r; cbn; [by intros [= <- <-]|].
  destruct (digit_of c) as [d|] eqn:Ed; [|by intros [= <- <-]]. destruct (span_digits s) as [ds' r']. intros [= <- <-]. constructor; [|by eapply IH].
  unfold digit_of in Ed. case_bool_decide; [|done]. injection Ed as <-. lia.
Qed.
Lemma unit_value_nonneg u v : unit_value u = Some v → 0 ≤ v.
Proof.
  unfold unit_value, Hour, Minute, Second, Millisecond. repeat case_bool_decide; intros [= <-]; lia.
Qed.
Lemma duration_terms_nonneg fuel acc s d : 0 ≤ acc → duration_terms fuel acc s = Some d → 0 ≤ d.
Proof.
  revert acc s. induction fuel as [|fuel IH]; intros acc s Ha; destruct s as [|c s]; cbn [duration_terms]; try (intros [= <-]; done).
  destruct (span_digits (String c s)) as [whole s1] eqn:E1.
  destruct (match s1 with String c rest => _ | EmptyString => _ end) as [[frac dot] s2] eqn:E2. case_bool_decide; [done|].
  destruct (span_unit s2) as [u s3]. destruct (unit_value u) as [v|] eqn:Eu; [|done]. cbn. case_bool_decide; [done|]. apply IH.
  assert (Hf : Forall (λ d, 0 ≤ d) frac).
  { destruct s1 as [|c1 s1]; [by injection E2 as <- <- <-|]. case_bool_decide; [|by injection E2 as <- <- <-].
    destruct (span_digits s1) as [f r] eqn:Ef. injection E2 as <- <- <-. by eapply span_digits_nonneg. }
  pose proof (unit_value_nonneg _ _ Eu). pose proof (digits_number_nonneg _ Hf). pose proof (digits_number_nonneg _ (span_digits_nonneg _ _ _ E1)).
  assert (0 ≤ digits_number frac * v / 10 ^ len frac) by (apply Z.div_pos; [nia|apply Z.pow_pos_nonneg; [lia|apply len_nonneg]]). nia.
Qed.
Lemma ParseDuration_max s d : ParseDuration s = Some d → d ≤ maxInt64.
Proof.
  unfold ParseDuration. destruct (match s with String c rest => _ | EmptyString => _ end) as [neg s1].
  case_bool_decide; [intros [= <-]; unfold maxInt64; lia|]. case_bool_decide; [done|].
  destruct (duration_terms _ _ _) as [v|] eqn:E; [|done]. cbn. apply duration_terms_nonneg in E; [|done].
  destruct neg; [intros [= <-]; unfold maxInt64; lia|]. case_bool_decide; [done|]. intros [= <-]. lia.
Qed.
Lemma tuned_duration_ok name value current d :
  tuned_duration name value current = inr d → 0 ≤ current ≤ maxInt64 → 0 ≤ d ≤ maxInt64.
Proof.
  unfold tuned_duration. case_bool_decide; [by intros [= <-]|]. destruct (ParseDuration _) as [v|] eqn:E; [|done].
  case_bool_decide; [done|]. intros [= <-] _. apply ParseDuration_max in E. lia.
Qed.

(** ** The steps of a request *)

Section steps.
Context `{net : NetLib} `{json : CommandJSON} `{payloads : EdgePayload} `{calendar : Calendar} `{x509 : X509Lib}.
Context (sql_error : store_error) (error_text : store_error → string) (os_error : nat → string) (verify_error parse_error : string).
Context (base64_error : string → string).
Context (Join : list string → string) (Dir : string → string) (IsAbs : string → bool) (pair_error : string).

Lemma applyRuntimeTuning_ok c req c' :
  applyRuntimeTuning c req = inr c' → sound c → kept c c' ∧ sound c'.
Proof.
  unfold applyRuntimeTuning. intros H Hs.
  destruct (tuned_duration _ (rt_SessionTTL req) _) as [|d1] eqn:E1; [done|]. destruct (tuned_duration _ (rt_RuntimeTokenTTL req) _) as [|d2] eqn:E2; [done|].
  destruct (tuned_duration _ (rt_UDPConnectionTTL req) _) as [|d3] eqn:E3; [done|]. injection H as <-. split; [by split|].
  destruct Hs. destruct_and!. split; cbn; try done; split_and!; try done;
    first [by eapply (tuned_duration_ok _ _ _ d1)|by eapply (tuned_duration_ok _ _ _ d2)|by eapply (tuned_duration_ok _ _ _ d3)].
Qed.
Lemma set_tuning_ok c tuning c' : set_tuning c tuning = inr c' → sound c → kept c c' ∧ sound c'.
Proof.
  unfold set_tuning. destruct tuning as [t|]; [|by intros [= <-]]. destruct (ValidateConnectionTuning t) eqn:Ev; [done|]. intros [= <-] [].
  split; by split.
Qed.
Lemma set_mode_ok c mode c' : set_mode c mode = inr c' → sound c → kept c c' ∧ sound c'.
Proof.
  unfold set_mode. destruct mode as [m|]; [|by intros [= <-]]. destruct (negb _ && negb _) eqn:Em; [done|]. intros [= <-] [].
  split; [by split|]. split; cbn; try done. repeat case_bool_decide; first [by left|by right|done].
Qed.
Lemma common_settings_ok c req c' :
  common_settings c req = inr c' → sound c → kept c c' ∧ sound c'.
Proof.
  unfold common_settings. intros H Hs. destruct (set_tuning _ _) as [|c1] eqn:E1; [done|].
  destruct (set_tuning_ok _ _ _ E1 Hs) as [Hk1 Hs1]. destruct (set_mode _ _) as [|c2] eqn:E2; [done|].
  destruct (set_mode_ok _ _ _ E2 Hs1) as [Hk2 Hs2]. destruct (applyRuntimeTuning c2 (tuning_of req)) as [|c3] eqn:E3; [done|]. injection H as <-.
  destruct (applyRuntimeTuning_ok _ _ _ E3 Hs2) as [Hk3 Hs3]. split; [|done]. by transitivity c1; [|transitivity c2].
Qed.
Lemma node_settings_ok c node c' : node_settings c node = inr c' → sound c → kept c c' ∧ sound c'.
Proof.
  unfold node_settings. destruct (validateNodeRuntime _) eqn:Ev; [done|]. intros [= <-] []. split; [by split|]. unfold validateNodeRuntime in Ev.
  case_bool_decide; [done|]. case_bool_decide; [done|]. destruct (validateFRPAdvertiseAddress _); [done|].
  destruct (ValidateNodeRuntime _) eqn:En; [done|]. destruct_and!. by split.
Qed.
Lemma set_selectable_ok c selectable : sound c → kept c (set_selectable c selectable) ∧ sound (set_selectable c selectable).
Proof. intros []. split; by split. Qed.
(** The last step of both modes makes the configuration fit to be loaded again. *)
Definition final (c c' : Config) : Prop :=
  kept c c' ∧ sound c' ∧ FRPTransportTLS c' = true ∧ (ConfigurationMode c' = ConfigurationAutomatic → EmbeddedFRPEnabled c' = true).
Lemma final_kept c c1 c' : kept c c1 → final c1 c' → final c c'.
Proof. intros Hk (? & ? & ?). split; [by transitivity c1|done]. Qed.
Lemma prepare_advanced_ok c c' : prepareAdvancedSettings c = inr c' → sound c → final c c'.
Proof.
  unfold prepareAdvancedSettings. intros H Hs. set (c1 := c <| FRPTransportTLS := true |>) in H.
  assert (Hc : c' = if bool_decide (ConfigurationMode c1 = ConfigurationAutomatic) then ApplyRecommended c1 else c1).
  { destruct (negb (_ && _)); [done|]. destruct (_ && _ && _); [done|]. by injection H. }
  destruct Hs. case_bool_decide as Ha; rewrite Hc; split_and!; try done; by split.
Qed.
Lemma edge_settings_ok c req c' : edge_settings c req = inr c' → sound c → final c c'.
Proof.
  unfold edge_settings. set (c0 := c <| EmbeddedFRPEnabled := _ |> <| FRPTransportTLS := _ |>). intros H Hs.
  assert (H0 : kept c c0 ∧ sound c0) by (destruct Hs; split; by split). destruct H0 as [Hk0 Hs0].
  destruct (edge_node c0 (us_Node req)) as [|c1] eqn:E1; [done|].
  assert (H1 : kept c0 c1 ∧ sound c1) by (unfold edge_node in E1; destruct (us_Node req); [by eapply node_settings_ok|by injection E1 as <-]).
  destruct H1 as [Hk1 Hs1]. cbv zeta in H. set (edge := (cfg_Edge c1) <| ec_Reporting := _ |> <| ec_RemoteCommands := _ |> <| ec_ControllerAdministrationEnabled := _ |>) in H.
  assert (H2 : kept c1 (c1 <| cfg_Edge := edge |>) ∧ sound (c1 <| cfg_Edge := edge |>)) by (destruct Hs1; split; by split).
  destruct H2 as [Hk2 Hs2]. destruct (set_selectable_ok _ (us_NodeSelectable req) Hs2) as [Hk3 Hs3].
  destruct (prepareAdvancedSettings _) as [|c4] eqn:E4; [done|]. injection H as <-. apply prepare_advanced_ok in E4; [|done].
  eapply final_kept; [|done]. etransitivity; [done|]. etransitivity; [done|]. etransitivity; [done|done].
Qed.
Lemma control_settings_ok c req c' : control_settings c req = inr c' → sound c → kept c c' ∧ sound c'.
Proof.
  unfold control_settings. intros H [? ? ? ? ? ? [Hl Hh]].
  repeat case_bool_decide; try done; injection H as <-; (split; [by split|split; cbn; try done; try (split; [done|lia])]).
Qed.
Lemma ValidateNodeRuntime_port node port :
  ValidateNodeRuntime node = None → 0 < port ≤ 65535 → ValidateNodeRuntime (node <| n_FRPBindPort := port |>) = None.
Proof.
  unfold ValidateNodeRuntime. cbn. intros H Hp. rewrite !(bool_decide_eq_false_2 (port ≤ 0)), (bool_decide_eq_false_2 (65535 < port)) by lia. cbn.
  by destruct (bool_decide (n_FRPBindPort node ≤ 0) || _).
Qed.
Lemma controller_node_ok c req c' :
  controller_node c req = inr c' → sound c → kept c c' ∧ (FRPServerAddr c' ≠ ""%string → 0 < FRPServerPort c' ≤ 65535 → sound c').
Proof.
  unfold controller_node. intros H Hs. destruct (us_Node req) as [node|].
  { destruct (node_settings_ok _ _ _ H Hs). auto. }
  destruct (_ || _); injection H as <-; [|by split]. split.
  - unfold legacy_node. repeat case_bool_decide; by split.
  - destruct Hs as [? ? ? ? ? Hn ?]. unfold legacy_node. repeat case_bool_decide; cbn; intros; split; try done; by apply ValidateNodeRuntime_port.
Qed.
Lemma ensure_sets files cfg now fresh fresh' cfg' :
  ensureControllerPKI Join Dir IsAbs base64_error pair_error files cfg now fresh fresh' = inr cfg' → ∃ m, cfg' = setControllerPKIMaterial cfg m.
Proof.
  unfold ensureControllerPKI. destruct (present_material _ _ _ _ _ _ _ _) as [|m]; [done|].
  destruct (covering_material _ _ _ _ _) as [|m']; [done|]. intros [= <-]. by exists m'.
Qed.
Lemma final_material c c1 m : final c c1 → final c (setControllerPKIMaterial c1 m).
Proof. intros (Hk & [] & ? & ?). split_and!; [transitivity c1; [done|by split]| |done..]. by split. Qed.
Lemma controller_settings_ok files now fresh fresh' c req c' :
  controller_settings base64_error Join Dir IsAbs pair_error files now fresh fresh' c req = inr c' → sound c → final c c'.
Proof.
  unfold controller_settings. intros H Hs. destruct (controller_node c req) as [|c1] eqn:E1; [done|].
  destruct (controller_node_ok _ _ _ E1 Hs) as [Hk1 Hs1]. cbv zeta in H.
  assert (Hsel : FRPServerAddr (set_selectable c1 (us_NodeSelectable req)) = FRPServerAddr c1 ∧
                 FRPServerPort (set_selectable c1 (us_NodeSelectable req)) = FRPServerPort c1) by done.
  destruct Hsel as [Ha Hp]. rewrite Ha, Hp in H. case_bool_decide as Haddr; [done|].
  destruct (_ || _) eqn:Eport; [done|]. bools. specialize (Hs1 Haddr ltac:(lia)).
  destruct (set_selectable_ok _ (us_NodeSelectable req) Hs1) as [Hk2 Hs2]. revert H Hk2 Hs2. generalize (set_selectable c1 (us_NodeSelectable req)).
  intros c2 H Hk2 Hs2. set (c3 := c2 <| EmbeddedFRPEnabled := _ |> <| FRPBindAddr := _ |> <| FRPProxyBindAddr := _ |> <| FRPTransportTLS := _ |>
    <| ClientConfigComment := _ |>) in H.
  assert (H3 : kept c2 c3 ∧ sound c3).
  { destruct Hs2. split; by split. }
  destruct H3 as [Hk3 Hs3]. destruct (set_control c3 (us_Controller req)) as [|c4] eqn:E4; [done|].
  assert (H4 : kept c3 c4 ∧ sound c4) by (unfold set_control in E4; destruct (us_Controller req); [by eapply control_settings_ok|by injection E4 as <-]).
  destruct H4 as [Hk4 Hs4]. destruct (prepareAdvancedSettings c4) as [|c5] eqn:E5; [done|]. apply prepare_advanced_ok in E5; [|done].
  assert (Hf : final c c5).
  { eapply final_kept; [|done]. etransitivity; [done|]. etransitivity; [done|]. etransitivity; done. }
  destruct (negb _); [by injection H as <-|]. case_bool_decide; [done|]. destruct (ensureControllerPKI _ _ _ _ _ _ _ _ _ _) as [|c6] eqn:E6; [done|].
  injection H as <-. apply ensure_sets in E6 as [m ->]. by apply final_material.
Qed.

(** ** Installing a configuration *)

Definition written (node : EdgeNodeServer) (cfg : Config) : Prop :=
  ∃ now secret, dir_path (es_dir node) = Some (Whole (complete_file now secret (Config_FileConfig cfg))).
Lemma write_config_ok node o cfg node' :
  write_config os_error node o cfg = (node', None) → written node' cfg ∧ es_cfg node' = es_cfg node.
Proof.
  unfold write_config. pose proof (write_file_spec (oc_io o) os_error (oc_cut o) (oc_now o) (oc_secret o) (es_dir node) (Config_FileConfig cfg)) as H.
  destruct (WriteFileConfig _ _ _ _ _ _ _) as [trace err]. destruct H as (secret & _ & H). intros [= <- ->].
  destruct (H eq_refl) as (d & Hl & Hd). split; [|done]. exists (oc_now o), secret. cbn. by rewrite Hl.
Qed.
Lemma setRuntime_ok node o cfg : FRPTransportTLS cfg = true → es_cfg (setRuntime node o cfg) = cfg ∧ es_dir (setRuntime node o cfg) = es_dir node.
Proof. intros Ht. split; [|done]. unfold setRuntime. cbn. destruct cfg. cbn in Ht. by subst. Qed.
Lemma install_ok node o cfg node' :
  install_settings os_error verify_error parse_error node o cfg = (node', None) → FRPTransportTLS cfg = true →
  es_cfg node' = cfg ∧ written node' cfg.
Proof.
  unfold install_settings. destruct (prepareFRPIdentity _ _ _ _ _) as [n1 [err|]]; [done|].
  destruct (write_config os_error n1 o cfg) as [n2 [err|]] eqn:Ew; [done|]. intros [= <-] Ht.
  destruct (write_config_ok _ _ _ _ Ew) as [(now & secret & Hw) _]. destruct (setRuntime_ok n2 o cfg Ht) as [Hc Hd]. split; [done|].
  exists now, secret. by rewrite Hd.
Qed.
Lemma save_config_ok node o cfg node' :
  save_config os_error node o cfg = (node', None) → FRPTransportTLS cfg = true → es_cfg node' = cfg ∧ written node' cfg.
Proof.
  unfold save_config. destruct (write_config os_error node o cfg) as [n2 [err|]] eqn:Ew; [done|]. intros [= <-] Ht.
  destruct (write_config_ok _ _ _ _ Ew) as [(now & secret & Hw) _]. destruct (setRuntime_ok n2 o cfg Ht) as [Hc Hd]. split; [done|].
  exists now, secret. by rewrite Hd.
Qed.
Lemma final_settled c c' : settled c → final c c' → settled c' ∧ kept c c'.
Proof. intros Hc (Hk & Hs & Ht & Ha). split; [by apply (sound_settled c)|done]. Qed.

(** ** Successful changes of the settings *)

Abbreviation Update := (updateSystemSettings os_error verify_error parse_error base64_error Join Dir IsAbs pair_error).
Inductive settings_step : System → System → Prop :=
  | s_request files s o fresh fresh' req s' restart :
      Update files s o fresh fresh' req = (s', inr restart) → settings_step s s'
  | s_permissions s o c node out : run_permissions os_error (sy_node s) o c = (node, inr out) → settings_step s (s <| sy_node := node |>)
  | s_runtime s o c node out : run_runtime os_error (sy_node s) o c = (node, inr out) → settings_step s (s <| sy_node := node |>)
  | s_advanced s o c node out :
      run_advanced os_error verify_error parse_error (sy_node s) o c = (node, inr out) → settings_step s (s <| sy_node := node |>).

Lemma update_ok files s o fresh fresh' req s' restart :
  Update files s o fresh fresh' req = (s', inr restart) → settled (sy_cfg s) → settled (sy_cfg s') ∧ kept (sy_cfg s) (sy_cfg s') ∧ written (sy_node s') (sy_cfg s').
Proof.
  unfold updateSystemSettings. intros H Hs. case_bool_decide; [done|].
  destruct (common_settings (sy_cfg s) req) as [|c1] eqn:E1; [done|].
  destruct (common_settings_ok _ _ _ E1 (settled_sound _ Hs)) as [Hk1 Hs1].
  assert (Hfinal : ∀ c2, final c1 c2 → settled c2 ∧ kept (sy_cfg s) c2 ∧ FRPTransportTLS c2 = true).
  { intros c2 Hf. destruct (final_settled (sy_cfg s) c2 Hs) as [Hst Hk]; [by eapply final_kept|]. split_and!; [done..|apply Hf]. }
  case_bool_decide.
  - destruct (edge_settings c1 req) as [|c2] eqn:E2; [done|]. destruct (Hfinal _ (edge_settings_ok _ _ _ E2 Hs1)) as (Hst & Hk & Ht).
    destruct (install_settings _ _ _ _ _ _) as [node [err|]] eqn:Ei; [done|]. destruct (install_ok _ _ _ _ Ei Ht) as [Hc Hw].
    unfold noteSettingsRestart in H. injection H as <- _. unfold sy_cfg. cbn. rewrite Hc. split_and!; [done..|].
    destruct Hw as (now & secret & Hw). by exists now, secret.
  - destruct (controller_settings _ _ _ _ _ _ _ _ _ _ _) as [|c2] eqn:E2; [done|].
    destruct (Hfinal _ (controller_settings_ok _ _ _ _ _ _ _ E2 Hs1)) as (Hst & Hk & Ht).
    destruct (install_settings _ _ _ _ _ _) as [node [err|]] eqn:Ei; [done|]. destruct (install_ok _ _ _ _ Ei Ht) as [Hc Hw].
    unfold noteSettingsRestart in H. injection H as <- _. unfold sy_cfg. cbn. rewrite Hc. split_and!; [done..|].
    destruct Hw as (now & secret & Hw). by exists now, secret.
Qed.

Lemma final_refl c c' : settled c → kept c c' → sound c' → FRPTransportTLS c' = FRPTransportTLS c → ConfigurationMode c' = ConfigurationMode c →
  EmbeddedFRPEnabled c' = EmbeddedFRPEnabled c → final c c'.
Proof. intros Hc Hk Hs Ht Hm He. split_and!; [done..|rewrite Ht; apply Hc|]. rewrite Hm, He. apply (st_recommended _ Hc). Qed.
Definition stays (node node' : EdgeNodeServer) : Prop :=
  settled (es_cfg node) → settled (es_cfg node') ∧ kept (es_cfg node) (es_cfg node') ∧ written node' (es_cfg node').
Lemma save_stays node o cfg node' : save_config os_error node o cfg = (node', None) → (settled (es_cfg node) → final (es_cfg node) cfg) → stays node node'.
Proof.
  intros Hsave Hf Hs. specialize (Hf Hs). destruct (save_config_ok _ _ _ _ Hsave) as [-> Hw]; [apply Hf|].
  destruct (final_settled _ _ Hs Hf). done.
Qed.
Lemma permissions_stays node o c node' out : run_permissions os_error node o c = (node', inr out) → stays node node'.
Proof.
  unfold run_permissions. destruct (negb _); [done|]. destruct (decode_permissions _) as [[r rc]|]; [|done].
  destruct (save_config _ _ _ _) as [n1 [err|]] eqn:E; [done|]. intros [= <- _]. apply (save_stays node o _ n1 E).
  intros Hs. pose proof (settled_sound _ Hs) as []. apply final_refl; [done|..|done|done|done]; by split.
Qed.
Lemma runtime_stays node o c node' out : run_runtime os_error node o c = (node', inr out) → stays node node'.
Proof.
  unfold run_runtime. destruct (_ || _); [done|]. destruct (node_config _) as [n|]; [|done].
  destruct (validateNodeRuntime (normalizeNodeRuntime n)) eqn:Ev; [done|]. destruct (save_config _ _ _ _) as [n1 [err|]] eqn:E; [done|].
  intros [= <- _]. apply (save_stays node o _ n1 E). intros Hs.
  destruct (node_settings_ok (es_cfg node) n (syncLegacyFRPFields ((es_cfg node) <| cfg_Node := normalizeNodeRuntime n |>))) as [Hk Hso];
    [unfold node_settings; by rewrite Ev|by apply settled_sound|]. by apply final_refl.
Qed.
Lemma advanced_ok c req c' : applyEdgeAdvancedSettings c req = inr c' → sound c → final c c'.
Proof.
  unfold applyEdgeAdvancedSettings. destruct (negb (as_FRPTransportTLS req)); [done|]. destruct (negb _ && negb _) eqn:Em; [done|].
  destruct (_ || _ || _ || _ || _) eqn:Eb; [done|]. destruct (ValidateConnectionTuning _) eqn:Et; [done|]. destruct (_ || DisableMTLSSessionTickets _); [done|].
  set (c1 := c <| ConfigurationMode := _ |> <| cfg_ConnectionTuning := _ |> <| EmbeddedFRPEnabled := _ |> <| FRPTransportTLS := _ |>). intros H Hs.
  assert (H1 : kept c c1 ∧ sound c1).
  { destruct Hs. split; [by split|]. split; try done. cbn. repeat case_bool_decide; first [by left|by right|done]. }
  destruct H1 as [Hk1 Hs1]. bools. destruct (applyRuntimeTuning c1 _) as [|c2] eqn:E2; [done|].
  destruct (applyRuntimeTuning_ok _ _ _ E2) as [Hk2 Hs2]; [done|].
  assert (Hcomment : kept c2 (c2 <| ClientConfigComment := TrimSpace (as_ClientComment req) |>) ∧ sound (c2 <| ClientConfigComment := TrimSpace (as_ClientComment req) |>))
    by (destruct Hs2; split; by split).
  destruct Hcomment as [Hk3 Hs3]. apply prepare_advanced_ok in H; [|done]. eapply final_kept; [|done]. etransitivity; [done|]. etransitivity; done.
Qed.
Lemma advanced_stays node o c node' out : run_advanced os_error verify_error parse_error node o c = (node', inr out) → stays node node'.
Proof.
  unfold run_advanced. destruct (_ || _); [done|]. destruct (decode_advanced _) as [a|]; [|done].
  destruct (applyEdgeAdvancedSettings (es_cfg node) a) as [|cfg] eqn:Ea; [done|]. destruct (prepareFRPIdentity _ _ _ _ _) as [n1 [err|]] eqn:Ep; [done|].
  assert (Hn1 : es_cfg n1 = es_cfg node).
  { unfold prepareFRPIdentity in Ep. destruct (_ || _); [by injection Ep as <-|]. destruct (EnsureTLSIdentity _ _ _ _ _ _ _ _) as [[file i] e]. by injection Ep as <- _. }
  destruct (save_config _ _ _ _) as [n2 [err|]] eqn:E; [done|]. unfold noteSettingsRestart. intros [= <- _]. intros Hs. rewrite <- Hn1 in Hs.
  assert (Hf : final (es_cfg n1) cfg) by (rewrite Hn1; apply (advanced_ok _ _ _ Ea), settled_sound; congruence).
  destruct (save_stays n1 o cfg n2 E (λ _, Hf) Hs) as (? & Hk & ?). rewrite Hn1 in Hk. done.
Qed.
Lemma settings_step_ok s s' :
  settings_step s s' → settled (sy_cfg s) → settled (sy_cfg s') ∧ kept (sy_cfg s) (sy_cfg s') ∧ written (sy_node s') (sy_cfg s').
Proof.
  destruct 1.
  - by eapply update_ok.
  - by eapply permissions_stays.
  - by eapply runtime_stays.
  - by eapply advanced_stays.
Qed.

End steps.

(** A node whose administrator changes a duration and the comment, and sends blanks for the
    address to bind: it runs with an empty address and restarts with every address. *)
#[local] Instance demo_net : NetLib := {| ParseIP _ := Some (mkIP false false); url_Parse _ := None; ParseAddr s := Some (s, s) |}.
#[local] Instance demo_json : CommandJSON := {| configuration_revision _ := None; node_config _ := None; result_superseded _ := false |}.
#[local] Instance demo_payload : EdgePayload := {|
  decode_permissions _ := None; decode_advanced _ := None; decode_client _ := None; decode_connection _ := None;
  decode_block _ := None; decode_unblock _ := None; decode_credentials _ := None; encode_output _ := ""%string |}.
#[local] Instance demo_days : Calendar := demo_calendar.
#[local] Instance demo_x509 : X509Lib := demo_x509_lib.
Definition demo_system (cfg : Config) : System :=
  mkSystem (mkNodeServer cfg (mkDir None None None) false None None false TLSMissing None None false) (Some empty_db) None.
Definition demo_settings : updateSystemSettingsRequest :=
  mkUpdateSettings None (Some "automatic"%string) None (Some false) " " "" "" 0 None "my node" "90m" "" "" None None None None None.
Definition demo_outcomes : Outcomes :=
  mkOutcomes 0 (λ _, true) (λ _, true) None (inr "secret"%string) (inl ""%string) (inl ""%string) (inl ""%string) None None None None.
Definition demo_update (s : System) : System * (http_error + bool) :=
  updateSystemSettings (λ _, ""%string) "" "" (λ _, ""%string) (λ _, ""%string) (λ _, ""%string) (λ _, true) "" (λ _, inl ""%string)
    s demo_outcomes (inl ""%string) (inl ""%string) demo_settings.
