(* ===== verification/AdminAccess.v ===== *)
(** * Access of administrators

    What [login] and [requireAdmin] give together: a token that was issued is
    accepted until it expires, and an accepted token was issued for this
    administrator under the secrets of now. *)
From Stdlib Require Import ZArith Lia Ascii String.
From stdpp Require Import gmap strings list.
From S2P Require Import Prelude GoStrings Base64 Security Types DpiEngine DpiService FrpManager Config ConfigFile FrpTls NodePorts NodeSettings Pki EdgeStore EdgeIdentity ControllerDB NodeDirectory ControllerLink EdgeQueue EdgeCommands SystemSettings.
Local Open Scope Z_scope.

Section access.
Context (sql_error : store_error) (error_text : store_error → string).
Context (sha256 : string → string) (hmac_sha256 : string → string → string) (base64_error number_error : string → string).
Context (CheckPassword : string → string → bool).
Abbreviation Login := (login sql_error error_text sha256 hmac_sha256 CheckPassword).
Abbreviation Require_ := (requireAdmin sql_error hmac_sha256 base64_error number_error).

(** The secret that the tokens of a user are bound to: the password hash of an edge, the stored token hash on a controller. *)
Definition token_hash (s : System) (userID : Z) : option string :=
  if bool_decide (cfg_Mode (sy_cfg s) = ModeEdge) then Some (ia_PasswordHash (InitialAdmin (sy_cfg s)))
  else d ← sy_db s; t ← d_admin_tokens d !! userID; if bool_decide (at_Status t = "active"%string) then Some (at_TokenHash t) else None.

Definition stored_token (d d' : ControllerDB) (userID : Z) (t : AdminAPIToken) : Prop :=
  d_admin_tokens d' !! userID = Some t ∧ at_Status t = "active"%string ∧ d_users d' = d_users d.
Lemma create_token d now raw sql userID d' t :
  create_fixed_token sql_error error_text sha256 d now raw sql userID = (d', inr t) → stored_token d d' userID t.
Proof.
  unfold create_fixed_token. destruct (NewOpaqueToken _ _ _) as [|[plain hash]]; [done|]. destruct sql; [|done].
  unfold CreateAdminAPIToken, stored_token. destruct (d_admin_tokens d !! userID) as [t0|] eqn:E0.
  - destruct (find_row _ _) as [o|].
    + case_bool_decide; [|done]. cbn. rewrite lookup_insert_eq. cbn. intros [= <- <-]. cbn. by rewrite lookup_insert_eq.
    + cbn. rewrite lookup_insert_eq. cbn. intros [= <- <-]. cbn. by rewrite lookup_insert_eq.
  - destruct (find_row _ _) as [o|].
    + cbn. destruct (decide (at_UserID o = userID)) as [->|Hne].
      * rewrite lookup_insert_eq. cbn. intros [= <- <-]. cbn. by rewrite lookup_insert_eq.
      * rewrite lookup_insert_ne, E0 by done. done.
    + destruct (d_users d !! userID); [|done]. cbn. rewrite lookup_insert_eq. cbn. intros [= <- <-]. cbn. by rewrite lookup_insert_eq.
Qed.
Lemma ensure_token d now raw sql userID d' t :
  ensureAdminFixedToken sql_error error_text sha256 d now raw sql userID = (d', inr t) → stored_token d d' userID t.
Proof.
  unfold ensureAdminFixedToken. destruct (sql 0%nat); [|case_bool_decide; [apply create_token|done]].
  unfold GetAdminAPITokenByUserID, no_row. destruct (d_admin_tokens d !! userID) as [t0|] eqn:E0.
  - case_bool_decide; [|apply create_token]. by intros [= <- <-].
  - rewrite bool_decide_eq_true_2 by done. apply create_token.
Qed.

Lemma find_user d username user :
  no_row (find_row (λ u, bool_decide (u_Username u = username)) (d_users d)) = inr user →
  (∀ id v, d_users d !! id = Some v → u_ID v = id) → d_users d !! u_ID user = Some user.
Proof.
  intros Hf Hids. unfold no_row, find_row in Hf. destruct (head _) as [[k v]|] eqn:E; [|done]. injection Hf as <-.
  apply head_Some_elem_of, list_elem_of_filter in E as [_ E]. apply elem_of_map_to_list in E. cbn. by rewrite (Hids _ _ E).
Qed.
Lemma presented_cookie cookie : presented "" cookie = cookie.
Proof. done. Qed.
Lemma new_token_nonempty userID hash secret ttl now nonce token expires :
  NewAdminBrowserToken hmac_sha256 userID hash secret ttl now nonce = inr (token, expires) →
  token ≠ ""%string ∧ expires = now + ttl ∧ ∃ n, nonce = inr n.
Proof. unfold NewAdminBrowserToken. destruct nonce as [|n]; [done|]. intros [= <- <-]. split_and!; [done..|by exists n]. Qed.
Lemma admin_token_user userID hash secret ttl now nonce token expires :
  token_times userID ttl now → NewAdminBrowserToken hmac_sha256 userID hash secret ttl now (inr nonce) = inr (token, expires) →
  AdminBrowserTokenUserID base64_error number_error token = inr userID.
Proof.
  intros [Hu He] Hn. assert (Ht : token = "ast_" +:+ EncodeToString (admin_body userID ttl now nonce +:+ ":" +:+
                         adminBrowserSignature hmac_sha256 (admin_body userID ttl now nonce) hash secret)).
  { unfold NewAdminBrowserToken in Hn. injection Hn as Ht He'. symmetry. exact Ht. }
  rewrite Ht. unfold AdminBrowserTokenUserID, admin_body.
  rewrite decode_admin_parts by (repeat constructor; first [apply fmt_no_colon|apply EncodeToString_no_colon]). by apply ParseInt_fmt.
Qed.

(** C11: A login gives access. After a successful login of an administrator, on a controller whose rows of users are
    kept under their ids or on an edge, a request with the token in its cookie is served as that administrator, in every whole
    second before the token expires; and after its last one no longer. *)
Theorem login_gives_access s now raw nonce sql username password s' u token expires now' sql' :
  Login s now raw nonce sql username password = (s', inr (u, token, expires)) → token_times (u_ID u) (SessionTTL (sy_cfg s)) now →
  (∀ d id v, sy_db s = Some d → d_users d !! id = Some v → u_ID v = id) → sql' 0%nat = true → sql' 1%nat = true →
  Require_ s' now' "" token sql' =
    if After now' (Unix expires * Second) then inl (401, "invalid admin token"%string) else inr u.
Proof.
  unfold login. intros H Ht Hids Hq0 Hq1. unfold requireAdmin. destruct (decide (cfg_Mode (sy_cfg s) = ModeEdge)) as [Hm|Hm].
  - rewrite bool_decide_eq_true_2 in H by done. destruct (_ || _); [done|].
    destruct (issueEdgeAdminBrowserToken _ _ _ _ _) as [|[tok ex]] eqn:Ei; [done|]. injection H as <- <- <- <-.
    rewrite bool_decide_eq_true_2, presented_cookie by done. unfold issueEdgeAdminBrowserToken in Ei.
    destruct (new_token_nonempty _ _ _ _ _ _ _ _ Ei) as (Hne & -> & n & ->). rewrite bool_decide_eq_false_2 by done.
    rewrite (admin_token_round_trip hmac_sha256 base64_error number_error _ _ _ _ _ _ _ _ _ Ht Ei). by destruct (After _ _).
  - rewrite bool_decide_eq_false_2 in H by done. destruct (sy_db s) as [d|] eqn:Ed; [|done]. destruct (sql 2%nat); [|by case_bool_decide].
    unfold GetUserByUsername in H. destruct (no_row _) as [err|user] eqn:Eu; [by case_bool_decide|].
    destruct (negb (CheckPassword _ _)); [done|]. destruct (_ || _) eqn:Erole; [done|]. unfold issueAdminBrowserToken in H.
    destruct (ensureAdminFixedToken _ _ _ _ _ _ _ _) as [d' [err|t]] eqn:Ee; [done|].
    destruct (NewAdminBrowserToken _ _ _ _ _ _ _) as [|[tok ex]] eqn:En; [done|]. injection H as <- <- <- <-.
    destruct (new_token_nonempty _ _ _ _ _ _ _ _ En) as (Hne & -> & n & ->). destruct (ensure_token _ _ _ _ _ _ _ Ee) as (Hrow & Hact & Husers).
    change (sy_cfg (s <| sy_db := Some d' |>)) with (sy_cfg s). rewrite bool_decide_eq_false_2 by done. cbn [sy_db].
    change (sy_db (s <| sy_db := Some d' |>)) with (Some d'). rewrite presented_cookie, bool_decide_eq_false_2 by done.
    rewrite (admin_token_user _ _ _ _ _ _ _ _ Ht En), Hq0, Hq1. unfold GetUserByID, GetAdminAPITokenByUserID.
    rewrite Husers, (find_user _ _ _ Eu (λ id v, Hids d id v eq_refl)), Hrow. cbn [no_row]. rewrite Erole, Hact, bool_decide_eq_true_2 by done. cbn [negb].
    rewrite (admin_token_round_trip hmac_sha256 base64_error number_error _ _ _ _ _ _ _ _ _ Ht En). by destruct (After _ _).
Qed.

(** Both readings of a token give the same user. *)
Lemma parsed_user value hash secret now userID userID' expires parts :
  decodeAdminBrowserToken base64_error value = inr parts → AdminBrowserTokenUserID base64_error number_error value = inr userID →
  ParseAdminBrowserToken hmac_sha256 base64_error number_error value hash secret now = inr (userID', expires) → userID = userID'.
Proof.
  intros Hd. unfold AdminBrowserTokenUserID, ParseAdminBrowserToken. rewrite Hd. intros Hu. destruct (negb _); [done|]. rewrite Hu.
  destruct (ParseInt _ (part parts 3)); [done|]. destruct (After _ _); [done|]. by intros [= ->].
Qed.
(** No collision of the keyed hash between the presented token and an issued one. *)
Definition no_collision (secret hash : string) (parts : list string) (i : issued_token) : Prop :=
  hmac_sha256 (secret +:+ ":" +:+ hash) (join ":" (take 5 parts)) = hmac_sha256 (secret +:+ ":" +:+ it_hash i) (issued_body i) →
  secret +:+ ":" +:+ hash = secret +:+ ":" +:+ it_hash i ∧ join ":" (take 5 parts) = issued_body i.

(** C10: Access is what was issued. Take a request that is served for an administrator, with a token whose signature is one that
    the node issued under its secret, to whomever and whenever, and which is no collision of the keyed hash with those. Then a
    token was issued for this administrator, it has not expired, and it was issued under the password hash of the edge, or
    the token hash in the controller's database, as they are at the time of the request: after a change of the password
    of an edge, or of the stored token of an administrator, the earlier tokens are refused. *)
Theorem access_was_issued s now authorization cookie sql user issued parts hash :
  Require_ s now authorization cookie sql = inr user → (∀ d id v, sy_db s = Some d → d_users d !! id = Some v → u_ID v = id) →
  decodeAdminBrowserToken base64_error (presented authorization cookie) = inr parts → token_hash s (u_ID user) = Some hash →
  part parts 5 ∈ issued_signature hmac_sha256 (CookieSecret (sy_cfg s)) <$> issued →
  Forall (λ i, token_times (it_user i) (it_ttl i) (it_now i) ∧ no_collision (CookieSecret (sy_cfg s)) hash parts i) issued →
  ∃ i, i ∈ issued ∧ it_user i = u_ID user ∧ it_hash i = hash ∧ now ≤ it_now i + it_ttl i.
Proof.
  unfold requireAdmin, token_hash. intros H Hids Hd Hh Hsig Hi.
  destruct (decide (cfg_Mode (sy_cfg s) = ModeEdge)) as [Hm|Hm].
  - rewrite bool_decide_eq_true_2 in H, Hh by done. injection Hh as <-. case_bool_decide; [done|].
    destruct (ParseAdminBrowserToken _ _ _ _ _ _ _) as [|[uid ex]] eqn:Ep; [done|]. case_bool_decide as Huid; [|done]. injection H as <-.
    destruct (admin_token_bound hmac_sha256 base64_error number_error _ issued _ _ _ _ _ _ Hd Hi Ep Hsig) as (i & Hin & Hhash & Hu & _ & Hnow).
    exists i. split_and!; [done| |done|done]. cbn. congruence.
  - rewrite bool_decide_eq_false_2 in H, Hh by done. destruct (sy_db s) as [d|] eqn:Ed; [|done]. case_bool_decide; [done|].
    destruct (AdminBrowserTokenUserID _ _ _) as [|userID] eqn:Eid; [done|]. destruct (sql 0%nat); [|done].
    unfold GetUserByID, no_row in H. destruct (d_users d !! userID) as [u|] eqn:Eu; [|done]. destruct (_ || _); [done|].
    destruct (sql 1%nat); [|done]. unfold GetAdminAPITokenByUserID, no_row in H. destruct (d_admin_tokens d !! userID) as [t|] eqn:Et; [|done].
    case_bool_decide as Hact; [|done]. cbn [negb] in H. destruct (ParseAdminBrowserToken _ _ _ _ _ _ _) as [|[uid ex]] eqn:Ep; [done|]. injection H as <-.
    pose proof (Hids d _ _ eq_refl Eu) as Huid. cbn in Hh. rewrite Huid, Et in Hh. cbn in Hh. rewrite bool_decide_eq_true_2 in Hh by done. injection Hh as <-.
    destruct (admin_token_bound hmac_sha256 base64_error number_error _ issued _ _ _ _ _ _ Hd Hi Ep Hsig) as (i & Hin & Hhash & Hu & _ & Hnow).
    exists i. split_and!; [done| |done|done]. rewrite Hu, Huid. symmetry. eapply parsed_user; done.
Qed.
End access.

(** An edge with a keyed hash that joins the key and the message. *)
Definition demo_hmac (key message : string) : string := key +:+ "#" +:+ message.
Definition demo_edge : System :=
  mkSystem (mkNodeServer (demo_config <| cfg_Mode := ModeEdge |>) (mkDir None None None) false None None false TLSMissing None None false) None None.
Abbreviation demo_login := (login ErrConstraint (λ _, ""%string) (λ s, s) demo_hmac (λ _ p, bool_decide (p = "pass"%string))
  demo_edge 0 (inl ""%string) (inr "nonce"%string) (λ _, true) " admin" "pass").
Abbreviation demo_require := (requireAdmin ErrConstraint demo_hmac (λ s, s) (λ s, s)).
Definition demo_issued : issued_token := mkIssued "hash" 1 Hour 0 "nonce".

Lemma login_gives_access_witness :
  match demo_login with
  | (s, inr (u, token, _)) => demo_require s (30 * Minute) "" token (λ _, true) = inr u ∧ u_Username u = "admin"%string
  | _ => False
  end.
Proof.
  destruct demo_login as [s [err|[[u token] expires]]] eqn:E; [vm_compute in E; discriminate E|].
  pose proof (login_gives_access ErrConstraint (λ _, ""%string) (λ s, s) demo_hmac (λ s, s) (λ s, s) (λ _ p, bool_decide (p = "pass"%string))
    demo_edge 0 (inl ""%string) (inr "nonce"%string) (λ _, true) " admin" "pass" s u token expires (30 * Minute) (λ _, true) E) as H.
  assert (Hu : u_ID u = 1 ∧ u_Username u = "admin"%string ∧ expires = Hour) by (vm_compute in E; injection E as <- <- <- <-; done).
  destruct Hu as (Hid & Hname & ->). split; [|done]. rewrite H; [reflexivity|rewrite Hid; vm_compute; repeat split; congruence|done..].
Defined.
Lemma access_was_issued_witness :
  match demo_login with
  | (s, inr (_, token, _)) =>
      match demo_require s Minute "" token (λ _, true) with
      | inr user => ∃ i, i ∈ [demo_issued] ∧ it_user i = u_ID user ∧ it_hash i = "hash"%string ∧ Minute ≤ it_now i + it_ttl i
      | inl _ => False
      end
  | _ => False
  end.
Proof.
  destruct demo_login as [s [err|[[u token] expires]]] eqn:E; [vm_compute in E; discriminate E|].
  destruct (demo_require s Minute "" token (λ _, true)) as [err|user] eqn:Er.
  { vm_compute in E. injection E as <- <- <- <-. vm_compute in Er. discriminate Er. }
  destruct (decodeAdminBrowserToken (λ s, s) (presented "" token)) as [err|parts] eqn:Ed.
  { vm_compute in E. injection E as <- <- <- <-. vm_compute in Ed. discriminate Ed. }
  apply (access_was_issued ErrConstraint demo_hmac (λ s, s) (λ s, s) s Minute "" token (λ _, true) user [demo_issued] parts "hash" Er);
    vm_compute in E; injection E as <- <- <- <-.
  - intros d id v Hd. vm_compute in Hd. discriminate Hd.
  - exact Ed.
  - reflexivity.
  - vm_compute in Ed. injection Ed as <-. apply (bool_decide_unpack _). vm_compute. exact I.
  - vm_compute in Ed. injection Ed as <-. constructor; [|constructor]. split; [vm_compute; repeat split; congruence|].
    intros _. split; vm_compute; reflexivity.
Defined.
