(* ===== verification/Enrollment.v ===== *)
(** * Enrollment of edge nodes

    How a node joins the cluster: the administrator of the controller creates a
    token, the edge makes a key and asks for a certificate ([cluster/enrollment.go],
    [setupEdge], [reEnrollEdge]), the controller signs it and records the node
    ([enrollEdgeNode]), and both ends of the control channel check each other's
    certificate ([EdgeClient.connect], [ControllerServer.Start] and the wiring of
    [main.go]).  The exchange over HTTPS is a function from the request to the
    answer, which the composition instantiates with the controller's handler. *)
From Stdlib Require Import ZArith Lia Ascii String.
From stdpp Require Import gmap strings list.
From S2P Require Import Prelude GoStrings Base64 Security Types DpiEngine DpiService FrpManager Config ConfigFile FrpTls NodePorts NodeSettings Pki EdgeStore EdgeIdentity ControllerDB NodeDirectory ControllerLink EdgeQueue EdgeCommands SystemSettings.
Local Open Scope Z_scope.

(** ** Data *)

Record enrollmentCode := mkCode { co_Secret : string; co_Fingerprint : string }.
Record EnrollmentRequest := mkEnrollmentRequest { eq_NodeName : string; eq_NodeID : string; eq_CSR : string }.
Record EnrollmentResponse := mkEnrollmentResponse {
  ep_NodeID : string; ep_Certificate : string; ep_CACertificate : string; ep_ExpiresAt : time;
  ep_MTLSAddress : string; ep_MTLSServerName : string }.
Record nodeEnrollmentOptions := mkOptions { eo_Name : string; eo_PublicAPIURL : string; eo_Selectable : bool }.
Record setupEdgeRequest := mkSetupEdge {
  se_Username : string; se_Password : string; se_DisplayName : string; se_NodeName : string;
  se_ControllerAddress : string; se_EnrollmentToken : string }.
(** The files of an identity, or their content. *)
Record EdgeTLS := mkEdgeTLS {
  et_CAFile : string; et_CertFile : string; et_KeyFile : string; et_CAPEM : string; et_CertPEM : string; et_KeyPEM : string }.

(** [encoding/json] for these values, as far as the code uses it. *)
Class EnrollmentJSON := {
  encode_code : enrollmentCode → string; decode_code : string → option enrollmentCode;
  encode_options : nodeEnrollmentOptions → string + string; decode_options : string → option nodeEnrollmentOptions }.

(** What the environment of one enrollment decides: the clock at the signature and
    at each statement, the serial number, the random bytes and the statements that
    succeed. *)
Record EnrollEnv := mkEnrollEnv {
  ee_now : time; ee_now_consume : time; ee_now_upsert : time; ee_now_directory : time;
  ee_serial : Z; ee_raw : string + string; ee_sql : nat → bool }.

(** [strings.Contains]. *)
Fixpoint Contains (s sub : string) : bool :=
  HasPrefix s sub || match s with String _ s => Contains s sub | EmptyString => false end.

Section enrollment.
Context `{net : NetLib} `{calendar : Calendar} `{x509 : X509Lib} `{codec : EnrollmentJSON}.
Context (sql_error : store_error) (error_text : store_error → string) (os_error : nat → string) (verify_error parse_error : string).
Context (sha256 : string → string) (SHA2 : string → string) (base64_error : string → string).
Context (Join : list string → string) (Dir : string → string) (IsAbs : string → bool) (pair_error signature_error chain_error : string).

(** ** The code and the checks of an edge *)

Definition EncodeEnrollmentCode (secret fingerprint : string) : string := "menr_" +:+ EncodeToString (encode_code (mkCode secret fingerprint)).
Definition DecodeEnrollmentCode (value : string) : string + (string * string) :=
  let invalid : string + (string * string) := inl "invalid enrollment token"%string in
  if negb (HasPrefix value "menr_") then invalid
  else match DecodeString (TrimPrefix value "menr_") with
  | None => invalid
  | Some data =>
      match decode_code data with
      | None => invalid
      | Some code =>
          if bool_decide (co_Secret code = ""%string) || negb (bool_decide (String.length (co_Fingerprint code) = 64%nat)) then invalid
          else inr (co_Secret code, ToLower (co_Fingerprint code))
      end
  end.
(** The check of the controller's certificate when the code has a fingerprint. *)
Definition VerifyConnection (fingerprint : string) (peers : list string) : option string :=
  match peers with
  | [] => Some "controller did not present a certificate"%string
  | raw :: _ => if bool_decide (hex (bytes_of_string (sha256 raw)) = fingerprint) then None else Some "controller certificate fingerprint mismatch"%string
  end.

Definition ValidateEnrollmentResult (now : time) (r : EnrollmentResponse) (privateKey : string) : option string :=
  if bool_decide (ep_NodeID r = ""%string) || bool_decide (ep_MTLSAddress r = ""%string) || bool_decide (ep_MTLSServerName r = ""%string)
  then Some "missing node or mTLS endpoint"%string
  else match X509KeyPair pair_error (ep_Certificate r) privateKey with
  | inl _ => Some "node certificate does not match generated private key"%string
  | inr cert =>
      if negb (bool_decide (x_CommonName cert = ep_NodeID r)) then Some "node certificate identity mismatch"%string
      else match parse_certificate (ep_CACertificate r) with
      | Some (inr ca) => if Verify cert ca ClientAuth now then None else Some chain_error
      | _ => Some "invalid controller CA certificate"%string
      end
  end.

(** The secret and the fingerprint of what the administrator of the edge entered. *)
Definition entered_code (code : string) : string + (string * string) :=
  let secret := TrimSpace code in
  if HasPrefix secret "menr_" then DecodeEnrollmentCode secret else inr (secret, ""%string).
Definition enroll_url (address : string) : string :=
  let base := TrimRight (TrimSpace address) ["/"%char] in
  (if Contains base "://" then base else "https://" +:+ base) +:+ "/v1/nodes/enroll".
(** [exchange url fingerprint authorization request] is the failure of the connection, or
    the status, the text and the decoded answer. *)
Definition Exchange : Type := string → string → string → EnrollmentRequest → string + (Z * string * (string + EnrollmentResponse)).
Definition EnrollEdgeAs (exchange : Exchange) (key : string + Z) (now : time) (address nodeName code nodeID : string) :
    string + (EnrollmentResponse * string) :=
  match entered_code code with
  | inl err => inl err
  | inr (secret, fingerprint) =>
      match NewNodeKeyAndCSR key nodeName with
      | inl err => inl err
      | inr (privateKey, csr) =>
          match exchange (enroll_url address) fingerprint ("Bearer " +:+ secret) (mkEnrollmentRequest nodeName (TrimSpace nodeID) csr) with
          | inl err => inl err
          | inr (status, text, answer) =>
              if negb (bool_decide (status = 201)) then inl ("controller enrollment failed: " +:+ TrimSpace text)
              else match answer with
              | inl err => inl err
              | inr r =>
                  match ValidateEnrollmentResult now r privateKey with
                  | Some err => inl ("invalid enrollment response: " +:+ err)
                  | None => inr (r, privateKey)
                  end
              end
          end
      end
  end.
Definition EnrollEdge (exchange : Exchange) (key : string + Z) (now : time) (address nodeName code : string) :=
  EnrollEdgeAs exchange key now address nodeName code "".

(** ** The controller *)

(** A node that names itself must exist; otherwise it gets a new identity. *)
Definition node_identity (d : ControllerDB) (e : EnrollEnv) (nodeID : string) : http_error + (string * bool) :=
  if negb (bool_decide (nodeID = ""%string)) then
    match (if ee_sql e 0%nat then GetEdgeNode d nodeID else inl sql_error) with
    | inl _ => inl (400, "requested edge node identity does not exist"%string)
    | inr _ => inr (nodeID, false)
    end
  else match NewOpaqueToken sha256 (ee_raw e) "node_" with
  | inl err => inl (500, err)
  | inr (plain, _) => inr (str_take 37 plain, true)
  end.
Definition saved_options (settings : string) : option nodeEnrollmentOptions :=
  if bool_decide (settings = ""%string) then Some (mkOptions "" "" false) else decode_options settings.
(** The rows of the node, after the token was consumed. *)
Definition record_node (d : ControllerDB) (e : EnrollEnv) (nodeID name serial settings : string) (newNode : bool) :
    ControllerDB * option http_error :=
  match saved_options settings with
  | None => (d, Some (500, "invalid saved enrollment settings"%string))
  | Some options =>
      let chosen := newNode && negb (bool_decide (settings = ""%string)) in
      let name := if chosen && negb (bool_decide (eo_Name options = ""%string)) then eo_Name options else name in
      if negb (ee_sql e 2%nat) then (d, Some (500, error_text sql_error))
      else
        let d := UpsertEdgeNode d (ee_now_upsert e) (mkEdgeNode nodeID name serial "" None "" "" false "{}" zero_time zero_time) in
        if negb chosen then (d, None)
        else if negb (ee_sql e 3%nat) then (d, Some (500, error_text sql_error))
        else match UpdateEdgeNodeDirectory d (ee_now_directory e) nodeID name (eo_PublicAPIURL options) (eo_Selectable options) with
        | (d, Some err) => (d, Some (500, error_text err))
        | (d, None) => (d, None)
        end
  end.
Definition remember (s : System) (d : ControllerDB) (e : EnrollEnv) (nodeID : string) : System :=
  s <| sy_db := Some d |>
    <| sy_control := (λ c, RememberEnrolledNode c (if ee_sql e 4%nat then GetEdgeNode d nodeID else inl sql_error) nodeID) <$> sy_control s |>.
(** The body is [None] when it is not the JSON of a request. *)
Definition enrollEdgeNode (files : string → string + string) (s : System) (e : EnrollEnv) (authorization : string)
    (body : option EnrollmentRequest) : System * (http_error + EnrollmentResponse) :=
  let cfg := sy_cfg s in
  let secret := bearerToken authorization in
  match sy_db s with
  | None => (s, inl (404, "edge enrollment is unavailable"%string))
  | Some d =>
      if negb (bool_decide (cfg_Mode cfg = ModeController)) || negb (cc_EdgeAccessEnabled (cfg_Controller cfg))
      then (s, inl (404, "edge enrollment is unavailable"%string))
      else if bool_decide (secret = ""%string) then (s, inl (401, "enrollment token is required"%string))
      else match body with
      | None => (s, inl (400, "invalid enrollment request"%string))
      | Some req =>
          let name := TrimSpace (eq_NodeName req) in
          if bool_decide (name = ""%string) || bool_decide (is_Some (ParseCSRPublicKey signature_error (eq_CSR req)))
          then (s, inl (400, "node name and valid CSR are required"%string))
          else match controllerPKIMaterial Join Dir IsAbs base64_error files cfg with
          | inl err => (s, inl (500, "load controller PKI failed: " +:+ err))
          | inr m =>
              match node_identity d e (TrimSpace (eq_NodeID req)) with
              | inl err => (s, inl err)
              | inr (nodeID, newNode) =>
                  match SignNodeCSRMaterial m (ee_now e) (ee_serial e) nodeID (eq_CSR req) with
                  | inl err => (s, inl (400, err))
                  | inr (cert, serial, expires) =>
                      match (if ee_sql e 1%nat then ConsumeEnrollmentTokenSettings SHA2 d (ee_now_consume e) secret else inl sql_error) with
                      | inl err => (s, inl (401, error_text err))
                      | inr (d, settings) =>
                          match record_node d e nodeID name serial settings newNode with
                          | (d, Some err) => (s <| sy_db := Some d |>, inl err)
                          | (d, None) =>
                              (remember s d e nodeID,
                               inr (mkEnrollmentResponse nodeID cert (pm_CACertificate m) expires (cc_PublicAddress (cfg_Controller cfg))
                                      (host_of (cc_PublicAddress (cfg_Controller cfg)))))
                          end
                      end
                  end
              end
          end
      end
  end.

Definition token_options (o : nodeEnrollmentOptions) : http_error + string :=
  let o := mkOptions (TrimSpace (eo_Name o)) (TrimRight (TrimSpace (eo_PublicAPIURL o)) ["/"%char]) (eo_Selectable o) in
  if bool_decide (512 < Z.of_nat (String.length (eo_PublicAPIURL o))) then inl (400, "node API URL is too long"%string)
  else if bool_decide (128 < Z.of_nat (String.length (eo_Name o))) then inl (400, "node name is too long"%string)
  else match (if negb (bool_decide (eo_PublicAPIURL o = ""%string)) || eo_Selectable o then validatePublicAPIURL (eo_PublicAPIURL o) else None) with
  | Some err => inl (400, err)
  | None => match encode_options o with inl err => inl (500, err) | inr text => inr text end
  end.
(** The authority is created when there is none in the configuration, and saved. *)
Definition token_authority (files : string → string + string) (node : EdgeNodeServer) (o : Outcomes) (fresh fresh' : string + Fresh) :
    EdgeNodeServer * option http_error :=
  let cfg := es_cfg node in
  if negb (bool_decide (tls_CACertificateBase64 (cc_TLS (cfg_Controller cfg)) = ""%string)) then (node, None)
  else match ensureControllerPKI Join Dir IsAbs base64_error pair_error files cfg (oc_now o) fresh fresh' with
  | inl err => (node, Some (500, "prepare controller PKI failed: " +:+ err))
  | inr cfg =>
      match write_config os_error node o cfg with
      | (node, Some err) => (node, Some (500, "write controller PKI failed: " +:+ err))
      | (node, None) => (node <| es_cfg := cfg |>, None)
      end
  end.
(** The body is the error of its decoding, or the lifetime and the options, zero without a body;
    [requireControllerAdmin] has found the database [d]. *)
Definition createNodeEnrollmentToken (files : string → string + string) (s : System) (d : ControllerDB) (o : Outcomes) (fresh fresh' : string + Fresh)
    (raw : string + string) (adminID : Z) (body : string + (Z * option nodeEnrollmentOptions)) : System * (http_error + (string * time)) :=
  if negb (cc_EdgeAccessEnabled (cfg_Controller (sy_cfg s))) then (s, inl (409, "enable edge node access first"%string))
  else match body with
  | inl err => (s, inl (400, err))
  | inr (minutes, options) =>
      let minutes := if bool_decide (minutes = 0) then 10 else minutes in
      if bool_decide (minutes < 1) || bool_decide (60 < minutes) then (s, inl (400, "token lifetime must be between 1 and 60 minutes"%string))
      else match (match options with None => inr ""%string | Some options => token_options options end) with
      | inl err => (s, inl err)
      | inr settings =>
          match token_authority files (sy_node s) o fresh fresh' with
          | (node, Some err) => (s <| sy_node := node |>, inl err)
          | (node, None) =>
              let s := s <| sy_node := node |> in
              match NewOpaqueToken sha256 raw "enroll_" with
              | inl err => (s, inl (500, err))
              | inr (plain, _) =>
                  let expires := oc_now o + minutes * Minute in
                  match (if oc_sql o 0%nat then CreateEnrollmentTokenWithSettings SHA2 d plain (TokenPrefix plain) 1 expires adminID settings
                         else inl sql_error) with
                  | inl err => (s, inl (500, error_text err))
                  | inr d => (s <| sy_db := Some d |>, inr (plain, expires))
                  end
              end
          end
      end
  end.

(** ** The edge *)

(** The saved identity. *)
Definition edge_tls (r : EnrollmentResponse) (privateKey : string) : TLSFiles :=
  mkTLS "" "" "" (EncodePEM (ep_CACertificate r)) "" (EncodePEM (ep_Certificate r)) (EncodePEM privateKey).
Definition enrolled_edge (edge : EdgeConfig) (r : EnrollmentResponse) (privateKey nodeName apiAddress : string) : EdgeConfig :=
  edge <| ec_NodeID := ep_NodeID r |> <| ec_NodeName := nodeName |> <| ec_ControllerAPIAddr := apiAddress |>
       <| ec_ControllerAddr := ep_MTLSAddress r |> <| ec_ServerName := ep_MTLSServerName r |> <| ec_TLS := edge_tls r privateKey |>.
Definition validateAdminPassword (password : string) : option string :=
  if bool_decide (String.length password < 8)%nat then Some "password must be at least 8 characters"%string else None.
(** The configuration after the first setup. *)
Definition setup_config (cfg : Config) (req : setupEdgeRequest) (request : Request) (hash secret : string) (r : EnrollmentResponse)
    (privateKey nodeName address : string) : Config :=
  let cfg := cfg <| ConfigVersion := 2 |> <| ConfigState := "configured"%string |> <| ConfigError := ""%string |> <| cfg_Mode := ModeEdge |>
                 <| Initialized := true |> <| CookieSecret := secret |>
                 <| InitialAdmin := mkAdmin (TrimSpace (se_Username req)) (TrimSpace (se_DisplayName req)) hash |> <| MySQLDSN := ""%string |> in
  let cfg := initializeNodeRuntimeFromRequest cfg request nodeName in
  let edge := enrolled_edge (cfg_Edge cfg) r privateKey nodeName address in
  cfg <| cfg_Edge := if bool_decide (ec_StatePath edge = ""%string) then edge <| ec_StatePath := "data/edge-state.db"%string |> else edge |>.
(** [preserved] is the error of [PreserveInvalidFile], [hashed] is bcrypt's answer and
    [opened] what opening the state gives. *)
Definition setupEdge (exchange : Exchange) (s : System) (o : Outcomes) (request : Request) (req : setupEdgeRequest) (key : string + Z)
    (preserved : option string) (hashed : string → string + string) (secret : string + string) (opened : string + (Store * EdgeQueue)) :
    System * (http_error + EnrollmentResponse) :=
  let nodeName := TrimSpace (se_NodeName req) in
  let address := NormalizeControllerAddress (se_ControllerAddress req) in
  let cfg := sy_cfg s in
  if bool_decide (TrimSpace (se_Username req) = ""%string) || bool_decide (nodeName = ""%string) || bool_decide (address = ""%string) ||
     bool_decide (TrimSpace (se_EnrollmentToken req) = ""%string)
  then (s, inl (400, "administrator, node name, controller address and enrollment token are required"%string))
  else match validateAdminPassword (se_Password req) with
  | Some err => (s, inl (400, err))
  | None =>
      if Initialized cfg && bool_decide (ConfigState cfg = "configured"%string) then (s, inl (409, "system already initialized"%string))
      else match (if bool_decide (ConfigState cfg = "invalid"%string) then preserved else None) with
      | Some err => (s, inl (500, "preserve invalid config failed: " +:+ err))
      | None =>
          match hashed (se_Password req) with
          | inl err => (s, inl (500, err))
          | inr hash =>
              match EnrollEdge exchange key (oc_now o) address nodeName (TrimSpace (se_EnrollmentToken req)) with
              | inl err => (s, inl (400, err))
              | inr (r, privateKey) =>
                  match secret with
                  | inl err => (s, inl (500, err))
                  | inr secret =>
                      let cfg := setup_config cfg req request hash secret r privateKey nodeName address in
                      match prepareFRPIdentity verify_error parse_error (sy_node s) o cfg with
                      | (node, Some err) => (s <| sy_node := node |>, inl (500, "prepare FRP identity failed: " +:+ err))
                      | (node, None) =>
                          match write_config os_error node o cfg with
                          | (node, Some err) => (s <| sy_node := node |>, inl (500, "write config failed: " +:+ err))
                          | (node, None) =>
                              match opened with
                              | inl err => (s <| sy_node := node |>, inl (500, "open edge state failed: " +:+ err))
                              | inr state =>
                                  (s <| sy_node := node <| es_cfg := cfg |> <| es_state := Some state |> |> <| sy_db := None |>, inr r)
                              end
                          end
                      end
                  end
              end
          end
      end
  end.
Definition reEnrollEdge (exchange : Exchange) (s : System) (o : Outcomes) (key : string + Z)
    (controllerAddress enrollmentToken nodeName : string) : System * (http_error + EnrollmentResponse) :=
  let cfg := sy_cfg s in
  if negb (bool_decide (cfg_Mode cfg = ModeEdge)) || negb (Initialized cfg) then (s, inl (409, "configured edge mode is required"%string))
  else
    let address := NormalizeControllerAddress controllerAddress in
    let address := if bool_decide (address = ""%string) then NormalizeControllerAddress (ec_ControllerAPIAddr (cfg_Edge cfg)) else address in
    let nodeName := TrimSpace nodeName in
    let nodeName := if bool_decide (nodeName = ""%string) then ec_NodeName (cfg_Edge cfg) else nodeName in
    if bool_decide (address = ""%string) || bool_decide (nodeName = ""%string) || bool_decide (TrimSpace enrollmentToken = ""%string)
    then (s, inl (400, "controller HTTPS address, node name and enrollment token are required"%string))
    else match EnrollEdgeAs exchange key (oc_now o) address nodeName (TrimSpace enrollmentToken) (ec_NodeID (cfg_Edge cfg)) with
    | inl err => (s, inl (400, err))
    | inr (r, privateKey) =>
        let cfg := cfg <| cfg_Edge := enrolled_edge (cfg_Edge cfg) r privateKey nodeName address |> in
        match write_config os_error (sy_node s) o cfg with
        | (node, Some err) => (s <| sy_node := node |>, inl (500, "write renewed edge certificate failed: " +:+ err))
        | (node, None) => (s <| sy_node := setRuntime node o cfg |>, inr r)
        end
    end.

(** ** The control channel *)

(** The identity that [main] gives the client of the controller. *)
Definition edge_files (cfg : Config) : string + EdgeTLS :=
  let tls := ec_TLS (cfg_Edge cfg) in
  let path := ResolvePath Join Dir IsAbs (ConfigPath cfg) in
  let files := mkEdgeTLS (path (tls_CAFile tls)) (path (tls_CertFile tls)) (path (tls_KeyFile tls)) in
  if bool_decide (tls_CACertificateBase64 tls = ""%string) then inr (files "" "" ""%string)%string
  else match DecodePEM base64_error (tls_CACertificateBase64 tls) with
  | inl err => inl ("decode edge CA: " +:+ err)
  | inr ca =>
      match DecodePEM base64_error (tls_CertificateBase64 tls) with
      | inl err => inl ("decode edge certificate: " +:+ err)
      | inr cert =>
          match DecodePEM base64_error (tls_PrivateKeyBase64 tls) with
          | inl err => inl ("decode edge private key: " +:+ err)
          | inr key => inr (files ca cert key)
          end
      end
  end.
Definition pem_or_file (files : string → string + string) (pem path : string) : string + string :=
  if bool_decide (pem = ""%string) then files path else inr pem.
(** The certificate that an edge presents and the root that it accepts. *)
Definition connect_tls (files : string → string + string) (t : EdgeTLS) : string + (Certificate * Certificate) :=
  match pem_or_file files (et_CAPEM t) (et_CAFile t), pem_or_file files (et_CertPEM t) (et_CertFile t),
        pem_or_file files (et_KeyPEM t) (et_KeyFile t) with
  | inl err, _, _ | inr _, inl err, _ | inr _, inr _, inl err => inl err
  | inr ca, inr cert, inr key =>
      match X509KeyPair pair_error cert key with
      | inl err => inl err
      | inr own => match parse_certificate ca with Some (inr root) => inr (own, root) | _ => inl "invalid controller CA"%string end
      end
  end.
(** The certificate that the controller presents and the root that it accepts. *)
Definition start_tls (m : PKIMaterial) : string + (Certificate * Certificate) :=
  match X509KeyPair pair_error (pm_Certificate m) (pm_PrivateKey m) with
  | inl err => inl err
  | inr own => match parse_certificate (pm_CACertificate m) with Some (inr root) => inr (own, root) | _ => inl "invalid node CA"%string end
  end.
(** [crypto/tls] with [RequireAndVerifyClientCert] on the one side, and the roots and
    the name of the server on the other. *)
Definition handshake (server client : Certificate * Certificate) (serverName : string) (t : time) : bool :=
  Verify server.1 client.2 ServerAuth t && bool_decide (VerifyHostname server.1 serverName = None) && Verify client.1 server.2 ClientAuth t.
(** What [Connect] then asks of the database. *)
Definition admits (s : System) (client : Certificate) : bool :=
  match sy_db s, sy_control s with
  | Some d, Some control =>
      authorized_certificate (authorizedNode control control (GetEdgeNode d (x_CommonName client)) (x_CommonName client)).2
        (serial_text (x_Serial client))
  | _, _ => false
  end.
Definition edgeCertificate (files : string → string + string) (cfg : Config) : string + Certificate :=
  let tls := ec_TLS (cfg_Edge cfg) in
  match (if negb (bool_decide (tls_CertificateBase64 tls = ""%string)) then DecodePEM base64_error (tls_CertificateBase64 tls)
         else if negb (bool_decide (tls_CertFile tls = ""%string)) then files (ResolvePath Join Dir IsAbs (ConfigPath cfg) (tls_CertFile tls))
         else inl "edge certificate is not configured"%string) with
  | inl err => inl err
  | inr pem =>
      match parse_certificate pem with
      | None => inl "invalid edge certificate"%string
      | Some c => c
      end
  end.
End enrollment.
