(* ===== verification/ClusterJoin.v ===== *)
(** * A node joins the cluster

    The composition of the enrollment on both sides ([Enrollment]) with the control
    channel: an edge that was enrolled is accepted by the controller and accepts the
    controller, also after the authority was prepared again for later settings, and
    an enrollment token admits one node. *)
From Stdlib Require Import ZArith Lia Ascii String.
From stdpp Require Import gmap strings list relations.
From S2P Require Import Prelude GoStrings Base64 Security Types DpiEngine DpiService FrpManager Config ConfigFile FrpTls NodePorts NodeSettings Pki EdgeStore EdgeIdentity ControllerDB NodeDirectory ControllerLink DBInvariant EdgeQueue EdgeCommands SystemSettings Enrollment.
Local Open Scope Z_scope.

Section join.
Context `{net : NetLib} `{calendar : Calendar} `{x509 : X509Lib} `{codec : EnrollmentJSON} `{hostnames : !HostnameLaws}.
Context (sql_error : store_error) (error_text : store_error → string) (os_error : nat → string) (verify_error parse_error : string).
Context (sha256 : string → string) (SHA2 : string → string) (base64_error : string → string).
Context (Join : list string → string) (Dir : string → string) (IsAbs : string → bool) (pair_error signature_error chain_error : string).
Abbreviation Material := (controllerPKIMaterial Join Dir IsAbs base64_error).
Abbreviation Ensure := (ensureControllerPKI Join Dir IsAbs base64_error pair_error).
Abbreviation Enroll := (enrollEdgeNode sql_error error_text sha256 SHA2 base64_error Join Dir IsAbs signature_error).
Abbreviation EnrollAs := (EnrollEdgeAs pair_error chain_error).

(** The configurations of a controller from the first preparation of its authority on:
    settings change, and the authority is prepared again. *)
Inductive pki_step : Config → Config → Prop :=
  | p_settings cfg cfg' :
      cc_TLS (cfg_Controller cfg') = cc_TLS (cfg_Controller cfg) →
      cc_PublicAddress (cfg_Controller cfg') = cc_PublicAddress (cfg_Controller cfg) → pki_step cfg cfg'
  | p_prepare cfg cfg1 files now fresh fresh' cfg' :
      cc_TLS (cfg_Controller cfg1) = cc_TLS (cfg_Controller cfg) → Ensure files cfg1 now fresh fresh' = inr cfg' → pki_step cfg cfg'.
Definition pki_run (cfg : Config) : Prop :=
  ∃ files cfg0 now fresh fresh' err cfg1,
    Material files cfg0 = inl err ∧ Ensure files cfg0 now fresh fresh' = inr cfg1 ∧ rtc pki_step cfg1 cfg.

Lemma pki_step_ok cfg cfg' ca text : pki_step cfg cfg' → pki_ok Join Dir IsAbs base64_error pair_error cfg ca text →
  pki_ok Join Dir IsAbs base64_error pair_error cfg' ca text.
Proof.
  destruct 1 as [cfg cfg' Ht Ha|]; [|by intros; eapply ensure_again]. intros (m & cert & Hm & H). exists m, cert. rewrite Ha. split; [|done].
  intros files cfg2 H2. apply Hm. congruence.
Qed.
Lemma pki_steps_ok cfg cfg' ca text : rtc pki_step cfg cfg' → pki_ok Join Dir IsAbs base64_error pair_error cfg ca text →
  pki_ok Join Dir IsAbs base64_error pair_error cfg' ca text.
Proof. induction 1; [done|]. eauto using pki_step_ok. Qed.
Lemma pki_run_ok cfg : pki_run cfg → ∃ ca text, pki_ok Join Dir IsAbs base64_error pair_error cfg ca text.
Proof.
  intros (files & cfg0 & now & fresh & fresh' & err & cfg1 & Hm & He & Hr). destruct (ensure_first _ _ _ _ _ _ _ _ _ _ _ _ Hm He) as (ca & text & H).
  exists ca, text. by eapply pki_steps_ok.
Qed.

(** ** What the controller records *)

Definition authorized_row (d : ControllerDB) (nodeID serial : string) : Prop :=
  ∃ row, d_nodes d !! nodeID = Some row ∧ en_Status row = "active"%string ∧ en_CertificateSerial row = serial.
Lemma upsert_row d now node : authorized_row (UpsertEdgeNode d now node) (en_NodeID node) (en_CertificateSerial node).
Proof. unfold authorized_row, UpsertEdgeNode. cbn. rewrite lookup_insert_eq. by destruct (d_nodes d !! en_NodeID node); eexists. Qed.
Lemma directory_row d now id name url selectable d' serial :
  UpdateEdgeNodeDirectory d now id name url selectable = (d', None) → authorized_row d id serial → authorized_row d' id serial.
Proof.
  unfold UpdateEdgeNodeDirectory. intros H (row & Hrow & Hs & Hc). rewrite Hrow in H. destruct (_ && _); [done|]. injection H as <-.
  unfold authorized_row. cbn. rewrite lookup_insert_eq. by eexists.
Qed.
Lemma record_row d e id name serial settings newNode d' :
  record_node sql_error error_text d e id name serial settings newNode = (d', None) → authorized_row d' id serial.
Proof.
  unfold record_node. destruct (saved_options settings) as [options|]; [|done]. destruct (negb (ee_sql e 2)); [done|].
  match goal with |- context [UpsertEdgeNode d ?t ?n] => pose proof (upsert_row d t n) as Hrow end. destruct (negb (_ && _)); [by intros [= <-]|].
  destruct (negb (ee_sql e 3)); [done|]. destruct (UpdateEdgeNodeDirectory _ _ _ _ _ _) as [d1 [err|]] eqn:Eu; [done|]. intros [= <-].
  by eapply directory_row.
Qed.
Lemma remembered s d e id serial control :
  authorized_row d id serial → ee_sql e 4%nat = true → sy_control s = Some control →
  ∃ control' row, sy_control (remember sql_error s d e id) = Some control' ∧ GetEdgeNode d id = inr row ∧
    (authorizedNode control' control' (inr row) id).2 = inr row ∧ authorized_certificate (inr row) serial = true.
Proof.
  intros (row & Hrow & Hs & Hc) He Hcontrol. assert (Hget : GetEdgeNode d id = inr row) by (unfold GetEdgeNode; by rewrite Hrow).
  unfold remember. cbn. rewrite Hcontrol, He, Hget. cbn. eexists _, row. split_and!; [done..| |].
  - unfold authorizedNode. cbn. rewrite bool_decide_eq_false_2 by set_solver. destruct (cs_databaseSuspect control); [by rewrite lookup_insert_eq|done].
  - by rewrite Hs, Hc, !bool_decide_eq_true_2.
Qed.

(** The certificate that the controller signs in an enrollment. *)
Definition issued (e : EnrollEnv) (ca : Certificate) (nodeID : string) (key : Z) : Certificate :=
  whole_seconds (node_certificate (ee_now e) nodeID (x_CommonName ca) (ee_serial e) key (x_Key ca)).
Lemma enroll_answer files s e authorization req s' r ca text :
  Enroll files s e authorization (Some req) = (s', inr r) → pki_ok Join Dir IsAbs base64_error pair_error (sy_cfg s) ca text →
  ∃ name key d', parse_request (eq_CSR req) = Some (true, inr (mkCSR name key true)) ∧
    parse_certificate (ep_Certificate r) = Some (inr (issued e ca (ep_NodeID r) key)) ∧
    (∀ t, Verify (issued e ca (ep_NodeID r) key) ca ClientAuth t = in_force (issued e ca (ep_NodeID r) key) t && in_force ca t) ∧
    ep_CACertificate r = text ∧ ep_MTLSServerName r = host_of (cc_PublicAddress (cfg_Controller (sy_cfg s))) ∧
    authorized_row d' (ep_NodeID r) (serial_text (ee_serial e)) ∧ s' = remember sql_error s d' e (ep_NodeID r).
Proof.
  unfold enrollEdgeNode. intros H (m & cert & Hm & Ha & <- & Hs). destruct (sy_db s) as [d|]; [|done]. destruct (negb _ || negb _); [done|].
  case_bool_decide; [done|]. destruct (bool_decide _ || bool_decide _); [done|]. rewrite (Hm files (sy_cfg s) eq_refl) in H.
  destruct (node_identity _ _ _ _ _) as [|[id newNode]]; [done|].
  destruct (SignNodeCSRMaterial _ _ _ _ _) as [|[[cert' serial] expires]] eqn:Esign; [done|].
  destruct (if ee_sql e 1 then _ else _) as [|[d1 settings]]; [done|].
  destruct (record_node _ _ _ _ _ _ _ _ _) as [d' [err|]] eqn:Er; [done|]. injection H as <- <-.
  destruct (sign_node _ _ _ _ _ _ _ _ _ Ha Esign) as (name & key & Hreq & -> & _ & Hcert & Hv).
  exists name, key, d'. cbn. split_and!; [done..|by eapply record_row|done].
Qed.

(** ** What the edge keeps *)

(** The network carries the request to the controller and its answer back; [body] is the text of the answer. *)
Context (body : http_error + EnrollmentResponse → string).
Definition served (files : string → string + string) (s : System) (e : EnrollEnv) : Exchange := λ _ _ authorization req,
  let answer := (Enroll files s e authorization (Some req)).2 in
  inr (match answer with inl (status, text) => (status, body answer, inl text) | inr r => (201, body answer, inr r) end).
(** A first setup or a new enrollment of an edge that succeeds. *)
Inductive joins (exchange : Exchange) (edge edge' : System) (r : EnrollmentResponse) : Prop :=
  | j_setup o request req key preserved hashed secret opened :
      setupEdge os_error verify_error parse_error pair_error chain_error exchange edge o request req key preserved hashed secret
        opened = (edge', inr r) → joins exchange edge edge' r
  | j_again o key address token name :
      reEnrollEdge os_error pair_error chain_error exchange edge o key address token name = (edge', inr r) → joins exchange edge edge' r.

Lemma setup_edge cfg req request hash secret r privateKey name address :
  let edge := cfg_Edge (setup_config cfg req request hash secret r privateKey name address) in
  ec_TLS edge = edge_tls r privateKey ∧ ec_ServerName edge = ep_MTLSServerName r.
Proof. unfold setup_config. cbv zeta. set (c := initializeNodeRuntimeFromRequest _ _ _). clearbody c. by destruct (bool_decide _). Qed.
Lemma joins_edge exchange edge edge' r :
  joins exchange edge edge' r → ∃ key now address name code nodeID privateKey,
    EnrollAs exchange key now address name code nodeID = inr (r, privateKey) ∧
    ec_TLS (cfg_Edge (sy_cfg edge')) = edge_tls r privateKey ∧ ec_ServerName (cfg_Edge (sy_cfg edge')) = ep_MTLSServerName r.
Proof.
  destruct 1 as [o request req key preserved hashed secret opened H|o key address token name H].
  - unfold setupEdge in H. destruct (_ || _); [done|]. destruct (validateAdminPassword _); [done|]. destruct (_ && _); [done|].
    destruct (if bool_decide _ then preserved else None); [done|]. destruct (hashed _) as [|hash]; [done|]. unfold EnrollEdge in H.
    destruct (EnrollAs _ _ _ _ _ _ _) as [|[r' privateKey]] eqn:Ee; [done|]. destruct secret as [|secret]; [done|].
    destruct (prepareFRPIdentity _ _ _ _ _) as [node1 [|]]; [done|]. destruct (write_config _ _ _ _) as [node2 [|]]; [done|].
    destruct opened as [|state]; [done|]. injection H as <- <-. eexists _, _, _, _, _, _, privateKey. split; [exact Ee|].
    apply setup_edge.
  - unfold reEnrollEdge in H. destruct (_ || _); [done|]. cbv zeta in H. destruct (_ || _); [done|].
    destruct (EnrollAs _ _ _ _ _ _ _) as [|[r' privateKey]] eqn:Ee; [done|]. destruct (write_config _ _ _ _) as [node2 [|]]; [done|].
    injection H as <- <-. eexists _, _, _, _, _, _, privateKey. split; [exact Ee|]. done.
Qed.
Lemma edge_request files s e key now address name code nodeID r privateKey :
  EnrollAs (served files s e) key now address name code nodeID = inr (r, privateKey) →
  ∃ authorization req k, (Enroll files s e authorization (Some req)).2 = inr r ∧ privateKey = pem_key k ∧
    CreateCertificateRequest name k = inr (eq_CSR req).
Proof.
  unfold EnrollEdgeAs. destruct (entered_code code) as [|[secret fingerprint]]; [done|]. unfold NewNodeKeyAndCSR. destruct key as [|k]; [done|].
  destruct (CreateCertificateRequest name k) as [|csr] eqn:Ec; [done|]. unfold served.
  set (req := mkEnrollmentRequest _ _ _). destruct (Enroll files s e _ (Some req)).2 as [[status text]|r'] eqn:Er; cbn.
  { by destruct (negb _). }
  destruct (ValidateEnrollmentResult _ _ _ _ _); [done|]. intros [= -> <-]. by eexists _, req, k.
Qed.
Lemma edge_identity cfg r privateKey own ca :
  ec_TLS (cfg_Edge cfg) = edge_tls r privateKey → X509KeyPair pair_error (ep_Certificate r) privateKey = inr own →
  parse_certificate (ep_CACertificate r) = Some (inr ca) →
  ∃ f, edge_files base64_error Join Dir IsAbs cfg = inr f ∧ ∀ files, connect_tls pair_error files f = inr (own, ca).
Proof.
  intros Ht Hp Hca. destruct (pair_nonempty _ _ _ _ Hp) as [Hn1 Hn2].
  assert (Hn3 : ep_CACertificate r ≠ ""%string) by (intros E; rewrite E, (proj1 parse_empty) in Hca; discriminate).
  unfold edge_files. rewrite Ht. unfold edge_tls. cbn [tls_CACertificateBase64 tls_CertificateBase64 tls_PrivateKeyBase64 tls_CAFile tls_CertFile tls_KeyFile].
  rewrite bool_decide_eq_false_2 by (intros H; by apply StdEncode_empty in H). rewrite !Decode_EncodePEM by done. eexists. split; [done|]. intros files.
  unfold connect_tls, pem_or_file. cbn [et_CAPEM et_CertPEM et_KeyPEM]. rewrite !bool_decide_eq_false_2 by done. by rewrite Hp, Hca.
Qed.
Lemma pki_root cfg ca text : pki_ok Join Dir IsAbs base64_error pair_error cfg ca text → parse_certificate text = Some (inr ca).
Proof.
  intros (m & cert & _ & [Ha _] & <- & _). unfold authority in Ha. destruct (parse_certificate _) as [[|c]|]; [by destruct (parse_key _)| |done].
  destruct (parse_key _) as [[|k]|]; [done| |done]. by injection Ha as ->.
Qed.
Lemma enrolled_admitted s d e id client control :
  authorized_row d id (serial_text (x_Serial client)) → x_CommonName client = id → ee_sql e 4%nat = true → sy_control s = Some control →
  admits (remember sql_error s d e id) client = true.
Proof.
  intros Hrow Hid Hsql Hcontrol. destruct (remembered _ _ _ _ _ _ Hrow Hsql Hcontrol) as (control' & row & Hc & Hg & Ha & Hok).
  unfold admits. rewrite Hid, Hc. cbn. by rewrite Hg, Ha.
Qed.
Lemma channel_accepts files cfg ca text client :
  pki_ok Join Dir IsAbs base64_error pair_error cfg ca text → (∀ t, Verify client ca ClientAuth t = in_force client t && in_force ca t) →
  host_of (cc_PublicAddress (cfg_Controller cfg)) ≠ ""%string → host_of (cc_PublicAddress (cfg_Controller cfg)) ≠ "."%string →
  ∃ m server, Material files cfg = inr m ∧ start_tls pair_error m = inr (server, ca) ∧
    ∀ t, handshake (server, ca) (client, ca) (host_of (cc_PublicAddress (cfg_Controller cfg))) t =
      in_force client t && in_force server t && in_force ca t.
Proof.
  intros Hpki Hv H1 H2. pose proof (pki_root _ _ _ Hpki) as Hroot. destruct Hpki as (m & cert & Hm & [Ha Hisca] & <- & Hp & Hsign & Hiss & Huse & Hhost).
  exists m, cert. split; [by apply Hm|]. unfold start_tls. rewrite Hp, Hroot. split; [done|]. intros t. unfold handshake. cbn.
  assert (Hu : bool_decide ([ServerAuth] = []) || bool_decide (ServerAuth ∈ [ServerAuth]) = true) by reflexivity.
  rewrite Hv, (Hhost H1 H2), bool_decide_eq_true_2 by done. unfold Verify. rewrite Huse, Hu, Hsign, Hiss, Hisca.
  rewrite (bool_decide_eq_true_2 (x_Key ca = _)), (bool_decide_eq_true_2 (x_CommonName ca = _)) by done. cbn.
  by destruct (in_force cert t), (in_force ca t), (in_force client t).
Qed.
Lemma issued_in_force e ca id key t :
  ee_now e - 5 * Minute ≤ t → t ≤ ee_now e + 365 * Day - Second → in_force (issued e ca id key) t = true.
Proof.
  intros H1 H2. unfold in_force. cbn. pose proof (one_year (ee_now e)). pose proof (asn1_bounds (ee_now e - 5 * Minute)).
  rewrite !bool_decide_eq_true_2 by lia. done.
Qed.

(** C7: An enrolled edge connects. Let the authority of a controller be prepared once and then again after any changes of its
    settings, and let an edge be set up, or enrolled again, with the answer of this controller to its request. Then the edge
    has kept the certificate for its identity, which is valid for a year and which the controller authorizes, and in every
    later configuration of the controller with the same public host the handshake of the control channel succeeds, each side
    verifying the other, exactly while the two certificates and the authority are in force. *)
Theorem enrolled_edge_connects files s e edge edge' r control :
  pki_run (sy_cfg s) → sy_control s = Some control → ee_sql e 4%nat = true → joins (served files s e) edge edge' r →
  host_of (cc_PublicAddress (cfg_Controller (sy_cfg s))) ≠ ""%string → host_of (cc_PublicAddress (cfg_Controller (sy_cfg s))) ≠ "."%string →
  ∃ authorization req s' f client ca,
    Enroll files s e authorization (Some req) = (s', inr r) ∧ edge_files base64_error Join Dir IsAbs (sy_cfg edge') = inr f ∧
    (∀ files', connect_tls pair_error files' f = inr (client, ca)) ∧ x_CommonName client = ep_NodeID r ∧ admits s' client = true ∧
    (∀ t, ee_now e - 5 * Minute ≤ t ≤ ee_now e + 365 * Day - Second → in_force client t = true) ∧
    ∀ cfg' files', rtc pki_step (sy_cfg s) cfg' →
      host_of (cc_PublicAddress (cfg_Controller cfg')) = host_of (cc_PublicAddress (cfg_Controller (sy_cfg s))) →
      ∃ m server, Material files' cfg' = inr m ∧ start_tls pair_error m = inr (server, ca) ∧
        ∀ t, handshake (server, ca) (client, ca) (ec_ServerName (cfg_Edge (sy_cfg edge'))) t =
          in_force client t && in_force server t && in_force ca t.
Proof.
  intros Hrun Hcontrol Hsql Hjoin Hh1 Hh2. destruct (pki_run_ok _ Hrun) as (ca & text & Hpki).
  destruct (joins_edge _ _ _ _ Hjoin) as (key & now & address & name & code & nodeID & privateKey & He & Htls & Hname).
  destruct (edge_request _ _ _ _ _ _ _ _ _ _ _ He) as (authorization & req & k & Hr & -> & Hcsr).
  destruct (Enroll files s e authorization (Some req)) as [s' r'] eqn:Es. cbn in Hr. subst r'.
  destruct (enroll_answer _ _ _ _ _ _ _ _ _ Es Hpki) as (name' & key' & d' & Hreq & Hcert & Hv & Hca & Hserver & Hrow & ->).
  rewrite (parse_created_request _ _ _ Hcsr) in Hreq. injection Hreq as <- <-.
  assert (Hpair : X509KeyPair pair_error (ep_Certificate r) (pem_key k) = inr (issued e ca (ep_NodeID r) k)).
  { unfold X509KeyPair. by rewrite Hcert, parse_pem_key, bool_decide_eq_true_2. }
  assert (Hroot : parse_certificate text = Some (inr ca)) by (by eapply pki_root).
  rewrite <- Hca in Hroot. destruct (edge_identity _ _ _ _ _ Htls Hpair Hroot) as (f & Hf & Hconnect).
  exists authorization, req, (remember sql_error s d' e (ep_NodeID r)), f, (issued e ca (ep_NodeID r) k), ca.
  split_and!; [done..| | |].
  - by eapply enrolled_admitted.
  - intros t [H1 H2]. by apply issued_in_force.
  - intros cfg' files' Hsteps Hhost. rewrite Hca in Hroot. pose proof (pki_steps_ok _ _ _ _ Hsteps Hpki) as Hpki'.
    rewrite Hname, Hserver, <- Hhost. apply (channel_accepts _ _ _ _ _ Hpki' Hv); congruence.
Qed.

(** ** The tokens *)

Abbreviation CreateToken := (createNodeEnrollmentToken sql_error error_text os_error sha256 SHA2 base64_error Join Dir IsAbs pair_error).
(** What happens to the tokens: enrollments, accepted with a secret or refused, new tokens, and everything else. *)
Inductive token_step (s : System) : option (string * time) → System → Prop :=
  | t_enrolled files e authorization b s' r :
      Enroll files s e authorization b = (s', inr r) → token_step s (Some (bearerToken authorization, ee_now_consume e)) s'
  | t_refused files e authorization b s' err : Enroll files s e authorization b = (s', inl err) → token_step s None s'
  | t_created files d o fresh fresh' raw admin b s' answer :
      sy_db s = Some d → CreateToken files s d o fresh fresh' raw admin b = (s', answer) → token_step s None s'
  | t_other s' : d_enrollments <$> sy_db s' = d_enrollments <$> sy_db s → token_step s None s'.
Inductive token_run (s : System) : list (option (string * time)) → System → Prop :=
  | run_nil : token_run s [] s
  | run_cons l s1 ls s2 : token_step s l s1 → token_run s1 ls s2 → token_run s (l :: ls) s2.
(** The times at which a secret was accepted. *)
Definition uses (secret : string) (ls : list (option (string * time))) : list time :=
  omap (λ l, match l with Some (p, t) => if bool_decide (p = secret) then Some t else None | None => None end) ls.

Definition tokens_keyed (t : gmap string EnrollmentToken) : Prop :=
  ∀ k r, t !! k = Some r → et_TokenHash r = k ∧ HasPrefix k "enroll_" = false.
Record token_at (plain : string) (expires : time) (used : Z) (t : gmap string EnrollmentToken) : Prop := {
  ta_keyed : tokens_keyed t;
  ta_row : ∃ r, t !! SHA2 plain = Some r ∧ et_PlainToken r = Some plain ∧ et_MaxUses r = 1 ∧ et_ExpiresAt r = expires ∧ used ≤ et_UseCount r;
  ta_unique : ∀ k r, t !! k = Some r → et_PlainToken r = Some plain → k = SHA2 plain }.
(** The hash of MySQL is hexadecimal. *)
Context (SHA2_hex : ∀ x, HasPrefix (SHA2 x) "enroll_" = false).

Lemma find_row_key {V} (p : V → bool) (t : gmap string V) r : find_row p t = Some r → ∃ k, t !! k = Some r ∧ p r = true.
Proof.
  unfold find_row. intros ([k v] & Hin%head_Some_elem_of & ->)%fmap_Some. apply list_elem_of_filter in Hin as [Hp Hin].
  exists k. split; [by apply elem_of_map_to_list|]. by destruct (p v).
Qed.
Lemma consume_table d now secret d' settings plain expires used :
  ConsumeEnrollmentTokenSettings SHA2 d now secret = inr (d', settings) → token_at plain expires used (d_enrollments d) →
  HasPrefix plain "enroll_" = true → 0 ≤ used →
  token_at plain expires (if bool_decide (secret = plain) then 1 else used) (d_enrollments d') ∧
  (secret = plain → used < 1 ∧ now ≤ expires).
Proof.
  unfold ConsumeEnrollmentTokenSettings. intros H [Hk (row & Hrow & Hpl & Hm & He & Hu) Hun] Hp H0.
  destruct (find_row _ _) as [r|] eqn:Ef; [|done]. destruct (_ || _) eqn:Eg; [done|]. injection H as <- _.
  apply find_row_key in Ef as (k & Hkr & Hmatch). apply orb_false_iff in Eg as [[_ Huse]%orb_false_iff Hexp].
  assert (Hsame : secret = plain → r = row).
  { intros ->. unfold enrollment_matches in Hmatch. destruct (Hk _ _ Hkr) as [Hhash Hpre].
    assert (k = SHA2 plain) as ->; [|congruence]. apply orb_true_iff in Hmatch as [[Hm1|Hm1]%orb_true_iff|Hm1]; apply bool_decide_eq_true in Hm1.
    - by eapply Hun.
    - congruence.
    - congruence. }
  cbn. split.
  - split.
    + intros k' r' Hr'. unfold update_where in Hr'. rewrite lookup_fmap in Hr'. apply fmap_Some in Hr' as (r0 & Hr0 & ->).
      destruct (Hk _ _ Hr0) as [Hh Hpre]. cbv beta. destruct (enrollment_matches SHA2 secret r0); (split; [exact Hh|exact Hpre]).
    + unfold update_where. rewrite lookup_fmap, Hrow. cbn. eexists. split; [done|]. destruct (decide (secret = plain)) as [Hs|Hs].
      * rewrite (bool_decide_eq_true_2 (secret = plain)) by done. subst secret. unfold enrollment_matches. rewrite (proj1 (Hk _ _ Hrow)), (bool_decide_eq_true_2 (SHA2 plain = SHA2 plain)), orb_true_r by done.
        cbn. split_and!; [done..|lia].
      * rewrite (bool_decide_eq_false_2 (secret = plain)) by done. destruct (enrollment_matches SHA2 secret row); cbn; split_and!; try done; lia.
    + intros k' r' Hr'. unfold update_where in Hr'. rewrite lookup_fmap in Hr'. apply fmap_Some in Hr' as (r0 & Hr0 & ->).
      intros Hplain. apply (Hun _ _ Hr0). revert Hplain. cbv beta. destruct (enrollment_matches SHA2 secret r0); exact id.
  - intros Hs. rewrite (Hsame Hs) in Huse, Hexp. apply bool_decide_eq_false in Huse. unfold After in Hexp. apply bool_decide_eq_false in Hexp. lia.
Qed.
Lemma record_enrollments d e id name serial settings newNode :
  d_enrollments (record_node sql_error error_text d e id name serial settings newNode).1 = d_enrollments d.
Proof.
  unfold record_node. destruct (saved_options settings) as [options|]; [|done]. destruct (negb (ee_sql e 2)); [done|].
  destruct (negb (_ && _)); [done|]. destruct (negb (ee_sql e 3)); [done|]. unfold UpdateEdgeNodeDirectory.
  destruct (d_nodes _ !! id); [|done]. by destruct (_ && _).
Qed.
Definition token_in (plain : string) (expires : time) (used : Z) (s : System) : Prop :=
  ∃ d, sy_db s = Some d ∧ token_at plain expires used (d_enrollments d).
Lemma enroll_table files s e authorization b s' answer plain expires used :
  Enroll files s e authorization b = (s', answer) → token_in plain expires used s → HasPrefix plain "enroll_" = true → 0 ≤ used →
  ∃ used', used ≤ used' ∧ token_in plain expires used' s' ∧
    (∀ r, answer = inr r → bearerToken authorization = plain → used < 1 ∧ ee_now_consume e ≤ expires ∧ 1 ≤ used').
Proof.
  intros H (d & Hd & Ht) Hp H0.
  assert (Hsame : ∀ err, (s, inl err) = (s', answer) → ∃ used', used ≤ used' ∧ token_in plain expires used' s' ∧
    (∀ r, answer = inr r → bearerToken authorization = plain → used < 1 ∧ ee_now_consume e ≤ expires ∧ 1 ≤ used')).
  { intros err [= <- <-]. exists used. split_and!; [lia|by exists d|done]. }
  unfold enrollEdgeNode in H. rewrite Hd in H. destruct (negb _ || negb _); [by eapply Hsame|]. case_bool_decide; [by eapply Hsame|].
  destruct b as [req|]; [|by eapply Hsame]. destruct (bool_decide _ || bool_decide _); [by eapply Hsame|].
  destruct (Material files (sy_cfg s)) as [|m]; [by eapply Hsame|]. destruct (node_identity _ _ _ _ _) as [|[id newNode]]; [by eapply Hsame|].
  destruct (SignNodeCSRMaterial _ _ _ _ _) as [|[[cert serial] signed]]; [by eapply Hsame|]. destruct (ee_sql e 1); [|by eapply Hsame].
  destruct (ConsumeEnrollmentTokenSettings _ _ _ _) as [|[d1 settings]] eqn:Ec; [by eapply Hsame|]. clear Hsame.
  destruct (consume_table _ _ _ _ _ _ _ _ Ec Ht Hp H0) as [Ht1 Huse].
  pose proof (record_enrollments d1 e id (TrimSpace (eq_NodeName req)) serial settings newNode) as Hrec.
  exists (if bool_decide (bearerToken authorization = plain) then 1 else used).
  split; [case_bool_decide as Hb; [destruct (Huse Hb); lia|lia]|]. destruct (record_node _ _ _ _ _ _ _ _ _) as [d2 err]. cbn in Hrec.
  assert (Hin : ∀ s2, sy_db s2 = Some d2 → token_in plain expires (if bool_decide (bearerToken authorization = plain) then 1 else used) s2).
  { intros s2 H2. exists d2. split; [done|]. by rewrite Hrec. }
  destruct err as [err|]; injection H as <- <-; (split; [by apply Hin|]); [done|]. intros r _ Hb. rewrite bool_decide_eq_true_2 by done.
  destruct (Huse Hb). lia.
Qed.
Lemma insert_enrollment d plain prefix expires admin settings d' :
  CreateEnrollmentTokenWithSettings SHA2 d plain prefix 1 expires admin settings = inr d' → tokens_keyed (d_enrollments d) →
  token_at plain expires 0 (d_enrollments d') ∧
  (∀ plain' expires' used, token_at plain' expires' used (d_enrollments d) → token_at plain' expires' used (d_enrollments d')).
Proof.
  unfold CreateEnrollmentTokenWithSettings. intros H Hk. destruct (exists_row _ _) eqn:Ex; [done|]. rewrite exists_row_false in Ex.
  apply rbind_inr in H as (t & (Hfresh & ->)%insert_row_inr & [= <-]). cbn. set (row := mkEnrollment _ _ _ _ _ _ _ _ _ _).
  assert (Hk' : tokens_keyed (<[SHA2 plain:=row]> (d_enrollments d))).
  { intros k r [[<- <-]|[_ Hr]]%lookup_insert_Some; [split; [done|apply SHA2_hex]|by apply Hk]. }
  split.
  - split; [done| |].
    + exists row. rewrite lookup_insert_eq. done.
    + intros k r [[<- <-]|[_ Hr]]%lookup_insert_Some Hpl; [done|]. specialize (Ex _ _ Hr). apply bool_decide_eq_false in Ex. done.
  - intros plain' expires' used [_ (r & Hr & Hpl & Hrest) Hun]. split; [done| |].
    + exists r. rewrite lookup_insert_ne; [done|]. congruence.
    + intros k r' [[<- <-]|[_ Hr']]%lookup_insert_Some Hpl'; [|by apply (Hun _ _ Hr')]. cbn in Hpl'. injection Hpl' as ->.
      specialize (Ex _ _ Hr). apply bool_decide_eq_false in Ex. done.
Qed.
Lemma create_handler files s d o fresh fresh' raw admin b s' answer :
  CreateToken files s d o fresh fresh' raw admin b = (s', answer) → sy_db s = Some d →
  (sy_db s' = Some d ∧ ∃ err, answer = inl err) ∨
  (∃ plain expires settings d', sy_db s' = Some d' ∧ answer = inr (plain, expires) ∧ HasPrefix plain "enroll_" = true ∧
     CreateEnrollmentTokenWithSettings SHA2 d plain (TokenPrefix plain) 1 expires admin settings = inr d').
Proof.
  unfold createNodeEnrollmentToken. intros H Hd.
  assert (Hno : ∀ s0 err, sy_db s0 = Some d → (s0, inl err) = (s', answer) → sy_db s' = Some d ∧ ∃ err, answer = inl err).
  { intros s0 err Hs0 [= <- <-]. by eauto. }
  destruct (negb _); [left; eapply Hno; [|exact H]; exact Hd|]. destruct b as [|[minutes options]]; [left; eapply Hno; [|exact H]; exact Hd|]. cbv zeta in H.
  destruct (_ || _); [left; eapply Hno; [|exact H]; exact Hd|]. destruct (match options with Some _ => _ | None => _ end) as [|settings]; [left; eapply Hno; [|exact H]; exact Hd|].
  destruct (token_authority _ _ _ _ _ _ _ _ _ _ _) as [node [err|]]; [left; eapply Hno; [|exact H]; exact Hd|].
  destruct (NewOpaqueToken _ _ _) as [|[plain hash]] eqn:En; [left; eapply Hno; [|exact H]; exact Hd|]. destruct (oc_sql o 0); [|left; eapply Hno; [|exact H]; exact Hd].
  destruct (CreateEnrollmentTokenWithSettings _ _ _ _ _ _ _ _) as [|d'] eqn:Ec; [left; eapply Hno; [|exact H]; exact Hd|]. right. injection H as <- <-.
  eexists plain, _, settings, d'. split_and!; [done..| |exact Ec]. unfold NewOpaqueToken in En. destruct raw as [|raw]; [done|].
  injection En as <- _. reflexivity.
Qed.
Lemma token_step_ok s l s' plain expires used :
  token_step s l s' → token_in plain expires used s → HasPrefix plain "enroll_" = true → 0 ≤ used →
  ∃ used', used ≤ used' ∧ token_in plain expires used' s' ∧ Forall (λ t, used < 1 ∧ t ≤ expires ∧ 1 ≤ used') (uses plain [l]).
Proof.
  intros Hstep Hin Hp H0.
  assert (Hnone : ∀ s2, token_in plain expires used s2 →
    ∃ used', used ≤ used' ∧ token_in plain expires used' s2 ∧ Forall (λ t, used < 1 ∧ t ≤ expires ∧ 1 ≤ used') (uses plain [None])).
  { intros s2 H2. exists used. split_and!; [lia|done|constructor]. }
  destruct Hstep as [files e authorization b s' r H|files e authorization b s' err H|files d o fresh fresh' raw admin b s' answer Hd H|s' H].
  - destruct (enroll_table _ _ _ _ _ _ _ _ _ _ H Hin Hp H0) as (used' & Hle & Hin' & Huse). exists used'. split_and!; [done..|].
    cbn. case_bool_decide; repeat constructor; by eapply Huse.
  - destruct (enroll_table _ _ _ _ _ _ _ _ _ _ H Hin Hp H0) as (used' & Hle & Hin' & _). exists used'. split_and!; [done..|constructor].
  - apply Hnone. destruct Hin as (d0 & Hd0 & Ht). rewrite Hd in Hd0. injection Hd0 as <-.
    destruct (create_handler _ _ _ _ _ _ _ _ _ _ _ H Hd) as [[Hs' _]|(plain' & ex' & settings & d' & Hs' & _ & _ & Hc)]; [by exists d|].
    exists d'. split; [done|]. by apply (proj2 (insert_enrollment _ _ _ _ _ _ _ Hc (ta_keyed _ _ _ _ Ht))).
  - apply Hnone. destruct Hin as (d0 & Hd0 & Ht). rewrite Hd0 in H. destruct (sy_db s') as [d'|] eqn:Hs'; [|done]. exists d'.
    injection H as H. split; [done|]. by rewrite H.
Qed.
Lemma token_run_ok s ls s' plain expires used :
  token_run s ls s' → token_in plain expires used s → HasPrefix plain "enroll_" = true → 0 ≤ used →
  Forall (λ t, t ≤ expires) (uses plain ls) ∧ used + Z.of_nat (length (uses plain ls)) ≤ Z.max 1 used.
Proof.
  intros Hrun. revert used. induction Hrun as [s|s l s1 ls s2 Hstep _ IH]; intros used Hin Hp H0; [split; [constructor|cbn; lia]|].
  destruct (token_step_ok _ _ _ _ _ _ Hstep Hin Hp H0) as (used' & Hle & Hin' & Huse). destruct (IH used' Hin' Hp ltac:(lia)) as [IH1 IH2].
  unfold uses in *. cbn in *. destruct l as [[p t]|]; [case_bool_decide|]; cbn in *; [|split; [done|lia]..].
  apply Forall_cons in Huse as [(H1 & H2 & H3) _]. split; [by constructor|]. lia.
Qed.

(** C8: A token admits one node. Whatever happens after the administrator of the controller has created an enrollment token,
    other enrollments with whatever secrets and answers, new tokens and restarts, at most one enrollment with this token
    is accepted, and none after the token has expired. *)
Theorem enrollment_token_once files s d o fresh fresh' raw admin b s1 plain expires ls s2 :
  sy_db s = Some d → tokens_keyed (d_enrollments d) → CreateToken files s d o fresh fresh' raw admin b = (s1, inr (plain, expires)) →
  token_run s1 ls s2 → (length (uses plain ls) ≤ 1)%nat ∧ Forall (λ t, t ≤ expires) (uses plain ls).
Proof.
  intros Hd Hk H Hrun. destruct (create_handler _ _ _ _ _ _ _ _ _ _ _ H Hd) as [[_ [err Herr]]|(plain' & ex' & settings & d' & Hs' & Ha & Hp & Hc)]; [done|].
  injection Ha as <- <-. destruct (insert_enrollment _ _ _ _ _ _ _ Hc Hk) as [Ht _].
  destruct (token_run_ok _ _ _ _ _ 0 Hrun (ex_intro _ d' (conj Hs' Ht)) Hp ltac:(lia)) as [H1 H2]. split; [lia|done].
Qed.

(** ** The certificate of the controller *)

(** Settings change but not the public address, and the authority is prepared again. *)
Inductive same_address_step : Config → Config → Prop :=
  | sa_settings cfg cfg' :
      cc_TLS (cfg_Controller cfg') = cc_TLS (cfg_Controller cfg) →
      cc_PublicAddress (cfg_Controller cfg') = cc_PublicAddress (cfg_Controller cfg) → same_address_step cfg cfg'
  | sa_prepare cfg files now fresh fresh' cfg' : Ensure files cfg now fresh fresh' = inr cfg' → same_address_step cfg cfg'.
Definition holds_material (cfg : Config) (m : PKIMaterial) (ca cert : Certificate) : Prop :=
  (∀ files cfg', cc_TLS (cfg_Controller cfg') = cc_TLS (cfg_Controller cfg) → Material files cfg' = inr m) ∧ authority_ok m ca ∧
  serves pair_error m ca (host_of (cc_PublicAddress (cfg_Controller cfg))) cert.
Lemma same_address_ok cfg cfg' m ca cert :
  same_address_step cfg cfg' → holds_material cfg m ca cert → host_of (cc_PublicAddress (cfg_Controller cfg)) ≠ ""%string →
  host_of (cc_PublicAddress (cfg_Controller cfg)) ≠ "."%string →
  holds_material cfg' m ca cert ∧ cc_PublicAddress (cfg_Controller cfg') = cc_PublicAddress (cfg_Controller cfg).
Proof.
  intros Hstep (Hm & Ha & Hs) H1 H2. destruct Hstep as [cfg cfg' Ht Hp|cfg files now fresh fresh' cfg' He].
  - split; [|done]. split_and!; [|done|by rewrite Hp]. intros files cfg2 Hc. apply Hm. congruence.
  - unfold ensureControllerPKI, present_material, covering_material, ControllerCertificateCovers in He. rewrite (Hm _ _ eq_refl) in He.
    destruct Hs as (Hpair & Hrest & Hi & Hu & Hhost). rewrite Hpair, bool_decide_eq_false_2, (Hhost H1 H2) in He by done. injection He as <-.
    split; [|done]. destruct (set_material_ok Join Dir IsAbs base64_error pair_error cfg m ca cert Ha ltac:(by split_and!))
      as (m' & cert' & Hm' & _ & _ & _). assert (m' = m) as ->.
    { destruct (authority_nonempty _ _ Ha) as [Hn1 Hn2]. destruct (pair_nonempty _ _ _ _ Hpair) as [Hn3 Hn4].
      pose proof (Hm' (λ _, inl ""%string) _ eq_refl) as E. rewrite material_set in E by done. by injection E as ->. }
    split_and!; [exact Hm'|done..].
Qed.

(** C32: The certificate of the controller is never renewed. As long as the public address stays the same, preparing the authority
    again, at whatever time and with whatever other settings, keeps the server certificate of the control channel. After the
    end of that certificate every handshake of an edge fails. *)
Theorem server_certificate_kept cfg cfg' :
  pki_run cfg → host_of (cc_PublicAddress (cfg_Controller cfg)) ≠ ""%string → host_of (cc_PublicAddress (cfg_Controller cfg)) ≠ "."%string →
  rtc same_address_step cfg cfg' →
  ∃ m server ca, start_tls pair_error m = inr (server, ca) ∧ (∀ files, Material files cfg = inr m ∧ Material files cfg' = inr m) ∧
    ∀ client name t, x_NotAfter server < t → handshake (server, ca) client name t = false.
Proof.
  intros Hrun H1 H2 Hr. destruct (pki_run_ok _ Hrun) as (ca & text & Hpki). pose proof (pki_root _ _ _ Hpki) as Hroot.
  destruct Hpki as (m & cert & Hm & Ha & <- & Hs). exists m, cert, ca.
  assert (H : holds_material cfg' m ca cert).
  { assert (Hh : holds_material cfg m ca cert) by done. clear Hrun Hroot Hm Ha Hs. induction Hr as [|a b c Hab _ IH]; [done|].
    destruct (same_address_ok _ _ _ _ _ Hab Hh H1 H2) as [Hb Heq]. rewrite <- Heq in H1, H2. by apply IH. }
  split_and!.
  - unfold start_tls. by rewrite (proj1 Hs), Hroot.
  - intros files. split; [by apply Hm|by apply (proj1 H)].
  - intros client name t Ht. unfold handshake, Verify, in_force. cbn. rewrite (bool_decide_eq_false_2 (t ≤ x_NotAfter cert)) by lia.
    by rewrite !andb_false_r.
Qed.
End join.

(** A controller that has prepared its authority and created a token, and an edge that is set up with it. *)
#[local] Instance demo_net : NetLib := {| ParseIP _ := None; url_Parse _ := None; ParseAddr s := Some (s, s) |}.
#[local] Instance demo_days : Calendar := demo_calendar.
#[local] Instance demo_x509 : X509Lib := demo_x509_lib.
#[local] Instance demo_codec : EnrollmentJSON := {|
  encode_code c := co_Secret c; decode_code s := Some (mkCode s ""); encode_options o := inr (eo_Name o); decode_options s := Some (mkOptions s "" false) |}.
#[local] Instance demo_names : HostnameLaws := demo_hostnames.
Definition demo_text {A} (_ : A) : string := "e".
Definition demo_none {A} (_ : string) : string + A := inl ""%string.
Definition demo_controller0 : Config :=
  demo_config <| cfg_Mode := ModeController |>
              <| cfg_Controller := mkController true ":7443" "cloud:7443" zero_tls "" 5 |>.
Definition demo_controller : Config :=
  match ensureControllerPKI (λ _, ""%string) demo_text (λ _, true) demo_text "" demo_none demo_controller0 0
          (inr (mkFresh 11 12 1 2)) (inl ""%string) with inr cfg => cfg | inl _ => demo_config end.
Definition demo_server (cfg : Config) : EdgeNodeServer := mkNodeServer cfg (mkDir None None None) false None None false TLSMissing None None false.
Definition demo_outcomes : Outcomes :=
  mkOutcomes 0 (λ _, true) (λ _, true) None (inr "secret"%string) (inl ""%string) (inl ""%string) (inl ""%string) None None None None.
Definition demo_sha2 (s : string) : string := "h" +:+ s.
Definition demo_created : System * (http_error + (string * time)) :=
  createNodeEnrollmentToken ErrConstraint demo_text demo_text demo_text demo_sha2 demo_text (λ _, ""%string) demo_text (λ _, true) "" demo_none
    (mkSystem (demo_server demo_controller) (Some empty_db) (Some NewControllerServer)) empty_db demo_outcomes (inl ""%string) (inl ""%string)
    (inr "key"%string) 1 (inr (0, Some (mkOptions " tokyo" "" false))).
Definition demo_env : EnrollEnv := mkEnrollEnv 0 0 0 1 77 (inr "abc"%string) (λ _, true).
Definition demo_setup : System * (http_error + EnrollmentResponse) :=
  setupEdge demo_text "" "" "" "" (served ErrConstraint demo_text demo_text demo_sha2 demo_text (λ _, ""%string) demo_text (λ _, true) "" demo_text demo_none
      demo_created.1 demo_env)
    (mkSystem (demo_server (demo_config <| Initialized := false |>)) None None) demo_outcomes (mkRequest "edge" true "" "" "")
    (mkSetupEdge "admin" "password" "" "edge" "cloud" (match demo_created.2 with inr (plain, _) => plain | inl _ => ""%string end))
    (inr 21) None (λ p, inr p) (inr "cookie"%string) (inr (empty_store, empty_queue)).
Lemma demo_prepared : pki_run demo_text (λ _, ""%string) demo_text (λ _, true) "" (sy_cfg demo_created.1).
Proof.
  exists demo_none, demo_controller0, 0, (inr (mkFresh 11 12 1 2)), (inl ""%string), ""%string, demo_controller.
  split_and!; [vm_compute; reflexivity..|]. replace (sy_cfg demo_created.1) with demo_controller by (vm_compute; reflexivity). apply rtc_refl.
Defined.
Lemma enrolled_edge_connects_witness :
  match demo_setup with
  | (edge, inr r) =>
      ep_NodeID r = "node_YWJj"%string ∧
      ∃ f client ca m server, edge_files demo_text (λ _, ""%string) demo_text (λ _, true) (sy_cfg edge) = inr f ∧
        connect_tls "" demo_none f = inr (client, ca) ∧ start_tls "" m = inr (server, ca) ∧
        handshake (server, ca) (client, ca) (ec_ServerName (cfg_Edge (sy_cfg edge))) Day = in_force client Day && in_force server Day && in_force ca Day
  | _ => False
  end.
Proof.
  destruct demo_setup as [edge [err|r]] eqn:E; [vm_compute in E; discriminate E|].
  split; [vm_compute in E; by injection E as <- <-|].
  destruct (enrolled_edge_connects ErrConstraint demo_text demo_text "" "" demo_text demo_sha2 demo_text (λ _, ""%string) demo_text (λ _, true) "" "" ""
    demo_text demo_none demo_created.1 demo_env (mkSystem (demo_server (demo_config <| Initialized := false |>)) None None) edge r NewControllerServer)
    as (authorization & req & s' & f & client & ca & _ & Hf & Hc & _ & _ & _ & H).
  - exact demo_prepared.
  - vm_compute. reflexivity.
  - reflexivity.
  - eapply j_setup. exact E.
  - intros H. vm_compute in H. discriminate H.
  - intros H. vm_compute in H. discriminate H.
  - destruct (H (sy_cfg demo_created.1) demo_none (rtc_refl _ _) eq_refl) as (m & server & _ & Hs & Hh). exists f, client, ca, m, server.
    split_and!; [exact Hf|apply Hc|exact Hs|apply Hh].
Defined.
Lemma enrollment_token_once_witness :
  match demo_created with
  | (s, inr (plain, expires)) =>
      let enroll s := enrollEdgeNode ErrConstraint demo_text demo_text demo_sha2 demo_text (λ _, ""%string) demo_text (λ _, true) "" demo_none s demo_env
                        ("Bearer " +:+ plain) (Some (mkEnrollmentRequest "edge" "" (block "R" ("edge"%string, 21)))) in
      (∃ s' r, enroll s = (s', inr r) ∧ uses plain [Some (plain, 0); None] = [0]) ∧ (length (uses plain [Some (plain, 0%Z); None]) ≤ 1)%nat
  | _ => False
  end.
Proof.
  destruct demo_created as [s [err|[plain expires]]] eqn:E; [vm_compute in E; discriminate E|].
  assert (Hplain : plain = "enroll_a2V5"%string) by (vm_compute in E; by injection E as <- <- <-). subst plain. intros enroll.
  destruct (enroll s) as [s1 [err|r]] eqn:E1. { vm_compute in E. injection E as <- <-. vm_compute in E1. discriminate E1. }
  destruct (enroll s1) as [s2 [err|r2]] eqn:E2; cycle 1.
  { exfalso. vm_compute in E. injection E as <- <-. vm_compute in E1. injection E1 as <- <-. vm_compute in E2. discriminate E2. }
  split; [exists s1, r; split; [reflexivity|vm_compute; reflexivity]|].
  apply (enrollment_token_once ErrConstraint demo_text demo_text demo_text demo_sha2 demo_text (λ _, ""%string) demo_text (λ _, true) "" ""
    (λ _, eq_refl) demo_none (mkSystem (demo_server demo_controller) (Some empty_db) (Some NewControllerServer)) empty_db demo_outcomes (inl ""%string)
    (inl ""%string) (inr "key"%string) 1 (inr (0, Some (mkOptions " tokyo" "" false))) s "enroll_a2V5" expires _ s2).
  - reflexivity.
  - intros k v Hk. cbn in Hk. by rewrite lookup_empty in Hk.
  - exact E.
  - eapply run_cons; [|eapply run_cons; [eapply t_refused; exact E2|apply run_nil]].
    exact (t_enrolled _ _ _ _ _ _ _ _ _ _ _ s demo_none demo_env _ _ s1 r E1).
Defined.
Lemma server_certificate_kept_witness :
  ∃ m server ca, start_tls "" m = inr (server, ca) ∧
    (∀ files, controllerPKIMaterial (λ _, ""%string) demo_text (λ _, true) demo_text files demo_controller = inr m) ∧
    ∀ client name, handshake (server, ca) client name (1000 * 365 * Day) = false.
Proof.
  destruct (server_certificate_kept demo_text (λ _, ""%string) demo_text (λ _, true) "" demo_controller
    (match ensureControllerPKI (λ _, ""%string) demo_text (λ _, true) demo_text "" demo_none demo_controller (3 * 365 * Day) (inl ""%string) (inl ""%string) with
     | inr cfg => cfg | inl _ => demo_config end)) as (m & server & ca & Hs & Hm & Hh).
  - replace demo_controller with (sy_cfg demo_created.1) by (vm_compute; reflexivity). exact demo_prepared.
  - intros H. vm_compute in H. discriminate H.
  - intros H. vm_compute in H. discriminate H.
  - apply rtc_once. apply (sa_prepare _ _ _ _ _ _ demo_none (3 * 365 * Day) (inl ""%string) (inl ""%string)). vm_compute. reflexivity.
  - exists m, server, ca. split; [exact Hs|]. split; [intros files; exact (proj1 (Hm files))|]. intros client name. apply Hh.
    pose proof (proj1 (Hm demo_none)) as H. vm_compute in H. injection H as <-. vm_compute in Hs. injection Hs as <- _. vm_compute. reflexivity.
Defined.
