(* ===== verification/NodeTelemetry.v ===== *)
(** * Reports, events and command results at the controller

    [cluster/telemetry.go], [cluster/control_data.go] and the part of
    [cluster/server.go] that stores events and delivers pending commands: what the
    telemetry worker of a connection does with the messages that the receive loop
    has queued for it. *)
From Stdlib Require Import ZArith Lia Ascii String.
From stdpp Require Import gmap strings list fin_maps sorting.
From S2P Require Import Prelude GoStrings Types DpiEngine DpiService Config EdgeStore EdgeIdentity ControllerDB NodeDirectory IdentityPage IdentityView ControllerLink EdgeQueue.
Local Open Scope Z_scope.

Section telemetry.
Context (decode_event : string → store_error + Event).
Context `{json : CommandJSON} `{codec : ResultCodec}.
(** The error of a failing statement and its text, and the error of decoding the
    settings of a command. *)
Context (sql_error : store_error) (error_text : store_error → string) (json_error : store_error).

(** ** Events *)

Definition maxEventSequence : Z := (9223372036854775807 - 999) / 1000.
(** [sql k] says whether the transaction of the [k]-th event commits, [prune k]
    whether the statement after it does. *)
Fixpoint record_events (d : ControllerDB) (nodeID : string) (sequence : Z) (events : list EventEnvelope) (sql prune : nat → bool) :
    ControllerDB * list string :=
  match events with
  | [] => (d, [])
  | event :: events =>
      let rest d := record_events d nodeID (sequence + 1) events (λ k, sql (S k)) (λ k, prune (S k)) in
      if bool_decide (ev_EventID event = ""%string) then rest d
      else
        match (if sql 0%nat then RecordNodeEventDurably decode_event d nodeID sequence (ev_EventID event) (ev_EventType event)
                                   (ev_Payload event) (prune 0%nat)
               else inl sql_error) with
        | inl _ => rest d
        | inr d => let '(d, acked) := rest d in (d, ev_EventID event :: acked)
        end
  end.
Definition recordEventBatch (d : ControllerDB) (nodeID : string) (sequence : Z) (events : list EventEnvelope) (sql prune : nat → bool) :
    ControllerDB * list string :=
  if bool_decide (sequence < 0) || bool_decide (maxEventSequence < sequence) || bool_decide (100 < len events) then (d, [])
  else record_events d nodeID (sequence * 1000) events sql prune.

(** ** Reports *)

Definition presence_row (now : time) (c : ClientPresence) : EdgeClientPresence :=
  mkPresence (cp_UserID c) (cp_TokenID c) (cp_ClientID c) (cp_FRPCRunning c) (default now (cp_LastSeenAt c)).
Definition connection_row (c : EdgeConnectionSnapshot) : EdgeConnectionPresence :=
  mkConnPresence (ecs_ID c) (ecs_Protocol c) (ecs_UserID c) (ecs_TokenID c) (ecs_ClientID c) (ecs_ClientAddr c) (ecs_LeaseID c)
    (ecs_ProxyName c) (ecs_ProxyType c) (ecs_RemotePort c) (ecs_InboundAddr c) (ecs_InboundIP c) (ecs_InboundPort c)
    (ecs_ServerAddr c) (ecs_OpenedAt c) (ecs_LastSeenAt c) (ecs_CanTerminate c).
Definition traffic_row (t : EdgeTrafficSnapshot) : EdgeNodeTraffic :=
  mkNodeTraffic (ets_BytesInbound t) (ets_BytesOutbound t) (ets_SamplesInbound t) (ets_SamplesOutbound t) (ets_StartedAt t)
    (ets_CapturedAt t) zero_time.

(** The database after the report and the error that ended it: the statements
    before it stay committed. *)
Definition store_report (d : ControllerDB) (nodeID : string) (now : time) (report : HeartbeatPayload) (sql : nat → bool) :
    ControllerDB * option store_error :=
  let try k r := if sql k then r else inl sql_error in
  match try 0%nat (ReplaceEdgeClientPresence d nodeID (presence_row now <$> hb_Clients report)) with
  | inl err => (d, Some err)
  | inr d =>
      let connections := if hb_ConnectionsReportingEnabled report then connection_row <$> hb_Connections report else [] in
      match (if bool_decide (0 < hb_ReportingVersion report) then try 1%nat (ReplaceEdgeConnectionPresence d nodeID connections) else inr d) with
      | inl err => (d, Some err)
      | inr d =>
          match hb_Traffic report with
          | None => (d, None)
          | Some traffic =>
              match try 2%nat (UpsertEdgeNodeTraffic d now nodeID (traffic_row traffic)) with
              | inl err => (d, Some err)
              | inr d => (d, None)
              end
          end
      end
  end.
Definition persistReport (s : ControllerServer) (d : ControllerDB) (nodeID : string) (now : time) (commandID : string)
    (report : HeartbeatPayload) (sql : nat → bool) : ControllerServer * ControllerDB :=
  let failed err := mkCommandResult commandID "failed" "" err in
  if negb (bool_decide (hb_ReportError report = ""%string)) then ((deliverCommandResult s (failed (hb_ReportError report))).1, d)
  else
    let '(d, err) := store_report d nodeID now report sql in
    let outcome := match err with Some err => failed (error_text err) | None => mkCommandResult commandID "succeeded" "" "" end in
    ((deliverCommandResult s outcome).1, d).

(** ** Results of commands *)

Definition RefreshNode (s : ControllerServer) (row : result EdgeNode) (id : string) : ControllerServer :=
  (authorizedNode s s row id).1.

(** [sql 0] is the completion's transaction, [sql 1] the query that follows. *)
Definition persist_result (s : ControllerServer) (d : ControllerDB) (nodeID : string) (now : time) (r : CommandResult) (sql : nat → bool) :
    ControllerServer * ControllerDB :=
  let retry := r <| rs_Status := "retry"%string |>
                 <| rs_Error := "edge replied, controller persistence unavailable; safe retry pending"%string |> in
  match (if sql 0%nat then CompleteNodeCommand json_error d now nodeID (rs_CommandID r) (rs_Status r) (encode_result r)
         else inl sql_error) with
  | inr d =>
      let s := RefreshNode s (if sql 1%nat then GetEdgeNode d nodeID else inl sql_error) nodeID in
      ((deliverCommandResult s r).1, d)
  | inl err => ((deliverCommandResult s (if bool_decide (err = ErrNotFound) then r else retry)).1, d)
  end.

(** The acknowledgement of a batch waits for room in the channel of the session:
    [None] is a stream that ends before. *)
Definition persist_events (s : ControllerServer) (d : ControllerDB) (c : nat) (m : Message) (events : list EventEnvelope)
    (sql prune : nat → bool) : option ControllerServer * ControllerDB :=
  let nodeID := ns_nodeID (conn s c) in
  let '(d, acked) := recordEventBatch d nodeID (m_Sequence m) events sql prune in
  (enqueue s c ((message "event_ack" nodeID) <| m_Sequence := m_Sequence m |> <| m_Payload := PEventAck acked |>), d).

Definition persistControlData (s : ControllerServer) (d : ControllerDB) (c : nat) (now : time) (m : Message) (sql prune : nat → bool) :
    option ControllerServer * ControllerDB :=
  let nodeID := ns_nodeID (conn s c) in
  let failed := mkCommandResult (m_CommandID m) "failed" "" (error_text json_error) in
  if bool_decide (m_Type m = "report"%string) then
    match m_Payload m with
    | PReport report => let '(s, d) := persistReport s d nodeID now (m_CommandID m) report sql in (Some s, d)
    | _ => (Some (deliverCommandResult s failed).1, d)
    end
  else if bool_decide (m_Type m = "event_batch"%string) then
    match m_Payload m with PEvents events => persist_events s d c m events sql prune | _ => (Some s, d) end
  else if bool_decide (m_Type m = "command_result"%string) then
    match m_Payload m with PResult r => let '(s, d) := persist_result s d nodeID now r sql in (Some s, d) | _ => (Some s, d) end
  else (Some s, d).

(** ** Pending commands *)

Definition command_of (nodeID : string) (r : NodeCommandRecord) : NodeCommand :=
  mkCommand (ncr_CommandID r) nodeID (ncr_CommandType r) (ncr_PayloadJSON r) (ncr_ExpiresAt r).
(** [sql k] says whether the [k]-th marking succeeds. *)
Fixpoint dispatch_commands (s : ControllerServer) (d : ControllerDB) (nodeID : string) (now : time) (records : list NodeCommandRecord)
    (sql : nat → bool) : ControllerServer * ControllerDB :=
  match records with
  | [] => (s, d)
  | r :: records =>
      let '(s, sent) := SendCommand s now (command_of nodeID r) in
      let d := if sent && sql 0%nat then MarkNodeCommandDelivered d (ncr_CommandID r) else d in
      dispatch_commands s d nodeID now records (λ k, sql (S k))
  end.
Definition dispatchPendingCommands (sort : list NodeCommandRecord → list NodeCommandRecord) (s : ControllerServer) (d : ControllerDB)
    (nodeID : string) (now : time) (query : bool) (sql : nat → bool) : ControllerServer * ControllerDB :=
  if cs_databaseSuspect s || negb query then (s, d)
  else dispatch_commands s d nodeID now (ListPendingNodeCommands sort d now nodeID) sql.
End telemetry.
