(* ===== verification/EventFlow.v ===== *)
(** * Events from the edge to the controller

    The path of a reliable event: queued in the edge's store, sent in batches,
    stored by the controller together with its DPI view, acknowledged, and only
    then discarded by the edge.  The stream loses, repeats and reorders batches
    and acknowledgements: every batch that was ever sent may arrive again, and so
    may every acknowledgement. *)
From Stdlib Require Import ZArith Lia Ascii String.
From stdpp Require Import gmap strings list fin_maps sorting.
From S2P Require Import Prelude GoStrings Types DpiEngine DpiService Config EdgeStore EdgeIdentity ControllerDB NodeDirectory IdentityPage DBInvariant IdentityView ControllerLink EdgeQueue NodeTelemetry.
Local Open Scope Z_scope.

Definition rows {V} (t : gmap Z V) : list V := (map_to_list t).*2.
Lemma elem_of_rows {V} (t : gmap Z V) v : v ∈ rows t ↔ ∃ k, t !! k = Some v.
Proof.
  unfold rows. rewrite list_elem_of_fmap. split.
  - intros ([k w] & -> & Hk%elem_of_map_to_list). by exists k.
  - intros [k Hk]. exists (k, v). by rewrite elem_of_map_to_list.
Qed.
Lemma rows_insert {V} (t : gmap Z V) k v : t !! k = None → rows (<[k := v]> t) ≡ₚ v :: rows t.
Proof. intros Hk. unfold rows. by rewrite map_to_list_insert. Qed.

Lemma map_to_list_filter {V} (P : Z * V → Prop) `{∀ x, base.Decision (P x)} (t : gmap Z V) :
  map_to_list (filter P t) ≡ₚ filter P (map_to_list t).
Proof.
  induction t as [|k x t Hk IH] using map_ind.
  { by rewrite map_filter_empty, map_to_list_empty. }
  rewrite (map_to_list_insert _ _ _ Hk), filter_cons. destruct (decide (P (k, x))).
  - rewrite map_filter_insert_True by done. rewrite map_to_list_insert by (rewrite map_lookup_filter_None; auto). by rewrite IH.
  - rewrite map_filter_insert_not' by naive_solver. by rewrite IH.
Qed.
(** The rows that satisfy [p] and those that do not. *)
Lemma rows_split {V} (p : Z → V → bool) (t : gmap Z V) :
  rows t ≡ₚ rows (delete_where p t) ++ rows (delete_where (λ k v, negb (p k v)) t).
Proof.
  unfold rows, delete_where. rewrite !map_to_list_filter, <- fmap_app. apply fmap_Permutation.
  rewrite <- (filter_app_complement (λ kv : Z * V, p kv.1 kv.2 = false)) at 1. f_equiv.
  erewrite list_filter_iff; [reflexivity|]. intros [k v]. cbn. by destruct (p k v).
Qed.
Lemma omap_no_element {A B} (f : A → option B) (l : list A) : (∀ x, x ∈ l → f x = None) → omap f l = [].
Proof.
  induction l as [|x l IH]; [done|]. intros Hl. cbn. rewrite Hl by left. apply IH. intros y Hy. apply Hl. by right.
Qed.
Lemma omap_app {A B} (f : A → option B) (l k : list A) : omap f (l ++ k) = omap f l ++ omap f k.
Proof. induction l as [|x l IH]; [done|]. cbn. destruct (f x); cbn; by rewrite IH. Qed.

Lemma filter_no_element {A} (P : A → Prop) `{∀ x, base.Decision (P x)} (l : list A) : (∀ x, x ∈ l → ¬ P x) → filter P l = [].
Proof.
  induction l as [|x l IH]; [done|]. intros Hl. rewrite filter_cons_False by (apply Hl; left). apply IH. intros y Hy. apply Hl. by right.
Qed.

(** The events of a node, those that stay, and the DPI view made of them. *)
Definition stored (d : ControllerDB) (n : string) : list NodeEventRecord :=
  filter (λ r, ne_NodeID r = n) (rows (d_node_events d)).
Definition lasting (r : NodeEventRecord) : Prop := ne_EventType r ≠ "runtime_log"%string.
#[export] Instance lasting_dec r : base.Decision (lasting r).
Proof. unfold lasting. apply _. Defined.
Definition dpi_view (d : ControllerDB) (n : string) : list Event :=
  (filter (λ r : string * Event, r.1 = n) (rows (d_dpi_events d))).*2.
Definition events_ok (d : ControllerDB) : Prop :=
  (∀ k, is_Some (d_node_events d !! k) → k ≤ d_event_seq d) ∧ (∀ k, is_Some (d_dpi_events d !! k) → k ≤ d_dpi_seq d).

Section flow.
Context (decode_event : string → store_error + Event) (sql_error : store_error).
Context (n : string).

Definition decoded (r : NodeEventRecord) : option Event :=
  if bool_decide (ne_EventType r = "dpi_event"%string)
  then match decode_event (ne_PayloadJSON r) with inr e => Some e | inl _ => None end else None.

(** ** Recording *)

Record db_inv (Q : gmap string (string * string)) (R : list Event) (d : ControllerDB) : Prop := {
  di_ok : events_ok d;
  di_ids : NoDup (ne_EventID <$> stored d n);
  di_queued : ∀ r, r ∈ stored d n → Q !! ne_EventID r = Some (ne_EventType r, ne_PayloadJSON r);
  di_view : dpi_view d n ++ R ≡ₚ omap decoded (stored d n) }.
Definition keeps (d d' : ControllerDB) : Prop := ∀ r, r ∈ stored d n → lasting r → r ∈ stored d' n.
#[local] Instance keeps_pre : PreOrder keeps.
Proof. split; [by intros d r|]. intros a b c Hab Hbc r Hr Hl. by apply Hbc, Hl; apply Hab. Qed.

Lemma elem_of_stored d m r : r ∈ stored d m ↔ ne_NodeID r = m ∧ ∃ k, d_node_events d !! k = Some r.
Proof. unfold stored. by rewrite list_elem_of_filter, elem_of_rows. Qed.

(** Deleting runtime logs. *)
Lemma prune_inv Q R d m : db_inv Q R d → db_inv Q R (prune_runtime_logs d m) ∧ keeps d (prune_runtime_logs d m).
Proof.
  intros [Hok Hids HQ Hv]. unfold prune_runtime_logs. set (p := λ id r, _ && _). cbn zeta.
  set (d' := d <| d_node_events := _ |>).
  pose proof (rows_split p (d_node_events d)) as Hsplit.
  set (gone := rows (delete_where (λ k v, negb (p k v)) (d_node_events d))) in *.
  assert (Hgone : ∀ r, r ∈ gone → ¬ lasting r).
  { intros r [k [_ Hk]%delete_where_Some]%elem_of_rows Hl. apply Hl. subst p. cbn in Hk.
    rewrite negb_false_iff, !andb_true_iff in Hk. destruct Hk as [[_ Hk] _]. by apply bool_decide_eq_true in Hk. }
  assert (Hst : stored d n ≡ₚ stored d' n ++ filter (λ r, ne_NodeID r = n) gone).
  { unfold stored. rewrite Hsplit. by rewrite filter_app. }
  repeat split.
  - intros k [r Hr]. apply delete_where_Some in Hr as [Hr _]. by apply Hok.
  - apply Hok.
  - rewrite Hst, fmap_app in Hids. by apply NoDup_app in Hids as [? _].
  - intros r Hr. apply HQ. rewrite Hst. apply elem_of_app. by left.
  - change (dpi_view d' n) with (dpi_view d n). rewrite Hv, Hst, omap_app, (omap_no_element _ (filter _ gone)), app_nil_r; [done|].
    intros r [_ Hr]%list_elem_of_filter. unfold decoded. rewrite bool_decide_false; [done|]. intros He.
    apply (Hgone r Hr). unfold lasting. by rewrite He.
  - intros r Hr Hl. rewrite Hst in Hr. apply elem_of_app in Hr as [Hr|[_ Hr]%list_elem_of_filter]; [done|].
    by apply Hgone in Hr.
Qed.
(** Storing an event that is not there yet. *)
Lemma event_taken_false d m sequence id :
  event_taken d m sequence id = false → ∀ r, r ∈ stored d m → ne_EventID r ≠ id.
Proof.
  unfold event_taken. rewrite exists_row_false. intros H r [Hn [k Hk]]%elem_of_stored He. specialize (H k r Hk). cbn in H.
  rewrite (bool_decide_true (ne_NodeID r = m)), (bool_decide_true (ne_EventID r = id)), orb_true_r in H by done. done.
Qed.
Lemma stored_insert d d' m k r :
  d_node_events d !! k = None → d_node_events d' = <[k := r]> (d_node_events d) →
  stored d' m ≡ₚ (if decide (ne_NodeID r = m) then [r] else []) ++ stored d m.
Proof.
  intros Hk Hd. unfold stored. rewrite Hd, rows_insert by done. rewrite filter_cons. by destruct (decide (ne_NodeID r = m)).
Qed.
Lemma dpi_view_insert d d' m k x e :
  d_dpi_events d !! k = None → d_dpi_events d' = <[k := (x, e)]> (d_dpi_events d) →
  dpi_view d' m ≡ₚ (if decide (x = m) then [e] else []) ++ dpi_view d m.
Proof.
  intros Hk Hd. unfold dpi_view. rewrite Hd, rows_insert by done. rewrite filter_cons. cbn. by destruct (decide (x = m)).
Qed.
Lemma above_is_free {V} (t : gmap Z V) b : (∀ k, is_Some (t !! k) → k ≤ b) → t !! (b + 1) = None.
Proof. intros H. destruct (t !! (b + 1)) eqn:E; [|done]. assert (b + 1 ≤ b) by (apply H; by rewrite E). lia. Qed.
Lemma below_insert {V} (t : gmap Z V) b v : (∀ k, is_Some (t !! k) → k ≤ b) → ∀ k, is_Some (<[b + 1 := v]> t !! k) → k ≤ b + 1.
Proof. intros H k. rewrite lookup_insert_is_Some. intros [->|[_ Hk]]; [lia|]. specialize (H k Hk). lia. Qed.

Definition authentic (Q : gmap string (string * string)) (m id kind payload : string) : Prop :=
  m = n → Q !! id = Some (kind, payload).
Definition add_event (d : ControllerDB) (r : NodeEventRecord) (event : option Event) : ControllerDB :=
  let d := d <| d_event_seq := d_event_seq d + 1 |> <| d_node_events := <[d_event_seq d + 1 := r]> (d_node_events d) |> in
  match event with Some e => insertEdgeDPIEvent d (ne_NodeID r) e | None => d end.

Lemma add_event_ok d r event : events_ok d → events_ok (add_event d r event).
Proof.
  intros [H1 H2]. unfold add_event. destruct event; split; cbn; try by apply below_insert. done.
Qed.
Lemma add_event_stored d r event m :
  events_ok d → stored (add_event d r event) m ≡ₚ (if decide (ne_NodeID r = m) then [r] else []) ++ stored d m.
Proof. intros [H1 _]. unfold add_event. destruct event; eapply stored_insert; try done; by apply above_is_free. Qed.
Lemma add_event_view d r m :
  events_ok d → dpi_view (add_event d r (decoded r)) m ≡ₚ
    (if decide (ne_NodeID r = m) then omap decoded [r] else []) ++ dpi_view d m.
Proof.
  intros [_ H2]. unfold add_event. destruct (decoded r) as [e|] eqn:E.
  - unfold insertEdgeDPIEvent. etransitivity; [eapply (dpi_view_insert d); [by apply above_is_free|done]|].
    cbn. rewrite E. by destruct (decide (ne_NodeID r = m)).
  - cbn. rewrite E. by destruct (decide (ne_NodeID r = m)).
Qed.

Lemma add_event_inv Q R d r :
  db_inv Q R d → authentic Q (ne_NodeID r) (ne_EventID r) (ne_EventType r) (ne_PayloadJSON r) →
  (∀ x, x ∈ stored d (ne_NodeID r) → ne_EventID x ≠ ne_EventID r) →
  db_inv Q R (add_event d r (decoded r)) ∧ keeps d (add_event d r (decoded r)).
Proof.
  intros [Hok Hids HQ Hv] Ha Hnew. pose proof (add_event_stored d r (decoded r) n Hok) as Hst. split; [split|].
  - by apply add_event_ok.
  - rewrite Hst. destruct (decide (ne_NodeID r = n)) as [<-|]; [|done]. cbn. apply NoDup_cons. split; [|done].
    intros (x & Hx & Hin)%list_elem_of_fmap. by apply (Hnew x Hin).
  - intros x Hx. rewrite Hst in Hx. destruct (decide (ne_NodeID r = n)) as [He|]; [|by apply HQ].
    apply elem_of_app in Hx as [->%list_elem_of_singleton|Hx]; [by apply Ha|by apply HQ].
  - rewrite (add_event_view d r n Hok), Hst. destruct (decide (ne_NodeID r = n)); [|done].
    by rewrite <- app_assoc, Hv, omap_app.
  - intros x Hx _. rewrite Hst. apply elem_of_app. by right.
Qed.

(** What a successful recording did. *)
Lemma record_cases d m sequence id kind payload prune d' :
  RecordNodeEventDurably decode_event d m sequence id kind payload prune = inr d' →
  ∃ d1, (d1 = d ∧ event_exists d m id = true ∨
         event_taken d m sequence id = false ∧
         d1 = add_event d (mkNodeEvent m sequence kind id payload) (decoded (mkNodeEvent m sequence kind id payload))) ∧
        (d' = d1 ∨ kind = "runtime_log"%string ∧ d' = prune_runtime_logs d1 m).
Proof.
  unfold RecordNodeEventDurably, insert_event. cbn zeta. intros H. set (r := mkNodeEvent m sequence kind id payload).
  assert (Hev : (if bool_decide (kind = "dpi_event"%string) then e <-- decode_event payload; inr (Some e) else inr None) =
                (inr (decoded r) : result (option Event)) ∨ ∃ err, decode_event payload = inl err ∧ kind = "dpi_event"%string).
  { unfold decoded. cbn. case_bool_decide; [|by left]. destruct (decode_event payload); [right; eauto|by left]. }
  assert (Hpr : ∀ d1, inr (if bool_decide (kind = "runtime_log"%string) && prune then prune_runtime_logs d1 m else d1) =
                        (inr d' : result ControllerDB) → d' = d1 ∨ kind = "runtime_log"%string ∧ d' = prune_runtime_logs d1 m).
  { intros d1 [= <-]. destruct (bool_decide (kind = "runtime_log"%string)) eqn:E; [|by left].
    apply bool_decide_eq_true in E. destruct prune; auto. }
  destruct Hev as [Hev|(err & Herr & ->)]; [|by rewrite bool_decide_true, Herr in H]. rewrite Hev in H. cbn in H.
  destruct (event_taken d m sequence id || bool_decide (d_nodes d !! m = None)) eqn:Ht; cbn in H.
  - destruct (event_exists d m id) eqn:He; [|done]. cbn in H. exists d. split; [by left|].
    by apply Hpr.
  - apply orb_false_iff in Ht as [Ht _]. exists (add_event d r (decoded r)). split; [by right|]. unfold add_event.
    destruct (decoded r); by apply Hpr.
Qed.

(** The event is stored at the controller, unless it is a log, of which only the
    newest ones are kept. *)
Definition safe (Q : gmap string (string * string)) (d : ControllerDB) (id : string) : Prop :=
  ∃ kind payload, Q !! id = Some (kind, payload) ∧
    (kind ≠ "runtime_log"%string → ∃ r, r ∈ stored d n ∧ ne_EventID r = id).
Lemma safe_keeps Q R d d' id : db_inv Q R d → keeps d d' → safe Q d id → safe Q d' id.
Proof.
  intros Hd Hk (kind & payload & Hq & Hs). exists kind, payload. split; [done|]. intros Hne.
  destruct (Hs Hne) as (r & Hr & <-). exists r. split; [|done]. apply Hk; [done|].
  pose proof (di_queued _ _ _ Hd r Hr) as Hr'. rewrite Hq in Hr'. unfold lasting. by simplify_eq.
Qed.

Lemma record_inv Q R d m sequence id kind payload prune d' :
  db_inv Q R d → authentic Q m id kind payload →
  RecordNodeEventDurably decode_event d m sequence id kind payload prune = inr d' →
  db_inv Q R d' ∧ keeps d d' ∧ (m = n → safe Q d' id).
Proof.
  intros Hd Ha (d1 & Hd1 & Hd')%record_cases.
  assert (H1 : db_inv Q R d1 ∧ keeps d d1 ∧ ∃ r, r ∈ stored d1 m ∧ ne_EventID r = id).
  { destruct Hd1 as [[-> He]|[Ht ->]].
    - split_and!; [done|reflexivity|]. unfold event_exists, exists_row in He. apply existsb_exists in He as ([k r] & Hin & Hr).
      cbn in Hr. apply andb_true_iff in Hr as [?%bool_decide_eq_true ?%bool_decide_eq_true]. exists r. split; [|done].
      apply elem_of_stored. split; [done|]. exists k. by apply elem_of_map_to_list, list_elem_of_In.
    - set (r := mkNodeEvent m sequence kind id payload). pose proof (add_event_inv Q R d r Hd Ha (event_taken_false _ _ _ _ Ht)) as [Hi Hk].
      split_and!; [done..|]. exists r. split; [|done]. rewrite (add_event_stored _ _ _ _ (di_ok _ _ _ Hd)).
      rewrite decide_True by done. apply elem_of_app. left. by apply list_elem_of_singleton. }
  destruct H1 as (Hi & Hk & r & Hr & Hid). destruct Hd' as [->|[-> ->]].
  - split_and!; [done..|]. intros Hm. exists kind, payload. split; [by apply Ha|]. subst m. eauto.
  - pose proof (prune_inv Q R d1 m Hi) as [Hp Hkp]. split_and!; [done|by etransitivity|].
    intros Hm. exists "runtime_log"%string, payload. split; [by apply Ha|done].
Qed.

Lemma record_events_inv Q R d m sequence events sql prune d' acked :
  db_inv Q R d → (∀ ev, ev ∈ events → authentic Q m (ev_EventID ev) (ev_EventType ev) (ev_Payload ev)) →
  record_events decode_event sql_error d m sequence events sql prune = (d', acked) →
  db_inv Q R d' ∧ keeps d d' ∧ (m = n → ∀ id, id ∈ acked → safe Q d' id).
Proof.
  revert d sequence sql prune d' acked. induction events as [|ev events IH]; intros d sequence sql prune d' acked Hd Ha; cbn.
  { intros [= <- <-]. split_and!; [done..|]. intros _ id Hid. by apply not_elem_of_nil in Hid. }
  assert (Ha' : ∀ x, x ∈ events → authentic Q m (ev_EventID x) (ev_EventType x) (ev_Payload x)) by (intros; apply Ha; by right).
  case_bool_decide; [by apply IH|].
  destruct (if sql 0%nat then _ else _) as [err|d1] eqn:Hrec; [by apply IH|].
  destruct (sql 0%nat); [|done].
  destruct (record_inv Q R _ _ _ _ _ _ _ _ Hd (Ha ev ltac:(left)) Hrec) as (H1 & Hk1 & Hs1).
  destruct (record_events _ _ d1 _ _ _ _ _) as [d2 acked2] eqn:Hrest. intros [= <- <-].
  destruct (IH _ _ _ _ _ _ H1 Ha' Hrest) as (H2 & Hk2 & Hs2). split_and!; [done|by etransitivity|].
  intros Hm id [->|Hid]%elem_of_cons; [|by apply Hs2]. eapply safe_keeps; [exact H1|done|by apply Hs1].
Qed.
Lemma batch_inv Q R d m sequence events sql prune d' acked :
  db_inv Q R d → (∀ ev, ev ∈ events → authentic Q m (ev_EventID ev) (ev_EventType ev) (ev_Payload ev)) →
  recordEventBatch decode_event sql_error d m sequence events sql prune = (d', acked) →
  db_inv Q R d' ∧ keeps d d' ∧ (m = n → ∀ id, id ∈ acked → safe Q d' id).
Proof.
  intros Hd Ha. unfold recordEventBatch. destruct (_ || _).
  - intros [= <- <-]. split_and!; [done..|]. intros _ id Hid. by apply not_elem_of_nil in Hid.
  - by apply record_events_inv.
Qed.
(** ** The queue *)

Definition queue_inv (Q : gmap string (string * string)) (A : list string) (events : gmap Z OutboundEvent) : Prop :=
  ∀ k r, events !! k = Some r →
    Q !! ob_EventID r = Some (ob_EventType r, ob_Payload r) ∧ (is_Some (ob_AcknowledgedAt r) → ob_EventID r ∈ A).

Lemma queue_inv_delete Q A p events : queue_inv Q A events → queue_inv Q A (delete_where p events).
Proof. intros H k r [Hr _]%delete_where_Some. by apply (H k). Qed.
Lemma queue_inv_mono Q A A' events : A ⊆ A' → queue_inv Q A events → queue_inv Q A' events.
Proof. intros HA H k r Hr. destruct (H k r Hr) as [? Hk]. split; [done|]. intros Hs. by apply HA, Hk. Qed.
Lemma queue_inv_acknowledge Q A now id events : id ∈ A → queue_inv Q A events → queue_inv Q A (acknowledge_event now events id).
Proof.
  intros Hid H k r. unfold acknowledge_event, update_where. rewrite lookup_fmap, fmap_Some. intros (x & Hx & ->).
  destruct (H k x Hx) as [Hq Hk]. case_bool_decide as He; [|done]. cbn. split; [done|]. by rewrite He.
Qed.
Lemma queue_inv_acknowledge_events Q A q now ids sql q' err :
  ids ⊆ A → queue_inv Q A (q_events q) → acknowledge_events sql_error q now ids sql = (q', err) → queue_inv Q A (q_events q').
Proof.
  revert q sql. induction ids as [|id ids IH]; intros q sql Hids H; cbn; [by intros [= <- <-]|].
  destruct (sql 0%nat); cbn; [|by intros [= <- <-]]. apply IH; [intros x Hx; apply Hids; by right|].
  cbn. apply queue_inv_acknowledge; [|done]. apply Hids. left.
Qed.
Lemma queue_inv_AcknowledgeEvents Q A q now ids sql discard q' err :
  ids ⊆ A → queue_inv Q A (q_events q) → AcknowledgeEvents sql_error q now ids sql discard = (q', err) → queue_inv Q A (q_events q').
Proof.
  intros Hids H. unfold AcknowledgeEvents. destruct (acknowledge_events _ _ _ _ _) as [q1 [e|]] eqn:E.
  - intros [= <- <-]. by eapply queue_inv_acknowledge_events.
  - intros [= <- <-]. eapply queue_inv_acknowledge_events in E; [|done..]. destruct discard; [|done]. by apply queue_inv_delete.
Qed.
Lemma queue_inv_QueueEvent Q A q now enabled id kind payload q' :
  Q !! id = None → queue_inv Q A (q_events q) → QueueEvent q now enabled id kind (inr payload) = inr q' →
  queue_inv (<[id := (kind, payload)]> Q) A (q_events q').
Proof.
  intros Hid H. assert (HQ : queue_inv (<[id := (kind, payload)]> Q) A (q_events q)).
  { intros k r Hr. destruct (H k r Hr) as [Hq Hk]. split; [|done]. rewrite lookup_insert_ne; [done|]. congruence. }
  unfold QueueEvent. destruct (_ && _); [by intros [= <-]|]. intros [= <-].
  set (q1 := if exists_row _ _ then q else _).
  assert (H1 : queue_inv (<[id := (kind, payload)]> Q) A (q_events q1)).
  { subst q1. destruct (exists_row _ _); [done|]. intros k r. cbn. rewrite lookup_insert_Some.
    intros [[_ <-]|[_ Hr]]; [|by apply (HQ k)]. cbn. rewrite lookup_insert_eq. split; [done|]. by intros [? ?]. }
  destruct (telemetry_kind kind); [|done]. cbn. by apply queue_inv_delete.
Qed.
Lemma pending_authentic Q A q types ev :
  queue_inv Q A (q_events q) → ev ∈ pendingEvents q types → Q !! ev_EventID ev = Some (ev_EventType ev, ev_Payload ev).
Proof.
  unfold pendingEvents. intros H Hev%elem_of_take. destruct Hev as (i & Hi & _).
  apply list_elem_of_lookup_2, list_elem_of_omap in Hi as (k & _ & Hk). apply bind_Some in Hk as (r & Hr & Hk).
  destruct (_ && _); [|done]. simplify_eq. by apply (H k).
Qed.

(** ** The system *)

(** The queue, the database, everything ever sent in both directions, the events
    ever queued, and the rows of the DPI view that were deleted with their user or
    their client. *)
Record Flow := mkEventFlow {
  fl_queue : EdgeQueue; fl_db : ControllerDB; fl_batches : list (list EventEnvelope); fl_acks : list (list string);
  fl_queued : gmap string (string * string); fl_removed : list Event }.

(** Statements on other tables and on the rows of other nodes, and those that
    delete rows of the DPI view: the events of the node go only with the node. *)
Definition changes (d d' : ControllerDB) (removed : list Event) : Prop :=
  events_ok d' ∧ stored d' n ≡ₚ stored d n ∧ dpi_view d n ≡ₚ removed ++ dpi_view d' n.

Lemma deletion_changes d d' p pn :
  events_ok d → d_event_seq d' = d_event_seq d → d_dpi_seq d' = d_dpi_seq d →
  d_node_events d' = delete_where pn (d_node_events d) → (∀ k r, pn k r = true → ne_NodeID r ≠ n) →
  d_dpi_events d' = delete_where p (d_dpi_events d) →
  ∃ removed, changes d d' removed.
Proof.
  intros [H1 H2] He Hd Hn Hpn Hp.
  exists (filter (λ r : string * Event, r.1 = n) (rows (delete_where (λ k v, negb (p k v)) (d_dpi_events d)))).*2.
  split; [split|split].
  - intros k. rewrite Hn, He. intros [r [Hr _]%delete_where_Some]. by apply H1.
  - intros k. rewrite Hp, Hd. intros [r [Hr _]%delete_where_Some]. by apply H2.
  - unfold stored. rewrite Hn, (rows_split pn (d_node_events d)), filter_app.
    rewrite (filter_no_element (λ r, ne_NodeID r = n) (rows (delete_where (λ k v, negb (pn k v)) _))), app_nil_r; [done|].
    intros r [k [_ Hk]%delete_where_Some]%elem_of_rows. apply negb_false_iff in Hk. by eapply Hpn.
  - unfold dpi_view. rewrite Hp, (rows_split p (d_dpi_events d)) at 1. rewrite filter_app, fmap_app. apply Permutation_app_comm.
Qed.
Definition event_tables (d : ControllerDB) := (d_event_seq d, d_dpi_seq d, d_node_events d, d_dpi_events d).
Lemma mark_dirty_event_tables d u d' : markUserIdentityDirtyTx d u = inr d' → event_tables d' = event_tables d.
Proof. unfold markUserIdentityDirtyTx. case_bool_decide; [done|]. by intros [= <-]. Qed.
Lemma delete_user_event_tables d u d' :
  delete_user_rows d u = inr d' →
  event_tables d' = (d_event_seq d, d_dpi_seq d, d_node_events d,
                     delete_where (λ _ e, bool_decide (flow_UserID (e_Flow e.2) = u)) (d_dpi_events d)).
Proof. unfold delete_user_rows. cbn zeta. destruct (_ || _); [done|]. intros [= <-]. reflexivity. Qed.
Lemma delete_user_changes d u d' : events_ok d → DeleteUser d u = inr d' → ∃ removed, changes d d' removed.
Proof.
  intros Hok. unfold DeleteUser. destruct (d_users d !! u); [|done]. destruct (_ && _); [done|].
  rewrite rbind_inr. intros (d1 & Hd1%delete_user_event_tables & Hd'%mark_dirty_event_tables).
  rewrite Hd1 in Hd'. unfold event_tables in Hd'. injection Hd' as H1 H2 H3 H4.
  eapply (deletion_changes _ _ _ (λ _ _, false)); [done..| |done|exact H4].
  rewrite H3. symmetry. by apply map_filter_id.
Qed.
Lemma delete_node_changes d m d' : m ≠ n → events_ok d → DeleteEdgeNode d m = inr d' → ∃ removed, changes d d' removed.
Proof.
  intros Hm Hok. unfold DeleteEdgeNode. destruct (d_nodes d !! m); [|done]. intros [= <-].
  eapply deletion_changes; try done. intros k r Hr%bool_decide_eq_true. congruence.
Qed.

(** The ids are random: an id is never drawn twice. *)
Inductive fstep : Flow → Flow → Prop :=
  | f_queue q d B A Q R now enabled id kind payload q' :
      Q !! id = None → QueueEvent q now enabled id kind (inr payload) = inr q' →
      fstep (mkEventFlow q d B A Q R) (mkEventFlow q' d B A (<[id := (kind, payload)]> Q) R)
  | f_prune q d B A Q R enabled :
      fstep (mkEventFlow q d B A Q R) (mkEventFlow (PruneDisabledDPIEvents q enabled) d B A Q R)
  | f_migrate q d B A Q R :
      fstep (mkEventFlow q d B A Q R) (mkEventFlow (migrate_events q) d B A Q R)
  | f_send q d B A Q R types :
      fstep (mkEventFlow q d B A Q R) (mkEventFlow q d (pendingEvents q types :: B) A Q R)
  | f_deliver q d B A Q R batch sequence sql prune d' acked :
      batch ∈ B → recordEventBatch decode_event sql_error d n sequence batch sql prune = (d', acked) →
      fstep (mkEventFlow q d B A Q R) (mkEventFlow q d' B (acked :: A) Q R)
  | f_acknowledge q d B A Q R ids now sql discard q' err :
      ids ∈ A → AcknowledgeEvents sql_error q now ids sql discard = (q', err) →
      fstep (mkEventFlow q d B A Q R) (mkEventFlow q' d B A Q R)
  | f_other_node q d B A Q R m sequence batch sql prune d' acked :
      m ≠ n → recordEventBatch decode_event sql_error d m sequence batch sql prune = (d', acked) →
      fstep (mkEventFlow q d B A Q R) (mkEventFlow q d' B A Q R)
  | f_database q d B A Q R d' removed :
      changes d d' removed → fstep (mkEventFlow q d B A Q R) (mkEventFlow q d' B A Q (removed ++ R)).

(** Before the node has sent anything. *)
Definition quiet (f : Flow) : Prop :=
  events_ok (fl_db f) ∧ stored (fl_db f) n = [] ∧ dpi_view (fl_db f) n = [] ∧
  q_events (fl_queue f) = ∅ ∧ fl_batches f = [] ∧ fl_acks f = [] ∧ fl_queued f = ∅ ∧ fl_removed f = [].

Record flow_inv (f : Flow) : Prop := {
  fi_db : db_inv (fl_queued f) (fl_removed f) (fl_db f);
  fi_queue : queue_inv (fl_queued f) (mjoin (fl_acks f)) (q_events (fl_queue f));
  fi_batches : ∀ batch ev, batch ∈ fl_batches f → ev ∈ batch → fl_queued f !! ev_EventID ev = Some (ev_EventType ev, ev_Payload ev);
  fi_acks : ∀ id, id ∈ mjoin (fl_acks f) → safe (fl_queued f) (fl_db f) id }.

Lemma flow_quiet f : quiet f → flow_inv f.
Proof.
  destruct f as [q d B A Q R]. intros (Hok & Hs & Hv & Hq & HB & HA & HQ & HR). cbn in *. subst. split; cbn.
  - split; [done|rewrite Hs; by apply NoDup_nil|rewrite Hs; by intros r ?%not_elem_of_nil|by rewrite Hs, Hv].
  - intros k r. by rewrite Hq, lookup_empty.
  - by intros batch ev ?%not_elem_of_nil.
  - by intros id ?%not_elem_of_nil.
Qed.

Lemma db_inv_more Q Q' R d : Q ⊆ Q' → db_inv Q R d → db_inv Q' R d.
Proof. intros HQ [Hok Hids Hq Hv]. split; [done..| |done]. intros r Hr. by eapply lookup_weaken; [apply Hq|]. Qed.
Lemma safe_more Q Q' d id : Q ⊆ Q' → safe Q d id → safe Q' d id.
Proof. intros HQ (kind & payload & Hq & Hs). exists kind, payload. split; [by eapply lookup_weaken|done]. Qed.

Lemma flow_queue_event q d B A Q R now enabled id kind payload q' :
  Q !! id = None → QueueEvent q now enabled id kind (inr payload) = inr q' →
  flow_inv (mkEventFlow q d B A Q R) → flow_inv (mkEventFlow q' d B A (<[id := (kind, payload)]> Q) R).
Proof.
  intros Hid Hq' [Hd Hq HB HA]. cbn in *. assert (Hsub : Q ⊆ <[id := (kind, payload)]> Q) by by apply insert_subseteq. split; cbn.
  - by eapply db_inv_more.
  - by eapply queue_inv_QueueEvent.
  - intros batch ev Hb Hev. eapply lookup_weaken; [by eapply HB|done].
  - intros x Hx. eapply safe_more; [done|by apply HA].
Qed.
Lemma flow_store q d d' B A Q R sequence m batch sql prune acked :
  (m = n → batch ∈ B) → recordEventBatch decode_event sql_error d m sequence batch sql prune = (d', acked) →
  flow_inv (mkEventFlow q d B A Q R) → flow_inv (mkEventFlow q d' B ((if decide (m = n) then [acked] else []) ++ A) Q R).
Proof.
  intros Hb Hrec [Hd Hq HB HA]. cbn in *.
  destruct (batch_inv Q R _ _ _ _ _ _ _ _ Hd ltac:(intros ev Hev Hm; by eapply HB; [apply Hb|]) Hrec) as (Hd' & Hk & Hs).
  split; cbn; [done| |done|].
  - eapply queue_inv_mono; [|exact Hq]. rewrite join_app. intros x Hx. apply elem_of_app. by right.
  - intros id. rewrite join_app. intros [Hid|Hid]%elem_of_app; [|by eapply safe_keeps; [exact Hd| |apply HA]].
    destruct (decide (m = n)) as [Hm|]; cbn in Hid; [|by apply not_elem_of_nil in Hid]. rewrite app_nil_r in Hid. by apply Hs.
Qed.
Lemma flow_database q d d' B A Q R removed :
  changes d d' removed → flow_inv (mkEventFlow q d B A Q R) → flow_inv (mkEventFlow q d' B A Q (removed ++ R)).
Proof.
  intros (Hok & Hs & Hv) [[_ Hids HQ Hview] Hq HB HA]. cbn in *. split; cbn; [split|done|done|].
  - done.
  - by rewrite Hs.
  - intros r Hr. apply HQ. by rewrite <- Hs.
  - rewrite Hs, <- Hview, Hv. rewrite (Permutation_app_comm (dpi_view d' n)), <- !app_assoc. f_equiv.
    apply Permutation_app_comm.
  - intros id Hid. destruct (HA id Hid) as (kind & payload & Hk & Hx). exists kind, payload. split; [done|].
    intros Hne. destruct (Hx Hne) as (r & Hr & He). exists r. by rewrite Hs.
Qed.
Lemma flow_queue_only q q' d B A Q R :
  (queue_inv Q (mjoin A) (q_events q) → queue_inv Q (mjoin A) (q_events q')) →
  flow_inv (mkEventFlow q d B A Q R) → flow_inv (mkEventFlow q' d B A Q R).
Proof. intros H [Hd Hq HB HA]. split; cbn in *; auto. Qed.

Lemma flow_step f f' : fstep f f' → flow_inv f → flow_inv f'.
Proof.
  intros Hstep Hf. destruct Hstep.
  - by eapply flow_queue_event.
  - eapply flow_queue_only; [|exact Hf]. unfold PruneDisabledDPIEvents. case_bool_decide; [|done]. apply queue_inv_delete.
  - eapply flow_queue_only; [|exact Hf]. intros H. cbn. by do 2 apply queue_inv_delete.
  - destruct Hf as [Hd Hq HB HA]. cbn in *. split; cbn; [done..| |done]. intros batch ev [->|Hb]%elem_of_cons Hev; [|by eapply HB].
    by eapply pending_authentic.
  - eapply (flow_store q d d' B A Q R sequence n) in Hf; [|done..]. by rewrite decide_True in Hf by done.
  - eapply flow_queue_only; [|exact Hf]. intros Hq. eapply queue_inv_AcknowledgeEvents; [|exact Hq|done].
    intros x Hx. apply list_elem_of_join. eauto.
  - eapply (flow_store q d d' B A Q R sequence m batch) in Hf; [|done..]. by rewrite decide_False in Hf by done.
  - by eapply flow_database.
Qed.
Lemma flow_reachable f f' : quiet f → rtc fstep f f' → flow_inv f'.
Proof.
  intros Hq Hr. assert (H0 : flow_inv f) by by apply flow_quiet. clear Hq. induction Hr; [done|]. apply IHHr. by eapply flow_step.
Qed.

(** C4: whatever the stream loses, repeats or reorders: an event that the edge's
    queue holds as acknowledged is stored at the controller, except for runtime
    logs, of which the controller keeps the newest; every stored event of the node
    is one the edge queued, unchanged and stored once; and each stored DPI event is
    in the controller's DPI view exactly once, or was deleted from it with its user
    or client.  The node itself is not deleted meanwhile. *)
Theorem events_stored_once f0 f :
  quiet f0 → rtc fstep f0 f →
  (∀ k r, q_events (fl_queue f) !! k = Some r → is_Some (ob_AcknowledgedAt r) → ob_EventType r ≠ "runtime_log"%string →
     ∃ x, x ∈ stored (fl_db f) n ∧ ne_EventID x = ob_EventID r ∧ ne_EventType x = ob_EventType r ∧ ne_PayloadJSON x = ob_Payload r) ∧
  (∀ x, x ∈ stored (fl_db f) n → fl_queued f !! ne_EventID x = Some (ne_EventType x, ne_PayloadJSON x)) ∧
  NoDup (ne_EventID <$> stored (fl_db f) n) ∧
  dpi_view (fl_db f) n ++ fl_removed f ≡ₚ omap decoded (stored (fl_db f) n).
Proof.
  intros H0 Hr. destruct (flow_reachable _ _ H0 Hr) as [[Hok Hids HQ Hv] Hq HB HA]. split_and!; [|done..].
  intros k r Hr' Hack Hne. destruct (Hq k r Hr') as [Hqr Hin]. destruct (HA _ (Hin Hack)) as (kind & payload & Hk & Hs).
  rewrite Hqr in Hk. simplify_eq. destruct (Hs Hne) as (x & Hx & He). exists x. specialize (HQ x Hx). rewrite He, Hqr in HQ.
  by simplify_eq.
Qed.
End flow.

(** A DPI event that is sent once, arrives twice and is acknowledged twice. *)
Definition sample_event : Event :=
  mkEvent (mkFlow 1 1 "" "" "" "" 0 "" "" "" ∅) DirectionInbound ActionAllow "" empty_finding zero_time.
Definition sample_decode (payload : string) : store_error + Event :=
  if bool_decide (payload = "{}"%string) then inr sample_event else inl ErrConstraint.
Definition sample_db : ControllerDB :=
  empty_db <| d_nodes := {["n" := mkEdgeNode "n" "n" "" "active" None "" "" true "" zero_time zero_time]} |>.
Definition sample_always (_ : nat) : bool := true.
Definition sample_queue : EdgeQueue := mkQueue {[1 := mkOutbound "e" "dpi_event" "{}" zero_time None]} 1 ∅ ∅ ∅.
Definition sample_batch : list EventEnvelope := [mkEnvelope "e" "dpi_event" "{}" zero_time].
Definition sample_deliver (d : ControllerDB) (sequence : Z) : ControllerDB * list string :=
  recordEventBatch sample_decode ErrConstraint d "n" sequence sample_batch sample_always sample_always.

Lemma events_stored_once_witness :
  let d := (sample_deliver (sample_deliver sample_db 1).1 2).1 in
  let q := (AcknowledgeEvents ErrConstraint sample_queue zero_time ["e"%string] sample_always true).1 in
  ob_AcknowledgedAt <$> q_events q !! 1 = Some (Some zero_time) ∧
  dpi_view d "n" = [sample_event] ∧ dpi_view d "n" ++ [] ≡ₚ omap (decoded sample_decode) (stored d "n").
Proof.
  intros d q. split; [vm_compute; reflexivity|]. split; [vm_compute; reflexivity|].
  set (Q := {["e"%string := ("dpi_event"%string, "{}"%string)]} : gmap string (string * string)).
  set (d1 := (sample_deliver sample_db 1).1).
  refine (proj2 (proj2 (proj2 (events_stored_once sample_decode ErrConstraint "n" (mkEventFlow empty_queue sample_db [] [] ∅ [])
    (mkEventFlow q d [sample_batch] [["e"%string]; ["e"%string]] Q []) _ _)))).
  - split; [split; intros k [? Hk]; cbn in Hk; by rewrite lookup_empty in Hk|]. split_and!; vm_compute; reflexivity.
  - apply rtc_l with (mkEventFlow sample_queue sample_db [] [] Q []).
    { apply (f_queue _ _ _ _ _ _ _ ∅ _ zero_time None "e" "dpi_event" "{}"); vm_compute; reflexivity. }
    apply rtc_l with (mkEventFlow sample_queue sample_db [sample_batch] [] Q []).
    { apply (f_send _ _ _ sample_queue _ _ _ _ _ []). }
    apply rtc_l with (mkEventFlow sample_queue d1 [sample_batch] [["e"%string]] Q []).
    { apply (f_deliver _ _ _ _ _ _ _ _ _ sample_batch 1 sample_always sample_always); [left|vm_compute; reflexivity]. }
    apply rtc_l with (mkEventFlow sample_queue d [sample_batch] [["e"%string]; ["e"%string]] Q []).
    { apply (f_deliver _ _ _ _ _ _ _ _ _ sample_batch 2 sample_always sample_always); [left|vm_compute; reflexivity]. }
    apply rtc_once. apply (f_acknowledge _ _ _ _ _ _ _ _ _ ["e"%string] zero_time sample_always true _ None); [left|vm_compute; reflexivity].
Defined.
