(* ===== verification/EdgeLink.v ===== *)
(** * The edge's side of the control stream

    [EdgeClient] of [internal/cluster/client.go] with the handlers that
    [cmd/server/main.go] installs: the identity cache of [edgestate] is discarded
    on a reset and a snapshot is applied to it.  A connection runs four
    goroutines: the receive loop, the apply worker, the auxiliary worker and the
    main loop.  Each definition is one step of one of them; the apply worker takes
    a job, commits it and reports it in three steps, because the receive loop runs
    meanwhile.  A goroutine that returned after [fail] takes no further step. *)
From Stdlib Require Import ZArith Lia Ascii String.
From stdpp Require Import gmap strings list fin_maps.
From S2P Require Import Prelude GoStrings Types DpiEngine DpiService EdgeStore EdgeIdentity ControllerDB IdentityPage IdentityView ControllerLink.
Local Open Scope Z_scope.

(** ** State *)

(** [edc_faultCalls] and [edc_observed] are the calls of the fault handler and of
    the address handler, the latest first. *)
Record EdgeClient := mkEdgeClient {
  edc_nodeID : string; edc_bootID : string; edc_capabilities : string; edc_capabilityChanged : bool;
  edc_connected : bool; edc_syncReady : bool; edc_controllerFault : bool; edc_faultGeneration : Z;
  edc_heartbeatSeconds : Z; edc_lastError : string; edc_faultCalls : list bool; edc_observed : list string }.
#[export] Instance eta_edge_client : Eta EdgeClient := λ r,
  mkEdgeClient (edc_nodeID r) (edc_bootID r) (edc_capabilities r) (edc_capabilityChanged r) (edc_connected r)
    (edc_syncReady r) (edc_controllerFault r) (edc_faultGeneration r) (edc_heartbeatSeconds r) (edc_lastError r)
    (edc_faultCalls r) (edc_observed r).
Definition SetCapabilities (e : EdgeClient) (encoded : string) : EdgeClient :=
  e <| edc_capabilities := encoded |> <| edc_capabilityChanged := true |>.
Definition NewEdgeClient (nodeID bootID capabilities : string) : EdgeClient :=
  SetCapabilities (mkEdgeClient nodeID bootID "" false false false false 0 5 "" [] []) capabilities.

(** The job of the apply worker, whether its transaction has committed, and the
    progress reports sent for it. *)
Record apply_job := mkJob { aj_message : Message; aj_committed : bool; aj_progress : Z }.
#[export] Instance eta_apply_job : Eta apply_job := λ r, mkJob (aj_message r) (aj_committed r) (aj_progress r).

Inductive edge_error :=
  | EdgeFailed (msg : string)
  | EdgeStore (e : store_error)
  | EdgeBadJSON.

Record EdgeConn := mkEdgeConn {
  ek_send : list Message;
  ek_identityProtocol : Z; ek_cacheSessionID : string;
  ek_chunkBuffer : bytes; ek_chunkRevision : Z; ek_chunkIndex : Z; ek_chunkTotal : Z;
  ek_locallyApplied : Z; ek_applyJobs : option Message; ek_applying : option apply_job;
  ek_applyStopped : bool; ek_recvStopped : bool; ek_auxJobs : list Message;
  ek_failed : option edge_error; ek_lastReceived : time; ek_seq : Z }.
#[export] Instance eta_edge_conn : Eta EdgeConn := λ r,
  mkEdgeConn (ek_send r) (ek_identityProtocol r) (ek_cacheSessionID r) (ek_chunkBuffer r) (ek_chunkRevision r)
    (ek_chunkIndex r) (ek_chunkTotal r) (ek_locallyApplied r) (ek_applyJobs r) (ek_applying r) (ek_applyStopped r)
    (ek_recvStopped r) (ek_auxJobs r) (ek_failed r) (ek_lastReceived r) (ek_seq r).

(** The first error is the one the main loop reads. *)
Definition fail (k : EdgeConn) (e : edge_error) : EdgeConn :=
  if ek_failed k is Some _ then k else k <| ek_failed := Some e |>.
Definition fail_recv (k : EdgeConn) (e : edge_error) : EdgeConn := (fail k e) <| ek_recvStopped := true |>.
Definition fail_apply (k : EdgeConn) (e : edge_error) : EdgeConn :=
  (fail k e) <| ek_applyStopped := true |> <| ek_applying := None |>.

(** [enqueue]: never waits. *)
Definition edge_send (k : EdgeConn) (m : Message) : edge_error + EdgeConn :=
  if bool_decide (length (ek_send k) < 128)%nat then inr (k <| ek_send := ek_send k ++ [m] |>)
  else inl (EdgeFailed "edge control send queue is full").

Definition signalFault (e : EdgeClient) : EdgeClient :=
  e <| edc_faultGeneration := edc_faultGeneration e + 1 |> <| edc_faultCalls := true :: edc_faultCalls e |>.

(** The connection after its hello. *)
Definition open_connection (e : EdgeClient) (now : time) : EdgeConn :=
  mkEdgeConn
    [(message "hello" (edc_nodeID e)) <| m_BootID := edc_bootID e |> <| m_CacheProtocol := 3 |>
       <| m_AdmissionProtocol := 1 |> <| m_Capabilities := edc_capabilities e |>]
    0 "" [] 0 0 0 0 None None false false [] None now 0.

(** ** The receive loop *)

Definition queueApply (k : EdgeConn) (job : Message) : edge_error + EdgeConn :=
  if ek_applyJobs k is Some _ then inl (EdgeFailed "overlapping identity application")
  else inr (k <| ek_applyJobs := Some job |>).
Definition or_fail (k : EdgeConn) (r : edge_error + EdgeConn) : EdgeConn :=
  match r with inl e => fail_recv k e | inr k => k end.

Definition snapshot_job (protocol : Z) (session : string) (revision : Z) (payload : bytes) : Message :=
  (message "identity_snapshot" "") <| m_CacheProtocol := protocol |> <| m_CacheSessionID := session |>
    <| m_Revision := revision |> <| m_Payload := PBytes payload |>.

(** The first fragment starts a new transfer. *)
Definition begin_chunks (e : EdgeClient) (k : EdgeConn) (m : Message) (chunk : IdentityChunk) : EdgeClient * EdgeConn :=
  if bool_decide (ch_Index chunk = 0)
  then (e <| edc_syncReady := false |>,
        k <| ek_chunkRevision := m_Revision m |> <| ek_chunkTotal := ch_Total chunk |> <| ek_chunkIndex := 0 |>)
  else (e, k).
Definition bad_chunk (k : EdgeConn) (m : Message) (chunk : IdentityChunk) : bool :=
  bool_decide (ch_Total chunk < 1) || negb (bool_decide (ch_Total chunk = ek_chunkTotal k)) ||
  negb (bool_decide (ch_Index chunk = ek_chunkIndex k)) || negb (bool_decide (m_Sequence m = ek_chunkIndex k)) ||
  negb (bool_decide (m_Revision m = ek_chunkRevision k)) || bool_decide (len (ch_Data chunk) = 0) ||
  bool_decide (identityChunkBytes < len (ch_Data chunk)).
Definition recv_chunk (e : EdgeClient) (k : EdgeConn) (m : Message) : EdgeClient * EdgeConn :=
  if bool_decide (ek_identityProtocol k < 3) || negb (bool_decide (m_CacheSessionID m = ek_cacheSessionID k))
  then (e, fail_recv k (EdgeFailed "identity chunk session mismatch"))
  else match m_Payload m with
  | PChunk chunk =>
      if bool_decide (ch_Index chunk = 0) && bool_decide (0 < len (ek_chunkBuffer k))
      then (e, fail_recv k (EdgeFailed "overlapping identity fragments"))
      else
        let '(e, k) := begin_chunks e k m chunk in
        if bad_chunk k m chunk then (e, fail_recv k (EdgeFailed "invalid identity fragment sequence"))
        else
          let k := k <| ek_chunkBuffer := ek_chunkBuffer k ++ ch_Data chunk |> in
          match edge_send k ((message "identity_chunk_ack" (edc_nodeID e)) <| m_CacheSessionID := ek_cacheSessionID k |>
                               <| m_Revision := m_Revision m |> <| m_Sequence := ek_chunkIndex k |>) with
          | inl err => (e, fail_recv k err)
          | inr k =>
              let k := k <| ek_chunkIndex := ek_chunkIndex k + 1 |> in
              if bool_decide (ek_chunkIndex k = ek_chunkTotal k) then
                let job := snapshot_job (ek_identityProtocol k) (ek_cacheSessionID k) (m_Revision m) (ek_chunkBuffer k) in
                let k := k <| ek_chunkBuffer := [] |> in
                (e, or_fail k (queueApply k job))
              else (e, k)
          end
  | _ => (e, fail_recv k EdgeBadJSON)
  end.

Definition recv_snapshot (e : EdgeClient) (k : EdgeConn) (m : Message) : EdgeClient * EdgeConn :=
  if bool_decide (2 ≤ ek_identityProtocol k) &&
     (bool_decide (m_CacheSessionID m = ""%string) || negb (bool_decide (m_CacheSessionID m = ek_cacheSessionID k)))
  then (e, fail_recv k (EdgeFailed "identity snapshot cache session mismatch"))
  else
    (e <| edc_syncReady := false |>,
     or_fail k (queueApply k (m <| m_CacheProtocol := ek_identityProtocol k |> <| m_CacheSessionID := ek_cacheSessionID k |>))).

Definition recv_confirmed (e : EdgeClient) (k : EdgeConn) (m : Message) : EdgeClient * EdgeConn :=
  if negb (bool_decide (m_CacheSessionID m = ek_cacheSessionID k)) || negb (bool_decide (m_Revision m = ek_locallyApplied k))
  then (e, fail_recv k (EdgeFailed "controller identity confirmation mismatch"))
  else
    let e := e <| edc_syncReady := bool_decide (ek_identityProtocol k < 3) || m_SyncComplete m |> in
    (if edc_syncReady e && negb (edc_controllerFault e) then e <| edc_faultCalls := false :: edc_faultCalls e |> else e, k).

(** The new epoch of a welcome: the cache is discarded before it is filled again. *)
Definition recv_welcome (e : EdgeClient) (k : EdgeConn) (m : Message) (ack : HeartbeatAck) : EdgeClient * EdgeConn :=
  let e := signalFault e in
  let k := k <| ek_identityProtocol := ha_IdentityProtocol ack |> <| ek_cacheSessionID := m_CacheSessionID m |> in
  if bool_decide (3 ≤ ha_IdentityProtocol ack) then
    let e := e <| edc_syncReady := false |> in
    let k := k <| ek_chunkBuffer := [] |> in
    if bool_decide (m_CacheSessionID m = ""%string) then (e, fail_recv k (EdgeFailed "missing cache reset epoch"))
    else (e, or_fail k (queueApply k ((message "cache_reset" "") <| m_CacheSessionID := m_CacheSessionID m |>)))
  else (e, k).
Definition recv_ack (e : EdgeClient) (k : EdgeConn) (m : Message) : EdgeClient * EdgeConn :=
  let e := e <| edc_connected := true |> <| edc_lastError := ""%string |> in
  match m_Payload m with
  | PAck ack =>
      let wasFault := edc_controllerFault e in
      let e := e <| edc_controllerFault := ha_ControllerFault ack |> in
      let e := if ha_ControllerFault ack && negb wasFault then (signalFault e) <| edc_syncReady := false |> else e in
      let '(e, k) := if bool_decide (m_Type m = "welcome"%string) then recv_welcome e k m ack else (e, k) in
      if ek_recvStopped k then (e, k)
      else
        let e := if bool_decide (2 ≤ ha_IntervalSeconds ack ≤ 60)
                 then e <| edc_heartbeatSeconds := ha_IntervalSeconds ack |> else e in
        (if bool_decide (ha_ObservedAddress ack = ""%string) then e
         else e <| edc_observed := ha_ObservedAddress ack :: edc_observed e |>, k)
  | _ => (e, k)
  end.
Definition ack_message (m : Message) : bool :=
  bool_decide (m_Type m = "heartbeat_ack"%string) || bool_decide (m_Type m = "welcome"%string) ||
  bool_decide (m_Type m = "controller_state"%string).
Definition aux_message (m : Message) : bool :=
  bool_decide (m_Type m = "event_ack"%string) || bool_decide (m_Type m = "command"%string).

Definition recv (e : EdgeClient) (k : EdgeConn) (now : time) (m : Message) : EdgeClient * EdgeConn :=
  if ek_recvStopped k then (e, k)
  else
    let k := k <| ek_lastReceived := now |> in
    if negb (bool_decide (m_NodeID m = ""%string)) && negb (bool_decide (m_NodeID m = edc_nodeID e))
    then (e, fail_recv k (EdgeFailed "controller message node mismatch"))
    else if bool_decide (m_Type m = "identity_chunk"%string) then recv_chunk e k m
    else if bool_decide (m_Type m = "identity_snapshot"%string) then recv_snapshot e k m
    else if bool_decide (m_Type m = "identity_confirmed"%string) then recv_confirmed e k m
    else if ack_message m then recv_ack e k m
    else if aux_message m then
      (e, if bool_decide (length (ek_auxJobs k) < 128)%nat then k <| ek_auxJobs := ek_auxJobs k ++ [m] |>
          else fail_recv k (EdgeFailed "edge auxiliary control queue full"))
    else (e, k).

(** ** The apply worker *)

Section worker.
Context {codec : SnapshotCodec}.
(** [db_error] is the error of a failing transaction. *)
Context (julianday : time → Z) (db_error : store_error).

Definition reset_job (m : Message) : bool := bool_decide (m_Type m = "cache_reset"%string).

(** A job is taken from the channel.  A snapshot whose payload does not carry the
    revision of the message is refused. *)
Definition apply_take (k : EdgeConn) : EdgeConn :=
  match ek_applyJobs k, ek_applying k with
  | Some job, None =>
      if ek_applyStopped k then k
      else
        let k := k <| ek_applyJobs := None |> in
        let taken := k <| ek_applying := Some (mkJob job false 0) |> in
        if reset_job job then taken
        else match m_Payload job with
        | PBytes payload =>
            match Unmarshal payload with
            | Some snapshot => if bool_decide (Revision snapshot = m_Revision job) then taken
                               else fail_apply k (EdgeFailed "identity payload revision mismatch")
            | None => fail_apply k (EdgeFailed "identity payload revision mismatch")
            end
        | _ => fail_apply k (EdgeFailed "identity payload revision mismatch")
        end
  | _, _ => k
  end.

(** A progress report of the running job. *)
Definition apply_progress (e : EdgeClient) (k : EdgeConn) : EdgeConn :=
  match ek_applying k with
  | Some job =>
      let m := aj_message job in
      if reset_job m || bool_decide (m_CacheProtocol m < 3) then k
      else
        let job := job <| aj_progress := aj_progress job + 1 |> in
        let k := k <| ek_applying := Some job |> in
        match edge_send k ((message "identity_progress" (edc_nodeID e)) <| m_CacheSessionID := m_CacheSessionID m |>
                             <| m_Revision := m_Revision m |> <| m_Sequence := aj_progress job |>) with
        | inl err => fail k err
        | inr k => k
        end
  | None => k
  end.

(** The transaction of the job; [ok] says whether the database carries it out. *)
Definition apply_commit (s : Store) (k : EdgeConn) (now now' : time) (ok : bool) : Store * EdgeConn :=
  match ek_applying k with
  | Some job =>
      if aj_committed job then (s, k)
      else
        let m := aj_message job in
        let committed := k <| ek_applying := Some (job <| aj_committed := true |>) |> in
        if reset_job m then
          if ok then (resetIdentityCache s false, committed)
          else (s <| identityResetPending := true |>, fail_apply k (EdgeStore db_error))
        else match m_Payload m with
        | PBytes payload =>
            match Unmarshal payload with
            | Some snapshot =>
                match ApplyIdentitySnapshot julianday s now now' (inr snapshot) with
                | inr s' => if ok then (s', committed) else (s, fail_apply k (EdgeStore db_error))
                | inl err => (s, fail_apply k (EdgeStore err))
                end
            | None => (s, fail_apply k EdgeBadJSON)
            end
        | _ => (s, fail_apply k EdgeBadJSON)
        end
  | None => (s, k)
  end.

(** What follows the commit: the enforcement in the proxy server, which may fail
    for a snapshot, and the report to the controller. *)
Definition apply_report (e : EdgeClient) (k : EdgeConn) (enforced : option edge_error) : EdgeClient * EdgeConn :=
  match ek_applying k with
  | Some job =>
      let m := aj_message job in
      if negb (aj_committed job) then (e, k)
      else
        let report k m := match edge_send k m with inl err => fail_apply k err | inr k => k <| ek_applying := None |> end in
        if reset_job m then
          let k := k <| ek_locallyApplied := 0 |> in
          (e, report k ((message "cache_cleared" (edc_nodeID e)) <| m_CacheSessionID := m_CacheSessionID m |>))
        else match enforced with
        | Some err => (e, fail_apply k err)
        | None =>
            let k := k <| ek_locallyApplied := m_Revision m |> in
            let e := if bool_decide (m_CacheProtocol m < 2) then e <| edc_syncReady := true |> else e in
            (e, report k ((message "identity_ack" (edc_nodeID e)) <| m_Revision := m_Revision m |>
                            <| m_CacheSessionID := m_CacheSessionID m |>))
        end
  | None => (e, k)
  end.
End worker.

(** ** The auxiliary worker and the main loop *)

(** The handlers' answers are arguments: the error of acknowledging events, the
    report, the pending events, the result of a command. *)
Definition handleAux (e : EdgeClient) (k : EdgeConn) (micros : Z) (ack_error : option edge_error)
    (report : HeartbeatPayload) (events : string + list EventEnvelope) (run : NodeCommand → CommandResult) : EdgeConn :=
  match ek_auxJobs k with
  | [] => k
  | m :: jobs =>
      let k := k <| ek_auxJobs := jobs |> in
      let send k m := match edge_send k m with inl err => (fail k err, false) | inr k => (k, true) end in
      match m_Payload m with
      | PEventAck ids =>
          if bool_decide (m_Type m = "event_ack"%string)
          then match ack_error with Some err => fail k err | None => k end else k
      | PCommand command =>
          if negb (bool_decide (m_Type m = "command"%string)) then k
          else if bool_decide (cmd_Command command = "request_report"%string) then
            let '(report, k, sent) :=
              match events with
              | inl err => (mkHeartbeat ("read edge events: " ++ err) (hb_ClientsOnline report) (hb_FRPConnections report)
                              (hb_PendingEvents report) (hb_Clients report) (hb_ReportingVersion report)
                              (hb_ConnectionsReportingEnabled report) (hb_Connections report) (hb_Traffic report), k, true)
              | inr [] => (report, k, true)
              | inr events =>
                  let '(k, sent) := send k ((message "event_batch" (edc_nodeID e)) <| m_Sequence := micros |>
                                              <| m_Payload := PEvents events |>) in (report, k, sent)
              end in
            if negb sent then k
            else (send k ((message "report" (edc_nodeID e)) <| m_CommandID := cmd_CommandID command |>
                            <| m_Capabilities := edc_capabilities e |> <| m_Payload := PReport report |>)).1
          else
            (send k ((message "command_result" (edc_nodeID e)) <| m_CommandID := cmd_CommandID command |>
                       <| m_Capabilities := edc_capabilities e |> <| m_Payload := PResult (run command) |>)).1
      | _ => k
      end
  end.

Definition edge_watchdog (e : EdgeClient) (k : EdgeConn) (now : time) : option edge_error :=
  if bool_decide (heartbeatTimeout (edc_heartbeatSeconds e) < Sub now (ek_lastReceived k))
  then Some (EdgeFailed "controller heartbeat response timed out") else None.
Definition edge_heartbeat (e : EdgeClient) (k : EdgeConn) : edge_error + EdgeConn :=
  let k := k <| ek_seq := ek_seq k + 1 |> in
  edge_send k ((message "heartbeat" (edc_nodeID e)) <| m_Sequence := ek_seq k |>).
Definition edge_capabilities (e : EdgeClient) (k : EdgeConn) : EdgeClient * (edge_error + EdgeConn) :=
  (e <| edc_capabilityChanged := false |>,
   edge_send k ((message "capabilities_update" (edc_nodeID e)) <| m_Capabilities := edc_capabilities e |>)).

(** The deferred function of [connect]: logins are fenced before the workers are
    joined. *)
Definition close_connection (e : EdgeClient) : EdgeClient :=
  signalFault (e <| edc_connected := false |> <| edc_syncReady := false |>).

(** ** Reconnecting *)

Definition nextReconnectDelay (current : duration) (connectionEstablished : bool) : duration :=
  if connectionEstablished then Second
  else
    let current := current * 2 in
    if bool_decide (30 * Second < current) then 30 * Second else current.

(** [Run] after [connect] returned with [err]; [reset] says whether the discarding
    transaction succeeds. *)
Definition after_connect (e : EdgeClient) (s : Store) (delay : duration) (err : option string) (reset : bool) (reset_error : string) :
    EdgeClient * Store * duration :=
  let e := match err with Some msg => e <| edc_lastError := msg |> | None => e end in
  let wasConnected := edc_connected e in
  let e := (signalFault e) <| edc_connected := false |> <| edc_syncReady := false |> in
  let '(e, s) :=
    if reset then (e, resetIdentityCache s false)
    else (e <| edc_lastError := ("discard disconnected identity cache: " ++ reset_error)%string |>,
          s <| identityResetPending := true |>) in
  (e, s, nextReconnectDelay delay wasConnected).

(** A run of connections that were lost, with the state of the client when the
    connection ended and the outcome of the discarding transaction. *)
Record lost_connection := mkLost { lc_client : EdgeClient; lc_store : Store; lc_error : option string; lc_reset : bool; lc_message : string }.
Definition reconnect_delay (delay : duration) (lost : list lost_connection) : duration :=
  foldl (λ delay r, (after_connect (close_connection (lc_client r)) (lc_store r) delay (lc_error r) (lc_reset r) (lc_message r)).2)
    delay lost.

(** C31: the delay before a reconnection doubles with every connection since the
    start of the process, up to 30 seconds, whatever the connections were, also
    when each of them was established and synchronized: [Run] asks whether the connection was established only after
    [connect] has returned, whose deferred function has already recorded that it
    is not, so that the reset to one second never happens.  (The deferred function
    then waits for the receive loop; that the loop records nothing more is taken for
    granted.) *)
Theorem reconnect_never_resets lost :
  reconnect_delay Second lost = Z.min (2 ^ Z.of_nat (length lost)) 30 * Second.
Proof.
  assert (Hstep : ∀ e s delay err reset msg,
    (after_connect (close_connection e) s delay err reset msg).2 = nextReconnectDelay delay false)
    by (intros e s delay [] [] msg; done).
  induction lost as [|r lost IH] using rev_ind; [done|]. unfold reconnect_delay in *.
  rewrite foldl_snoc, IH, Hstep, length_app, Nat2Z.inj_add, Z.pow_add_r by lia. unfold nextReconnectDelay.
  change (2 ^ Z.of_nat (length [r])) with 2. assert (0 < 2 ^ Z.of_nat (length lost)) by lia.
  assert (0 < Second) by done. case_bool_decide; nia.
Qed.
