(* ===== verification/SyncPhase.v ===== *)
(** * One control connection

    The part of a connection that the synchronization depends on, as a value: the
    session of the controller, the messages under way in both directions, the
    receive loop and the apply worker of the edge, the edge's cache and the
    database.  [phase] lists the states that a connection of a current edge goes
    through; the lemmas show that every step of either side keeps it.  The states
    of the whole system are mapped to it in [ClusterSync]. *)
From Stdlib Require Import ZArith Lia Ascii String.
From stdpp Require Import gmap strings list fin_maps sorting.
From S2P Require Import Prelude GoStrings Types DpiEngine DpiService EdgeStore EdgeIdentity ControllerDB IdentityPage DBInvariant IdentityView CacheIndex ControllerLink EdgeLink.
Local Open Scope Z_scope.

(** ** Fragments *)

Definition chunk_count (payload : bytes) : Z := (len payload + identityChunkBytes - 1) / identityChunkBytes.
Definition sent_prefix (payload : bytes) (k : Z) : bytes := take (Z.to_nat (k * identityChunkBytes)) payload.

Lemma chunk_count_bounds payload k :
  0 ≤ k → k < chunk_count payload ↔ k * identityChunkBytes < len payload.
Proof.
  intros Hk. unfold chunk_count, identityChunkBytes. split; intros H.
  - assert (k + 1 ≤ (len payload + 512 * 1024 - 1) / (512 * 1024)) as H' by lia.
    apply (Z.mul_le_mono_nonneg_l _ _ (512 * 1024)) in H'; [|lia].
    pose proof (Z.mul_div_le (len payload + 512 * 1024 - 1) (512 * 1024)). lia.
  - assert (k + 1 ≤ (len payload + 512 * 1024 - 1) / (512 * 1024)); [|lia].
    apply Z.div_le_lower_bound; lia.
Qed.

Lemma chunk_count_pos payload : payload ≠ [] → 0 < chunk_count payload.
Proof. intros H. apply chunk_count_bounds; [lia|]. destruct payload; [done|]. unfold len. cbn. lia. Qed.

(** A fragment is not empty, fits in a message and continues the prefix. *)
Lemma chunk_data_spec payload k :
  0 ≤ k < chunk_count payload →
  ∃ data, chunk_data payload k = Some data ∧ 0 < len data ≤ identityChunkBytes ∧
    sent_prefix payload k ++ data = sent_prefix payload (k + 1).
Proof.
  intros [H0 Hk]. apply chunk_count_bounds in Hk; [|done]. unfold chunk_data, sent_prefix.
  set (start := k * identityChunkBytes) in *. set (stop := Z.min (start + identityChunkBytes) (len payload)).
  assert (Hpos : 0 < identityChunkBytes) by done.
  assert (Hstop : start < stop ≤ start + identityChunkBytes) by (unfold stop; lia). rewrite bool_decide_true by lia.
  eexists. split; [done|]. split.
  - unfold len in *. rewrite length_take, length_drop. lia.
  - rewrite take_take_drop. assert (Hs : 0 ≤ start) by (unfold start; lia).
    replace ((k + 1) * identityChunkBytes) with (start + identityChunkBytes) by (unfold start; lia).
    destruct (decide (start + identityChunkBytes ≤ len payload)) as [Hle|Hle].
    + f_equal. unfold stop. lia.
    + rewrite !take_ge; [done|unfold len in *; lia|unfold stop, len in *; lia].
Qed.

Lemma sent_prefix_0 payload : sent_prefix payload 0 = [].
Proof. done. Qed.
Lemma sent_prefix_all payload : sent_prefix payload (chunk_count payload) = payload.
Proof.
  apply take_ge. pose proof (chunk_count_bounds payload (chunk_count payload)) as H.
  assert (H0 : 0 ≤ chunk_count payload) by (apply Z.div_pos; unfold len, identityChunkBytes; lia).
  specialize (H H0). unfold len in H. lia.
Qed.

(** ** The connection *)

(** Where [Connect] stands. *)
Inductive stage := AwaitHello | AwaitEpoch | AwaitWelcome (id : string) | AwaitSync (id : string) | Streaming.
#[export] Instance stage_eq_dec : EqDecision stage.
Proof. solve_decision. Defined.

(** Messages to the edge that concern the synchronization. *)
Inductive down_msg :=
  | Welcome (epoch : string)
  | Chunk (epoch : string) (revision sequence : Z) (chunk : IdentityChunk)
  | Confirmed (epoch : string) (revision : Z) (sync_complete : bool).
(** Messages from the edge. *)
Inductive up_msg :=
  | ChunkAck (epoch : string) (revision sequence : Z)
  | IdentityAck (epoch : string) (revision : Z)
  | Cleared (epoch : string).
(** Jobs of the apply worker. *)
Inductive job :=
  | ResetJob (epoch : string)
  | SnapshotJob (epoch : string) (revision : Z) (payload : bytes).

Record Link := mkLink {
  k_stage : stage; k_epoch : string; k_ready : bool; k_baseline : bool; k_cursor : Z; k_last : Z;
  k_pending : Z; k_applied : Z; k_snapshot : option IdentitySnapshot; k_payload : bytes; k_index : Z; k_total : Z;
  k_down : list down_msg; k_up : list up_msg; k_queue : list up_msg;
  k_edge_epoch : string; k_protocol : Z; k_buffer : bytes; k_revision : Z; k_edge_index : Z; k_edge_total : Z;
  k_jobs : list job; k_committed : bool; k_stopped : bool; k_sync : bool;
  k_store : Store; k_db : ControllerDB; k_tokens : gset string }.
#[export] Instance eta_link : Eta Link := λ r,
  mkLink (k_stage r) (k_epoch r) (k_ready r) (k_baseline r) (k_cursor r) (k_last r) (k_pending r) (k_applied r)
    (k_snapshot r) (k_payload r) (k_index r) (k_total r) (k_down r) (k_up r) (k_queue r) (k_edge_epoch r)
    (k_protocol r) (k_buffer r) (k_revision r) (k_edge_index r) (k_edge_total r) (k_jobs r) (k_committed r)
    (k_stopped r) (k_sync r) (k_store r) (k_db r) (k_tokens r).

Definition up_epoch (m : up_msg) : string :=
  match m with ChunkAck e _ _ => e | IdentityAck e _ => e | Cleared e => e end.
Definition welcome_epoch (m : down_msg) : option string := match m with Welcome e => Some e | _ => None end.
Definition reset_epoch (j : job) : option string := match j with ResetJob e => Some e | _ => None end.
Definition ups (l : Link) : list up_msg := k_queue l ++ k_up l.
Definition awaited (l : Link) : list string := match k_stage l with AwaitWelcome id => [id] | _ => [] end.
(** The epochs announced to the edge whose reset has not been reported. *)
Definition announced (l : Link) : list string :=
  omap reset_epoch (k_jobs l) ++ omap welcome_epoch (k_down l) ++ awaited l.
(** The fragments of the pending revision that the edge acknowledged. *)
Definition acks (l : Link) : list Z :=
  omap (λ m, match m with
             | ChunkAck e r s => if bool_decide (e = k_epoch l ∧ r = k_pending l) then Some s else None
             | _ => None
             end) (k_up l).
Definition cache_empty (s : Store) : Prop := ∀ u, edge_view s u = empty_view.
Definition is_reset (j : job) : Prop := match j with ResetJob _ => True | _ => False end.

Section phases.
Context {codec : SnapshotCodec}.
Context (n : string).

Record common (l : Link) : Prop := mkCommon {
  cm_db : db_ok (k_db l);
  cm_closed : edge_closed (k_store l);
  cm_order : 0 ≤ k_applied l ≤ k_pending l ∧ k_pending l ≤ d_sequence (k_db l);
  cm_none : k_snapshot l = None → k_pending l = k_applied l;
  cm_some : ∀ p, k_snapshot l = Some p → Revision p = k_pending l ∧ k_applied l < k_pending l;
  cm_blank : ""%string ∈ k_tokens l;
  cm_tokens : k_epoch l ∈ k_tokens l ∧ k_edge_epoch l ∈ k_tokens l;
  cm_up : ∀ m, m ∈ ups l → up_epoch m ∈ k_tokens l;
  cm_queue : ∀ e r s, ChunkAck e r s ∉ k_queue l;
  cm_announced : ∀ e, e ∈ announced l → e ∈ k_tokens l;
  cm_protocol : k_edge_epoch l ≠ ""%string → k_protocol l = 3;
  cm_early : k_stage l = AwaitHello ∨ k_stage l = AwaitEpoch → k_epoch l = ""%string;
  cm_stage : k_stage l ≠ Streaming → k_ready l = false }.

(** No message of the edge acknowledges data of the current epoch. *)
Definition no_acks (l : Link) : Prop :=
  ∀ m, m ∈ ups l → up_epoch m = k_epoch l → m = Cleared (k_epoch l).
Definition confirmed_first (l : Link) (cs : list down_msg) : Prop :=
  cs = [] ∨ ∃ revision complete, cs = [Confirmed (k_epoch l) revision complete] ∧ (complete = true → k_baseline l = false).

(** Before the first epoch. *)
Record fresh (l : Link) : Prop := mkFresh {
  fr_stage : k_stage l = AwaitHello ∨ k_stage l = AwaitEpoch;
  fr_epoch : k_epoch l = ""%string;
  fr_ready : k_ready l = false;
  fr_snapshot : k_snapshot l = None;
  fr_down : k_down l = [];
  fr_ups : ups l = [];
  fr_jobs : k_jobs l = [];
  fr_committed : k_committed l = false;
  fr_buffer : k_buffer l = [];
  fr_sync : k_sync l = false }.

(** A reset was requested and the edge has not seen it: it still serves the
    previous epoch. *)
Record requested (l : Link) : Prop := mkRequested {
  rq_epoch : k_epoch l ≠ ""%string;
  rq_edge : k_edge_epoch l ≠ ""%string;
  rq_ready : k_ready l = false;
  rq_snapshot : k_snapshot l = None;
  rq_down : ∃ fs ws, k_down l = fs ++ (Welcome <$> ws) ∧ (fs = [] ∨ ∃ e r b, fs = [Confirmed e r b]);
  rq_jobs : k_jobs l = [];
  rq_committed : k_committed l = false;
  rq_buffer : k_stopped l = false → k_buffer l = [];
  rq_settled : settled (k_db l) n false (k_cursor l) (k_store l);
  rq_acks : no_acks l;
  rq_cleared : Cleared (k_epoch l) ∉ ups l;
  rq_nodup : NoDup (announced l);
  rq_disjoint : ∀ e, Cleared e ∈ ups l → e ∉ announced l }.

(** The edge is discarding its cache. *)
Record resetting (l : Link) : Prop := mkResetting {
  rs_epoch : k_epoch l ≠ ""%string;
  rs_ready : k_ready l = false;
  rs_snapshot : k_snapshot l = None;
  rs_down : ∃ ws, k_down l = Welcome <$> ws;
  rs_jobs : Forall is_reset (k_jobs l);
  rs_committed : k_committed l = true → k_jobs l ≠ [];
  rs_buffer : k_stopped l = false → k_buffer l = [];
  rs_sync : k_sync l = false;
  rs_acks : no_acks l;
  rs_empty : Cleared (k_epoch l) ∈ ups l ∨ (k_committed l = true ∧ head (k_jobs l) = Some (ResetJob (k_epoch l))) →
    cache_empty (k_store l);
  rs_last : k_stopped l = false → k_jobs l ≠ [] → last (k_jobs l) = Some (ResetJob (k_edge_epoch l));
  rs_nodup : NoDup (announced l);
  rs_disjoint : ∀ e, Cleared e ∈ ups l → e ∉ announced l }.

(** Two resets overtook each other: the edge ends in another epoch and refuses the
    transfer. *)
Record crossed (l : Link) : Prop := mkCrossed {
  cr_ready : k_ready l = true;
  cr_baseline : k_baseline l = true;
  cr_down : ∃ ws cs, k_down l = (Welcome <$> ws) ++ cs ∧
    (k_stopped l = true ∨ last (k_edge_epoch l :: ws) ≠ Some (k_epoch l)) ∧
    (cs = [] ∨ k_snapshot l ≠ None ∧ ∃ r s c, cs = [Chunk (k_epoch l) r s c]);
  cr_jobs : Forall is_reset (k_jobs l);
  cr_buffer : k_stopped l = false → k_buffer l = [];
  cr_sync : k_sync l = false;
  cr_acks : no_acks l }.

(** Both sides agree and nothing is under way. *)
Record idle (l : Link) : Prop := mkIdle {
  id_ready : k_ready l = true;
  id_snapshot : k_snapshot l = None;
  id_epoch : k_edge_epoch l = k_epoch l ∧ k_epoch l ≠ ""%string;
  id_down : confirmed_first l (k_down l);
  id_jobs : k_jobs l = [];
  id_committed : k_committed l = false;
  id_buffer : k_stopped l = false → k_buffer l = [];
  id_settled : settled (k_db l) n (k_baseline l) (k_cursor l) (k_store l);
  id_sync : k_sync l = true → k_baseline l = false;
  id_acks : ∀ r s, ChunkAck (k_epoch l) r s ∈ ups l → r ≤ k_applied l;
  id_identity : ∀ r, IdentityAck (k_epoch l) r ∈ ups l → r ≤ k_applied l }.

(** A snapshot is being transferred. *)
Record transfer (l : Link) (p : IdentitySnapshot) : Prop := mkTransfer {
  tr_ready : k_ready l = true;
  tr_snapshot : k_snapshot l = Some p;
  tr_epoch : k_edge_epoch l = k_epoch l ∧ k_epoch l ≠ ""%string;
  tr_payload : k_payload l = Marshal p ∧ k_total l = chunk_count (Marshal p);
  tr_carried : carried (k_db l) n (k_baseline l) (k_cursor l) (k_last l) p;
  tr_acks : ∀ r s, ChunkAck (k_epoch l) r s ∈ ups l → r ≤ k_applied l ∨ r = k_pending l;
  tr_identity : ∀ r, IdentityAck (k_epoch l) r ∈ ups l → r ≤ k_applied l ∨ r = k_pending l }.
Definition unacknowledged (l : Link) : Prop := IdentityAck (k_epoch l) (k_pending l) ∉ ups l.
(** What the edge has received of it. *)
Definition assembled (l : Link) (k : Z) : Prop :=
  k_stopped l = false →
  k_buffer l = sent_prefix (k_payload l) k ∧
  (0 < k → k_revision l = k_pending l ∧ k_edge_index l = k ∧ k_edge_total l = k_total l).

(** The next fragment is under way, or could not be sent. *)
Record flying (l : Link) : Prop := mkFlying {
  fl_index : 0 ≤ k_index l < k_total l;
  fl_acks : acks l = [];
  fl_unacked : unacknowledged l;
  fl_jobs : k_jobs l = [];
  fl_committed : k_committed l = false;
  fl_settled : settled (k_db l) n (k_baseline l) (k_cursor l) (k_store l);
  fl_down : ∃ fs cs, k_down l = fs ++ cs ∧ confirmed_first l fs ∧ (fs = [] ∨ k_index l = 0) ∧
    (cs = [] ∨ ∃ data, chunk_data (k_payload l) (k_index l) = Some data ∧
       cs = [Chunk (k_epoch l) (k_pending l) (k_index l) (mkChunk (k_index l) (k_total l) data)]);
  fl_assembled : assembled l (k_index l);
  fl_sync : k_sync l = true → k_baseline l = false ∧ k_index l = 0 }.
(** The edge has the fragment and its acknowledgement is under way. *)
Record landed (l : Link) : Prop := mkLanded {
  la_index : 0 ≤ k_index l ∧ k_index l + 1 < k_total l;
  la_acks : acks l = [k_index l];
  la_unacked : unacknowledged l;
  la_jobs : k_jobs l = [];
  la_committed : k_committed l = false;
  la_settled : settled (k_db l) n (k_baseline l) (k_cursor l) (k_store l);
  la_down : k_down l = [];
  la_assembled : assembled l (k_index l + 1);
  la_sync : k_sync l = false }.
(** The edge has the whole snapshot. *)
Record delivered (l : Link) (p : IdentitySnapshot) : Prop := mkDelivered {
  de_index : 0 ≤ k_index l;
  de_acks : (acks l = [k_index l] ∧ k_index l + 1 = k_total l) ∨ (acks l = [] ∧ k_index l = k_total l);
  de_down : k_down l = [];
  de_buffer : k_stopped l = false → k_buffer l = [];
  de_sync : k_sync l = false;
  de_jobs : (k_jobs l = [SnapshotJob (k_epoch l) (k_pending l) (k_payload l)] ∧ unacknowledged l ∧
             if k_committed l then absorbed (k_db l) n (k_baseline l) (k_cursor l) p (k_store l)
             else settled (k_db l) n (k_baseline l) (k_cursor l) (k_store l)) ∨
            (k_jobs l = [] ∧ k_committed l = false ∧
             (unacknowledged l ∨ absorbed (k_db l) n (k_baseline l) (k_cursor l) p (k_store l))) }.

Definition phase (l : Link) : Prop :=
  common l ∧
  (fresh l ∨ requested l ∨ resetting l ∨ crossed l ∨ idle l ∨
   ∃ p, transfer l p ∧ (flying l ∨ landed l ∨ delivered l p)).

#[local] Arguments ups : simpl never.
#[local] Arguments acks : simpl never.
#[local] Arguments announced : simpl never.
#[local] Arguments no_acks : simpl never.
#[local] Arguments confirmed_first : simpl never.
#[local] Arguments unacknowledged : simpl never.
#[local] Arguments assembled : simpl never.

(** ** What a phase guarantees *)

Lemma settled_synced d cursor s u : settled d n false cursor s → synced d n (edge_view s u) u.
Proof. intros [_ H]. apply H. Qed.

(** While the edge reports itself synchronized, every user is cached as the
    database wants them, or is pending. *)
Lemma phase_synced l u : phase l → k_sync l = true → synced (k_db l) n (edge_view (k_store l) u) u.
Proof.
  intros [_ Hph] Hs. destruct Hph as [H|[H|[H|[H|[H|(p & _ & [H|[H|H]])]]]]].
  - destruct H. congruence.
  - eapply settled_synced, rq_settled, H.
  - destruct H. congruence.
  - destruct H. congruence.
  - destruct H as [_ _ _ _ _ _ _ Hset Hb]. rewrite (Hb Hs) in Hset. by eapply settled_synced.
  - destruct H as [_ _ _ _ _ Hset _ _ Hb]. destruct (Hb Hs) as [Hb' _]. rewrite Hb' in Hset. by eapply settled_synced.
  - destruct H. congruence.
  - destruct H. congruence.
Qed.

(** ** Steps of the environment *)

(** Splits a goal [phase l'] for an update that keeps the phase: the common part,
    five phases, and the two parts of each phase of a transfer. *)
Ltac phases H :=
  destruct H as [Hc H]; split;
  [|destruct H as [H|[H|[H|[H|[H|(p & Ht & [H|[H|H]])]]]]];
    [left|right; left|right; right; left|right; right; right; left|right; right; right; right; left|
     do 5 right; exists p; split; [clear H|left]|
     do 5 right; exists p; split; [clear H|right; left]|
     do 5 right; exists p; split; [clear H|right; right]]].
(** Closes the goals whose record is unchanged up to computation. *)
Ltac keep :=
  match goal with
  | H : common _ |- common _ => destruct H
  | H : fresh _ |- fresh _ => destruct H
  | H : requested _ |- requested _ => destruct H
  | H : resetting _ |- resetting _ => destruct H
  | H : crossed _ |- crossed _ => destruct H
  | H : idle _ |- idle _ => destruct H
  | H : transfer _ _ |- transfer _ _ => destruct H
  | H : flying _ |- flying _ => destruct H
  | H : landed _ |- landed _ => destruct H
  | H : delivered _ _ |- delivered _ _ => destruct H
  end; constructor; cbn; try assumption.

Lemma phase_tokens l t : phase l → phase (l <| k_tokens := k_tokens l ∪ t |>).
Proof.
  intros H. phases H; try solve [keep].
  keep; set_solver.
Qed.

(** Changes of the database that keep the rows of the node dirty. *)
Lemma phase_db l d' : phase l → db_ok d' → evolves n (k_db l) d' → phase (l <| k_db := d' |>).
Proof.
  intros H Hok Hev. pose proof (cm_db _ (proj1 H)) as Hok0. pose proof (ev_sequence _ _ _ Hev).
  phases H; try solve [keep].
  - keep; lia.
  - keep; by eapply settled_evolves.
  - keep; by eapply settled_evolves.
  - keep; by eapply carried_evolves.
  - keep; by eapply settled_evolves.
  - keep; by eapply carried_evolves.
  - keep; by eapply settled_evolves.
  - keep; by eapply carried_evolves.
  - keep.
    destruct de_jobs0 as [(Hj & Hu & Hs)|(Hj & Hcm & Hs)]; [left|right]; (split; [done|]); (split; [done|]).
    + destruct (k_committed l); [by eapply absorbed_evolves|by eapply settled_evolves].
    + destruct Hs as [Hs|Hs]; [by left|right; by eapply absorbed_evolves].
Qed.

(** Changes of the edge's store that keep its cache. *)
Definition same_cache (s s' : Store) : Prop := (edge_closed s → edge_closed s') ∧ ∀ u, edge_view s' u = edge_view s u.

Lemma settled_same d baseline cursor s s' : same_cache s s' → settled d n baseline cursor s → settled d n baseline cursor s'.
Proof. intros [Hcl Hv] [Hc H]. split; [auto|]. intros u. rewrite Hv. apply H. Qed.
Lemma absorbed_same d baseline cursor p s s' :
  same_cache s s' → absorbed d n baseline cursor p s → absorbed d n baseline cursor p s'.
Proof. intros [Hcl Hv] [Hc H]. split; [auto|]. intros u. rewrite Hv. apply H. Qed.

Lemma phase_store l s' : phase l → same_cache (k_store l) s' → phase (l <| k_store := s' |>).
Proof.
  intros H Hs. phases H; try solve [keep].
  - keep. by apply Hs.
  - keep; by eapply settled_same.
  - keep. intros Hx u. rewrite (proj2 Hs). by apply rs_empty0.
  - keep; by eapply settled_same.
  - keep; by eapply settled_same.
  - keep; by eapply settled_same.
  - keep.
    destruct de_jobs0 as [(Hj & Hu & Hx)|(Hj & Hcm & Hx)]; [left|right]; (split; [done|]); (split; [done|]).
    + destruct (k_committed l); [by eapply absorbed_same|by eapply settled_same].
    + destruct Hx as [Hx|Hx]; [by left|right; by eapply absorbed_same].
Qed.

(** Messages of the edge that are lost, moved to the worker or ignored. *)
Lemma phase_ups l up queue :
  phase l → (∀ m, m ∈ queue ++ up → m ∈ ups l) → (∀ e r s, ChunkAck e r s ∉ queue) →
  (k_snapshot l ≠ None → acks (l <| k_up := up |>) = acks l) → phase (l <| k_up := up |> <| k_queue := queue |>).
Proof.
  intros H Hsub Hq Hacks.
  assert (Hups : ∀ m, m ∈ ups (l <| k_up := up |> <| k_queue := queue |>) → m ∈ ups l) by done.
  assert (Hun : unacknowledged l → unacknowledged (l <| k_up := up |> <| k_queue := queue |>))
    by (intros Hu Hx; apply Hu, Hsub, Hx).
  assert (Hna : no_acks l → no_acks (l <| k_up := up |> <| k_queue := queue |>)) by (intros Ha m Hm; apply Ha, Hsub, Hm).
  assert (Hacks' : ∀ p, transfer l p → acks (l <| k_up := up |> <| k_queue := queue |>) = acks l)
    by (intros p Ht; apply Hacks; destruct Ht; congruence).
  phases H; try solve [keep]; keep; eauto.
  - apply elem_of_nil_inv. intros m Hm. apply Hups in Hm. rewrite fr_ups0 in Hm. by apply not_elem_of_nil in Hm.
  - naive_solver.
  - by rewrite (Hacks' p).
  - by rewrite (Hacks' p).
  - by rewrite (Hacks' p).
  - destruct de_jobs0 as [(Hj & Hu & Hs)|(Hj & Hcm & Hs)]; [left|right]; naive_solver.
Qed.

(** ** Steps of the controller *)

Lemma phase_hello l : phase l → k_stage l = AwaitHello → phase (l <| k_stage := AwaitEpoch |>).
Proof.
  intros H Hst. pose proof (cm_stage _ (proj1 H)) as Hnr. rewrite Hst in Hnr.
  assert (Han : announced (l <| k_stage := AwaitEpoch |>) = announced l) by (unfold announced, awaited; by rewrite Hst).
  phases H; try solve [keep]; keep; rewrite ?Han; auto.
Qed.

Lemma phase_stream l id : phase l → k_stage l = AwaitSync id → phase (l <| k_stage := Streaming |>).
Proof.
  intros H Hst. assert (Han : announced (l <| k_stage := Streaming |>) = announced l) by (unfold announced, awaited; by rewrite Hst).
  phases H; try solve [keep]; keep; rewrite ?Han; auto; try done; [by intros [?|?]|destruct fr_stage0; congruence].
Qed.

(** Before the first epoch is announced. *)
Lemma phase_early l : phase l → k_stage l = AwaitEpoch → fresh l.
Proof.
  intros [Hc H] Hst. pose proof (cm_stage _ Hc) as Hnr. rewrite Hst in Hnr. specialize (Hnr ltac:(done)).
  pose proof (cm_early _ Hc (or_intror Hst)) as He.
  destruct H as [H|[H|[H|[H|[H|(p & Ht & H)]]]]]; [done|destruct H; congruence..|destruct Ht; congruence].
Qed.

Lemma phase_open l id :
  phase l → k_stage l = AwaitEpoch → id ∉ k_tokens l →
  phase (l <| k_stage := AwaitWelcome id |> <| k_epoch := id |> <| k_tokens := k_tokens l ∪ {[id]} |>).
Proof.
  intros H Hst Hid. pose proof (phase_early l H Hst) as Hf. destruct H as [Hc _]. destruct Hf.
  assert (Hne : id ≠ ""%string) by (intros ->; apply Hid, Hc).
  assert (Han : announced (l <| k_stage := AwaitWelcome id |> <| k_epoch := id |> <| k_tokens := k_tokens l ∪ {[id]} |>) = [id])
    by (unfold announced, awaited; cbn; by rewrite fr_jobs0, fr_down0).
  assert (Hups : ups (l <| k_stage := AwaitWelcome id |> <| k_epoch := id |> <| k_tokens := k_tokens l ∪ {[id]} |>) = []) by done.
  split; [|right; right; left].
  - keep.
    + set_solver.
    + set_solver.
    + rewrite Hups. set_solver.
    + rewrite Han. set_solver.
    + by intros [?|?].
    + done.
  - constructor; cbn; rewrite ?fr_jobs0, ?Hups, ?Han; try done.
    + exists []. by rewrite fr_down0.
    + by rewrite fr_committed0.
    + intros m. rewrite Hups. intros Hm. by apply not_elem_of_nil in Hm.
    + intros [Hm|[Hx _]]; [by apply not_elem_of_nil in Hm|congruence].
    + apply NoDup_singleton.
    + intros e Hm. by apply not_elem_of_nil in Hm.
Qed.

(** Its announcement. *)
Lemma omap_welcomes (ws : list string) : omap welcome_epoch (Welcome <$> ws) = ws.
Proof. induction ws as [|w ws IH]; [done|]. cbn. by rewrite IH. Qed.

Lemma phase_welcome l id :
  phase l → k_stage l = AwaitWelcome id →
  phase (l <| k_stage := AwaitSync id |> <| k_down := k_down l ++ [Welcome id] |>).
Proof.
  intros H Hst.
  assert (Han : announced (l <| k_stage := AwaitSync id |> <| k_down := k_down l ++ [Welcome id] |>) = announced l).
  { unfold announced, awaited. cbn. rewrite Hst, omap_app. cbn. by rewrite app_nil_r. }
  pose proof (cm_stage _ (proj1 H)) as Hnr. rewrite Hst in Hnr. specialize (Hnr ltac:(done)).
  phases H; try solve [keep].
  - keep; rewrite ?Han; auto. by intros [?|?].
  - destruct H. destruct fr_stage0; congruence.
  - keep; rewrite ?Han; auto. destruct rq_down0 as (fs & ws & -> & Hfs). exists fs, (ws ++ [id]).
    by rewrite fmap_app, <- app_assoc.
  - keep; rewrite ?Han; auto. destruct rs_down0 as [ws ->]. exists (ws ++ [id]). by rewrite fmap_app.
  - destruct H; congruence.
  - destruct H; congruence.
  - destruct Ht; congruence.
  - destruct Ht; congruence.
  - destruct Ht; congruence.
Qed.

Lemma ready_awaited l : common l → k_ready l = true → awaited l = [].
Proof.
  intros Hc Hr. unfold awaited. pose proof (cm_stage _ Hc) as Hst. destruct (k_stage l); try done.
  specialize (Hst ltac:(done)). congruence.
Qed.
Lemma idle_announced l : common l → idle l → announced l = [].
Proof.
  intros Hc H. destruct H. unfold announced. rewrite ready_awaited, id_jobs0 by done.
  by destruct id_down0 as [->|(r & b & -> & _)].
Qed.

(** A new epoch is requested; the message may not fit in the queue. *)
Lemma phase_request l id (sent : bool) :
  phase l → k_epoch l ≠ ""%string → k_pending l ≤ k_applied l → id ∉ k_tokens l → k_ready l = false ∨ k_baseline l = false →
  phase (l <| k_epoch := id |> <| k_ready := false |> <| k_down := k_down l ++ (if sent then [Welcome id] else []) |>
           <| k_tokens := k_tokens l ∪ {[id]} |>).
Proof.
  intros [Hc H] Hep Hpend Hid Hor. set (l' := l <| k_epoch := id |> <| k_ready := false |> <| k_down := _ |> <| k_tokens := _ |>).
  assert (Hnone : k_snapshot l = None).
  { destruct (k_snapshot l) as [p|] eqn:Hs; [|done]. apply (cm_some _ Hc) in Hs. lia. }
  assert (Hne : id ≠ ""%string) by (intros ->; apply Hid, Hc).
  assert (Hups : ∀ m, m ∈ ups l' → up_epoch m ≠ id).
  { intros m Hm <-. by apply Hid, (cm_up _ Hc). }
  assert (Hann : ∀ e, e ∈ announced l' → e ∈ announced l ∨ e = id).
  { intros e. unfold announced, l'. cbn. rewrite omap_app, !elem_of_app. destruct sent; cbn; set_solver. }
  assert (Hnd : NoDup (announced l) → NoDup (announced l')).
  { unfold announced, l', awaited. cbn. rewrite omap_app. intros Hnd. destruct sent; cbn; [|by rewrite app_nil_r].
    assert (Hin : id ∉ announced l) by (intros Hin; by apply Hid, (cm_announced _ Hc)).
    assert (Hperm : omap reset_epoch (k_jobs l) ++ (omap welcome_epoch (k_down l) ++ [id]) ++ awaited l ≡ₚ id :: announced l)
      by (unfold announced; solve_Permutation).
    unfold awaited in Hperm at 1. rewrite Hperm. by apply NoDup_cons_2. }
  assert (Hdis : (∀ e, Cleared e ∈ ups l → e ∉ announced l) → ∀ e, Cleared e ∈ ups l' → e ∉ announced l').
  { intros Hd e He [Ha| ->]%Hann; [by apply (Hd e)|]. by apply Hups in He. }
  assert (Hna : no_acks l') by (intros m Hm He; by apply Hups in Hm).
  split.
  - keep.
    + set_solver.
    + set_solver.
    + intros m Hm. apply elem_of_union_l. by apply cm_up0.
    + intros e [He| ->]%Hann; set_solver.
    + intros Hs. by apply cm_early0 in Hs.
    + done.
  - destruct H as [H|[H|[H|[H|[H|(p & Ht & H)]]]]].
    + destruct H. congruence.
    + right; left. keep; try done; auto.
      * destruct rq_down0 as (fs & ws & -> & Hfs). exists fs, (ws ++ if sent then [id] else []).
        split; [|done]. rewrite fmap_app, <- app_assoc. by destruct sent.
      * intros Hx. by apply Hups in Hx.
    + right; right; left. keep; try done; auto.
      * destruct rs_down0 as [ws ->]. exists (ws ++ if sent then [id] else []). rewrite fmap_app. by destruct sent.
      * intros [Hx|[_ Hx]]; [by apply Hups in Hx|]. destruct Hid. apply (cm_announced _ Hc). unfold announced.
        destruct (k_jobs l) as [|j js]; [done|]. injection Hx as ->. cbn. left.
    + destruct H. destruct Hor; congruence.
    + assert (Hnil := idle_announced l Hc H).
      right; left. destruct Hor as [Hr|Hb]; [destruct H; congruence|]. destruct H. rewrite Hb in *. constructor; cbn; try done.
      * by destruct id_epoch0 as [-> _].
      * destruct id_down0 as [->|(r & b & -> & _)].
        -- exists [], (if sent then [id] else []). split; [by destruct sent|by left].
        -- eexists [_], (if sent then [id] else []). split; [by destruct sent|right; eauto].
      * intros Hx. by apply Hups in Hx.
      * apply Hnd. rewrite Hnil. by apply NoDup_nil.
      * apply Hdis. rewrite Hnil. intros e _ He. by apply not_elem_of_nil in He.
    + destruct Ht. congruence.
Qed.

(** The controller learns that the edge discarded its cache. *)
Lemma phase_cleared l b :
  phase l → k_stage l = Streaming → k_ready l = false → Cleared (k_epoch l) ∈ ups l →
  phase (l <| k_ready := true |> <| k_baseline := true |> <| k_cursor := 0 |> <| k_pending := 0 |> <| k_applied := 0 |>
           <| k_snapshot := None |> <| k_db := ResetNodeIdentityCache (k_db l) n (k_epoch l) b |>).
Proof.
  intros [Hc H] Hst Hnr Hcl. set (d' := ResetNodeIdentityCache _ _ _ _).
  set (l' := l <| k_ready := true |> <| k_baseline := true |> <| k_cursor := 0 |> <| k_pending := 0 |> <| k_applied := 0 |>
               <| k_snapshot := None |> <| k_db := d' |>).
  assert (Hrs : resetting l).
  { destruct H as [H|[H|[H|[H|[H|(p & Ht & H)]]]]]; [|by destruct H|done|destruct H; congruence..|destruct Ht; congruence].
    destruct H. rewrite fr_ups0 in Hcl. by apply not_elem_of_nil in Hcl. }
  assert (Hc' : common l').
  { destruct Hc. constructor; cbn; try done.
    - by apply reset_ok.
    - pose proof (ok_sequence _ cm_db0). lia. }
  split; [done|]. destruct Hrs. destruct rs_down0 as [ws Hws].
  assert (Hwelc : omap welcome_epoch (k_down l) = ws) by (rewrite Hws; apply omap_welcomes).
  destruct (decide (k_stopped l = false ∧ last (k_edge_epoch l :: ws) = Some (k_epoch l))) as [[Hns Hlast]|Hbad].
  - do 4 right. left. specialize (rs_disjoint0 _ Hcl). unfold announced in rs_disjoint0. rewrite Hwelc in rs_disjoint0.
    assert (Hwsnil : ws = []).
    { destruct ws as [|w ws _] using rev_ind; [done|]. rewrite app_comm_cons, last_snoc in Hlast. injection Hlast as ->.
      destruct rs_disjoint0. set_solver. }
    rewrite Hwsnil in Hlast, Hws. assert (Hee : k_edge_epoch l = k_epoch l) by (cbn in Hlast; congruence).
    assert (Hjobs : k_jobs l = []).
    { destruct (k_jobs l) as [|j js] eqn:Hj; [done|]. specialize (rs_last0 Hns ltac:(done)).
      destruct rs_disjoint0. apply elem_of_app. left. apply list_elem_of_omap.
      exists (ResetJob (k_edge_epoch l)). split; [by eapply last_Some_elem_of|by rewrite Hee]. }
    assert (Hcm : k_committed l = false) by (destruct (k_committed l); [by destruct rs_committed0|done]).
    constructor; cbn; try done.
    + rewrite Hws. by left.
    + apply settled_reset; [apply (cm_db _ Hc)|apply (cm_closed _ Hc)|]. apply rs_empty0. by left.
    + congruence.
    + intros r s Hx. specialize (rs_acks0 _ Hx eq_refl). done.
    + intros r Hx. specialize (rs_acks0 _ Hx eq_refl). done.
  - do 3 right. left. constructor; cbn; try done.
    exists ws, []. rewrite app_nil_r. split; [done|]. split; [|by left].
    destruct (k_stopped l); [by left|right]. intros Hx. by apply Hbad.
Qed.

Lemma acks_nil l : (∀ s, ChunkAck (k_epoch l) (k_pending l) s ∉ k_up l) → acks l = [].
Proof.
  intros H. apply elem_of_nil_inv. intros s (m & Hm & Hs)%list_elem_of_omap.
  destruct m as [e r s'| |]; [|done..]. case_bool_decide as Hb; [|done]. destruct Hb as [-> ->]. by apply (H s').
Qed.

(** A snapshot is prepared and its first fragment sent; the message may not fit
    in the queue. *)
Lemma phase_prepare l d' p last data (sent : bool) :
  phase l → k_ready l = true → k_pending l ≤ k_applied l → db_ok d' → evolves n (k_db l) d' →
  carried d' n (k_baseline l) (k_cursor l) last p → d_sequence (k_db l) < Revision p →
  chunk_data (Marshal p) 0 = Some data →
  phase (l <| k_db := d' |> <| k_last := last |> <| k_pending := Revision p |> <| k_snapshot := Some p |>
           <| k_payload := Marshal p |> <| k_index := 0 |> <| k_total := chunk_count (Marshal p) |>
           <| k_down := k_down l ++ (if sent then [Chunk (k_epoch l) (Revision p) 0 (mkChunk 0 (chunk_count (Marshal p)) data)] else []) |>).
Proof.
  intros [Hc H] Hr Hpend Hok Hev Hca Hrev Hdata. set (l' := l <| k_db := _ |> <| k_last := _ |> <| k_pending := _ |>
    <| k_snapshot := _ |> <| k_payload := _ |> <| k_index := _ |> <| k_total := _ |> <| k_down := _ |>).
  assert (Hnone : k_snapshot l = None).
  { destruct (k_snapshot l) as [q|] eqn:Hs; [|done]. apply (cm_some _ Hc) in Hs. lia. }
  pose proof (cm_order _ Hc) as Hord. pose proof (ca_revision _ _ _ _ _ _ Hca) as Hpr.
  assert (Han : announced l' = announced l).
  { unfold announced, l', awaited. cbn. rewrite omap_app. destruct sent; cbn; by rewrite ?app_nil_r. }
  split.
  - keep; try (cbn in *; lia); auto.
    + done.
    + intros q [= <-]. lia.
    + rewrite Han. done.
  - destruct H as [H|[H|[H|[H|[H|(q & Ht & H)]]]]]; [destruct H; congruence..| | |destruct Ht; congruence].
    + do 3 right. left. keep; auto. destruct cr_down0 as (ws & cs & Hd & Hl & Hcs).
      destruct Hcs as [->|[? _]]; [|done]. exists ws. eexists. rewrite Hd, app_nil_r. split; [done|]. split; [done|].
      destruct sent; [right|by left]. split; [done|]. eauto.
    + do 5 right. exists p. pose proof (chunk_count_pos _ (Marshal_nonempty p)) as Hpos. destruct H. split.
      * constructor; cbn; try done.
        -- intros r s Hx. left. by apply (id_acks0 r s).
        -- intros r Hx. left. by apply (id_identity0 r).
      * left. constructor; cbn; try done.
        -- apply acks_nil. cbn. intros s Hx. specialize (id_acks0 (Revision p) s). unfold ups in id_acks0.
           rewrite elem_of_app in id_acks0. specialize (id_acks0 (or_intror Hx)). lia.
        -- intros Hx. apply id_identity0 in Hx. cbn in Hx. lia.
        -- by eapply settled_evolves; [apply (cm_db _ Hc)| |].
        -- exists (k_down l). eexists. split; [done|]. split; [exact id_down0|]. split; [by right|].
           destruct sent; [right|by left]. eauto.
        -- intros Hs. cbn. rewrite sent_prefix_0. split; [by apply id_buffer0|lia].
        -- intros Hs. split; [by apply id_sync0|done].
Qed.

Lemma phase_last l last : phase l → k_snapshot l = None → phase (l <| k_last := last |>).
Proof. intros H Hn. phases H; try solve [keep]; destruct Ht; congruence. Qed.

(** An acknowledged fragment is the one that was sent last. *)
Lemma phase_ack_index l s rest :
  phase l → k_snapshot l ≠ None → k_up l = ChunkAck (k_epoch l) (k_pending l) s :: rest →
  s = k_index l ∧ acks (l <| k_up := rest |>) = [] ∧
  ∃ p, transfer l p ∧ (landed l ∨ delivered l p ∧ k_index l + 1 = k_total l).
Proof.
  intros [Hc H] Hs Hup.
  assert (Hin : ChunkAck (k_epoch l) (k_pending l) s ∈ ups l) by (unfold ups; rewrite Hup; set_solver).
  assert (Hacks : acks l = s :: acks (l <| k_up := rest |>)) by (unfold acks; rewrite Hup; cbn; by rewrite bool_decide_true).
  destruct H as [H|[H|[H|[H|[H|(p & Ht & H)]]]]]; [destruct H; congruence..| |destruct H; congruence|].
  - destruct H. specialize (cr_acks0 _ Hin eq_refl). done.
  - destruct H as [H|[H|H]].
    + destruct H. congruence.
    + assert (Hl := la_acks _ H). rewrite Hacks in Hl. injection Hl as -> Hn. eauto 10.
    + destruct (de_acks _ _ H) as [[Hl He]|[Hl _]]; rewrite Hacks in Hl; [|done]. injection Hl as -> Hn. eauto 10.
Qed.

Lemma phase_ack l s rest data (sent : bool) :
  phase l → k_snapshot l ≠ None → k_up l = ChunkAck (k_epoch l) (k_pending l) s :: rest →
  (k_index l + 1 < k_total l → chunk_data (k_payload l) (k_index l + 1) = Some data) →
  phase (l <| k_up := rest |> <| k_index := k_index l + 1 |>
           <| k_down := k_down l ++ (if bool_decide (k_index l + 1 < k_total l) && sent
                then [Chunk (k_epoch l) (k_pending l) (k_index l + 1) (mkChunk (k_index l + 1) (k_total l) data)] else []) |>).
Proof.
  intros Hph Hs Hup Hdata. destruct (phase_ack_index l s rest Hph Hs Hup) as (-> & Hacks & p & Ht & H).
  destruct Hph as [Hc _]. set (l' := l <| k_up := _ |> <| k_index := _ |> <| k_down := _ |>).
  assert (Hups : ∀ m, m ∈ ups l' → m ∈ ups l) by (intros m; unfold ups, l'; cbn; rewrite Hup; set_solver).
  assert (Han : announced l' = announced l).
  { unfold announced, l', awaited. cbn. rewrite omap_app. destruct (_ && sent); cbn; by rewrite ?app_nil_r. }
  split; [keep; eauto; by rewrite Han|]. do 5 right. exists p.
  split; [keep; eauto|]. destruct H as [H|[H He]].
  - left. destruct H. constructor; cbn; try assumption.
    + lia.
    + intros Hx. by apply la_unacked0, Hups.
    + exists []. eexists. rewrite la_down0. split; [done|]. split; [by left|]. split; [by left|].
      rewrite bool_decide_true by lia. destruct sent; [right|by left]. exists data. split; [apply Hdata; lia|done].
    + congruence.
  - right; right. keep; auto.
    + lia.
    + by rewrite bool_decide_false, app_nil_r by lia.
    + destruct de_jobs0 as [(Hj & Hu & Hx)|(Hj & Hcm & Hx)]; [left|right]; (split; [done|]); split; try done.
      * intros Hy. by apply Hu, Hups.
      * destruct Hx as [Hu|Hx]; [left|by right]. intros Hy. by apply Hu, Hups.
Qed.

(** The controller confirms the snapshot; the message may not fit in the queue. *)
Lemma phase_confirm l p now d' (sent : bool) :
  phase l → k_snapshot l = Some p → IdentityAck (k_epoch l) (Revision p) ∈ ups l →
  ConfirmNodeIdentityCache (k_db l) now n (k_epoch l) (Revision p) (su_ID <$> Users p) (RemovedUserIDs p)
    (negb (Incremental p) && negb (Baseline p)) = inr d' →
  phase (l <| k_db := d' |> <| k_applied := Revision p |> <| k_snapshot := None |> <| k_payload := [] |>
           <| k_cursor := if Baseline p then k_last l else k_cursor l |>
           <| k_baseline := if Baseline p then negb (BaselineEnd p) else k_baseline l |>
           <| k_down := k_down l ++ (if sent then [Confirmed (k_epoch l) (Revision p) (negb (Baseline p) || BaselineEnd p)] else []) |>).
Proof.
  intros [Hc H] Hsn Hack Hcf. destruct (cm_some _ Hc p Hsn) as [Hrev Hlt].
  assert (Ht : transfer l p ∧ delivered l p ∧ k_jobs l = [] ∧ k_committed l = false ∧
    absorbed (k_db l) n (k_baseline l) (k_cursor l) p (k_store l)).
  { rewrite Hrev in Hack. destruct H as [H|[H|[H|[H|[H|(q & Ht & H)]]]]]; [destruct H; congruence..| |destruct H; congruence|].
    - destruct H. specialize (cr_acks0 _ Hack eq_refl). done.
    - assert (q = p) as -> by (destruct Ht; congruence). destruct H as [H|[H|H]]; [by destruct H|by destruct H|].
      destruct (de_jobs _ _ H) as [(_ & Hu & _)|(Hj & Hcm & [Hu|Hab])]; by auto 10. }
  clear H. destruct Ht as (Ht & H & Hj & Hcm & Hab). destruct Ht, H.
  assert (Hb := ca_baseline _ _ _ _ _ _ tr_carried0). assert (Hi := ca_incremental _ _ _ _ _ _ tr_carried0).
  assert (Hcf' : ConfirmNodeIdentityCache (k_db l) now n (k_epoch l) (Revision p) (su_ID <$> Users p) (RemovedUserIDs p) false = inr d')
    by (revert Hcf; rewrite Hb, Hi; by destruct (k_baseline l)).
  assert (Hset := absorbed_confirm _ _ _ _ _ _ _ _ _ _ (cm_db _ Hc) Hab tr_carried0 Hcf').
  pose proof (cm_order _ Hc) as Hord.
  assert (Hseq : d_sequence d' = d_sequence (k_db l)).
  { apply confirm_page_inv in Hcf' as (_ & -> & _); [done|apply Hc|apply (ca_removed _ _ _ _ _ _ tr_carried0)]. }
  set (l' := l <| k_db := _ |> <| k_applied := _ |> <| k_snapshot := _ |> <| k_payload := _ |> <| k_cursor := _ |>
    <| k_baseline := _ |> <| k_down := _ |>).
  assert (Han : announced l' = announced l).
  { unfold announced, l', awaited. cbn. rewrite omap_app. destruct sent; cbn; by rewrite ?app_nil_r. }
  assert (Hbl : (if Baseline p then negb (BaselineEnd p) else k_baseline l) = k_baseline l && negb (BaselineEnd p)).
  { rewrite Hb. by destruct (k_baseline l). }
  split.
  - keep; try done; [|lia|by rewrite Han].
    eapply confirm_ok; [done| |exact Hcf]. lia.
  - do 4 right. left. constructor; cbn; try done.
    + rewrite de_down0. destruct sent; [right|by left]. do 2 eexists. split; [done|]. rewrite Hb. cbn. rewrite Hb.
      by destruct (k_baseline l), (BaselineEnd p).
    + rewrite Hbl. revert Hset. rewrite Hb. by destruct (k_baseline l).
    + congruence.
    + intros r s Hx. apply tr_acks0 in Hx. cbn. lia.
    + intros r Hx. apply tr_identity0 in Hx. cbn. lia.
Qed.

(** ** Steps of the edge's receive loop *)

Lemma nodup_sublist {A} (xs ys : list A) : xs `sublist_of` ys → NoDup ys → NoDup xs.
Proof. intros Hs Hn. by eapply sublist_NoDup. Qed.

(** The loop returns after taking a message; what it has assembled no longer
    matters. *)
Lemma phase_stop l m rest buffer r i t (keep_sync : bool) :
  phase l → k_down l = m :: rest →
  phase (l <| k_down := rest |> <| k_stopped := true |> <| k_buffer := buffer |> <| k_revision := r |>
           <| k_edge_index := i |> <| k_edge_total := t |> <| k_sync := k_sync l && keep_sync |>).
Proof.
  intros H Hd. set (l' := l <| k_down := _ |> <| k_stopped := _ |> <| k_buffer := _ |> <| k_revision := _ |>
    <| k_edge_index := _ |> <| k_edge_total := _ |> <| k_sync := _ |>).
  assert (Hsub : announced l' `sublist_of` announced l).
  { unfold announced, l', awaited. cbn. rewrite Hd. apply sublist_app; [done|]. apply sublist_app; [|done].
    cbn. destruct (welcome_epoch m); [by apply sublist_cons|done]. }
  assert (Hann : ∀ e, e ∈ announced l' → e ∈ announced l) by (intros e He; by eapply elem_of_sublist).
  assert (Hnd := nodup_sublist _ _ Hsub).
  assert (Hdis : (∀ x, Cleared x ∈ ups l → x ∉ announced l) → ∀ x, Cleared x ∈ ups l' → x ∉ announced l')
    by (intros Hx x Hcl Ha; by apply (Hx x Hcl), Hann).
  assert (Hsy : k_sync l' = true → k_sync l = true) by (unfold l'; cbn; by destruct (k_sync l)).
  phases H.
  - keep; eauto.
  - destruct H. congruence.
  - keep; eauto; try done. destruct rq_down0 as (fs & ws & Hfw & Hfs). rewrite Hd in Hfw.
    destruct Hfs as [->|(e & r' & b & ->)].
    + destruct ws as [|w ws]; [done|]. injection Hfw as _ ->. exists [], ws. split; [done|by left].
    + injection Hfw as _ ->. exists [], ws. split; [done|by left].
  - keep; eauto; try done.
    + destruct rs_down0 as [ws Hws]. rewrite Hd in Hws. destruct ws as [|w ws]; [done|]. injection Hws as _ ->. by exists ws.
    + by rewrite rs_sync0.
  - keep; eauto; try done.
    + destruct cr_down0 as (ws & cs & Hwc & _ & Hcs). rewrite Hd in Hwc.
      destruct ws as [|w ws]; cbn in Hwc.
      * destruct Hcs as [->|(_ & r' & s & c & ->)]; [done|]. injection Hwc as _ ->. exists [], []. split; [done|]. auto.
      * injection Hwc as _ ->. exists ws, cs. auto.
    + by rewrite cr_sync0.
  - keep; eauto; try done.
    destruct id_down0 as [Hx|(r' & b & Hx & _)]; rewrite Hd in Hx; [done|]. injection Hx as _ ->. by left.
  - keep; eauto.
  - keep; eauto; try done. destruct fl_down0 as (fs & cs & Hfc & Hf & Hi & Hcs). rewrite Hd in Hfc.
    destruct Hf as [->|(r' & b & -> & Hb)].
    + destruct Hcs as [->|(data & _ & ->)]; [done|]. injection Hfc as _ ->. exists [], []. split; [done|]. split; [by left|]. auto.
    + injection Hfc as _ ->. exists [], cs. split; [done|]. split; [by left|]. auto.
  - keep; eauto.
  - destruct H. congruence.
  - keep; eauto.
  - destruct H. congruence.
Qed.

(** The loop returns for a message that does not concern the synchronization. *)
Lemma phase_halt l : phase l → phase (l <| k_stopped := true |>).
Proof.
  intros H. phases H; try solve [keep; try done].
  keep; try done. destruct cr_down0 as (ws & cs & Hw & _ & Hcs). exists ws, cs. auto.
Qed.

(** The edge no longer reports itself synchronized. *)
Lemma phase_unsync l (b : bool) : phase l → phase (l <| k_sync := k_sync l && b |>).
Proof.
  intros H. destruct b; [|rewrite andb_false_r; phases H; solve [keep; try done]].
  rewrite andb_true_r. by destruct l.
Qed.

(** A welcome: the edge moves to the new epoch and queues the reset, unless the
    worker's channel is full. *)
Lemma phase_recv_welcome l e rest (queued : bool) :
  phase l → k_stopped l = false → k_down l = Welcome e :: rest →
  phase (l <| k_down := rest |> <| k_edge_epoch := e |> <| k_protocol := 3 |> <| k_buffer := [] |> <| k_sync := false |>
           <| k_jobs := k_jobs l ++ (if queued then [ResetJob e] else []) |> <| k_stopped := negb queued |>).
Proof.
  intros H Hns Hd. set (l' := l <| k_down := _ |> <| k_edge_epoch := _ |> <| k_protocol := _ |> <| k_buffer := _ |>
    <| k_sync := _ |> <| k_jobs := _ |> <| k_stopped := _ |>).
  assert (Hsub : announced l' `sublist_of` announced l).
  { unfold announced, l', awaited. cbn. rewrite Hd, omap_app, <- app_assoc. apply sublist_app; [done|].
    destruct queued; cbn; [done|by apply sublist_cons]. }
  assert (Hann : ∀ x, x ∈ announced l' → x ∈ announced l) by (intros x Hx; by eapply elem_of_sublist).
  assert (Hnd := nodup_sublist _ _ Hsub).
  assert (Hdis : (∀ x, Cleared x ∈ ups l → x ∉ announced l) → ∀ x, Cleared x ∈ ups l' → x ∉ announced l')
    by (intros Hx x Hcl Ha; by apply (Hx x Hcl), Hann).
  assert (He : e ∈ announced l) by (unfold announced; rewrite Hd; cbn; set_solver).
  destruct H as [Hc H]. split.
  - keep; eauto. split; [apply cm_tokens0|auto].
  - destruct H as [H|[H|[H|[H|[H|(p & Ht & [H|[H|H]])]]]]].
    + destruct H. congruence.
    + right; right; left. destruct H. destruct rq_down0 as (fs & ws & Hfw & Hfs). rewrite Hd in Hfw.
      assert (Hfs' : ∃ ws', ws = e :: ws' ∧ rest = Welcome <$> ws').
      { destruct Hfs as [->|(e' & r' & b & ->)]; [|done]. destruct ws as [|w ws]; [done|]. injection Hfw as -> ->. eauto. }
      destruct Hfs' as (ws' & _ & ->). constructor; cbn; eauto; try done.
      * rewrite rq_jobs0. destruct queued; repeat constructor.
      * congruence.
      * intros [Hx|[Hx _]]; [by destruct rq_cleared0|congruence].
      * rewrite rq_jobs0. by destruct queued.
    + right; right; left. destruct H. destruct rs_down0 as [ws Hws]. rewrite Hd in Hws.
      destruct ws as [|w ws]; [done|]. injection Hws as -> ->. constructor; cbn; eauto; try done.
      * apply Forall_app. split; [done|]. destruct queued; repeat constructor.
      * intros Hcm Hx. apply app_eq_nil in Hx as [Hx _]. by apply rs_committed0.
      * intros [Hx|[Hcm Hx]]; apply rs_empty0; [by left|right]. split; [done|].
        destruct (k_jobs l); [by destruct rs_committed0|done].
      * intros Hq _. destruct queued; [|done]. apply last_snoc.
    + do 3 right; left. destruct H. destruct cr_down0 as (ws & cs & Hwc & Hl & Hcs). rewrite Hd in Hwc.
      assert (Hw : ∃ ws', ws = e :: ws' ∧ rest = (Welcome <$> ws') ++ cs).
      { destruct ws as [|w ws]; cbn in Hwc.
        - destruct Hcs as [->|(_ & r' & s & c & ->)]; done.
        - injection Hwc as -> ->. eauto. }
      destruct Hw as (ws' & -> & ->). constructor; cbn; eauto; try done.
      * exists ws', cs. split; [done|]. split; [|done]. destruct Hl as [Hl|Hl]; [congruence|]. right. intros Hx. apply Hl. exact Hx.
      * apply Forall_app. split; [done|]. destruct queued; repeat constructor.
    + destruct H. destruct id_down0 as [Hx|(r' & b & Hx & _)]; congruence.
    + destruct H. destruct fl_down0 as (fs & cs & Hfc & Hf & Hi & Hcs). rewrite Hd in Hfc.
      destruct Hf as [->|(r' & b & -> & Hb)]; [|done]. destruct Hcs as [->|(data & _ & ->)]; done.
    + destruct H. congruence.
    + destruct H. congruence.
Qed.

(** A confirmation that the edge accepts. *)
Lemma phase_recv_confirmed l e r b rest :
  phase l → k_down l = Confirmed e r b :: rest → phase (l <| k_down := rest |> <| k_sync := b |>).
Proof.
  intros H Hd. set (l' := l <| k_down := _ |> <| k_sync := _ |>).
  assert (Han : announced l' = announced l) by (unfold announced, l', awaited; cbn; by rewrite Hd).
  phases H; try solve [keep].
  - keep. by rewrite Han.
  - destruct H. congruence.
  - keep; rewrite ?Han; auto. destruct rq_down0 as (fs & ws & Hfw & Hfs). rewrite Hd in Hfw.
    destruct Hfs as [->|(e' & r' & b' & ->)]; [by destruct ws|]. injection Hfw as _ _ _ ->. exists [], ws. split; [done|by left].
  - destruct H. destruct rs_down0 as [ws Hws]. rewrite Hd in Hws. by destruct ws.
  - destruct H. destruct cr_down0 as (ws & cs & Hwc & _ & Hcs). rewrite Hd in Hwc.
    destruct ws; [|done]. destruct Hcs as [->|(_ & r' & s & c & ->)]; done.
  - keep; auto.
    + destruct id_down0 as [Hx|(r' & b' & Hx & _)]; rewrite Hd in Hx; [done|]. injection Hx as _ _ _ ->. by left.
    + destruct id_down0 as [Hx|(r' & b' & Hx & Hb)]; rewrite Hd in Hx; [done|]. injection Hx as _ _ -> _. exact Hb.
  - keep; auto.
    + destruct fl_down0 as (fs & cs & Hfc & Hf & Hi & Hcs). rewrite Hd in Hfc. exists [], cs.
      destruct Hf as [->|(r' & b' & -> & Hb)]; [destruct Hcs as [->|(data & _ & ->)]; done|].
      injection Hfc as _ _ _ ->. split; [done|]. split; [by left|]. auto.
    + destruct fl_down0 as (fs & cs & Hfc & Hf & Hi & Hcs). rewrite Hd in Hfc.
      destruct Hf as [->|(r' & b' & -> & Hb)]; [destruct Hcs as [->|(data & _ & ->)]; done|].
      injection Hfc as _ _ -> _. intros Hx. split; [by apply Hb|]. by destruct Hi.
  - destruct H. congruence.
  - destruct H. congruence.
Qed.

(** Only an edge with an epoch is sent a confirmation. *)
Lemma phase_confirmed_edge l e r b rest : phase l → k_down l = Confirmed e r b :: rest → k_edge_epoch l ≠ ""%string.
Proof.
  intros [_ H] Hd. destruct H as [H|[H|[H|[H|[H|(p & Ht & H)]]]]].
  - destruct H. congruence.
  - apply H.
  - destruct H. destruct rs_down0 as [ws Hws]. rewrite Hd in Hws. by destruct ws.
  - destruct H. destruct cr_down0 as (ws & cs & Hwc & _ & Hcs). rewrite Hd in Hwc.
    destruct ws; [|done]. destruct Hcs as [->|(_ & r' & s & c & ->)]; done.
  - destruct H. by destruct id_epoch0 as [-> ?].
  - destruct Ht. by destruct tr_epoch0 as [-> ?].
Qed.

(** A fragment that the edge does not refuse at once is the one expected. *)
Lemma phase_chunk_inv l e r s c rest :
  phase l → k_stopped l = false → k_down l = Chunk e r s c :: rest → e = k_edge_epoch l →
  ∃ p data, transfer l p ∧ flying l ∧ rest = [] ∧ e = k_epoch l ∧ r = k_pending l ∧ s = k_index l ∧
    chunk_data (k_payload l) (k_index l) = Some data ∧ c = mkChunk (k_index l) (k_total l) data.
Proof.
  intros [Hc H] Hns Hd ->. destruct H as [H|[H|[H|[H|[H|(p & Ht & [H|[H|H]])]]]]].
  - destruct H. congruence.
  - destruct H. destruct rq_down0 as (fs & ws & Hfw & Hfs). rewrite Hd in Hfw.
    destruct Hfs as [->|(e' & r' & b' & ->)]; [by destruct ws|done].
  - destruct H. destruct rs_down0 as [ws Hws]. rewrite Hd in Hws. by destruct ws.
  - destruct H. destruct cr_down0 as (ws & cs & Hwc & Hl & Hcs). rewrite Hd in Hwc.
    destruct ws; [|done]. destruct Hcs as [->|(_ & r' & s' & c' & ->)]; [done|]. injection Hwc as He _ _ _ _.
    destruct Hl as [Hl|Hl]; [congruence|]. cbn in Hl. congruence.
  - destruct H. destruct id_down0 as [Hx|(r' & b' & Hx & _)]; congruence.
  - assert (Hf0 := H). destruct H. destruct fl_down0 as (fs & cs & Hfc & Hf & Hi & Hcs). rewrite Hd in Hfc.
    destruct Hf as [->|(r' & b' & -> & Hb)]; [|done].
    destruct Hcs as [->|(data & Hdata & ->)]; [done|]. injection Hfc as He -> -> -> ->. exists p, data. by split_and!.
  - destruct H. congruence.
  - destruct H. congruence.
Qed.

Lemma acks_app l m up :
  acks (l <| k_up := up ++ [m] |>) =
  acks (l <| k_up := up |>) ++ match m with
    | ChunkAck e r s => if bool_decide (e = k_epoch l ∧ r = k_pending l) then [s] else []
    | _ => []
    end.
Proof.
  unfold acks. cbn. rewrite omap_app. f_equal. destruct m; cbn; [|done..]. by case_bool_decide.
Qed.

(** The expected fragment: it is acknowledged, and the last one starts the
    application of the snapshot. *)
Lemma phase_recv_chunk l p data :
  common l → transfer l p → flying l → k_stopped l = false → chunk_data (k_payload l) (k_index l) = Some data →
  let last := bool_decide (k_index l + 1 = k_total l) in
  phase (l <| k_down := [] |> <| k_up := k_up l ++ [ChunkAck (k_epoch l) (k_pending l) (k_index l)] |>
           <| k_buffer := if last then [] else k_buffer l ++ data |> <| k_revision := k_pending l |>
           <| k_edge_index := k_index l + 1 |> <| k_edge_total := k_total l |> <| k_sync := false |>
           <| k_jobs := if last then [SnapshotJob (k_epoch l) (k_pending l) (k_buffer l ++ data)] else [] |>).
Proof.
  intros Hc Ht H Hns Hdata lst. set (l' := l <| k_down := _ |> <| k_up := _ |> <| k_buffer := _ |> <| k_revision := _ |>
    <| k_edge_index := _ |> <| k_edge_total := _ |> <| k_sync := _ |> <| k_jobs := _ |>).
  assert (Hups : ∀ m, m ∈ ups l' → m ∈ ups l ∨ m = ChunkAck (k_epoch l) (k_pending l) (k_index l)).
  { intros m. unfold ups, l'. cbn. rewrite !elem_of_app, list_elem_of_singleton. tauto. }
  assert (Han : ∀ e, e ∈ announced l' → e ∈ announced l).
  { intros e. unfold announced, l', awaited. cbn. destruct H. rewrite fl_jobs0. destruct lst; cbn; set_solver. }
  assert (Hacks : acks l' = [k_index l]).
  { change (acks l') with (acks (l <| k_up := k_up l ++ [ChunkAck (k_epoch l) (k_pending l) (k_index l)] |>)).
    rewrite acks_app, bool_decide_true by done. destruct H. change (acks (l <| k_up := k_up l |>)) with (acks l). by rewrite fl_acks0. }
  assert (Hun : unacknowledged l').
  { intros Hx. apply Hups in Hx as [Hx|Hx]; [|done]. destruct H. by apply fl_unacked0. }
  destruct (fl_assembled _ H Hns) as [Hbuf Hpos]. pose proof (fl_index _ H) as Hidx.
  assert (Hpay := tr_payload _ _ Ht). destruct Hpay as [Hpay Htot].
  destruct (chunk_data_spec (k_payload l) (k_index l)) as (data' & Hd' & _ & Hpre); [rewrite Hpay, <- Htot; lia|].
  rewrite Hdata in Hd'. injection Hd' as <-. rewrite <- Hbuf in Hpre.
  split; [|do 5 right; exists p; split].
  - keep; eauto. intros m [Hm| ->]%Hups; [by apply cm_up0|apply cm_tokens0].
  - keep; eauto.
    + intros r s [Hm|[= -> ->]]%Hups; [eauto|by right].
    + intros r [Hm|?]%Hups; [eauto|done].
  - destruct H. unfold lst in *. destruct (bool_decide_reflect (k_index l + 1 = k_total l)) as [Hlast|Hlast].
    + right; right. constructor; cbn; try done; [lia|by left|]. left. rewrite fl_committed0. split; [|done].
      by rewrite Hpre, Hpay, Hlast, Htot, sent_prefix_all.
    + right; left. constructor; cbn; try done. lia.
Qed.

(** ** Steps of the apply worker *)

(** A job is dropped. *)
Lemma phase_drop_job l j js :
  phase l → k_jobs l = j :: js → phase (l <| k_jobs := js |> <| k_committed := false |>).
Proof.
  intros H Hj. set (l' := l <| k_jobs := _ |> <| k_committed := _ |>).
  assert (Hsub : announced l' `sublist_of` announced l).
  { unfold announced, l', awaited. cbn. rewrite Hj. apply sublist_app; [|done]. cbn.
    destruct (reset_epoch j); [by apply sublist_cons|done]. }
  assert (Hann : ∀ e, e ∈ announced l' → e ∈ announced l) by (intros e He; by eapply elem_of_sublist).
  assert (Hnd := nodup_sublist _ _ Hsub).
  phases H; try solve [keep].
  - keep; eauto.
  - destruct H. congruence.
  - destruct H. congruence.
  - keep; eauto; try done.
    + rewrite Hj in rs_jobs0. by apply Forall_cons in rs_jobs0 as [_ ?].
    + intros [Hx|[Hx _]]; [|done]. apply rs_empty0. by left.
    + intros Hs Hne. rewrite Hj in rs_last0. specialize (rs_last0 Hs ltac:(done)). by destruct js.
    + intros x Hx Ha. by apply (rs_disjoint0 x Hx), Hann.
  - keep; eauto. rewrite Hj in cr_jobs0. by apply Forall_cons in cr_jobs0 as [_ ?].
  - destruct H. congruence.
  - destruct H. congruence.
  - destruct H. congruence.
  - keep. right. destruct de_jobs0 as [(Hx & Hu & _)|(Hx & _)]; [|congruence].
    rewrite Hj in Hx. injection Hx as _ ->. auto.
Qed.

(** The transaction of a reset. *)
Lemma reset_cache_empty s : cache_empty (resetIdentityCache s false) ∧ edge_closed (resetIdentityCache s false).
Proof. split; [intros u; by apply empty_cache_view|]. intros k g Hk. cbn in Hk. by rewrite lookup_empty in Hk. Qed.

Lemma phase_commit_reset l e js :
  phase l → k_jobs l = ResetJob e :: js → phase (l <| k_store := resetIdentityCache (k_store l) false |> <| k_committed := true |>).
Proof.
  intros H Hj. destruct (reset_cache_empty (k_store l)) as [Hem Hcl]. phases H; try solve [keep].
  - destruct H. congruence.
  - destruct H. congruence.
  - keep; [congruence|done].
  - destruct H. congruence.
  - destruct H. congruence.
  - destruct H. congruence.
  - destruct H. destruct de_jobs0 as [(Hx & _)|(Hx & _)]; congruence.
Qed.

(** The transaction of a snapshot. *)
Lemma phase_commit_snapshot julianday l e r payload js q now now' s' :
  phase l → k_jobs l = SnapshotJob e r payload :: js → k_committed l = false → Unmarshal payload = Some q →
  ApplyIdentitySnapshot julianday (k_store l) now now' (inr q) = inr s' →
  phase (l <| k_store := s' |> <| k_committed := true |>).
Proof.
  intros [Hc H] Hj Hcm Hq Hap.
  assert (Hno : ¬ Forall is_reset (k_jobs l)) by (rewrite Hj; by intros [? _]%Forall_cons).
  destruct H as [H|[H|[H|[H|[H|(p & Ht & [H|[H|H]])]]]]];
    try (exfalso; destruct H; congruence); try (exfalso; by destruct H).
  destruct (de_jobs _ _ H) as [(Hx & Hu & Hset)|(Hx & _)]; [|congruence]. rewrite Hcm in Hset.
  rewrite Hj in Hx. injection Hx as -> -> -> ->.
  assert (q = p) as ->.
  { destruct (tr_payload _ _ Ht) as [Hp _]. rewrite Hp, Unmarshal_Marshal in Hq. congruence. }
  assert (Hab := settled_apply julianday _ _ _ _ _ _ _ _ _ _ Hset (tr_carried _ _ Ht) Hap).
  split; [keep; apply Hab|]. do 5 right. exists p. split; [keep|]. right; right.
  destruct H. constructor; cbn; try done. left. done.
Qed.

(** The report of a job. *)
Lemma phase_report_reset l e js :
  phase l → k_jobs l = ResetJob e :: js → k_committed l = true →
  phase (l <| k_jobs := js |> <| k_committed := false |> <| k_up := k_up l ++ [Cleared e] |>).
Proof.
  intros H Hj Hcm. set (l' := l <| k_jobs := _ |> <| k_committed := _ |> <| k_up := _ |>).
  assert (Hann : announced l = e :: announced l') by (unfold announced, l', awaited; cbn; by rewrite Hj).
  assert (Hups : ∀ m, m ∈ ups l' → m ∈ ups l ∨ m = Cleared e).
  { intros m. unfold ups, l'. cbn. rewrite !elem_of_app, list_elem_of_singleton. tauto. }
  assert (Hna : no_acks l → no_acks l').
  { intros Ha m Hm He. apply Hups in Hm as [Hm| ->]; [by apply Ha|]. cbn in *. congruence. }
  destruct H as [Hc H]. split.
  { keep.
    + intros m [Hm| ->]%Hups; [by apply cm_up0|]. apply cm_announced0. rewrite Hann. left.
    + intros x Hx. apply cm_announced0. rewrite Hann. by right. }
  destruct H as [H|[H|[H|[H|[H|(p & Ht & [H|[H|H]])]]]]]; try (exfalso; destruct H; congruence).
  - do 2 right; left. keep; auto; try done.
    + rewrite Hj in rs_jobs0. by apply Forall_cons in rs_jobs0 as [_ ?].
    + intros [Hx|[Hx _]]; [|done]. apply rs_empty0. apply Hups in Hx as [Hx|Hx]; [by left|right].
      injection Hx as ->. by rewrite Hj.
    + intros Hs Hne. rewrite Hj in rs_last0. specialize (rs_last0 Hs ltac:(done)). by destruct js.
    + rewrite Hann in rs_nodup0. by apply NoDup_cons in rs_nodup0 as [_ ?].
    + rewrite Hann in *. intros x [Hx|[= ->]]%Hups Ha.
      * apply (rs_disjoint0 x Hx). by right.
      * apply NoDup_cons in rs_nodup0 as [Hn _]. done.
  - do 3 right; left. keep; auto. rewrite Hj in cr_jobs0. by apply Forall_cons in cr_jobs0 as [_ ?].
  - exfalso. destruct H. destruct de_jobs0 as [(Hx & _)|(Hx & _)]; congruence.
Qed.

Lemma phase_report_snapshot l e r payload js :
  phase l → k_jobs l = SnapshotJob e r payload :: js → k_committed l = true →
  phase (l <| k_jobs := js |> <| k_committed := false |> <| k_up := k_up l ++ [IdentityAck e r] |>).
Proof.
  intros [Hc H] Hj Hcm. set (l' := l <| k_jobs := _ |> <| k_committed := _ |> <| k_up := _ |>).
  assert (Hno : ¬ Forall is_reset (k_jobs l)) by (rewrite Hj; by intros [? _]%Forall_cons).
  assert (Hann : announced l' = announced l) by (unfold announced, l', awaited; cbn; by rewrite Hj).
  assert (Hups : ∀ m, m ∈ ups l' → m ∈ ups l ∨ m = IdentityAck e r).
  { intros m. unfold ups, l'. cbn. rewrite !elem_of_app, list_elem_of_singleton. tauto. }
  destruct H as [H|[H|[H|[H|[H|(p & Ht & [H|[H|H]])]]]]];
    try (exfalso; destruct H; congruence); try (exfalso; by destruct H).
  destruct (de_jobs _ _ H) as [(Hx & Hu & Hab)|(Hx & _)]; [|congruence]. rewrite Hcm in Hab.
  rewrite Hj in Hx. injection Hx as -> -> -> ->.
  assert (Hacks : acks l' = acks l).
  { change (acks l') with (acks (l <| k_up := k_up l ++ [IdentityAck (k_epoch l) (k_pending l)] |>)).
    rewrite acks_app, app_nil_r. done. }
  split; [|do 5 right; exists p; split; [|right; right]].
  - keep.
    + intros m [Hm| ->]%Hups; [by apply cm_up0|]. apply cm_tokens0.
    + by rewrite Hann.
  - keep.
    + intros r s [Hm|?]%Hups; [eauto|done].
    + intros r [Hm|[= ->]]%Hups; [eauto|by right].
  - keep; rewrite ?Hacks; try done. right. auto.
Qed.
End phases.
