(* ===== verification/ClusterSync.v ===== *)
(** * The controller and an edge together

    [ControllerLink], [EdgeLink] and the two stores composed: the controller with
    the connections of all its nodes, one edge with its cache, and the two
    directions of the edge's stream.  [step] interleaves the critical sections of
    the controller, the goroutines of the edge and the administrators' requests;
    other nodes, and other processes with the certificate of this node, send what
    they like.  Connections break at any moment and every statement may fail.

    The invariant maps the current connection of the edge to a [phase] of
    [SyncPhase]; its consequence is that an edge which reports itself synchronized
    holds, for every user, exactly what the database wants, or the user is pending
    in the durable index.  Nodes are deleted, too: for a connection that has seen its
    node outside of the directory nothing is claimed. *)
From Stdlib Require Import ZArith Lia Ascii String.
From stdpp Require Import gmap strings list fin_maps sorting.
From S2P Require Import Prelude GoStrings Types DpiEngine DpiService EdgeStore EdgeIdentity ControllerDB IdentityPage DBInvariant IdentityView CacheIndex ControllerLink EdgeLink SyncPhase.
Local Open Scope Z_scope.

(** ** The system *)

(** [y_conn] is the edge's connection with its number at the controller; [y_down]
    and [y_up] are the messages in the stream; [y_tokens] are the epochs drawn.
    [y_gone] is an annotation: a connection of the edge with a smaller number has
    existed while the node was not in the directory. *)
Record System := mkSystem {
  y_ctl : ControllerServer; y_db : ControllerDB; y_loops : gmap nat (stage * ConnectLoop); y_next : nat;
  y_tokens : gset string; y_client : EdgeClient; y_store : Store; y_conn : option (nat * EdgeConn);
  y_down : list Message; y_up : list Message; y_gone : nat }.
#[export] Instance eta_system : Eta System := λ r,
  mkSystem (y_ctl r) (y_db r) (y_loops r) (y_next r) (y_tokens r) (y_client r) (y_store r) (y_conn r) (y_down r) (y_up r) (y_gone r).

(** The controller without a database. *)
Inductive ctl_op :=
  | CtlSuspect (suspect : bool)
  | CtlFault (now : time) (fault : bool)
  | CtlPushAll
  | CtlInterval (seconds : Z)
  | CtlCatalog (nodes : list EdgeNode)
  | CtlRemember (row : result EdgeNode) (id : string)
  | CtlAuthorize (row : result EdgeNode) (id : string)
  | CtlCommand (now : time) (command : NodeCommand)
  | CtlWait (now : time) (command : NodeCommand)
  | CtlWaited (id : string)
  | CtlResult (r : CommandResult)
  | CtlDisconnect (nodeID : string)
  | CtlForget (nodeID : string).
Definition ctl_exec (s : ControllerServer) (op : ctl_op) : ControllerServer :=
  match op with
  | CtlSuspect suspect => SetDatabaseSuspect s suspect
  | CtlFault now fault => SetDatabaseFault s now fault
  | CtlPushAll => ScheduleIdentityPush s
  | CtlInterval seconds => SetHeartbeatInterval s seconds
  | CtlCatalog nodes => ReplaceNodeCatalog s nodes
  | CtlRemember row id => RememberEnrolledNode s row id
  | CtlAuthorize row id => (authorizedNode s s row id).1
  | CtlCommand now command => (SendCommand s now command).1
  | CtlWait now command => (begin_wait s now command).1
  | CtlWaited id => (end_wait s id).1
  | CtlResult r => (deliverCommandResult s r).1
  | CtlDisconnect nodeID => DisconnectNode s nodeID
  | CtlForget nodeID => ForgetNode s nodeID
  end.

(** What [pushConfigurationChanges] does after a request that changed the
    database, under [syncMu]: a change of a known user wakes the worker, a change
    of the blocked addresses schedules their push, anything else a full push.
    Nothing happens ([None]) for the setup, which does not pass through it, and
    when the request fails after its transaction; nor for the requests on nodes and
    on clients of the controller.  After the transaction of [deleteEdgeNode] the
    handler calls [ForgetNode], which is [CtlForget]. *)
Definition after_mutation (s : ControllerServer) (op : db_op) (known_user : option bool) : ControllerServer :=
  match op, known_user with
  | _, None => s
  | (OpBlock _ _ _ _ | OpUnblock _), _ => ScheduleBlockedIPPush s
  | (OpClientStatus _ _ _ | OpDeleteClient _ | OpDeleteNode _), _ => s
  | _, Some known => if known then NotifyUserIdentityChanged s 0 else ScheduleIdentityPush s
  end.

(** Changes of the other tables: telemetry, commands, leases, and the directory, to
    which [UpsertEdgeNode] adds nodes and whose rows change, also that of this node
    with every stored heartbeat; only [DeleteEdgeNode] removes a node. *)
Definition same_identity (d d' : ControllerDB) : Prop :=
  d_users d' = d_users d ∧ d_tokens d' = d_tokens d ∧ d_grants d' = d_grants d ∧ d_policies d' = d_policies d ∧
  d_dpi_policies d' = d_dpi_policies d ∧ d_access d' = d_access d ∧ d_cache d' = d_cache d ∧
  d_sequence d' = d_sequence d ∧ d_sessions d' = d_sessions d ∧ d_blocked d' = d_blocked d ∧
  dom (d_nodes d) ⊆ dom (d_nodes d').

Definition is_edge (y : System) (c : nat) : bool :=
  match y_conn y with Some (c', _) => bool_decide (c = c') | None => false end.
(** The next message that connection [c] delivers to the controller. *)
Definition next_message (y : System) (c : nat) (m : Message) (y' : System) : Prop :=
  if is_edge y c then ∃ rest, y_up y = m :: rest ∧ y' = y <| y_up := rest |> else y' = y.
(** [Connect] returns. *)
Definition close (y : System) (c : nat) : System :=
  y <| y_ctl := unregister (y_ctl y) c |> <| y_loops := delete c (y_loops y) |>.
Definition set_loop (y : System) (c : nat) (st : stage) (l : ConnectLoop) : System :=
  y <| y_loops := <[c := (st, l)]> (y_loops y) |>.
(** A step of connection [c] ends the connection when it fails. *)
Definition or_close (y : System) (c : nat) (err : option call_error) : System :=
  if err is Some _ then close y c else y.
(** The writer takes a message; the time of a transfer starts when it is sent. *)
Definition transmitted (now : time) (m : Message) (rest : list Message) (r : nodeSession) : nodeSession :=
  let r := r <| ns_send := rest |> in
  if bool_decide (m_Type m = "identity_chunk"%string) || bool_decide (m_Type m = "identity_snapshot"%string)
  then r <| ns_syncStarted := now |> else r.
(** A token of the random source is none of those drawn before. *)
Definition draw (y : System) (id : option string) : Prop := ∀ t, id = Some t → t ∉ y_tokens y.
Definition drawn (y : System) (id : option string) : System :=
  y <| y_tokens := y_tokens y ∪ match id with Some t => {[t]} | None => ∅ end |>.

(** The annotation, after a step that may leave or find the node outside of the directory. *)
Definition noted (n : string) (y : System) : System :=
  match d_nodes (y_db y) !! n with Some _ => y | None => y <| y_gone := y_next y |> end.

Section system.
Context {codec : SnapshotCodec}.
Context (sql_error : store_error) (rand_error : string) (julianday : time → Z) (db_error : store_error).
Context (n : string).

Inductive step : System → System → Prop :=
  (** administrators and other users of the database *)
  | step_admin y op d' known : db_exec (y_db y) op = inr d' →
      step y (noted n (y <| y_db := d' |> <| y_ctl := after_mutation (y_ctl y) op known |>))
  | step_other y d' : db_ok d' → same_identity (y_db y) d' → step y (y <| y_db := d' |>)
  (** the controller *)
  | step_ctl y op : step y (y <| y_ctl := ctl_exec (y_ctl y) op |>)
  | step_push y nodeID now id sql s' d' : draw y id →
      pushNodeIdentity sql_error rand_error (y_ctl y) (y_db y) nodeID now id sql = (s', d') →
      step y ((drawn y id) <| y_ctl := s' |> <| y_db := d' |>)
  (** its connections *)
  | step_register y nodeID now :
      step y (set_loop (y <| y_ctl := register (y_ctl y) (y_next y) nodeID now |> <| y_next := S (y_next y) |>)
                (y_next y) AwaitHello new_loop)
  | step_hello y y1 c l m s' err : y_loops y !! c = Some (AwaitHello, l) → next_message y c m y1 →
      accept_hello (y_ctl y) c m = (s', err) →
      step y (or_close (set_loop (y1 <| y_ctl := s' |>) c AwaitEpoch l) c err)
  | step_epoch y c l id : y_loops y !! c = Some (AwaitEpoch, l) → draw y (Some id) →
      step y (set_loop ((drawn y (Some id)) <| y_ctl := open_epoch (y_ctl y) c id |>) c (AwaitWelcome id) l)
  | step_welcome y c l id observed s' : y_loops y !! c = Some (AwaitWelcome id, l) →
      enqueue (y_ctl y) c (welcome_message (y_ctl y) c id observed) = Some s' →
      step y (set_loop (y <| y_ctl := s' |>) c (AwaitSync id) l)
  | step_sync y c l id now sql s' d' err : y_loops y !! c = Some (AwaitSync id, l) →
      start_sync sql_error (y_ctl y) (y_db y) c now id sql = (s', d', err) →
      step y (or_close (set_loop (y <| y_ctl := s' |> <| y_db := d' |>) c Streaming l) c err)
  | step_receive y y1 c l now observed m s' l' err : y_loops y !! c = Some (Streaming, l) → cl_awaiting l = None →
      next_message y c m y1 → receive (y_ctl y) l c now observed m = (s', l', err) →
      step y (or_close (set_loop (y1 <| y_ctl := s' |>) c Streaming l') c err)
  | step_awaiting y c l m s' : y_loops y !! c = Some (Streaming, l) → cl_awaiting l = Some m →
      enqueue (y_ctl y) c m = Some s' →
      step y (set_loop (y <| y_ctl := s' |>) c Streaming (l <| cl_awaiting := None |>))
  | step_identity y c l now sql s' d' l' err : y_loops y !! c = Some (Streaming, l) →
      identity_worker sql_error (y_ctl y) (y_db y) l c now sql = (s', d', l', err) →
      step y (or_close (set_loop (y <| y_ctl := s' |> <| y_db := d' |>) c Streaming l') c err)
  | step_event_ack y c l ids seq s' : y_loops y !! c = Some (Streaming, l) →
      enqueue (y_ctl y) c ((message "event_ack" (ns_nodeID (conn (y_ctl y) c))) <| m_Sequence := seq |>
                             <| m_Payload := PEventAck ids |>) = Some s' →
      step y (y <| y_ctl := s' |>)
  | step_transmit y c ss m rest now : cs_conns (y_ctl y) !! c = Some ss → ns_send ss = m :: rest →
      step y ((if is_edge y c then y <| y_down := y_down y ++ [m] |> else y)
                <| y_ctl := update_conn (y_ctl y) c (transmitted now m rest) |>)
  | step_close y c : step y (close y c)
  | step_restart y : step y (y <| y_ctl := NewControllerServer |> <| y_loops := ∅ |>)
  (** the edge *)
  | step_edge_connect y now : y_conn y = None →
      step y (noted n (set_loop (y <| y_ctl := register (y_ctl y) (y_next y) n now |> <| y_next := S (y_next y) |>
                                   <| y_store := resetIdentityCache (y_store y) false |>
                                   <| y_conn := Some (y_next y, open_connection (y_client y) now) |>
                                   <| y_down := [] |> <| y_up := [] |>)
                         (y_next y) AwaitHello new_loop))
  | step_edge_recv y c k m rest now e' k' : y_conn y = Some (c, k) → y_down y = m :: rest → ek_recvStopped k = false →
      recv (y_client y) k now m = (e', k') →
      step y (y <| y_client := e' |> <| y_conn := Some (c, k') |> <| y_down := rest |>)
  | step_edge_send y c k m rest : y_conn y = Some (c, k) → ek_send k = m :: rest →
      step y (y <| y_conn := Some (c, k <| ek_send := rest |>) |> <| y_up := y_up y ++ [m] |>)
  | step_edge_take y c k : y_conn y = Some (c, k) → step y (y <| y_conn := Some (c, apply_take k) |>)
  | step_edge_progress y c k : y_conn y = Some (c, k) → step y (y <| y_conn := Some (c, apply_progress (y_client y) k) |>)
  | step_edge_commit y c k now now' ok s' k' : y_conn y = Some (c, k) →
      apply_commit julianday db_error (y_store y) k now now' ok = (s', k') →
      step y (y <| y_store := s' |> <| y_conn := Some (c, k') |>)
  | step_edge_report y c k enforced e' k' : y_conn y = Some (c, k) →
      apply_report (y_client y) k enforced = (e', k') →
      step y (y <| y_client := e' |> <| y_conn := Some (c, k') |>)
  | step_edge_aux y c k micros err report events run : y_conn y = Some (c, k) →
      step y (y <| y_conn := Some (c, handleAux (y_client y) k micros err report events run) |>)
  | step_edge_heartbeat y c k k' : y_conn y = Some (c, k) → edge_heartbeat (y_client y) k = inr k' →
      step y (y <| y_conn := Some (c, k') |>)
  | step_edge_capabilities y c k e' k' : y_conn y = Some (c, k) → edge_capabilities (y_client y) k = (e', inr k') →
      step y (y <| y_client := e' |> <| y_conn := Some (c, k') |>)
  | step_edge_set_capabilities y encoded : step y (y <| y_client := SetCapabilities (y_client y) encoded |>)
  | step_edge_close y c k delay err reset msg e' s' delay' : y_conn y = Some (c, k) →
      after_connect (close_connection (y_client y)) (y_store y) delay err reset msg = (e', s', delay') →
      step y (y <| y_client := e' |> <| y_store := s' |> <| y_conn := None |> <| y_down := [] |> <| y_up := [] |>)
  | step_edge_restart y bootID capabilities :
      step y (y <| y_client := NewEdgeClient n bootID capabilities |> <| y_store := resetIdentityCache (y_store y) true |>
                <| y_conn := None |> <| y_down := [] |> <| y_up := [] |>)
  | step_edge_local y s' : same_cache (y_store y) s' → step y (y <| y_store := s' |>).

Inductive reachable (y0 : System) : System → Prop :=
  | reach_start : reachable y0 y0
  | reach_step y y' : reachable y0 y → step y y' → reachable y0 y'.

(** ** The connection of the edge as a [Link] *)

Definition down_view (m : Message) : option down_msg :=
  if bool_decide (m_Type m = "welcome"%string) then Some (Welcome (m_CacheSessionID m))
  else if bool_decide (m_Type m = "identity_chunk"%string) then
    match m_Payload m with
    | PChunk c => Some (Chunk (m_CacheSessionID m) (m_Revision m) (m_Sequence m) c)
    | _ => None
    end
  else if bool_decide (m_Type m = "identity_confirmed"%string)
  then Some (Confirmed (m_CacheSessionID m) (m_Revision m) (m_SyncComplete m))
  else None.
Definition up_view (m : Message) : option up_msg :=
  if bool_decide (m_Type m = "identity_chunk_ack"%string) then Some (ChunkAck (m_CacheSessionID m) (m_Revision m) (m_Sequence m))
  else if bool_decide (m_Type m = "identity_ack"%string) then Some (IdentityAck (m_CacheSessionID m) (m_Revision m))
  else if bool_decide (m_Type m = "cache_cleared"%string) then Some (Cleared (m_CacheSessionID m))
  else None.
Definition job_view (m : Message) : job :=
  if reset_job m then ResetJob (m_CacheSessionID m)
  else SnapshotJob (m_CacheSessionID m) (m_Revision m) (match m_Payload m with PBytes b => b | _ => [] end).

(** The messages that the controller sends to a current edge. *)
Definition good_down (m : Message) : Prop :=
  (m_Type m = "welcome"%string → ∃ ack, m_Payload m = PAck ack ∧ ha_IdentityProtocol ack = 3) ∧
  (m_Type m = "identity_chunk"%string → ∃ c, m_Payload m = PChunk c) ∧
  m_Type m ≠ "identity_snapshot"%string.
Definition good_job (m : Message) : Prop :=
  reset_job m = false → m_CacheProtocol m = 3 ∧ ∃ payload, m_Payload m = PBytes payload.

Definition jobs_of (k : EdgeConn) : list Message := option_list (aj_message <$> ek_applying k) ++ option_list (ek_applyJobs k).
Definition queued (l : ConnectLoop) : list Message := option_list (cl_identityCurrent l) ++ cl_identityJobs l.

Definition link_of (st : stage) (l : ConnectLoop) (ss : nodeSession) (down up : list Message) (k : EdgeConn)
    (sync : bool) (store : Store) (d : ControllerDB) (tokens : gset string) : Link :=
  mkLink st (ns_cacheSessionID ss) (ns_cacheReady ss) (ns_baselineActive ss) (ns_baselineCursor ss) (ns_pendingCursor ss)
    (ns_pendingRevision ss) (ns_appliedRevision ss) (ns_pendingIdentity ss) (ns_pendingPayload ss)
    (ns_chunkIndex ss) (ns_chunkTotal ss)
    (omap down_view (down ++ ns_send ss)) (omap up_view (up ++ ek_send k)) (omap up_view (queued l))
    (ek_cacheSessionID k) (ek_identityProtocol k) (ek_chunkBuffer k) (ek_chunkRevision k) (ek_chunkIndex k) (ek_chunkTotal k)
    (job_view <$> jobs_of k) (match ek_applying k with Some j => aj_committed j | None => false end)
    (ek_recvStopped k) sync store d tokens.

Record linked (st : stage) (l : ConnectLoop) (ss : nodeSession) (down up : list Message) (k : EdgeConn)
    (sync : bool) (store : Store) (d : ControllerDB) (tokens : gset string) : Prop := mkLinked {
  lk_node : ns_nodeID ss = n;
  lk_protocol : st ≠ AwaitHello → ns_cacheProtocol ss = 3 ∧ ns_admissionProtocol ss = 1;
  lk_hello : st = AwaitHello → ∃ h rest, up ++ ek_send k = h :: rest ∧ m_CacheProtocol h = 3 ∧ m_AdmissionProtocol h = 1;
  lk_down : Forall good_down (down ++ ns_send ss);
  lk_jobs : Forall good_job (jobs_of k);
  lk_awaiting : ∀ m, cl_awaiting l = Some m → down_view m = None ∧ good_down m;
  lk_queue : Forall (λ m, identity_job m = true) (queued l);
  lk_phase : phase n (link_of st l ss down up k sync store d tokens) }.

(** The revision of a snapshot that waits for its confirmation was allocated. *)
Definition pend (d : ControllerDB) (ss : nodeSession) : Prop :=
  ∀ p, ns_pendingIdentity ss = Some p → 0 < Revision p ≤ d_sequence d.

Record invariant (y : System) : Prop := mkInvariant {
  iv_db : db_ok (y_db y);
  iv_node : ∀ c k, y_conn y = Some (c, k) → (y_gone y ≤ c)%nat → is_Some (d_nodes (y_db y) !! n);
  iv_id : edc_nodeID (y_client y) = n;
  iv_off : y_conn y = None → edc_syncReady (y_client y) = false;
  iv_blank : ""%string ∈ y_tokens y;
  iv_sessions : ∀ m c, cs_sessions (y_ctl y) !! m = Some c → ∃ ss, cs_conns (y_ctl y) !! c = Some ss ∧ ns_nodeID ss = m;
  iv_cancel : ∀ c ss, is_Some (y_loops y !! c) → cs_conns (y_ctl y) !! c = Some ss →
    cs_sessions (y_ctl y) !! ns_nodeID ss = Some c ∨ ns_cancelled ss = true;
  iv_loops : ∀ c, is_Some (y_loops y !! c) → is_Some (cs_conns (y_ctl y) !! c);
  iv_next : ∀ c, is_Some (cs_conns (y_ctl y) !! c) → (c < y_next y)%nat;
  iv_conn : ∀ c k, y_conn y = Some (c, k) → (c < y_next y)%nat;
  iv_pending : ∀ c ss, cs_conns (y_ctl y) !! c = Some ss → pend (y_db y) ss;
  iv_link : ∀ c k, y_conn y = Some (c, k) → cs_sessions (y_ctl y) !! n = Some c → (y_gone y ≤ c)%nat →
    ∃ st l ss, y_loops y !! c = Some (st, l) ∧ cs_conns (y_ctl y) !! c = Some ss ∧
      linked st l ss (y_down y) (y_up y) k (edc_syncReady (y_client y)) (y_store y) (y_db y) (y_tokens y) }.

(** ** Changes that do not concern the synchronization *)

(** The session as the synchronization sees it. *)
Record session_like (ss ss' : nodeSession) : Prop := mkLike {
  sl_view : ∀ st l down up k sync store d tokens,
    link_of st l ss' down up k sync store d tokens = link_of st l ss down up k sync store d tokens;
  sl_node : ns_nodeID ss' = ns_nodeID ss;
  sl_protocol : ns_cacheProtocol ss' = ns_cacheProtocol ss ∧ ns_admissionProtocol ss' = ns_admissionProtocol ss;
  sl_cancelled : ns_cancelled ss = true → ns_cancelled ss' = true;
  sl_good : ∀ down, Forall good_down (down ++ ns_send ss) → Forall good_down (down ++ ns_send ss') }.

Lemma session_like_refl ss : session_like ss ss.
Proof. by constructor. Qed.
Lemma like_pending ss ss' : session_like ss ss' → ns_pendingIdentity ss' = ns_pendingIdentity ss.
Proof.
  intros [V _ _ _ _].
  specialize (V Streaming new_loop [] [] (open_connection (NewEdgeClient "" "" "") 0) false empty_store empty_db ∅).
  by apply (f_equal k_snapshot) in V.
Qed.
Lemma session_like_trans s1 s2 s3 : session_like s1 s2 → session_like s2 s3 → session_like s1 s3.
Proof.
  intros [V1 N1 P1 C1 G1] [V2 N2 P2 C2 G2]. constructor; auto; [intros; by rewrite V2|congruence|intuition congruence].
Qed.

Lemma linked_like st l ss ss' down up k sync store d tokens :
  session_like ss ss' → linked st l ss down up k sync store d tokens → linked st l ss' down up k sync store d tokens.
Proof.
  intros [V N P C G] H. destruct H. constructor; auto; [congruence| |by rewrite V].
  destruct P as [-> ->]. done.
Qed.

(** A message that is not part of the synchronization. *)
Definition aside (m : Message) : Prop := down_view m = None ∧ good_down m.
Lemma try_send_like ss m ss' : aside m → try_send ss m = Some ss' → session_like ss ss'.
Proof.
  intros [Hv Hg]. unfold try_send. case_bool_decide; [|done]. intros [= <-]. constructor; cbn; auto.
  - intros. unfold link_of. cbn. f_equal. rewrite app_assoc, omap_app. cbn. by rewrite Hv, app_nil_r.
  - intros down Hd. rewrite app_assoc. by apply Forall_app; split; [|apply Forall_singleton].
Qed.

Record ctl_like (s s' : ControllerServer) : Prop := mkCtlLike {
  cl_none : ∀ c, cs_conns s !! c = None → cs_conns s' !! c = None;
  cl_conn : ∀ c ss, cs_conns s !! c = Some ss → ∃ ss', cs_conns s' !! c = Some ss' ∧ session_like ss ss';
  cl_kept : ∀ m c, cs_sessions s' !! m = Some c → cs_sessions s !! m = Some c;
  cl_lost : ∀ m c ss', cs_sessions s !! m = Some c → cs_conns s' !! c = Some ss' →
    cs_sessions s' !! m = Some c ∨ ns_cancelled ss' = true }.

Lemma ctl_like_refl s : ctl_like s s.
Proof. constructor; eauto using session_like_refl. Qed.

Lemma ctl_like_trans s1 s2 s3 : ctl_like s1 s2 → ctl_like s2 s3 → ctl_like s1 s3.
Proof.
  intros [A1 B1 C1 D1] [A2 B2 C2 D2]. constructor; auto.
  - intros c ss H. destruct (B1 _ _ H) as (ss' & H' & L). destruct (B2 _ _ H') as (ss'' & H'' & L').
    eauto using session_like_trans.
  - intros m c ss'' Hs Hc. destruct (cs_conns s2 !! c) as [ss'|] eqn:H2; [|by rewrite A2 in Hc].
    destruct (B2 _ _ H2) as (x & Hx & L). rewrite Hc in Hx. injection Hx as <-.
    destruct (D1 _ _ _ Hs H2) as [H|H]; [eauto|right; by apply L].
Qed.

(** Nothing of the sessions and connections changes. *)
Lemma ctl_like_same s s' : cs_conns s' = cs_conns s → cs_sessions s' = cs_sessions s → ctl_like s s'.
Proof. intros Hc Hs. constructor; rewrite ?Hc, ?Hs; eauto using session_like_refl. Qed.

Lemma update_conn_like s c f :
  (∀ ss, cs_conns s !! c = Some ss → session_like ss (f ss)) → ctl_like s (update_conn s c f).
Proof.
  intros Hf. constructor; cbn; auto.
  - intros c'. by rewrite lookup_alter_None.
  - intros c' ss Hss. destruct (decide (c' = c)) as [->|Hne].
    + rewrite lookup_alter_eq, Hss. cbn. eauto.
    + rewrite lookup_alter_ne by done. eauto using session_like_refl.
Qed.

Lemma map_sessions_like s f : (∀ id ss, session_like ss (f id ss)) → ctl_like s (map_sessions s f).
Proof.
  intros Hf. constructor; cbn; auto.
  - intros c Hc. by rewrite map_lookup_imap, Hc.
  - intros c ss Hss. rewrite map_lookup_imap, Hss. cbn. eexists. split; [done|].
    destruct (registered s c ss); [done|apply session_like_refl].
Qed.

Lemma enqueue_like s c m s' : aside m → enqueue s c m = Some s' → ctl_like s s'.
Proof.
  intros Ha. unfold enqueue. intros (ss' & Hs & [= <-])%bind_Some. apply update_conn_like. intros ss Hss.
  unfold conn in Hs. rewrite Hss in Hs. cbn in Hs. by eapply try_send_like.
Qed.

Ltac like := constructor; cbn; auto; done.

Lemma cancel_like ss : session_like ss (ss <| ns_cancelled := true |>).
Proof. like. Qed.

Lemma disconnect_like s m : ctl_like s (DisconnectNode s m).
Proof.
  unfold DisconnectNode. destruct (cs_sessions s !! m) as [c|] eqn:Hm; [|apply ctl_like_refl].
  constructor; cbn.
  - intros c'. by rewrite lookup_alter_None.
  - intros c' ss Hss. destruct (decide (c' = c)) as [->|Hne].
    + rewrite lookup_alter_eq, Hss. cbn. eauto using cancel_like.
    + rewrite lookup_alter_ne by done. eauto using session_like_refl.
  - intros m' c' [_ H]%lookup_delete_Some. done.
  - intros m' c' ss' Hs Hc. destruct (decide (m' = m)) as [->|Hne].
    + rewrite Hm in Hs. injection Hs as <-. rewrite lookup_alter_eq in Hc. right.
      destruct (cs_conns s !! c); [|done]. by injection Hc as <-.
    + left. by rewrite lookup_delete_ne.
Qed.

Lemma send_command_like s now command : ctl_like s (SendCommand s now command).1.
Proof.
  unfold SendCommand. destruct (cs_sessions s !! _) as [c|]; [|apply ctl_like_refl].
  destruct (sessionAliveLocked _ _ _); cbn; [|apply ctl_like_refl].
  destruct (try_send _ _) as [ss'|] eqn:Hs; cbn; apply update_conn_like; intros ss Hss; [|apply cancel_like].
  unfold conn in Hs. rewrite Hss in Hs. eapply try_send_like; [|exact Hs]. by repeat split.
Qed.

Lemma fault_session_like interval now was fault id ss : session_like ss (fault_session interval now was fault id ss).
Proof.
  unfold fault_session. destruct (fault && _); [apply cancel_like|]. cbv zeta.
  set (ss1 := ss <| ns_syncStarted := now |>).
  set (ss2 := if negb fault && _ then _ else ss1).
  assert (H2 : session_like ss ss2) by (unfold ss2; destruct (negb fault && _); like).
  destruct (try_send ss2 _) as [ss'|] eqn:Hs.
  - eapply session_like_trans; [exact H2|]. eapply try_send_like; [|exact Hs]. by repeat split.
  - eapply session_like_trans; [exact H2|apply cancel_like].
Qed.

Lemma schedule_like s : ctl_like s (ScheduleIdentityPush s).
Proof.
  eapply ctl_like_trans; [apply (map_sessions_like s (λ _ r, r <| ns_needsFull := true |>)); intros; like|].
  by apply ctl_like_same.
Qed.
Lemma schedule_blocked_like s : ctl_like s (ScheduleBlockedIPPush s).
Proof.
  eapply ctl_like_trans; [apply (map_sessions_like s)|by apply ctl_like_same].
  intros id ss. cbn. case_bool_decide; like.
Qed.

Lemma ctl_exec_like s op : ctl_like s (ctl_exec s op).
Proof.
  destruct op; cbn.
  - by apply ctl_like_same.
  - unfold SetDatabaseFault. set (s0 := s <| cs_databaseFault := fault |>).
    set (s1 := if negb fault then s0 <| cs_databaseSuspect := false |> else s0).
    assert (H1 : ctl_like s s1) by (unfold s1; destruct (negb fault); by apply ctl_like_same).
    assert (H2 := map_sessions_like s1 (fault_session (cs_heartbeatInterval s1) now (cs_databaseFault s) fault)
                    (λ id ss, fault_session_like _ _ _ _ id ss)).
    destruct (negb fault); (eapply ctl_like_trans; [exact H1|]); [|exact H2].
    eapply ctl_like_trans; [exact H2|by apply ctl_like_same].
  - apply schedule_like.
  - by apply ctl_like_same.
  - by apply ctl_like_same.
  - unfold RememberEnrolledNode. destruct row; by apply ctl_like_same.
  - unfold authorizedNode. repeat case_match; by apply ctl_like_same.
  - apply send_command_like.
  - unfold begin_wait. destruct (negb _); [apply ctl_like_refl|]. case_bool_decide; [apply ctl_like_refl|].
    set (s1 := s <| cs_commandWaiters := _ |>).
    assert (H1 : ctl_like s s1) by by apply ctl_like_same.
    assert (H2 := send_command_like s1 now command). destruct (SendCommand s1 now command) as [s2 sent]. cbn in H2.
    destruct sent; cbn; (eapply ctl_like_trans; [exact H1|]); [done|].
    eapply ctl_like_trans; [exact H2|by apply ctl_like_same].
  - by apply ctl_like_same.
  - unfold deliverCommandResult. repeat case_match; by apply ctl_like_same.
  - apply disconnect_like.
  - unfold ForgetNode. eapply ctl_like_trans; [|apply disconnect_like]. by apply ctl_like_same.
Qed.

(** ** Frames *)

Lemma inv_ctl y s' : invariant y → ctl_like (y_ctl y) s' → invariant (y <| y_ctl := s' |>).
Proof.
  intros H [A B C D]. destruct H. constructor; cbn; auto.
  - intros m c Hs%C. destruct (iv_sessions0 _ _ Hs) as (ss & Hss & Hn). destruct (B _ _ Hss) as (ss' & Hss' & L).
    exists ss'. split; [done|]. rewrite <- Hn. apply L.
  - intros c ss' Hl Hss'. destruct (cs_conns (y_ctl y) !! c) as [ss|] eqn:Hss; [|by rewrite A in Hss'].
    destruct (B _ _ Hss) as (x & Hx & L). rewrite Hss' in Hx. injection Hx as <-.
    destruct (iv_cancel0 _ _ Hl Hss) as [Hs|Hs]; [|right; by apply L].
    rewrite (sl_node _ _ L). eauto.
  - intros c [ss Hss]%iv_loops0. destruct (B _ _ Hss) as (ss' & Hss' & _). eauto.
  - intros c [ss' Hss']. apply iv_next0. destruct (cs_conns (y_ctl y) !! c) as [ss|] eqn:Hss; [eauto|by rewrite A in Hss'].
  - intros c ss' Hss'. destruct (cs_conns (y_ctl y) !! c) as [ss|] eqn:Hss; [|by rewrite A in Hss'].
    destruct (B _ _ Hss) as (x & Hx & L). rewrite Hss' in Hx. injection Hx as <-.
    intros p. rewrite (like_pending _ _ L). by apply (iv_pending0 c).
  - intros c k Hk Hs%C Hg. destruct (iv_link0 _ _ Hk Hs Hg) as (st & l & ss & Hl & Hss & Hlk).
    destruct (B _ _ Hss) as (ss' & Hss' & L). exists st, l, ss'. split_and!; [done|done|]. by eapply linked_like.
Qed.

Lemma linked_db st l ss down up k sync store d d' tokens :
  db_ok d' → evolves n d d' → linked st l ss down up k sync store d tokens → linked st l ss down up k sync store d' tokens.
Proof. intros Hok Hev H. destruct H. constructor; auto. by apply (phase_db n _ d') in lk_phase0. Qed.

Lemma linked_tokens st l ss down up k sync store d tokens t :
  linked st l ss down up k sync store d tokens → linked st l ss down up k sync store d (tokens ∪ t).
Proof. intros H. destruct H. constructor; auto. by apply (phase_tokens n _ t) in lk_phase0. Qed.

Lemma linked_store st l ss down up k sync store store' d tokens :
  same_cache store store' → linked st l ss down up k sync store d tokens → linked st l ss down up k sync store' d tokens.
Proof. intros Hs H. destruct H. constructor; auto. by apply (phase_store n _ store') in lk_phase0. Qed.

Lemma inv_db y d' : invariant y → db_ok d' → evolves n (y_db y) d' → invariant (y <| y_db := d' |>).
Proof.
  intros H Hok Hev. destruct H. constructor; cbn; auto.
  - intros c k Hk Hg. apply (ev_node _ _ _ Hev). eauto.
  - intros c ss Hss p Hp. apply (iv_pending0 c ss Hss) in Hp. pose proof (ev_sequence _ _ _ Hev). lia.
  - intros c k Hk Hs Hg. destruct (iv_link0 _ _ Hk Hs Hg) as (st & l & ss & Hl & Hss & Hlk).
    exists st, l, ss. split_and!; [done|done|]. by eapply linked_db.
Qed.

Lemma inv_drawn y id : invariant y → invariant (drawn y id).
Proof.
  intros H. destruct H. constructor; cbn; auto.
  - set_solver.
  - intros c k Hk Hs Hg. destruct (iv_link0 _ _ Hk Hs Hg) as (st & l & ss & Hl & Hss & Hlk).
    exists st, l, ss. split_and!; [done|done|]. by apply linked_tokens.
Qed.

(** A step that concerns the connection [c0]: the other connections are as they
    were, and the edge's connection, when it is [c0], is dealt with by the last
    premise. *)
Lemma inv_conn y y' c0 ss ss' :
  invariant y → cs_conns (y_ctl y) !! c0 = Some ss →
  cs_conns (y_ctl y') = <[c0 := ss']> (cs_conns (y_ctl y)) → cs_sessions (y_ctl y') = cs_sessions (y_ctl y) →
  ns_nodeID ss' = ns_nodeID ss → (ns_cancelled ss = true → ns_cancelled ss' = true) →
  (∀ c, c ≠ c0 → y_loops y' !! c = y_loops y !! c) → (is_Some (y_loops y' !! c0) → is_Some (y_loops y !! c0)) →
  y_next y' = y_next y → y_client y' = y_client y → y_store y' = y_store y → y_conn y' = y_conn y → y_gone y' = y_gone y →
  y_tokens y ⊆ y_tokens y' →
  (is_edge y c0 = false → y_up y' = y_up y ∧ y_down y' = y_down y) →
  db_ok (y_db y') → d_nodes (y_db y') = d_nodes (y_db y) → pend (y_db y') ss' → d_sequence (y_db y) ≤ d_sequence (y_db y') →
  (∀ k, y_conn y = Some (c0, k) → cs_sessions (y_ctl y) !! n = Some c0 → ∀ st l, y_loops y !! c0 = Some (st, l) →
    linked st l ss (y_down y) (y_up y) k (edc_syncReady (y_client y)) (y_store y) (y_db y) (y_tokens y) →
    ∃ st' l', y_loops y' !! c0 = Some (st', l') ∧
    linked st' l' ss' (y_down y') (y_up y') k (edc_syncReady (y_client y)) (y_store y) (y_db y') (y_tokens y')) →
  (∀ c, c ≠ c0 → cs_sessions (y_ctl y) !! n = Some c → evolves n (y_db y) (y_db y')) → invariant y'.
Proof.
  intros H Hss Hconns Hsess Hnode Hcan Hloops Hloop0 Hnext Hcli Hsto Hcon Hgo Htok Hedge Hok Hnod Hpend Hseq Hlink Hev.
  assert (Hlk : ∀ c, is_Some (y_loops y' !! c) → is_Some (y_loops y !! c)).
  { intros c Hc. destruct (decide (c = c0)) as [->|Hne]; [auto|by rewrite <- Hloops]. }
  destruct H. constructor; rewrite ?Hconns, ?Hsess, ?Hnext, ?Hcli, ?Hsto, ?Hcon, ?Hgo, ?Hnod; auto.
  - intros m c Hs. destruct (iv_sessions0 _ _ Hs) as (x & Hx & Hm). destruct (decide (c = c0)) as [->|Hne].
    + rewrite lookup_insert_eq. exists ss'. split; [done|]. congruence.
    + rewrite lookup_insert_ne by done. eauto.
  - intros c x Hc Hx. destruct (decide (c = c0)) as [->|Hne].
    + rewrite lookup_insert_eq in Hx. injection Hx as <-. destruct (iv_cancel0 _ _ (Hlk _ Hc) Hss) as [Hs|Hs]; [left; congruence|auto].
    + rewrite lookup_insert_ne in Hx by done. by apply iv_cancel0; [apply Hlk|].
  - intros c Hc%Hlk%iv_loops0. destruct (decide (c = c0)) as [->|Hne]; [rewrite lookup_insert_eq; eauto|by rewrite lookup_insert_ne].
  - intros c Hc. apply iv_next0. destruct (decide (c = c0)) as [->|Hne]; [eauto|by rewrite lookup_insert_ne in Hc].
  - intros c x Hx. destruct (decide (c = c0)) as [->|Hne].
    + rewrite lookup_insert_eq in Hx. by injection Hx as <-.
    + rewrite lookup_insert_ne in Hx by done. intros p Hp. apply (iv_pending0 c x Hx) in Hp. lia.
  - intros c k Hk Hs Hg. destruct (iv_link0 _ _ Hk Hs Hg) as (st & l & x & Hl & Hx & Hlkd). destruct (decide (c = c0)) as [->|Hne].
    + rewrite Hss in Hx. injection Hx as <-. destruct (Hlink k Hk Hs st l Hl Hlkd) as (st' & l' & Hl' & Hlkd').
      exists st', l', ss'. by rewrite lookup_insert_eq.
    + exists st, l, x. rewrite lookup_insert_ne, Hloops by done. split_and!; [done|done|].
      assert (He : is_edge y c0 = false) by (unfold is_edge; rewrite Hk; by apply bool_decide_eq_false_2).
      destruct (Hedge He) as [-> ->]. eapply linked_db; [done|by eapply Hev|].
      replace (y_tokens y') with (y_tokens y ∪ y_tokens y') by set_solver. by apply linked_tokens.
Qed.

Lemma inv_close y c : invariant y → invariant (close y c).
Proof.
  intros H.
  assert (Hs : ∀ m c', cs_sessions (unregister (y_ctl y) c) !! m = Some c' →
    cs_sessions (y_ctl y) !! m = Some c' ∧ (is_Some (cs_conns (y_ctl y) !! c) → c' ≠ c)).
  { intros m c'. unfold unregister, registered. case_bool_decide as Hr; cbn.
    - intros [Hne Hs]%lookup_delete_Some. split; [done|]. intros _ ->. apply (iv_sessions _ H) in Hs as (ss & Hss & Hn).
      unfold conn in *. rewrite Hss in Hne. cbn in Hne. congruence.
    - intros Hs. split; [done|]. intros _ ->. destruct (iv_sessions _ H _ _ Hs) as (ss & Hss & Hn).
      unfold conn in Hr. rewrite Hss in Hr. cbn in Hr. congruence. }
  assert (Hc : cs_conns (unregister (y_ctl y) c) = cs_conns (y_ctl y)) by (unfold unregister; by destruct (registered _ _ _)).
  assert (Hkeep : ∀ m c', c' ≠ c → cs_sessions (y_ctl y) !! m = Some c' → cs_sessions (unregister (y_ctl y) c) !! m = Some c').
  { intros m c' Hne Hs'. unfold unregister, registered. case_bool_decide as Hr; cbn; [|done]. rewrite lookup_delete_ne; [done|]. congruence. }
  destruct H. constructor; cbn; rewrite ?Hc; auto.
  - intros m c' [Hx _]%Hs. auto.
  - intros c' ss [Hne Hl]%lookup_delete_is_Some Hss. destruct (iv_cancel0 _ _ Hl Hss) as [Hx|Hx]; [left|by right]. apply Hkeep; congruence.
  - intros c' [Hne Hl]%lookup_delete_is_Some. auto.
  - intros c' k Hk [Hx Hne]%Hs Hg. destruct (iv_link0 _ _ Hk Hx Hg) as (st & l & ss & Hl & Hss & Hlk).
    exists st, l, ss. split_and!; [|done|done]. rewrite lookup_delete_ne; [done|]. intros <-. by apply Hne.
Qed.

(** ** Functions on one session *)

Record touch (s : ControllerServer) (c : nat) (ss : nodeSession) (s' : ControllerServer) (ss' : nodeSession) : Prop := mkTouch {
  to_conns : cs_conns s' = <[c := ss']> (cs_conns s);
  to_sessions : cs_sessions s' = cs_sessions s;
  to_node : ns_nodeID ss' = ns_nodeID ss;
  to_cancelled : ns_cancelled ss = true → ns_cancelled ss' = true }.

Lemma touch_refl s c ss : cs_conns s !! c = Some ss → touch s c ss s ss.
Proof. intros H. constructor; auto. by rewrite insert_id. Qed.
Lemma touch_trans s1 c ss1 s2 ss2 s3 ss3 : touch s1 c ss1 s2 ss2 → touch s2 c ss2 s3 ss3 → touch s1 c ss1 s3 ss3.
Proof. intros [A1 B1 C1 D1] [A2 B2 C2 D2]. constructor; [by rewrite A2, A1, insert_insert_eq|congruence..|auto]. Qed.
Lemma touch_update s c ss f :
  cs_conns s !! c = Some ss → ns_nodeID (f ss) = ns_nodeID ss → (ns_cancelled ss = true → ns_cancelled (f ss) = true) →
  touch s c ss (update_conn s c f) (f ss).
Proof.
  intros H Hn Hc. constructor; auto. cbn. apply map_eq. intros c'. destruct (decide (c' = c)) as [->|Hne].
  - by rewrite lookup_alter_eq, lookup_insert_eq, H.
  - by rewrite lookup_alter_ne, lookup_insert_ne.
Qed.
Lemma touch_wake s c ss s' ss' : touch s c ss s' ss' → touch s c ss (wakeIdentityPush s') ss'.
Proof. intros [A B C D]. by constructor. Qed.
Lemma touch_conn s c ss s' ss' : touch s c ss s' ss' → cs_conns s' !! c = Some ss'.
Proof. intros [A _ _ _]. by rewrite A, lookup_insert_eq. Qed.
Lemma conn_some s c ss : cs_conns s !! c = Some ss → conn s c = ss.
Proof. unfold conn. by intros ->. Qed.

Lemma try_send_fields ss m ss' :
  try_send ss m = Some ss' → ss' = ss <| ns_send := ns_send ss ++ [m] |>.
Proof. unfold try_send. case_bool_decide; [|done]. by intros [= <-]. Qed.

Lemma chunk_send_fields ss ss' err : sendIdentityChunkLocked ss = (ss', err) → ∃ send, ss' = ss <| ns_send := send |>.
Proof.
  unfold sendIdentityChunkLocked. destruct (chunk_data _ _); [|intros [= <- <-]; exists (ns_send ss); by destruct ss].
  destruct (try_send _ _) as [x|] eqn:Hx; intros [= <- <-]; [apply try_send_fields in Hx as ->; eauto|].
  exists (ns_send ss). by destruct ss.
Qed.

(** The statements that a push runs. *)
Inductive push_db (d : ControllerDB) (nodeID : string) : ControllerDB → Prop :=
  | push_db_same : push_db d nodeID d
  | push_db_next d1 r : NextIdentityRevision d = inr (d1, r) → push_db d nodeID d1
  | push_db_prepare d1 r e ids d2 : NextIdentityRevision d = inr (d1, r) →
      PrepareNodeIdentityCache d1 nodeID e r ids = inr d2 → push_db d nodeID d2.

Lemma push_db_ok d m d' : db_ok d → push_db d m d' → db_ok d'.
Proof.
  intros Hok [|d1 r Hn|d1 r e ids d2 Hn Hp]; [done|by eapply next_revision_ok|].
  eapply prepare_ok; [by eapply next_revision_ok| |exact Hp].
  apply next_revision_inv in Hn as [-> ->]. pose proof (ok_sequence d Hok). cbn. lia.
Qed.
Lemma evolves_refl m d : evolves m d d.
Proof. by apply evolves_same. Qed.
Lemma push_db_evolves d m d' x : push_db d m d' → evolves x d d'.
Proof.
  intros [|d1 r Hn|d1 r e ids d2 Hn Hp]; [apply evolves_refl|by eapply next_revision_evolves|by eapply prepare_evolves].
Qed.
Lemma push_db_nodes d m d' : push_db d m d' → d_nodes d' = d_nodes d.
Proof.
  intros [|d1 r Hn|d1 r e ids d2 Hn Hp]; [done|by apply next_revision_inv in Hn as [_ ->]|].
  apply next_revision_inv in Hn as [_ ->]. by apply prepare_inv in Hp as (_ & -> & _).
Qed.

(** The snapshot of a message carries an allocated revision. *)
Definition fits (m : Message) (d : ControllerDB) : Prop :=
  ∀ data p, m_Payload m = PBytes data → Unmarshal data = Some p → 0 < Revision p ≤ d_sequence d.
Lemma snapshot_fits nodeID revision p d : 0 < Revision p ≤ d_sequence d → fits (snapshot_message nodeID revision p) d.
Proof. intros H data q [= <-]. rewrite Unmarshal_Marshal. by intros [= <-]. Qed.

Lemma enqueue_generic s d c now sql m s' d' err ss :
  cs_conns s !! c = Some ss → fits m d → pend d ss → enqueueIdentity sql_error s d c now sql m = (s', d', err) →
  (∃ ss', touch s c ss s' ss' ∧ pend d' ss') ∧
  (d' = d ∨ ∃ e ids, PrepareNodeIdentityCache d (ns_nodeID ss) e (m_Revision m) ids = inr d').
Proof.
  intros Hss Hfit Hpd. unfold enqueueIdentity. rewrite (conn_some _ _ _ Hss).
  assert (Hsame : (∃ ss', touch s c ss s ss' ∧ pend d ss')) by eauto using touch_refl.
  destruct (m_Payload m) as [|data| | | | | | |] eqn:Hm; try (intros [= <- <- <-]; eauto; fail).
  destruct (Unmarshal data) as [p|] eqn:Hun; [|intros [= <- <- <-]; eauto].
  destruct sql; cbn; [|intros [= <- <- <-]; eauto].
  destruct (PrepareNodeIdentityCache _ _ _ _ _) as [e|d1] eqn:Hp; [intros [= <- <- <-]; eauto|].
  assert (Hd : d1 = d ∨ ∃ e ids, PrepareNodeIdentityCache d (ns_nodeID ss) e (m_Revision m) ids = inr d1) by eauto.
  assert (Hseq : d_sequence d1 = d_sequence d) by (apply prepare_inv in Hp as (_ & -> & _); done).
  assert (Hpd1 : ∀ x, ns_pendingIdentity x = ns_pendingIdentity ss ∨ ns_pendingIdentity x = Some p → pend d1 x).
  { intros x [Hx|Hx] q; rewrite Hx, Hseq; [apply Hpd|intros [= <-]; by eapply Hfit]. }
  destruct (registered s c ss); cbn [negb]; [|intros [= <- <- <-]; eauto 10 using touch_refl].
  set (ss1 := if negb (Incremental p) && negb (Baseline p) then _ else _).
  assert (Hn1 : ns_nodeID ss1 = ns_nodeID ss ∧ ns_cancelled ss1 = ns_cancelled ss ∧ ns_pendingIdentity ss1 = Some p)
    by (unfold ss1; by destruct (_ && _)).
  destruct Hn1 as (Hn1 & Hc1 & Hp1). case_bool_decide.
  - destruct (sendIdentityChunkLocked _) as [ss2 err2] eqn:Hs. apply chunk_send_fields in Hs as [send ->].
    intros [= <- <- <-]. split; [|done]. eexists. split; [apply (touch_update _ _ _ (λ _, _)); cbn; [done|done|congruence]|].
    apply Hpd1. by right.
  - destruct (try_send _ _) as [ss2|] eqn:Hs; intros [= <- <- <-]; (split; [|done]); eexists;
      (split; [apply (touch_update _ _ _ (λ _, _)); try done; try apply try_send_fields in Hs as ->; cbn; congruence|]);
      apply Hpd1; right; try apply try_send_fields in Hs as ->; done.
Qed.

Lemma request_generic s c now id s' err ss :
  cs_conns s !! c = Some ss → requestCacheReset rand_error s c now id = (s', err) →
  ∃ ss', touch s c ss s' ss' ∧ ns_pendingIdentity ss' = ns_pendingIdentity ss.
Proof.
  intros Hss. unfold requestCacheReset. rewrite (conn_some _ _ _ Hss).
  destruct id as [id|]; [|intros [= <- <-]; eauto using touch_refl].
  destruct (registered s c ss); cbn [negb]; [|intros [= <- <-]; eauto using touch_refl]. cbv zeta.
  destruct (try_send _ _) as [ss'|] eqn:Hs; intros [= <- <-]; eexists;
    (split; [apply (touch_update _ _ _ (λ _, _)); try done; apply try_send_fields in Hs as ->; done|]); [|done].
  by apply try_send_fields in Hs as ->.
Qed.

(** What building a message yields: nothing, an allocated revision, or a message
    with it. *)
Definition built (d d' : ControllerDB) (r : call_error + Message) : Prop :=
  (d' = d ∧ ∃ e, r = inl e) ∨
  ∃ revision, NextIdentityRevision d = inr (d', revision) ∧ ∀ m, r = inr m → m_Revision m = revision ∧ fits m d'.

Lemma built_snapshot d d' revision nodeID p :
  db_ok d → NextIdentityRevision d = inr (d', revision) → Revision p = revision → built d d' (inr (snapshot_message nodeID revision p)).
Proof.
  intros Hok Hn Hp. right. exists revision. split; [done|]. intros m [= <-]. split; [done|]. apply snapshot_fits.
  apply next_revision_inv in Hn as [-> ->]. rewrite Hp. pose proof (ok_sequence d Hok). cbn. lia.
Qed.

Lemma blocked_generic s d c sql s' d' r ss :
  cs_conns s !! c = Some ss → db_ok d → blockedIPMessage sql_error s d c sql = (s', d', r) →
  (∃ ss', touch s c ss s' ss' ∧ ns_pendingIdentity ss' = ns_pendingIdentity ss) ∧ built d d' r.
Proof.
  intros Hss Hok. unfold blockedIPMessage. rewrite (conn_some _ _ _ Hss).
  assert (Hsame : ∀ e, (∃ ss', touch s c ss s ss' ∧ ns_pendingIdentity ss' = ns_pendingIdentity ss) ∧ built d d (inl e))
    by (unfold built; eauto 10 using touch_refl).
  destruct (sql 0%nat); cbn [negb]; [|by intros [= <- <- <-]].
  destruct (sql 1%nat); cbn [negb]; [|by intros [= <- <- <-]].
  destruct (NextIdentityRevision d) as [e|[d1 revision]] eqn:Hn; [by intros [= <- <- <-]|].
  intros [= <- <- <-]. split; [eexists; split; [by apply touch_update|done]|]. by apply built_snapshot.
Qed.

Lemma page_generic s d c sql users s' d' r ss :
  cs_conns s !! c = Some ss → db_ok d → identityPageMessage sql_error s d c sql users = (s', d', r) →
  (∃ ss', touch s c ss s' ss' ∧ ns_pendingIdentity ss' = ns_pendingIdentity ss) ∧ built d d' r.
Proof.
  intros Hss Hok. unfold identityPageMessage. rewrite (conn_some _ _ _ Hss).
  assert (Hsame : ∀ e, (∃ ss', touch s c ss s ss' ∧ ns_pendingIdentity ss' = ns_pendingIdentity ss) ∧ built d d (inl e))
    by (unfold built; eauto 10 using touch_refl).
  destruct (sql 0%nat); cbn [negb]; [|by intros [= <- <- <-]].
  destruct (ReadNodeIdentityPage _ _ _ _ _) as [e|page]; [by intros [= <- <- <-]|].
  destruct (sql 1%nat); cbn [negb]; [|by intros [= <- <- <-]].
  destruct (NextIdentityRevision d) as [e|[d1 revision]] eqn:Hn; [by intros [= <- <- <-]|].
  destruct (_ && _ && _); intros [= <- <- <-].
  - split; [eauto using touch_refl|]. right. exists revision. split; [done|]. intros m. congruence.
  - split; [eexists; split; [by apply touch_update|done]|]. by apply built_snapshot.
Qed.

Lemma legacy_generic d nodeID sql users d' r :
  db_ok d → identitySnapshotForUsers sql_error d nodeID sql users = (d', r) → built d d' r.
Proof.
  intros Hok. unfold identitySnapshotForUsers. assert (Hsame : ∀ e, built d d (inl e)) by (unfold built; eauto).
  destruct (negb (forallb sql (seq 0 6))); [by intros [= <- <-]|].
  destruct (negb (sql 6%nat)); [by intros [= <- <-]|].
  destruct (NextIdentityRevision d) as [e|[d1 revision]] eqn:Hn; [by intros [= <- <-]|].
  destruct (negb (sql 7%nat)); intros [= <- <-]; [|by apply built_snapshot].
  right. exists revision. split; [done|]. intros m. congruence.
Qed.

(** Sending what was prepared. *)
Lemma enqueue_push s0 s d0 d c now sql m s' d' err ss0 ss :
  touch s0 c ss0 s ss → ns_pendingIdentity ss = ns_pendingIdentity ss0 → pend d0 ss0 → built d0 d (inr m) →
  enqueueIdentity sql_error s d c now sql m = (s', d', err) →
  (∃ ss', touch s0 c ss0 s' ss' ∧ pend d' ss') ∧ push_db d0 (ns_nodeID ss0) d'.
Proof.
  intros Ht Hpe Hpd Hb Hq. destruct Hb as [[_ [e He]]|(revision & Hn & Hm)]; [done|].
  destruct (Hm m eq_refl) as [Hrev Hfit].
  assert (Hpd1 : pend d ss).
  { intros p Hp. rewrite Hpe in Hp. apply Hpd in Hp. apply next_revision_inv in Hn as [-> ->]. cbn. lia. }
  destruct (enqueue_generic _ _ _ _ _ _ _ _ _ _ (touch_conn _ _ _ _ _ Ht) Hfit Hpd1 Hq) as [(ss' & Ht' & Hp') Hd].
  split; [eauto using touch_trans|]. destruct Hd as [->|(e & ids & Hp)]; [by eapply push_db_next|].
  rewrite (to_node _ _ _ _ _ Ht), Hrev in Hp. by eapply push_db_prepare.
Qed.

Lemma built_push d d' r m : built d d' r → push_db d m d'.
Proof. intros [[-> _]|(rev & Hn & _)]; [constructor|by eapply push_db_next]. Qed.
Lemma push_db_sequence d m d' : push_db d m d' → d_sequence d ≤ d_sequence d'.
Proof. intros H. apply (ev_sequence m), (push_db_evolves _ _ _ _ H). Qed.
Lemma pend_mono d d' ss ss' : d_sequence d ≤ d_sequence d' → ns_pendingIdentity ss' = ns_pendingIdentity ss → pend d ss → pend d' ss'.
Proof. intros Hs He Hp p. rewrite He. intros H%Hp. lia. Qed.

Lemma push_generic s d nodeID now id sql s' d' c ss :
  cs_sessions s !! nodeID = Some c → cs_conns s !! c = Some ss → ns_nodeID ss = nodeID → db_ok d → pend d ss →
  pushNodeIdentity sql_error rand_error s d nodeID now id sql = (s', d') →
  (∃ ss', touch s c ss s' ss' ∧ pend d' ss') ∧ push_db d nodeID d'.
Proof.
  intros Hc Hss <- Hok Hpd. unfold pushNodeIdentity. rewrite Hc, (conn_some _ _ _ Hss).
  assert (Hsame : (∃ ss', touch s c ss s ss' ∧ pend d ss') ∧ push_db d (ns_nodeID ss) d) by eauto using touch_refl, push_db_same.
  assert (Hupd : ∀ s1 d1 ss1 f, touch s c ss s1 ss1 → pend d1 ss1 → (∀ r, session_like r (f r)) →
    ∃ ss', touch s c ss (update_conn s1 c f) ss' ∧ pend d1 ss').
  { intros s1 d1 ss1 f Ht Hp Hf. exists (f ss1). destruct (Hf ss1) as [_ Hn _ Hcn _].
    split; [|by apply (pend_mono d1 d1 ss1); [|apply like_pending|]].
    eapply touch_trans; [exact Ht|]. apply touch_update; [by eapply touch_conn|done|done]. }
  destruct (cs_databaseSuspect s); [by intros [= <- <-]|]. destruct (_ || _); [by intros [= <- <-]|]. cbv zeta.
  set (reset := let '(s1, err) := requestCacheReset rand_error s c now id in _).
  assert (Hreset : reset = (s', d') → (∃ ss', touch s c ss s' ss' ∧ pend d' ss') ∧ push_db d (ns_nodeID ss) d').
  { unfold reset. destruct (requestCacheReset _ _ _ _ _) as [s1 err] eqn:Hr. intros [= <- <-].
    destruct (request_generic _ _ _ _ _ _ _ Hss Hr) as (ss1 & Ht & Hpe). split; [|constructor].
    assert (pend d ss1) by by apply (pend_mono d d ss).
    destruct err; [|eauto]. eapply Hupd; [exact Ht|done|apply cancel_like]. }
  destruct (_ && _ && _); [done|]. destruct (negb (ns_cacheReady ss)); [by intros [= <- <-]|].
  destruct (_ && _ && _); [done|]. destruct (_ && _ && _ && _).
  - destruct (blockedIPMessage _ _ _ _ _) as [[s1 d1] r] eqn:Hb.
    destruct (blocked_generic _ _ _ _ _ _ _ _ Hss Hok Hb) as [(ss1 & Ht & Hpe) Hbt]. assert (Hdb := built_push _ _ _ (ns_nodeID ss) Hbt).
    destruct r as [e|m].
    + intros [= <- <-]. split; [|done]. eapply Hupd; [exact Ht| |intros; like].
      by apply (pend_mono d d1 ss); [eapply push_db_sequence|..].
    + destruct (enqueueIdentity _ _ _ _ _ _ _) as [[s2 d2] err] eqn:Hq. intros [= <- <-].
      destruct (enqueue_push _ _ _ _ _ _ _ _ _ _ _ _ _ Ht Hpe Hpd Hbt Hq) as [(ss2 & Ht2 & Hp2) Hd]. split; [|done].
      destruct err; [|eauto]. eapply Hupd; [exact Ht2|done|intros; like].
  - destruct (negb (ns_needsFull ss) && negb (ns_baselineActive ss) && _); [by intros [= <- <-]|].
    assert (Hfin : ∀ s1 d1 r, (∃ ss', touch s c ss s1 ss' ∧ ns_pendingIdentity ss' = ns_pendingIdentity ss) ∧ built d d1 r →
      match r with inl _ => (s1, d1) | inr m => (enqueueIdentity sql_error s1 d1 c now (sql 9%nat) m).1 end = (s', d') →
      (∃ ss', touch s c ss s' ss' ∧ pend d' ss') ∧ push_db d (ns_nodeID ss) d').
    { intros s1 d1 r [(ss1 & Ht & Hpe) Hbt]. assert (Hdb := built_push _ _ _ (ns_nodeID ss) Hbt). destruct r as [e|m].
      - intros [= <- <-]. split; [|done]. exists ss1. split; [done|]. by apply (pend_mono d d1 ss); [eapply push_db_sequence|..].
      - destruct (enqueueIdentity _ _ _ _ _ _ _) as [[s2 d2] err] eqn:Hq. intros [= <- <-]. by eapply enqueue_push. }
    case_bool_decide.
    + destruct (identityPageMessage _ _ _ _ _ _) as [[s1 d1] r] eqn:Hb. apply Hfin. by eapply page_generic.
    + destruct (identitySnapshotForUsers _ _ _ _ _) as [d1 r] eqn:Hb. apply Hfin. split; [eauto using touch_refl|by eapply legacy_generic].
Qed.

(** ** Steps of the edge's own session *)

(** The session changes as [f] describes on the [Link]. *)
Record moves (f : Link → Link) (ss ss' : nodeSession) : Prop := mkMoves {
  mv_view : ∀ st l down up k sync store d tokens,
    link_of st l ss' down up k sync store d tokens = f (link_of st l ss down up k sync store d tokens);
  mv_node : ns_nodeID ss' = ns_nodeID ss;
  mv_protocol : ns_cacheProtocol ss' = ns_cacheProtocol ss ∧ ns_admissionProtocol ss' = ns_admissionProtocol ss;
  mv_good : ∀ down, Forall good_down (down ++ ns_send ss) → Forall good_down (down ++ ns_send ss') }.

Lemma like_moves ss ss' : session_like ss ss' → moves id ss ss'.
Proof. intros [V N P C G]. by constructor. Qed.
Lemma moves_trans f g s1 s2 s3 : moves f s1 s2 → moves g s2 s3 → moves (g ∘ f) s1 s3.
Proof.
  intros [V1 N1 P1 G1] [V2 N2 P2 G2]. constructor; auto; [intros; by rewrite V2, V1|congruence|intuition congruence].
Qed.

Lemma linked_moves f st l ss ss' down up k sync store d d' tokens tokens' :
  moves f ss ss' → linked st l ss down up k sync store d tokens →
  phase n (f (link_of st l ss down up k sync store d' tokens')) → linked st l ss' down up k sync store d' tokens'.
Proof.
  intros [V N P G] H Hp. destruct H. constructor; auto; [congruence| |by rewrite V].
  destruct P as [-> ->]. done.
Qed.

(** A message of the synchronization is queued. *)
Lemma try_send_moves ss m x ss' :
  down_view m = Some x → good_down m → try_send ss m = Some ss' → moves (λ l, l <| k_down := k_down l ++ [x] |>) ss ss'.
Proof.
  intros Hv Hg ->%try_send_fields. constructor; cbn; auto.
  - intros. unfold link_of. cbn. f_equal. rewrite app_assoc, omap_app. cbn. by rewrite Hv.
  - intros down Hd. rewrite app_assoc. by apply Forall_app; split; [|apply Forall_singleton].
Qed.

Definition request_link (id : string) (sent : bool) (l : Link) : Link :=
  l <| k_epoch := id |> <| k_ready := false |> <| k_down := k_down l ++ (if sent then [Welcome id] else []) |>.
Lemma request_moves s c now id s' err ss :
  cs_conns s !! c = Some ss → registered s c ss = true → requestCacheReset rand_error s c now (Some id) = (s', err) →
  ∃ ss' sent, touch s c ss s' ss' ∧ moves (request_link id sent) ss ss'.
Proof.
  intros Hss Hreg. unfold requestCacheReset. rewrite (conn_some _ _ _ Hss), Hreg. cbn [negb]. cbv zeta.
  set (ss1 := ss <| ns_cacheSessionID := id |> <| ns_cacheReady := false |> <| ns_needsFull := false |> <| ns_syncStarted := now |>).
  destruct (try_send ss1 _) as [ss2|] eqn:Hs; intros [= <- <-].
  - exists ss2, true. split; [apply (touch_update _ _ _ (λ _, ss2)); try done; apply try_send_fields in Hs as ->; done|].
    eapply try_send_moves in Hs; [|by cbn|].
    + destruct Hs as [V N P G]. constructor; auto.
    + split; [|by split]. intros _. by eexists.
  - exists ss1, false. split; [by apply (touch_update _ _ _ (λ _, ss1))|]. constructor; cbn; auto.
    intros. unfold link_of, request_link. cbn. by rewrite app_nil_r.
Qed.

(** The fragment at the current index is queued, if there is room. *)
Definition chunk_link (data : bytes) (sent : bool) (l : Link) : Link :=
  l <| k_down := k_down l ++ (if sent then [Chunk (k_epoch l) (k_pending l) (k_index l) (mkChunk (k_index l) (k_total l) data)] else []) |>.
Lemma send_chunk_moves ss data ss' err :
  chunk_data (ns_pendingPayload ss) (ns_chunkIndex ss) = Some data → sendIdentityChunkLocked ss = (ss', err) →
  ∃ sent, moves (chunk_link data sent) ss ss'.
Proof.
  unfold sendIdentityChunkLocked. intros -> Hs. destruct (try_send ss _) as [x|] eqn:Hx; injection Hs as <- <-.
  - exists true. eapply try_send_moves in Hx; [|by cbn|by repeat split; eauto]. destruct Hx as [V N P G]. by constructor.
  - exists false. constructor; auto. intros. unfold chunk_link, link_of. cbn. by rewrite app_nil_r.
Qed.

Definition prepare_link (d' : ControllerDB) (p : IdentitySnapshot) (data : bytes) (sent : bool) (l : Link) : Link :=
  l <| k_pending := Revision p |> <| k_snapshot := Some p |>
    <| k_payload := Marshal p |> <| k_index := 0 |> <| k_total := chunk_count (Marshal p) |>
    <| k_down := k_down l ++ (if sent then [Chunk (k_epoch l) (Revision p) 0 (mkChunk 0 (chunk_count (Marshal p)) data)] else []) |>.

Lemma first_chunk p : ∃ data, chunk_data (Marshal p) 0 = Some data.
Proof.
  destruct (chunk_data_spec (Marshal p) 0) as (data & H & _); [|eauto].
  split; [done|]. apply chunk_count_pos, Marshal_nonempty.
Qed.

Lemma enqueue_moves s d c now sql nodeID p s' d' err ss :
  cs_conns s !! c = Some ss → registered s c ss = true → ns_cacheProtocol ss = 3 →
  enqueueIdentity sql_error s d c now sql (snapshot_message nodeID (Revision p) p) = (s', d', err) →
  (s' = s ∧ d' = d) ∨
  ∃ ss' data sent, PrepareNodeIdentityCache d (ns_nodeID ss) (ns_cacheSessionID ss) (Revision p) (touched_users p) = inr d' ∧
    chunk_data (Marshal p) 0 = Some data ∧ touch s c ss s' ss' ∧ moves (prepare_link d' p data sent) ss ss'.
Proof.
  intros Hss Hreg Hpr. unfold enqueueIdentity. rewrite (conn_some _ _ _ Hss). cbn [m_Payload snapshot_message upd m_Revision].
  unfold snapshot_message. cbn -[Unmarshal]. rewrite Unmarshal_Marshal.
  destruct sql; cbn [negb]; [|intros [= <- <- <-]; by left].
  destruct (PrepareNodeIdentityCache _ _ _ _ _) as [e|d1] eqn:Hp; [intros [= <- <- <-]; by left|]. rewrite Hreg. cbn [negb].
  set (ss1 := if negb (Incremental p) && negb (Baseline p) then _ else _).
  assert (Hp1 : ns_cacheProtocol ss1 = 3) by (unfold ss1; by destruct (_ && _)). rewrite Hp1. cbn [bool_decide decide_rel].
  rewrite bool_decide_true by done. cbv zeta. intros Hq. right.
  destruct (first_chunk p) as [data Hdata].
  set (ss2 := ss1 <| ns_pendingPayload := Marshal p |> <| ns_chunkIndex := 0 |> <| ns_chunkTotal := _ |>) in Hq.
  assert (H2 : moves (prepare_link d1 p data false) ss ss2).
  { constructor; unfold ss2, ss1; destruct (_ && _); cbn; auto; intros; unfold link_of, prepare_link; cbn; by rewrite app_nil_r. }
  assert (Hf : ns_cancelled ss2 = ns_cancelled ss ∧ ns_nodeID ss2 = ns_nodeID ss) by (unfold ss2, ss1; by destruct (_ && _)).
  destruct Hf as [Hf1 Hf2].
  assert (Hcd : chunk_data (ns_pendingPayload ss2) (ns_chunkIndex ss2) = Some data) by done.
  destruct (sendIdentityChunkLocked ss2) as [ss3 err3] eqn:Hs.
  destruct (send_chunk_moves _ _ _ _ Hcd Hs) as [sent Hm]. apply chunk_send_fields in Hs as [send ->].
  injection Hq as <- <- <-. exists (ss2 <| ns_send := send |>), data, sent. split_and!; [done|done| |].
  - apply (touch_update _ _ _ (λ _, ss2 <| ns_send := send |>)); [done|exact Hf2|].
    intros Hx. change (ns_cancelled ss2 = true). congruence.
  - assert (Hm' := moves_trans _ _ _ _ _ H2 Hm). destruct Hm' as [V N P G]. constructor; auto. intros. rewrite V.
    unfold prepare_link, chunk_link. cbn. by rewrite app_nil_r.
Qed.

Section push.
Context (st : stage) (l : ConnectLoop) (down up : list Message) (k : EdgeConn) (sync : bool) (store : Store).
Context (tokens : gset string).

Lemma linked_epoch ss d : linked st l ss down up k sync store d tokens → ns_cacheSessionID ss ≠ ""%string → ns_cacheProtocol ss = 3.
Proof.
  intros H He. destruct H. destruct (decide (st = AwaitHello)) as [Hst|Hst]; [|by apply lk_protocol0].
  destruct lk_phase0 as [Hc _]. destruct He. apply (cm_early _ Hc). by left.
Qed.

(** A prepared snapshot on the way to the edge. *)
Lemma linked_prepare s s1 d d1 d' c now sql nodeID p last s' err ss ss1 :
  cs_sessions s !! n = Some c → cs_conns s !! c = Some ss → ns_nodeID ss = n → ns_cacheSessionID ss ≠ ""%string →
  linked st l ss down up k sync store d tokens →
  ns_cacheReady ss = true → ns_pendingRevision ss ≤ ns_appliedRevision ss →
  touch s c ss s1 ss1 → moves (λ x, x <| k_last := last |>) ss ss1 →
  NextIdentityRevision d = inr (d1, Revision p) →
  (∀ d2, PrepareNodeIdentityCache d1 n (ns_cacheSessionID ss) (Revision p) (touched_users p) = inr d2 →
     carried d2 n (ns_baselineActive ss) (ns_baselineCursor ss) last p) →
  enqueueIdentity sql_error s1 d1 c now sql (snapshot_message nodeID (Revision p) p) = (s', d', err) →
  ∃ ss', touch s c ss s' ss' ∧ linked st l ss' down up k sync store d' tokens.
Proof.
  intros Hs Hss Hn He Hlk Hr Hpend Ht1 Hm1 Hnext Hca Hq.
  assert (Hp := linked_epoch _ _ Hlk He). assert (Hph := lk_phase _ _ _ _ _ _ _ _ _ _ Hlk).
  assert (Hok : db_ok d) by apply (cm_db _ (proj1 Hph)).
  assert (Hnone : ns_pendingIdentity ss = None).
  { destruct (ns_pendingIdentity ss) as [q|] eqn:Hx; [|done].
    destruct Hph as [Hc _]. apply (cm_some _ Hc) in Hx. cbn in Hx. lia. }
  assert (Hreg : registered s1 c ss1 = true).
  { apply bool_decide_eq_true. by rewrite (to_sessions _ _ _ _ _ Ht1), (to_node _ _ _ _ _ Ht1), Hn. }
  assert (Hp1 : ns_cacheProtocol ss1 = 3) by (destruct (mv_protocol _ _ _ Hm1) as [-> _]; done).
  assert (Hep1 : ns_cacheSessionID ss1 = ns_cacheSessionID ss).
  { pose proof (mv_view _ _ _ Hm1 st l down up k sync store d tokens) as Hv. by apply (f_equal k_epoch) in Hv. }
  destruct (enqueue_moves _ _ _ _ _ _ _ _ _ _ _ (touch_conn _ _ _ _ _ Ht1) Hreg Hp1 Hq) as
    [[-> ->]|(ss' & data & sent & Hprep & Hdata & Ht2 & Hm2)].
  - exists ss1. split; [done|]. eapply linked_db; [by eapply next_revision_ok|by eapply next_revision_evolves|].
    eapply linked_moves; [exact Hm1|done|]. by apply (phase_last n _ last) in Hph.
  - exists ss'. split; [by eapply touch_trans|]. rewrite (to_node _ _ _ _ _ Ht1), Hn, Hep1 in Hprep.
    assert (Hok' : db_ok d') by (eapply push_db_ok; [exact Hok|by eapply push_db_prepare]).
    assert (Hev : evolves n d d') by by eapply prepare_evolves.
    assert (Hrev := next_revision_inv _ _ _ Hnext).
    eapply linked_moves; [exact (moves_trans _ _ _ _ _ Hm1 Hm2)|exact Hlk|].
    refine (phase_prepare n _ d' p last data sent Hph Hr Hpend Hok' Hev (Hca _ Hprep) _ Hdata). cbn. lia.
Qed.

Lemma linked_request s d c now id s' err ss :
  cs_sessions s !! n = Some c → cs_conns s !! c = Some ss → ns_nodeID ss = n → ns_cacheSessionID ss ≠ ""%string →
  linked st l ss down up k sync store d tokens → ns_pendingRevision ss ≤ ns_appliedRevision ss →
  ns_cacheReady ss = false ∨ ns_baselineActive ss = false → (∀ t, id = Some t → t ∉ tokens) →
  requestCacheReset rand_error s c now id = (s', err) →
  ∃ ss', touch s c ss s' ss' ∧
    linked st l ss' down up k sync store d (tokens ∪ match id with Some t => {[t]} | None => ∅ end).
Proof.
  intros Hs Hss Hn He Hlk Hpend Hor Hid Hq. destruct id as [id|].
  - assert (Hreg : registered s c ss = true) by (apply bool_decide_eq_true; by rewrite Hn).
    destruct (request_moves _ _ _ _ _ _ _ Hss Hreg Hq) as (ss' & sent & Ht & Hm). exists ss'. split; [done|].
    eapply linked_moves; [exact Hm|exact Hlk|].
    exact (phase_request n _ id sent (lk_phase _ _ _ _ _ _ _ _ _ _ Hlk) He Hpend (Hid id eq_refl) Hor).
  - injection Hq as <- <-. exists ss. split; [by apply touch_refl|]. by apply linked_tokens.
Qed.
End push.

(** The revision of a message is the one that was allocated for it. *)
Lemma like_touch_moves s c ss f :
  cs_conns s !! c = Some ss → (∀ r, session_like r (f r)) → touch s c ss (update_conn s c f) (f ss).
Proof. intros Hss Hf. destruct (Hf ss) as [_ Hn _ Hc _]. by apply touch_update. Qed.

Section push_linked.
Context (st : stage) (l : ConnectLoop) (down up : list Message) (k : EdgeConn) (sync : bool) (store : Store).
Context (tokens : gset string) (id : option string).
Hypothesis (Hid : ∀ t, id = Some t → t ∉ tokens).
Abbreviation tokens' := (tokens ∪ match id with Some t => {[t]} | None => ∅ end).
Abbreviation outcome s c ss s' d' := (∃ ss', touch s c ss s' ss' ∧ linked st l ss' down up k sync store d' tokens').

Lemma outcome_tokens s c ss s' d' :
  (∃ ss', touch s c ss s' ss' ∧ linked st l ss' down up k sync store d' tokens) → outcome s c ss s' d'.
Proof using. intros (ss' & Ht & Hl). exists ss'. split; [done|]. by apply linked_tokens. Qed.

Lemma outcome_like s c ss s1 d' f :
  (∀ r, session_like r (f r)) → outcome s c ss s1 d' → outcome s c ss (update_conn s1 c f) d'.
Proof using.
  intros Hf (ss1 & Ht & Hl). exists (f ss1). split; [|by eapply linked_like].
  eapply touch_trans; [exact Ht|]. apply like_touch_moves; [by eapply touch_conn|done].
Qed.

(** A page on its way, of a baseline or of the pending users. *)
Lemma push_page s d now sql sent users s1 d1 r s' d' c ss :
  cs_sessions s !! n = Some c → cs_conns s !! c = Some ss → ns_nodeID ss = n →
  linked st l ss down up k sync store d tokens → ns_cacheSessionID ss ≠ ""%string →
  ns_cacheReady ss = true → ns_pendingRevision ss ≤ ns_appliedRevision ss →
  match users with Some _ => true | None => false end = negb (ns_baselineActive ss) →
  identityPageMessage sql_error s d c sql users = (s1, d1, r) →
  match r with inl _ => (s1, d1) | inr m => (enqueueIdentity sql_error s1 d1 c now sent m).1 end = (s', d') →
  ∃ ss', touch s c ss s' ss' ∧ linked st l ss' down up k sync store d' tokens.
Proof using.
  intros Hs Hss Hn Hlk He Hr Hpend Hu Hpg Hq.
  assert (Hok : db_ok d) by apply (cm_db _ (proj1 (lk_phase _ _ _ _ _ _ _ _ _ _ Hlk))).
  unfold identityPageMessage in Hpg. rewrite (conn_some _ _ _ Hss), Hn in Hpg.
  destruct (sql 0%nat); cbn [negb] in Hpg; [|injection Hpg as <- <- <-; injection Hq as <- <-; eauto using touch_refl].
  destruct (ReadNodeIdentityPage _ _ _ _ _) as [e|page] eqn:Hread; [injection Hpg as <- <- <-; injection Hq as <- <-; eauto using touch_refl|].
  destruct (sql 1%nat); cbn [negb] in Hpg; [|injection Hpg as <- <- <-; injection Hq as <- <-; eauto using touch_refl].
  destruct (NextIdentityRevision d) as [e|[d2 rev]] eqn:Hnext; [injection Hpg as <- <- <-; injection Hq as <- <-; eauto using touch_refl|].
  destruct (_ && _ && _) eqn:Hend.
  { injection Hpg as <- <- <-. injection Hq as <- <-. exists ss. split; [by apply touch_refl|].
    eapply linked_db; [by eapply next_revision_ok|by eapply next_revision_evolves|done]. }
  injection Hpg as <- <- <-. set (p := page_snapshot _ _ _ _) in Hq. change rev with (Revision p) in Hq, Hnext.
  destruct (enqueueIdentity _ _ _ _ _ _ _) as [[s2 d3] err] eqn:Henq. injection Hq as <- <-.
  eapply linked_prepare with (last := np_LastID page); [..|exact Henq];
    [done|done|done|done|done|done|lia|by apply touch_update|by constructor|exact Hnext|].
  intros d4 Hprep. unfold p in *. destruct (ns_baselineActive ss).
  - destruct users; [done|]. by eapply carried_baseline.
  - destruct users as [ids|]; [|done]. by eapply carried_incremental.
Qed.

(** The blocked addresses on their way. *)
Lemma push_blocked s d now sql s1 d1 r s' d' c ss :
  cs_sessions s !! n = Some c → cs_conns s !! c = Some ss → ns_nodeID ss = n →
  linked st l ss down up k sync store d tokens → ns_cacheSessionID ss ≠ ""%string →
  ns_cacheReady ss = true → ns_pendingRevision ss ≤ ns_appliedRevision ss → ns_baselineActive ss = false →
  blockedIPMessage sql_error s d c sql = (s1, d1, r) →
  match r with
  | inl _ => (update_conn s1 c (λ r, r <| ns_needsBlockedIPs := true |>), d1)
  | inr m => let '(s2, d2, err) := enqueueIdentity sql_error s1 d1 c now (sql 2%nat) m in
             (if err is Some _ then update_conn s2 c (λ r, r <| ns_needsBlockedIPs := true |>) else s2, d2)
  end = (s', d') →
  outcome s c ss s' d'.
Proof using.
  intros Hs Hss Hn Hlk He Hr Hpend Hb Hbl Hq.
  assert (Hok : db_ok d) by apply (cm_db _ (proj1 (lk_phase _ _ _ _ _ _ _ _ _ _ Hlk))).
  assert (Hfail : outcome s c ss (update_conn s c (λ r, r <| ns_needsBlockedIPs := true |>)) d)
    by (apply outcome_like; [intros; like|apply outcome_tokens; eauto using touch_refl]).
  unfold blockedIPMessage in Hbl. rewrite (conn_some _ _ _ Hss) in Hbl.
  destruct (sql 0%nat); cbn [negb] in Hbl; [|injection Hbl as <- <- <-; by injection Hq as <- <-].
  destruct (sql 1%nat); cbn [negb] in Hbl; [|injection Hbl as <- <- <-; by injection Hq as <- <-].
  destruct (NextIdentityRevision d) as [e|[d2 rev]] eqn:Hnext; [injection Hbl as <- <- <-; by injection Hq as <- <-|].
  injection Hbl as <- <- <-. set (p := blocked_diff _ _ _ _) in Hq. change rev with (Revision p) in Hnext, Hq.
  destruct (enqueueIdentity _ _ _ _ _ _ _) as [[s2 d3] err] eqn:Henq. injection Hq as <- <-.
  assert (Ho : outcome s c ss s2 d3).
  { apply outcome_tokens. eapply linked_prepare with (last := ns_pendingCursor ss); [..|exact Henq];
      [done|done|done|done|done|done|lia|by apply touch_update|by constructor|exact Hnext|].
    intros d4 Hprep. rewrite Hb. eapply carried_none; [done|exact Hnext|done|exact Hprep|..]; try done.
    split; [done|]. split_and!; intros x Hx; by apply not_elem_of_nil in Hx. }
  destruct err; [|done]. apply outcome_like; [intros; like|done].
Qed.

Lemma push_linked s d now sql s' d' c ss :
  cs_sessions s !! n = Some c → cs_conns s !! c = Some ss → ns_nodeID ss = n →
  linked st l ss down up k sync store d tokens →
  pushNodeIdentity sql_error rand_error s d n now id sql = (s', d') → outcome s c ss s' d'.
Proof using Hid.
  intros Hs Hss Hn Hlk. unfold pushNodeIdentity. rewrite Hs, (conn_some _ _ _ Hss).
  assert (Hsame : outcome s c ss s d) by (apply outcome_tokens; eauto using touch_refl).
  destruct (cs_databaseSuspect s); [by intros [= <- <-]|].
  destruct (bool_decide_reflect (ns_cacheSessionID ss = ""%string)) as [|He]; cbn [orb]; [by intros [= <- <-]|].
  destruct (bool_decide_reflect (ns_appliedRevision ss < ns_pendingRevision ss)) as [|Hpend]; [by intros [= <- <-]|].
  assert (Hp := linked_epoch _ _ _ _ _ _ _ _ _ _ Hlk He). rewrite Hp. cbv zeta.
  rewrite !(bool_decide_true (3 ≤ 3)), (bool_decide_true (2 ≤ 3)), !andb_true_r by lia.
  set (reset := let '(s1, err) := requestCacheReset rand_error s c now id in _).
  assert (Hreset : ns_cacheReady ss = false ∨ ns_baselineActive ss = false → reset = (s', d') → outcome s c ss s' d').
  { intros Hor. unfold reset. destruct (requestCacheReset _ _ _ _ _) as [s1 err] eqn:Hr. intros [= <- <-].
    assert (Ho : outcome s c ss s1 d)
      by (eapply linked_request; [exact Hs|exact Hss|exact Hn|exact He|exact Hlk|lia|exact Hor|exact Hid|exact Hr]).
    destruct err; [|done]. apply outcome_like; [apply cancel_like|done]. }
  destruct (ns_cacheReady ss) eqn:Hr; cbn [negb andb];
    [|rewrite andb_true_r; destruct (ns_needsFull ss); [apply Hreset; by left|by intros [= <- <-]]].
  rewrite andb_false_r. cbn [andb].
  destruct (ns_baselineActive ss) eqn:Hb; cbn [negb andb]; rewrite ?andb_false_r, ?andb_true_r; cbn [andb].
  - destruct (identityPageMessage _ _ _ _ _ _) as [[s1 d1] r] eqn:Hpg. intros Hq. apply outcome_tokens.
    eapply push_page; [done..|lia| |exact Hpg|exact Hq]. by rewrite Hb.
  - destruct (ns_needsFull ss); cbn [negb andb]; [apply Hreset; by right|].
    destruct (ns_needsBlockedIPs ss); cbn [andb].
    + destruct (blockedIPMessage _ _ _ _ _) as [[s1 d1] r] eqn:Hbl. intros Hq.
      eapply push_blocked; [done..|lia|done|exact Hbl|]. rewrite <- Hq. by destruct r.
    + destruct (negb (sql 0%nat) || _) eqn:Hemp; [by intros [= <- <-]|].
      destruct (identityPageMessage _ _ _ _ _ _) as [[s1 d1] r] eqn:Hpg. intros Hq. apply outcome_tokens.
      eapply push_page; [done..|lia| |exact Hpg|exact Hq]. by rewrite Hb.
Qed.
End push_linked.

(** ** The steps of the controller keep the invariant *)

Lemma touch_unique s c ss s' x y : touch s c ss s' x → touch s c ss s' y → x = y.
Proof. intros Hx%touch_conn Hy%touch_conn. congruence. Qed.

Lemma inv_push y nodeID now id sql s' d' :
  invariant y → draw y id → pushNodeIdentity sql_error rand_error (y_ctl y) (y_db y) nodeID now id sql = (s', d') →
  invariant ((drawn y id) <| y_ctl := s' |> <| y_db := d' |>).
Proof.
  intros H Hid Hq. destruct (cs_sessions (y_ctl y) !! nodeID) as [c|] eqn:Hc.
  2:{ unfold pushNodeIdentity in Hq. rewrite Hc in Hq. assert (s' = y_ctl y ∧ d' = y_db y) as [-> ->]
        by (destruct (cs_databaseSuspect _); by injection Hq as <- <-). by apply (inv_drawn y id) in H. }
  destruct (iv_sessions _ H _ _ Hc) as (ss & Hss & Hn).
  destruct (push_generic _ _ _ _ _ _ _ _ _ _ Hc Hss Hn (iv_db _ H) (iv_pending _ H _ _ Hss) Hq) as [(ss' & Ht & Hpd) Hdb].
  destruct Ht as [A B C D]. assert (Hev := push_db_evolves _ _ _ n Hdb).
  eapply (inv_conn y _ c ss ss'); cbn; try done; auto.
  - set_solver.
  - eapply push_db_ok; [apply (iv_db _ H)|exact Hdb].
  - by apply (push_db_nodes _ _ _ Hdb).
  - apply (ev_sequence _ _ _ Hev).
  - intros k Hk Hs st l Hl Hlk. exists st, l. split; [done|].
    assert (ns_nodeID ss = n) as Hn'.
    { destruct (iv_sessions _ H _ _ Hs) as (x & Hx & <-). congruence. }
    rewrite Hn in Hn'. subst nodeID. rewrite Hn' in Hq.
    destruct (push_linked st l (y_down y) (y_up y) k _ (y_store y) (y_tokens y) id Hid _ _ _ _ _ _ _ _ Hs Hss ltac:(congruence) Hlk Hq)
      as (ss2 & Ht2 & Hlk2).
    by rewrite (touch_unique _ _ _ _ ss' ss2) by done.
Qed.

(** *** Sessions of the worker *)

Lemma cleared_generic s d c now sql m s' d' err ss :
  cs_conns s !! c = Some ss → pend d ss → acceptCacheCleared sql_error s d c now sql m = (s', d', err) →
  (∃ ss', touch s c ss s' ss' ∧ pend d' ss') ∧
  (d' = d ∨ registered s c ss = true ∧ d' = ResetNodeIdentityCache d (ns_nodeID ss) (ns_cacheSessionID ss) (ns_bootID ss)).
Proof.
  intros Hss Hpd. unfold acceptCacheCleared. rewrite (conn_some _ _ _ Hss).
  assert (Hsame : ∃ ss', touch s c ss s ss' ∧ pend d ss') by eauto using touch_refl.
  destruct (registered s c ss); cbn [andb negb]; [|case_bool_decide; intros [= <- <- <-]; auto].
  destruct (negb _); [case_bool_decide; intros [= <- <- <-]; auto|].
  destruct (ns_cacheReady ss); [intros [= <- <- <-]; auto|]. destruct sql; cbn [negb]; [|intros [= <- <- <-]; auto].
  intros [= <- <- <-]. split; [|by right]. eexists. split; [by apply touch_wake, touch_update|]. done.
Qed.

Lemma confirm_generic s d c now sql m s' d' err ss :
  cs_conns s !! c = Some ss → db_ok d → pend d ss → confirmIdentity sql_error s d c now sql m = (s', d', err) →
  (∃ ss', touch s c ss s' ss' ∧ pend d' ss') ∧ db_ok d' ∧ d_sequence d' = d_sequence d ∧ d_nodes d' = d_nodes d ∧
  (d' = d ∨ registered s c ss = true ∧ ∃ e r users removed full,
     ConfirmNodeIdentityCache d now (ns_nodeID ss) e r users removed full = inr d').
Proof.
  intros Hss Hok Hpd. unfold confirmIdentity. rewrite (conn_some _ _ _ Hss).
  assert (Hsame : ∃ ss', touch s c ss s ss' ∧ pend d ss') by eauto using touch_refl.
  destruct (registered s c ss); cbn [negb]; [|intros [= <- <- <-]; auto 10].
  destruct (_ && _); [intros [= <- <- <-]; auto 10|]. case_bool_decide; [intros [= <- <- <-]; auto 10|].
  destruct (ns_pendingIdentity ss) as [p|] eqn:Hp; [|intros [= <- <- <-]; auto 10].
  destruct (bool_decide_reflect (Revision p = m_Revision m)) as [Hr|]; cbn [negb]; [|intros [= <- <- <-]; auto 10].
  destruct (_ && _); [intros [= <- <- <-]; auto 10|]. destruct sql; cbn [negb]; [|intros [= <- <- <-]; auto 10].
  destruct (ConfirmNodeIdentityCache _ _ _ _ _ _ _ _) as [e|d1] eqn:Hc; [intros [= <- <- <-]; auto 10|].
  assert (Hdb : db_ok d1 ∧ d_sequence d1 = d_sequence d ∧ d_nodes d1 = d_nodes d).
  { split; [eapply confirm_ok; [done| |exact Hc]; rewrite <- Hr; by apply Hpd|].
    apply rbind_inr in Hc as (x & _ & [= <-]). done. }
  set (ss1 := confirmed_session _ _ _).
  assert (H1 : ns_nodeID ss1 = ns_nodeID ss ∧ ns_cancelled ss1 = ns_cancelled ss ∧ ns_pendingIdentity ss1 = None)
    by (unfold ss1, confirmed_session; by destruct (Baseline p)).
  destruct H1 as (Hn1 & Hc1 & Hp1). destruct Hdb as (Hok1 & Hseq & Hno).
  assert (Hout : ∀ x, ns_nodeID x = ns_nodeID ss1 → ns_cancelled x = ns_cancelled ss1 → ns_pendingIdentity x = None →
    touch s c ss (update_conn s c (λ _, x)) x ∧ pend d1 x).
  { intros x Hx1 Hx2 Hx3. split; [apply (touch_update _ _ _ (λ _, x)); [done|congruence|congruence]|]. intros q. congruence. }
  assert (Hd : d1 = d ∨ true = true ∧ ∃ e r users removed full,
     ConfirmNodeIdentityCache d now (ns_nodeID ss) e r users removed full = inr d1) by eauto 10.
  case_bool_decide; [destruct (try_send ss1 _) as [ss2|] eqn:Hs|]; intros [= <- <- <-]; (split; [|done]).
  - destruct (Hout ss2) as [Ht Hp2]; [by apply try_send_fields in Hs as ->..|].
    eexists. split; [by apply touch_wake|exact Hp2].
  - by eexists; apply Hout.
  - destruct (Hout ss1) as [Ht Hp2]; [done..|]. eexists. split; [by apply touch_wake|exact Hp2].
Qed.

(** *** The worker of the edge's session *)

Section worker_linked.
Context (l : ConnectLoop) (down up : list Message) (k : EdgeConn) (sync : bool) (store : Store) (tokens : gset string).

Lemma queued_up ss d m x :
  m ∈ queued l → up_view m = Some x → x ∈ ups (link_of Streaming l ss down up k sync store d tokens).
Proof. intros Hm Hx. unfold ups. cbn. apply elem_of_app. left. apply list_elem_of_omap. eauto. Qed.

Lemma cleared_linked s d c now sql m s' d' err ss :
  cs_sessions s !! n = Some c → cs_conns s !! c = Some ss → ns_nodeID ss = n →
  linked Streaming l ss down up k sync store d tokens → m ∈ queued l → m_Type m = "cache_cleared"%string →
  acceptCacheCleared sql_error s d c now sql m = (s', d', err) →
  ∃ ss', touch s c ss s' ss' ∧ linked Streaming l ss' down up k sync store d' tokens.
Proof.
  intros Hs Hss Hn Hlk Hm Hty. unfold acceptCacheCleared. rewrite (conn_some _ _ _ Hss).
  assert (Hsame : ∃ ss', touch s c ss s ss' ∧ linked Streaming l ss' down up k sync store d tokens) by eauto using touch_refl.
  destruct (bool_decide_reflect (m_CacheSessionID m = ns_cacheSessionID ss)) as [He|];
    [|rewrite andb_false_r; by intros [= <- <- <-]].
  destruct (negb _); [by intros [= <- <- <-]|].
  destruct (ns_cacheReady ss) eqn:Hr; [by intros [= <- <- <-]|]. destruct sql; cbn [negb]; [|by intros [= <- <- <-]].
  intros [= <- <- <-]. eexists. split; [by apply touch_wake, touch_update|].
  eapply linked_moves with (f := λ x, x <| k_ready := true |> <| k_baseline := true |> <| k_cursor := 0 |>
    <| k_pending := 0 |> <| k_applied := 0 |> <| k_snapshot := None |>); [|exact Hlk|]; [by constructor|].
  rewrite Hn. refine (phase_cleared n _ (ns_bootID ss) (lk_phase _ _ _ _ _ _ _ _ _ _ Hlk) eq_refl Hr _).
  cbn. eapply (queued_up ss d m); [done|]. unfold up_view. rewrite Hty. cbn. by rewrite He.
Qed.

Definition confirm_link (p : IdentitySnapshot) (sent : bool) (x : Link) : Link :=
  x <| k_applied := Revision p |> <| k_snapshot := None |> <| k_payload := [] |>
    <| k_cursor := if Baseline p then k_last x else k_cursor x |>
    <| k_baseline := if Baseline p then negb (BaselineEnd p) else k_baseline x |>
    <| k_down := k_down x ++ (if sent then [Confirmed (k_epoch x) (Revision p) (negb (Baseline p) || BaselineEnd p)] else []) |>.

Lemma confirmed_moves p ss : moves (confirm_link p false) ss (confirmed_session p (Revision p) ss).
Proof.
  unfold confirmed_session. constructor; destruct (Baseline p) eqn:Hb; cbn; auto;
    intros; unfold link_of, confirm_link; cbn; by rewrite Hb, app_nil_r.
Qed.

Lemma confirm_linked s d c now sql m s' d' err ss :
  cs_sessions s !! n = Some c → cs_conns s !! c = Some ss → ns_nodeID ss = n →
  linked Streaming l ss down up k sync store d tokens → m ∈ queued l → m_Type m = "identity_ack"%string →
  confirmIdentity sql_error s d c now sql m = (s', d', err) →
  ∃ ss', touch s c ss s' ss' ∧ linked Streaming l ss' down up k sync store d' tokens.
Proof.
  intros Hs Hss Hn Hlk Hm Hty. unfold confirmIdentity. rewrite (conn_some _ _ _ Hss).
  assert (Hsame : ∃ ss', touch s c ss s ss' ∧ linked Streaming l ss' down up k sync store d tokens) by eauto using touch_refl.
  destruct (negb _); [by intros [= <- <- <-]|].
  assert (Hp3 : ns_cacheProtocol ss = 3) by by apply (lk_protocol _ _ _ _ _ _ _ _ _ _ Hlk). rewrite Hp3.
  rewrite (bool_decide_true (2 ≤ 3)), (bool_decide_true (3 ≤ 3)) by lia. cbn [andb].
  destruct (bool_decide_reflect (m_CacheSessionID m = ns_cacheSessionID ss)) as [He|]; cbn [negb]; [|by intros [= <- <- <-]].
  case_bool_decide; [by intros [= <- <- <-]|].
  destruct (ns_pendingIdentity ss) as [p|] eqn:Hp; [|by intros [= <- <- <-]].
  destruct (bool_decide_reflect (Revision p = m_Revision m)) as [Hr|]; cbn [negb]; [|by intros [= <- <- <-]].
  destruct (negb _); [by intros [= <- <- <-]|]. destruct sql; cbn [negb]; [|by intros [= <- <- <-]].
  rewrite <- Hr, Hn.
  destruct (ConfirmNodeIdentityCache _ _ _ _ _ _ _ _) as [e|d1] eqn:Hc; [by intros [= <- <- <-]|].
  assert (Hup : IdentityAck (ns_cacheSessionID ss) (Revision p) ∈ ups (link_of Streaming l ss down up k sync store d tokens)).
  { eapply (queued_up ss d m); [done|]. unfold up_view. rewrite Hty. cbn. by rewrite He, Hr. }
  assert (Hph := λ sent, phase_confirm n _ p now d1 sent (lk_phase _ _ _ _ _ _ _ _ _ _ Hlk) Hp Hup Hc).
  assert (Hmv := confirmed_moves p ss). set (ss1 := confirmed_session _ _ _) in *.
  assert (Hf : ns_nodeID ss1 = ns_nodeID ss ∧ ns_cancelled ss1 = ns_cancelled ss)
    by (unfold ss1, confirmed_session; by destruct (Baseline p)). destruct Hf as [Hf1 Hf2].
  destruct (try_send ss1 _) as [ss2|] eqn:Hsend; intros [= <- <- <-].
  - exists ss2. split.
    + apply touch_wake, (touch_update _ _ _ (λ _, ss2)); [done|..]; apply try_send_fields in Hsend as ->; cbn; congruence.
    + eapply try_send_moves in Hsend; [|by cbn|by repeat split].
      eapply linked_moves; [exact (moves_trans _ _ _ _ _ Hmv Hsend)|exact Hlk|].
      pose proof (Hph true) as Hx. revert Hx. unfold confirm_link, compose. cbn. rewrite app_nil_r.
      replace (ns_cacheSessionID ss1) with (ns_cacheSessionID ss) by (unfold ss1, confirmed_session; by destruct (Baseline p)).
      done.
  - exists ss1. split; [apply (touch_update _ _ _ (λ _, ss1)); [done|congruence|congruence]|].
    eapply linked_moves; [exact Hmv|exact Hlk|]. exact (Hph false).
Qed.
End worker_linked.

(** *** Steps of one connection *)

(** The step of a connection leaves the others alone; the connection is closed
    when the step fails. *)
Lemma inv_or_close y y1 c ss ss' st l st' l' err :
  invariant y → y_loops y !! c = Some (st, l) → cs_conns (y_ctl y) !! c = Some ss → touch (y_ctl y) c ss (y_ctl y1) ss' →
  y_loops y1 = y_loops y → y_next y1 = y_next y → y_client y1 = y_client y → y_store y1 = y_store y → y_conn y1 = y_conn y →
  y_gone y1 = y_gone y → y_tokens y ⊆ y_tokens y1 → (is_edge y c = false → y_up y1 = y_up y ∧ y_down y1 = y_down y) →
  db_ok (y_db y1) → d_nodes (y_db y1) = d_nodes (y_db y) → pend (y_db y1) ss' → d_sequence (y_db y) ≤ d_sequence (y_db y1) →
  (∀ c', c' ≠ c → cs_sessions (y_ctl y) !! n = Some c' → evolves n (y_db y) (y_db y1)) →
  (err = None → ∀ k, y_conn y = Some (c, k) → cs_sessions (y_ctl y) !! n = Some c → ns_nodeID ss = n →
    linked st l ss (y_down y) (y_up y) k (edc_syncReady (y_client y)) (y_store y) (y_db y) (y_tokens y) →
    linked st' l' ss' (y_down y1) (y_up y1) k (edc_syncReady (y_client y)) (y_store y) (y_db y1) (y_tokens y1)) →
  invariant (or_close (set_loop y1 c st' l') c err).
Proof.
  intros H Hl Hss [A B C D] Hloops Hnext Hcli Hsto Hcon Hgo Htok Hedge Hok Hnod Hpend Hseq Hev Hlink.
  destruct err as [e|]; cbn [or_close].
  - assert (Hun : ∀ s, cs_conns (unregister s c) = cs_conns s) by (intros s; unfold unregister; by destruct (registered _ _ _)).
    assert (Hreg : registered (y_ctl y1) c (conn (y_ctl y1) c) = registered (y_ctl y) c (conn (y_ctl y) c)).
    { unfold registered, conn. by rewrite A, B, lookup_insert_eq, Hss; cbn; rewrite C. }
    assert (Hcn : ns_nodeID (conn (y_ctl y1) c) = ns_nodeID (conn (y_ctl y) c))
      by (unfold conn; by rewrite A, lookup_insert_eq, Hss).
    assert (Hsame : cs_sessions (unregister (y_ctl y1) c) = cs_sessions (unregister (y_ctl y) c))
      by (unfold unregister; cbv zeta; rewrite Hreg, Hcn; destruct (registered (y_ctl y) _ _); cbn; by rewrite B).
    assert (Hkept : ∀ m c', cs_sessions (unregister (y_ctl y) c) !! m = Some c' → cs_sessions (y_ctl y) !! m = Some c').
    { intros m c'. unfold unregister. cbv zeta. destruct (registered (y_ctl y) _ _); cbn; [|done]. by intros [_ ?]%lookup_delete_Some. }
    assert (Hgone : cs_sessions (unregister (y_ctl y) c) !! n ≠ Some c).
    { intros Hs. destruct (iv_sessions _ H _ _ (Hkept _ _ Hs)) as (x & Hx & Hn). revert Hs. unfold unregister, registered. cbv zeta.
      rewrite (conn_some _ _ _ Hx), Hn. case_bool_decide as Hr; cbn; [by rewrite lookup_delete_eq|]. done. }
    eapply (inv_conn (close y c) _ c ss ss'); cbn; rewrite ?Hun, ?Hloops, ?Hcli, ?Hsto; try done.
    + by apply inv_close.
    + intros c' Hne. by rewrite !lookup_delete_ne, lookup_insert_ne.
    + rewrite lookup_delete_eq. by intros [].
    + intros c' Hne Hs%Hkept. by eapply Hev.
  - eapply (inv_conn y _ c ss ss'); cbn; rewrite ?Hloops, ?Hcli, ?Hsto; try done.
    + intros c' Hne. by rewrite lookup_insert_ne.
    + intros k Hk Hs st0 l0 Hl0 Hlk. rewrite Hl in Hl0. injection Hl0 as <- <-. exists st', l'. rewrite lookup_insert_eq.
      split; [done|]. apply Hlink; [done..| |done]. destruct (iv_sessions _ H _ _ Hs) as (x & Hx & Hn). congruence.
Qed.

(** The connection [c] of a loop has a session. *)
Lemma loop_session y c x : invariant y → y_loops y !! c = Some x → ∃ ss, cs_conns (y_ctl y) !! c = Some ss ∧ pend (y_db y) ss.
Proof. intros H Hl. destruct (iv_loops _ H c) as [ss Hss]; [eauto|]. exists ss. split; [done|]. by eapply iv_pending. Qed.

(** The step of a connection that leaves the database alone. *)
Lemma inv_loop y y1 c ss ss' st l st' l' err :
  invariant y → y_loops y !! c = Some (st, l) → cs_conns (y_ctl y) !! c = Some ss → touch (y_ctl y) c ss (y_ctl y1) ss' →
  y_loops y1 = y_loops y → y_next y1 = y_next y → y_client y1 = y_client y → y_store y1 = y_store y → y_conn y1 = y_conn y →
  y_gone y1 = y_gone y → y_tokens y ⊆ y_tokens y1 → (is_edge y c = false → y_up y1 = y_up y ∧ y_down y1 = y_down y) →
  y_db y1 = y_db y → ns_pendingIdentity ss' = ns_pendingIdentity ss →
  (err = None → ∀ k, y_conn y = Some (c, k) → cs_sessions (y_ctl y) !! n = Some c → ns_nodeID ss = n →
    linked st l ss (y_down y) (y_up y) k (edc_syncReady (y_client y)) (y_store y) (y_db y) (y_tokens y) →
    linked st' l' ss' (y_down y1) (y_up y1) k (edc_syncReady (y_client y)) (y_store y) (y_db y) (y_tokens y1)) →
  invariant (or_close (set_loop y1 c st' l') c err).
Proof.
  intros H Hl Hss Ht A B C D E F G I Hdb Hp Hlink. eapply (inv_or_close y); try done; rewrite ?Hdb; try apply H; try done.
  - by eapply pend_mono, iv_pending.
  - intros. apply evolves_refl.
Qed.

Lemma next_message_inv y c m y1 :
  next_message y c m y1 → ∃ up, y1 = y <| y_up := up |> ∧ (is_edge y c = false → up = y_up y) ∧ (is_edge y c = true → y_up y = m :: up).
Proof.
  unfold next_message. destruct (is_edge y c); [intros (rest & Hu & ->); by exists rest|]. intros ->. exists (y_up y). by destruct y.
Qed.
Lemma is_edge_true y c k : y_conn y = Some (c, k) → is_edge y c = true.
Proof. unfold is_edge. intros ->. by apply bool_decide_true. Qed.

Lemma inv_hello y y1 c l m s' err :
  invariant y → y_loops y !! c = Some (AwaitHello, l) → next_message y c m y1 → accept_hello (y_ctl y) c m = (s', err) →
  invariant (or_close (set_loop (y1 <| y_ctl := s' |>) c AwaitEpoch l) c err).
Proof.
  intros H Hl (up & -> & Hup1 & Hup2)%next_message_inv Hq. destruct (loop_session _ _ _ H Hl) as (ss & Hss & _).
  assert (Ht : ∃ ss', touch (y_ctl y) c ss s' ss' ∧ ns_pendingIdentity ss' = ns_pendingIdentity ss ∧
    (err = None → m_Type m = "hello"%string ∧ ns_cacheProtocol ss' = m_CacheProtocol m ∧
      ns_admissionProtocol ss' = m_AdmissionProtocol m ∧ ns_send ss' = ns_send ss ∧
      ∀ st l down up k sync store d tokens,
        link_of st l ss' down up k sync store d tokens = link_of st l ss down up k sync store d tokens)).
  { revert Hq. unfold accept_hello. cbv zeta.
    destruct (bool_decide_reflect (m_Type m = "hello"%string)) as [Hty|]; cbn [negb orb];
      [|intros [= <- <-]; eexists; split_and!; [by apply touch_refl|done|done]].
    destruct (negb _); [intros [= <- <-]; eexists; split_and!; [by apply touch_refl|done|done]|].
    destruct (bool_decide (128 < _)); [intros [= <- <-]; eexists; split_and!; [by apply touch_refl|done|done]|].
    set (f := λ r, r <| ns_bootID := _ |> <| ns_cacheProtocol := _ |> <| ns_admissionProtocol := _ |>).
    assert (Ht1 : touch (y_ctl y) c ss (update_conn (y_ctl y) c f) (f ss)) by by apply (touch_update _ _ _ f).
    destruct (_ && _); intros [= <- <-]; [eexists; split_and!; [exact Ht1|done|done]|].
    eexists. split; [eapply touch_trans; [exact Ht1|]; by apply touch_update; [eapply touch_conn, Ht1|..]|]. done. }
  destruct Ht as (ss' & Ht & Hp & Hok). eapply (inv_loop y _ c ss ss'); cbn; try done; auto.
  intros He k Hk Hs Hn Hlk. destruct (Hok He) as (Hty & Hp1 & Hp2 & Hsend & Hview).
  assert (Hu := Hup2 (is_edge_true _ _ _ Hk)). destruct Hlk. destruct (lk_hello0 eq_refl) as (h & rest & Hh & Hh1 & Hh2).
  rewrite Hu in Hh. injection Hh as <- Hh. constructor; auto.
  - rewrite (to_node _ _ _ _ _ Ht). done.
  - intros _. rewrite Hp1, Hp2. done.
  - done.
  - by rewrite Hsend.
  - rewrite Hview. rewrite Hu in lk_phase0. apply phase_hello in lk_phase0; [|done].
    revert lk_phase0. unfold link_of. cbn. unfold up_view at 1. by rewrite Hty.
Qed.

Lemma inv_epoch y c l id :
  invariant y → y_loops y !! c = Some (AwaitEpoch, l) → draw y (Some id) →
  invariant (set_loop ((drawn y (Some id)) <| y_ctl := open_epoch (y_ctl y) c id |>) c (AwaitWelcome id) l).
Proof.
  intros H Hl Hid. destruct (loop_session _ _ _ H Hl) as (ss & Hss & _).
  set (f := λ r : nodeSession, r <| ns_cacheSessionID := id |>).
  eapply (inv_loop y _ c ss (f ss) _ l _ _ None); cbn; try done; [by apply (touch_update _ _ _ f)|set_solver|].
  intros _ k Hk Hs Hn Hlk. destruct Hlk. constructor; auto; [done|]. by apply (phase_open n _ id) in lk_phase0; [|done|by apply Hid].
Qed.

Lemma enqueue_inv s c m s' ss :
  cs_conns s !! c = Some ss → enqueue s c m = Some s' →
  ∃ ss', try_send ss m = Some ss' ∧ touch s c ss s' ss' ∧ ns_pendingIdentity ss' = ns_pendingIdentity ss.
Proof.
  intros Hss. unfold enqueue. rewrite (conn_some _ _ _ Hss). intros (ss' & Hs & [= <-])%bind_Some. exists ss'.
  split; [done|]. apply try_send_fields in Hs as ->. split; [|done]. by apply (touch_update _ _ _ (λ _, ss <| ns_send := _ |>)).
Qed.

(** The receive loop and the stage may change as well. *)
Lemma linked_loop f st st' l l' ss ss' down up up' k sync store d d' tokens tokens' :
  moves f ss ss' → linked st l ss down up k sync store d tokens → st ≠ AwaitHello → st' ≠ AwaitHello →
  (∀ m, cl_awaiting l' = Some m → aside m) → Forall (λ m, identity_job m = true) (queued l') →
  phase n (f (link_of st' l' ss down up' k sync store d' tokens')) → linked st' l' ss' down up' k sync store d' tokens'.
Proof.
  intros [V N [P1 P2] G] H Hst Hst' Ha Hq Hp. destruct H. constructor; auto; [congruence| |done|by rewrite V].
  intros _. rewrite P1, P2. auto.
Qed.

Lemma inv_welcome y c l id observed s' :
  invariant y → y_loops y !! c = Some (AwaitWelcome id, l) →
  enqueue (y_ctl y) c (welcome_message (y_ctl y) c id observed) = Some s' →
  invariant (set_loop (y <| y_ctl := s' |>) c (AwaitSync id) l).
Proof.
  intros H Hl Hq. destruct (loop_session _ _ _ H Hl) as (ss & Hss & _).
  destruct (enqueue_inv _ _ _ _ _ Hss Hq) as (ss' & Hsend & Ht & Hp).
  eapply (inv_loop y _ c ss ss' _ l _ _ None); cbn; try done.
  intros _ k Hk Hs Hn Hlk.
  assert (Hp3 : ns_cacheProtocol ss = 3) by by apply (lk_protocol _ _ _ _ _ _ _ _ _ _ Hlk).
  eapply try_send_moves in Hsend; [|by cbn|].
  2:{ split_and!; [|done..]. intros _. unfold welcome_message. rewrite (conn_some _ _ _ Hss), Hp3. by eexists. }
  eapply linked_loop; [exact Hsend|exact Hlk|done|done|apply Hlk|apply Hlk|].
  exact (phase_welcome n _ id (lk_phase _ _ _ _ _ _ _ _ _ _ Hlk) eq_refl).
Qed.

Lemma start_generic s d c now id sql s' d' err ss :
  cs_conns s !! c = Some ss → db_ok d → pend d ss → start_sync sql_error s d c now id sql = (s', d', err) →
  (∃ ss', touch s c ss s' ss' ∧ pend d' ss') ∧
  (d' = d ∨ ns_cancelled ss = false ∧ ns_cacheProtocol ss < 3 ∧
     push_db (ResetNodeIdentityCache d (ns_nodeID ss) id (ns_bootID ss)) (ns_nodeID ss) d').
Proof.
  intros Hss Hok Hpd. unfold start_sync. rewrite (conn_some _ _ _ Hss). cbv zeta.
  case_bool_decide as Hp3; [|intros [= <- <- <-]; split; [|by left]; eexists; split; [by apply touch_update|done]].
  destruct (negb (sql 0%nat)); [intros [= <- <- <-]; split; [eauto using touch_refl|by left]|].
  destruct (ns_cancelled ss) eqn:Hc; [intros [= <- <- <-]; split; [eauto using touch_refl|by left]|].
  cbn [orb]. set (d1 := ResetNodeIdentityCache _ _ _ _).
  assert (Hok1 : db_ok d1) by by apply reset_ok.
  assert (Ht1 : touch s c ss (update_conn s c (λ r, r <| ns_cacheReady := true |>)) (ss <| ns_cacheReady := true |>))
    by (apply touch_update; [done|done|by rewrite Hc]).
  destruct (identitySnapshotForUsers _ _ _ _ _) as [d2 r] eqn:Hb. apply legacy_generic in Hb; [|done].
  assert (Hd2 := built_push _ _ _ (ns_nodeID ss) Hb).
  destruct r as [e|m]; [intros [= <- <- <-]|intros Hq].
  - split; [|right; auto]. eexists. split; [exact Ht1|]. eapply (pend_mono d1); [by eapply push_db_sequence|done|done].
  - destruct (enqueue_push _ _ d1 _ _ _ _ _ _ _ _ ss _ Ht1 eq_refl Hpd Hb Hq) as [He Hdb]. split; [done|]. auto.
Qed.

Lemma inv_sync y c l id now sql s' d' err :
  invariant y → y_loops y !! c = Some (AwaitSync id, l) → start_sync sql_error (y_ctl y) (y_db y) c now id sql = (s', d', err) →
  invariant (or_close (set_loop (y <| y_ctl := s' |> <| y_db := d' |>) c Streaming l) c err).
Proof.
  intros H Hl Hq. destruct (loop_session _ _ _ H Hl) as (ss & Hss & Hpd).
  destruct (start_generic _ _ _ _ _ _ _ _ _ _ Hss (iv_db _ H) Hpd Hq) as [(ss' & Ht & Hp) Hd].
  assert (Hdb : db_ok d' ∧ d_nodes d' = d_nodes (y_db y) ∧ d_sequence (y_db y) ≤ d_sequence d' ∧
    (ns_nodeID ss ≠ n → evolves n (y_db y) d')).
  { destruct Hd as [->|(_ & _ & Hdb)].
    - split_and!; [apply H|done|done|intros; apply evolves_refl].
    - assert (Hev := push_db_evolves _ _ _ n Hdb). split_and!.
      + eapply push_db_ok; [by apply reset_ok, H|exact Hdb].
      + by rewrite (push_db_nodes _ _ _ Hdb).
      + apply (ev_sequence _ _ _ Hev).
      + intros Hne. eapply evolves_trans; [by apply reset_evolves_other|exact Hev]. }
  destruct Hdb as (A & B & C & D).
  eapply (inv_or_close y _ c ss ss'); cbn; try done.
  - intros c' Hne Hs. destruct (decide (ns_nodeID ss = n)) as [He|]; [|auto].
    destruct Hd as [->|(Hc & _)]; [apply evolves_refl|].
    destruct (iv_cancel _ H c ss) as [Hx|Hx]; [eauto|done|congruence|congruence].
  - intros _ k Hk Hs Hn Hlk. revert Hq. unfold start_sync. rewrite (conn_some _ _ _ Hss).
    assert (ns_cacheProtocol ss = 3) as -> by by apply (lk_protocol _ _ _ _ _ _ _ _ _ _ Hlk). cbn. intros [= <- <- <-].
    eapply touch_unique in Ht; [|by apply touch_update]. subst ss'.
    eapply (linked_loop (λ x, x)); [|exact Hlk|..]; [by constructor|done|done|apply Hlk|apply Hlk|].
    exact (phase_stream n _ id (lk_phase _ _ _ _ _ _ _ _ _ _ Hlk) eq_refl).
Qed.

(** *** The receive loop *)

Lemma touch_same s c ss s1 ss1 s2 :
  touch s c ss s1 ss1 → cs_conns s2 = cs_conns s1 → cs_sessions s2 = cs_sessions s1 → touch s c ss s2 ss1.
Proof. intros [A B C D] Hc Hs. constructor; auto; congruence. Qed.

Lemma progress_generic s c now m s' err ss :
  cs_conns s !! c = Some ss → acceptIdentityProgress s c now m = (s', err) →
  ∃ ss', touch s c ss s' ss' ∧ ns_pendingIdentity ss' = ns_pendingIdentity ss.
Proof.
  intros Hss. unfold acceptIdentityProgress. rewrite (conn_some _ _ _ Hss). cbv zeta.
  assert (Hsame : ∃ ss', touch s c ss s ss' ∧ ns_pendingIdentity ss' = ns_pendingIdentity ss) by eauto using touch_refl.
  destruct (_ && _); [by intros [= <- <-]|]. destruct (_ && _); [by intros [= <- <-]|].
  destruct (_ || _); [by intros [= <- <-]|]. destruct (bool_decide (m_Type m = _)).
  { case_bool_decide; intros [= <- <-]; [|done]. eexists. split; [by apply touch_update|done]. }
  destruct (bool_decide (m_Sequence m < _)); [by intros [= <- <-]|].
  destruct (_ || _); [by intros [= <- <-]|]. cbn. destruct (bool_decide (ns_chunkIndex ss + 1 < _)).
  - destruct (sendIdentityChunkLocked _) as [ss1 e] eqn:Hs. apply chunk_send_fields in Hs as [send ->]. intros [= <- <-].
    eexists. split; [by apply (touch_update _ _ _ (λ _, _))|done].
  - intros [= <- <-]. eexists. split; [by apply (touch_update _ _ _ (λ _, _))|done].
Qed.

Lemma touch_session_touch s c now m ss :
  cs_conns s !! c = Some ss → ∃ ss', touch s c ss (touch_session s c now m) ss' ∧ session_like ss ss'.
Proof.
  intros Hss. unfold touch_session. destruct (registered _ _ _); [|eauto using touch_refl, session_like_refl].
  match goal with |- context [update_conn _ _ ?g] => set (f := g) end. exists (f ss).
  assert (Hf : session_like ss (f ss)) by (unfold f; destruct (bool_decide _); like).
  split; [apply (touch_update _ _ _ f)|done]; [done|apply Hf|apply Hf].
Qed.

Lemma enqueue_aside s c m s' ss :
  cs_conns s !! c = Some ss → aside m → enqueue s c m = Some s' → ∃ ss', touch s c ss s' ss' ∧ session_like ss ss'.
Proof.
  intros Hss Ha Hq. destruct (enqueue_inv _ _ _ _ _ Hss Hq) as (ss' & Hs & Ht & _). eauto using try_send_like.
Qed.

(** What the receive loop does after the acknowledgements. *)
Definition job_loop (l : ConnectLoop) (m : Message) : ConnectLoop :=
  if negb (progress_message m) && identity_job m && bool_decide (length (cl_identityJobs l) < 128)%nat
  then l <| cl_identityJobs := cl_identityJobs l ++ [m] |> else l.
Lemma receive_inv s l c now observed m s' l' err ss :
  cs_conns s !! c = Some ss → receive s l c now observed m = (s', l', err) →
  (s' = s ∧ is_Some err) ∨
  ∃ s1 ss1 s2 e, touch s c ss s1 ss1 ∧ session_like ss ss1 ∧
    (if progress_message m then acceptIdentityProgress s1 c now m else (s1, None)) = (s2, e) ∧
    ((is_Some e ∧ err = e ∧ s' = s2) ∨
     (e = None ∧ err = None ∧ (cl_awaiting l = None → ∀ q, cl_awaiting l' = Some q → aside q) ∧
      queued l' = queued (job_loop l m) ∧
      ∀ ss2, cs_conns s2 !! c = Some ss2 → ∃ ss3, touch s2 c ss2 s' ss3 ∧ session_like ss2 ss3)).
Proof.
  intros Hss. unfold receive. destruct (negb _); [intros [= <- <- <-]; left; eauto|]. intros Hq. right.
  destruct (touch_session_touch s c now m ss Hss) as (ss1 & Ht1 & L1). set (s1 := touch_session s c now m) in *.
  cbv zeta in Hq. set (caps := if bool_decide (ns_capabilities _ = _) then _ else _) in Hq.
  destruct (if progress_message m then _ else _) as [s2 e] eqn:Hp in Hq. exists s1, ss1, s2, e.
  split_and!; [done..|]. destruct e as [e|]; [injection Hq as <- <- <-; eauto|]. right. split; [done|].
  change (if negb (progress_message m) && _ && _ then _ else l) with (job_loop l m) in Hq.
  set (l2 := if _ || _ || _ then _ else job_loop l m) in Hq.
  assert (Hl2 : queued l2 = queued (job_loop l m) ∧ cl_awaiting l2 = cl_awaiting l).
  { unfold l2. destruct (_ || _ || _); [destruct (cl_touchJobs _)|]; (split; [done|]); unfold job_loop; by destruct (_ && _ && _). }
  destruct Hl2 as [Hl2 Ha].
  assert (Hsame : ∀ ss2, cs_conns s2 !! c = Some ss2 → ∃ ss3, touch s2 c ss2 s2 ss3 ∧ session_like ss2 ss3)
    by eauto using touch_refl, session_like_refl.
  assert (Haw : cl_awaiting l = None → ∀ q, cl_awaiting l2 = Some q → aside q) by (rewrite Ha; by intros ->).
  destruct (bool_decide (m_Type m = "heartbeat"%string)).
  - set (ack := (message _ _) <| m_Sequence := _ |> <| m_Payload := _ |>) in Hq.
    assert (Hack : aside ack) by by repeat split.
    destruct (enqueue s2 c ack) as [s3|] eqn:He; injection Hq as <- <- <-; (split_and!; [done|..]); try done.
    + intros ss2 H2. by eapply enqueue_aside.
    + intros _ q [= <-]. done.
  - destruct (telemetry_message m); [case_bool_decide|]; injection Hq as <- <- <-; (split_and!; [done|..]); try done.
    intros ss2 H2. exists ss2. split; [|apply session_like_refl]. eapply touch_same; [by apply touch_refl|..];
      unfold deliverCommandResult; by destruct (cs_commandWaiters s2 !! _) as [[]|].
Qed.

#[local] Arguments up_view : simpl never.
Section receive_linked.
Context (l : ConnectLoop) (down : list Message) (k : EdgeConn) (sync : bool) (store : Store) (d : ControllerDB).
Context (tokens : gset string).

(** A message that the controller ignores. *)
Lemma linked_drop ss m up :
  linked Streaming l ss down (m :: up) k sync store d tokens →
  (∀ s, up_view m = Some (ChunkAck (ns_cacheSessionID ss) (ns_pendingRevision ss) s) → ns_pendingIdentity ss = None) →
  linked Streaming l ss down up k sync store d tokens.
Proof.
  intros Hlk Hm. eapply (linked_loop (λ x, x)); [by constructor|exact Hlk|done|done|apply Hlk|apply Hlk|].
  pose proof (lk_phase _ _ _ _ _ _ _ _ _ _ Hlk) as Hph. pose proof (cm_queue _ (proj1 Hph)) as Hq.
  apply (phase_ups n _ (omap up_view (up ++ ek_send k)) (omap up_view (queued l))) in Hph; [done|..].
  - intros x. unfold ups. cbn. destruct (up_view m); [|done]. set_solver.
  - exact Hq.
  - cbn. intros Hsn. unfold acks. cbn. destruct (up_view m) as [[e r s| |]|] eqn:Hv; cbn; try done.
    case_bool_decide as Hb; [|done]. destruct Hb as [-> ->]. by destruct Hsn; eapply Hm.
Qed.

Lemma omap_some m x ms : up_view m = Some x → omap up_view (m :: ms) = x :: omap up_view ms.
Proof. intros Hv. change (omap up_view (m :: ms)) with (match up_view m with Some y => y :: omap up_view ms | None => omap up_view ms end). by rewrite Hv. Qed.
Lemma omap_none m ms : up_view m = None → omap up_view (m :: ms) = omap up_view ms.
Proof. intros Hv. change (omap up_view (m :: ms)) with (match up_view m with Some y => y :: omap up_view ms | None => omap up_view ms end). by rewrite Hv. Qed.

Lemma ack_fits ss m s up :
  linked Streaming l ss down (m :: up) k sync store d tokens → ns_pendingIdentity ss ≠ None →
  up_view m = Some (ChunkAck (ns_cacheSessionID ss) (ns_pendingRevision ss) s) →
  s = ns_chunkIndex ss ∧ 0 ≤ ns_chunkIndex ss ∧
  (ns_chunkIndex ss + 1 < ns_chunkTotal ss → ∃ data, chunk_data (ns_pendingPayload ss) (ns_chunkIndex ss + 1) = Some data).
Proof.
  intros Hlk Hsn Hv. pose proof (lk_phase _ _ _ _ _ _ _ _ _ _ Hlk) as Hph.
  eapply phase_ack_index in Hph as (Hs & _ & p & Ht & H); [|done|by apply omap_some]. cbn in *.
  assert (H0 : 0 ≤ ns_chunkIndex ss) by (destruct H as [H|[H _]]; apply H). split_and!; [done..|].
  intros Hlt. destruct Ht. cbn in *. destruct tr_payload as [-> Htot].
  destruct (chunk_data_spec (Marshal p) (ns_chunkIndex ss + 1)) as (data & Hd & _); [|by eexists]. rewrite Htot in Hlt. lia.
Qed.

Lemma ack_linked s c now m s' ss up sq :
  linked Streaming l ss down (m :: up) k sync store d tokens → cs_conns s !! c = Some ss → ns_pendingIdentity ss ≠ None →
  up_view m = Some (ChunkAck (ns_cacheSessionID ss) (ns_pendingRevision ss) sq) →
  (let session := ss <| ns_syncStarted := now |> <| ns_chunkIndex := ns_chunkIndex ss + 1 |> in
   if bool_decide (ns_chunkIndex session < ns_chunkTotal session)
   then let '(session, err) := sendIdentityChunkLocked session in (update_conn s c (λ _, session), err)
   else (update_conn s c (λ _, session), None)) = (s', None) →
  ∃ ss', touch s c ss s' ss' ∧ linked Streaming l ss' down up k sync store d tokens.
Proof.
  intros Hlk Hss Hsn Hv. destruct (ack_fits _ _ _ _ Hlk Hsn Hv) as (Hsq & H0 & Hdata). cbv zeta.
  set (ss1 := ss <| ns_syncStarted := now |> <| ns_chunkIndex := _ |>).
  pose proof (lk_phase _ _ _ _ _ _ _ _ _ _ Hlk) as Hph.
  assert (Hack : ∀ data sent, (ns_chunkIndex ss + 1 < ns_chunkTotal ss → chunk_data (ns_pendingPayload ss) (ns_chunkIndex ss + 1) = Some data) → _)
    by exact (λ data sent, phase_ack n _ sq (omap up_view (up ++ ek_send k)) data sent Hph Hsn ltac:(by apply omap_some)).
  change (ns_chunkIndex ss1) with (ns_chunkIndex ss + 1). change (ns_chunkTotal ss1) with (ns_chunkTotal ss).
  destruct (bool_decide_reflect (ns_chunkIndex ss + 1 < ns_chunkTotal ss)) as [Hlt|Hge].
  - destruct (Hdata Hlt) as [data Hd]. destruct (sendIdentityChunkLocked ss1) as [ss2 e] eqn:Hs.
    destruct (send_chunk_moves ss1 data _ _ Hd Hs) as [sent Hm]. apply chunk_send_fields in Hs as [send ->]. intros [= <- ->].
    eexists. split; [by apply (touch_update _ _ _ (λ _, _))|].
    eapply linked_loop; [exact (moves_trans (λ x, x <| k_index := k_index x + 1 |>) _ ss ss1 _ ltac:(by constructor) Hm)|exact Hlk|..];
      [done|done|apply Hlk|apply Hlk|].
    specialize (Hack data sent (λ _, Hd)). cbn in Hack. rewrite bool_decide_true in Hack by done. exact Hack.
  - intros [= <-]. eexists. split; [by apply (touch_update _ _ _ (λ _, _))|].
    eapply (linked_loop (λ x, x <| k_index := k_index x + 1 |>)); [|exact Hlk|..]; [by constructor|done|done|apply Hlk|apply Hlk|].
    specialize (Hack [] false ltac:(done)). cbn in Hack. rewrite bool_decide_false, app_nil_r in Hack by done. exact Hack.
Qed.

Lemma progress_linked s c now m s' ss up :
  cs_sessions s !! n = Some c → cs_conns s !! c = Some ss → ns_nodeID ss = n → progress_message m = true →
  linked Streaming l ss down (m :: up) k sync store d tokens → acceptIdentityProgress s c now m = (s', None) →
  ∃ ss', touch s c ss s' ss' ∧ linked Streaming l ss' down up k sync store d tokens.
Proof.
  intros Hs Hss Hn Hpm Hlk. unfold acceptIdentityProgress. rewrite (conn_some _ _ _ Hss). cbv zeta.
  assert (Hreg : registered s c ss = true) by (unfold registered; rewrite Hn; by apply bool_decide_true).
  rewrite Hreg. cbn [andb negb orb].
  assert (Hv : up_view m = (if bool_decide (m_Type m = "identity_chunk_ack"%string)
    then Some (ChunkAck (m_CacheSessionID m) (m_Revision m) (m_Sequence m)) else None) ∧
    (bool_decide (m_Type m = "identity_progress"%string) = negb (bool_decide (m_Type m = "identity_chunk_ack"%string)))).
  { revert Hpm. unfold progress_message, up_view.
    destruct (bool_decide_reflect (m_Type m = "identity_chunk_ack"%string)) as [Ht|Ht]; [by rewrite Ht|].
    destruct (bool_decide_reflect (m_Type m = "identity_progress"%string)) as [Ht'|]; [by rewrite Ht'|done]. }
  destruct Hv as [Hv Hty].
  assert (Hdrop : (ns_pendingIdentity ss ≠ None → m_CacheSessionID m = ns_cacheSessionID ss → m_Revision m = ns_pendingRevision ss →
      m_Type m ≠ "identity_chunk_ack"%string) → ∃ ss', touch s c ss s ss' ∧ linked Streaming l ss' down up k sync store d tokens).
  { intros Hne. exists ss. split; [by apply touch_refl|]. eapply linked_drop; [exact Hlk|]. intros sq. rewrite Hv.
    destruct (bool_decide_reflect (m_Type m = "identity_chunk_ack"%string)) as [Ht|]; [|done]. intros [= He Hr _]. destruct (ns_pendingIdentity ss); [|done]. by destruct (Hne ltac:(done) He Hr). }
  destruct (bool_decide_reflect (m_CacheSessionID m = ns_cacheSessionID ss)) as [He|He]; cbn [andb negb orb];
    [|intros [= <-]; by apply Hdrop].
  destruct (bool_decide_reflect (m_Revision m ≤ ns_appliedRevision ss)) as [Hle|Hle]; [intros [= <-]; apply Hdrop|].
  { intros Hsn _ Hr. destruct (ns_pendingIdentity ss) as [p|] eqn:Hp; [|done].
    destruct (cm_some _ (proj1 (lk_phase _ _ _ _ _ _ _ _ _ _ Hlk)) p Hp) as [_ Hlt]. cbn in Hlt. lia. }
  rewrite (proj1 (lk_protocol _ _ _ _ _ _ _ _ _ _ Hlk ltac:(done))). rewrite (bool_decide_false (3 < 3)) by lia. cbn [orb].
  destruct (bool_decide_reflect (ns_pendingIdentity ss = None)) as [|Hsn]; [done|]. cbn [orb].
  destruct (bool_decide_reflect (m_Revision m = ns_pendingRevision ss)) as [Hr|]; [|done]. cbn [negb].
  rewrite Hty. destruct (bool_decide_reflect (m_Type m = "identity_chunk_ack"%string)) as [Ht|Ht]; cbn [negb].
  - rewrite He, Hr in Hv. destruct (ack_fits _ _ _ _ Hlk Hsn Hv) as [Hsq _].
    rewrite (bool_decide_false (m_Sequence m < _)) by lia. destruct (_ || _); [done|].
    by apply (ack_linked _ _ _ _ _ _ _ _ Hlk Hss Hsn Hv).
  - destruct (bool_decide (ns_applyProgress ss < _)); intros [= <-]; [|by apply Hdrop].
    destruct (Hdrop (λ _ _ _, Ht)) as (ss1 & Ht1 & Hlk1). assert (ss1 = ss) as -> by by eapply touch_unique, touch_refl.
    eexists. split; [by apply touch_update|]. eapply linked_like; [|exact Hlk1]. like.
Qed.

(** Other messages; those of the worker are queued, or lost when there is no room. *)
Lemma job_linked ss m up :
  progress_message m = false → linked Streaming l ss down (m :: up) k sync store d tokens →
  cl_awaiting l = None → linked Streaming (job_loop l m) ss down up k sync store d tokens.
Proof.
  intros Hpm Hlk Ha. unfold job_loop. rewrite Hpm. cbn [negb andb].
  assert (Hv : ∀ e r s, up_view m ≠ Some (ChunkAck e r s)).
  { unfold up_view. revert Hpm. unfold progress_message. case_bool_decide; [done|]. intros _. by repeat case_bool_decide. }
  assert (Hd : linked Streaming l ss down up k sync store d tokens) by (eapply linked_drop; [exact Hlk|]; intros s Hx; by apply Hv in Hx).
  destruct (identity_job m) eqn:Hj; [|done]. case_bool_decide; [|done]. cbn [andb].
  assert (Hq : queued (l <| cl_identityJobs := cl_identityJobs l ++ [m] |>) = queued l ++ [m]) by (unfold queued; cbn; by rewrite app_assoc).
  eapply (linked_loop (λ x, x)); [by constructor|exact Hlk|done|done| | |].
  - cbn. rewrite Ha. done.
  - rewrite Hq. apply Forall_app. split; [apply Hlk|by apply Forall_singleton].
  - pose proof (lk_phase _ _ _ _ _ _ _ _ _ _ Hlk) as Hph. pose proof (cm_queue _ (proj1 Hph)) as Hcq.
    apply (phase_ups n _ (omap up_view (up ++ ek_send k)) (omap up_view (queued l ++ [m]))) in Hph.
    + unfold link_of. rewrite Hq. exact Hph.
    + intros x. unfold ups. rewrite omap_app. cbn. destruct (up_view m); cbn; set_solver.
    + intros e r s. rewrite omap_app. cbn. specialize (Hcq e r s). specialize (Hv e r s). cbn in Hcq. destruct (up_view m); cbn; set_solver.
    + intros _. unfold acks. cbn. destruct (up_view m) as [[]|] eqn:Hm; cbn; try done. by destruct (Hv _ _ _ eq_refl).
Qed.
End receive_linked.

Lemma inv_receive y y1 c l now observed m s' l' err :
  invariant y → y_loops y !! c = Some (Streaming, l) → cl_awaiting l = None → next_message y c m y1 →
  receive (y_ctl y) l c now observed m = (s', l', err) → invariant (or_close (set_loop (y1 <| y_ctl := s' |>) c Streaming l') c err).
Proof.
  intros H Hl Ha (up & -> & Hup1 & Hup2)%next_message_inv Hq. destruct (loop_session _ _ _ H Hl) as (ss & Hss & _).
  destruct (receive_inv _ _ _ _ _ _ _ _ _ _ Hss Hq) as [[-> [e ->]]|(s1 & ss1 & s2 & e & Ht1 & L1 & Hp & Hr)].
  { eapply (inv_loop y _ c ss ss); cbn; try done; [by apply touch_refl|auto]. }
  assert (Hss1 := touch_conn _ _ _ _ _ Ht1).
  assert (Hg : ∃ ss2, touch s1 c ss1 s2 ss2 ∧ ns_pendingIdentity ss2 = ns_pendingIdentity ss1).
  { destruct (progress_message m); [by eapply progress_generic|]. injection Hp as <- <-. eauto using touch_refl. }
  destruct Hg as (ss2 & Ht2 & Hp2). rewrite (like_pending _ _ L1) in Hp2.
  destruct Hr as [([x ->] & -> & ->)|(-> & -> & Haw & Hqu & Hr)].
  { eapply (inv_loop y _ c ss ss2); cbn; try done; [by eapply touch_trans|auto]. }
  destruct (Hr ss2 (touch_conn _ _ _ _ _ Ht2)) as (ss3 & Ht3 & L3).
  eapply (inv_loop y _ c ss ss3); cbn; try done; [eauto using touch_trans|auto|by rewrite (like_pending _ _ L3)|].
  intros _ k Hk Hs Hn Hlk. rewrite (Hup2 (is_edge_true _ _ _ Hk)) in Hlk. apply (linked_like _ _ _ _ _ _ _ _ _ _ _ L1) in Hlk.
  apply (linked_like _ _ _ _ _ _ _ _ _ _ _ L3).
  assert (H2 : linked Streaming (job_loop l m) ss2 (y_down y) up k (edc_syncReady (y_client y)) (y_store y) (y_db y) (y_tokens y)).
  { destruct (progress_message m) eqn:Hpm.
    - destruct (progress_linked l (y_down y) k (edc_syncReady (y_client y)) (y_store y) (y_db y) (y_tokens y) s1 c now m s2 ss1 up) as (x & Hx & Hlk2);
        [by rewrite (to_sessions _ _ _ _ _ Ht1)|done|by rewrite (sl_node _ _ L1)|done|exact Hlk|exact Hp|].
      rewrite (touch_unique _ _ _ _ _ _ Ht2 Hx). unfold job_loop. by rewrite Hpm.
    - injection Hp as <-. rewrite (touch_unique _ _ _ _ _ _ Ht2 (touch_refl _ _ _ Hss1)). by apply job_linked. }
  eapply (linked_loop (λ x, x)); [by constructor|exact H2|done|done|auto| |].
  - rewrite Hqu. apply H2.
  - pose proof (lk_phase _ _ _ _ _ _ _ _ _ _ H2) as Hph. unfold link_of in *. by rewrite Hqu.
Qed.

Lemma inv_awaiting y c l m s' :
  invariant y → y_loops y !! c = Some (Streaming, l) → cl_awaiting l = Some m → enqueue (y_ctl y) c m = Some s' →
  invariant (set_loop (y <| y_ctl := s' |>) c Streaming (l <| cl_awaiting := None |>)).
Proof.
  intros H Hl Ha Hq. destruct (loop_session _ _ _ H Hl) as (ss & Hss & _).
  destruct (enqueue_inv _ _ _ _ _ Hss Hq) as (ss' & Hsend & Ht & Hp).
  eapply (inv_loop y _ c ss ss' _ l _ _ None); cbn; try done.
  intros _ k Hk Hs Hn Hlk. assert (L : session_like ss ss') by (eapply try_send_like; [by eapply lk_awaiting|exact Hsend]).
  eapply linked_like; [exact L|].
  eapply (linked_loop (λ x, x)); [by constructor|exact Hlk|done|done|done|apply Hlk|]. apply Hlk.
Qed.

(** *** The identity worker *)

Lemma worker_generic s d c now sql job s' d' err ss :
  cs_conns s !! c = Some ss → db_ok d → pend d ss →
  (if bool_decide (m_Type job = "cache_cleared"%string) then acceptCacheCleared sql_error s d c now sql job
   else confirmIdentity sql_error s d c now sql job) = (s', d', err) →
  (∃ ss', touch s c ss s' ss' ∧ pend d' ss') ∧ db_ok d' ∧ d_nodes d' = d_nodes d ∧ d_sequence d ≤ d_sequence d' ∧
  (∀ c', c' ≠ c → cs_sessions s !! n = Some c' → evolves n d d').
Proof.
  intros Hss Hok Hpd Hq.
  assert (Hother : ∀ c', c' ≠ c → cs_sessions s !! n = Some c' → registered s c ss = true → n ≠ ns_nodeID ss).
  { intros c' Hne Hs Hr%bool_decide_eq_true ->. congruence. }
  destruct (bool_decide _).
  - destruct (cleared_generic _ _ _ _ _ _ _ _ _ _ Hss Hpd Hq) as [Ht [->|[Hr ->]]]; (split; [done|]).
    + split_and!; [done|done|done|intros; apply evolves_refl].
    + split_and!; [by apply reset_ok|done|done|]. intros c' Hne Hs. apply reset_evolves_other. by eapply Hother.
  - destruct (confirm_generic _ _ _ _ _ _ _ _ _ _ Hss Hok Hpd Hq) as (Ht & Hok' & Hseq & Hno & Hd). split; [done|].
    split_and!; [done|done|lia|]. intros c' Hne Hs.
    destruct Hd as [->|(Hr & e & r & users & removed & full & Hc)]; [apply evolves_refl|].
    eapply confirm_evolves_other; [|exact Hc]. by eapply Hother.
Qed.

(** A job is taken from the queue, or is done. *)
Lemma linked_jobs l l' ss down up k sync store d tokens :
  linked Streaming l ss down up k sync store d tokens → cl_awaiting l' = cl_awaiting l → (∀ m, m ∈ queued l' → m ∈ queued l) →
  linked Streaming l' ss down up k sync store d tokens.
Proof.
  intros Hlk Ha Hq. eapply (linked_loop (λ x, x)); [by constructor|exact Hlk|done|done| | |].
  - rewrite Ha. apply Hlk.
  - pose proof (lk_queue _ _ _ _ _ _ _ _ _ _ Hlk) as Hf. rewrite Forall_forall in Hf |- *. auto.
  - pose proof (lk_phase _ _ _ _ _ _ _ _ _ _ Hlk) as Hph. pose proof (cm_queue _ (proj1 Hph)) as Hcq.
    assert (Hsub : ∀ x, x ∈ omap up_view (queued l') → x ∈ omap up_view (queued l)).
    { intros x (m & Hm & Hv)%list_elem_of_omap. apply list_elem_of_omap. eauto. }
    apply (phase_ups n _ (omap up_view (up ++ ek_send k)) (omap up_view (queued l'))) in Hph; [done|..].
    + intros x. unfold ups. cbn. set_solver.
    + intros e r s Hin%Hsub. by apply Hcq in Hin.
    + done.
Qed.

Lemma inv_identity y c l now sql s' d' l' err :
  invariant y → y_loops y !! c = Some (Streaming, l) →
  identity_worker sql_error (y_ctl y) (y_db y) l c now sql = (s', d', l', err) →
  invariant (or_close (set_loop (y <| y_ctl := s' |> <| y_db := d' |>) c Streaming l') c err).
Proof.
  intros H Hl. destruct (loop_session _ _ _ H Hl) as (ss & Hss & Hpd). unfold identity_worker.
  destruct (cl_identityCurrent l) as [job|] eqn:Hcur.
  - destruct (if bool_decide _ then _ else _) as [[s1 d1] e] eqn:Hq.
    destruct (worker_generic _ _ _ _ _ _ _ _ _ _ Hss (iv_db _ H) Hpd Hq) as ((ss' & Ht & Hp) & A & B & C & D).
    intros Hr. assert (s1 = s' ∧ d1 = d' ∧ (∀ m, m ∈ queued l' → m ∈ queued l) ∧ cl_awaiting l' = cl_awaiting l) as (-> & -> & Hsub & Haw).
    { assert (Hd : ∀ m, m ∈ queued (l <| cl_identityCurrent := None |>) → m ∈ queued l) by (unfold queued; rewrite Hcur; set_solver).
      repeat case_match; by injection Hr as <- <- <- <-. }
    eapply (inv_or_close y _ c ss ss'); cbn; try done.
    intros _ k Hk Hs Hn Hlk. eapply linked_jobs; [|exact Haw|exact Hsub].
    assert (Hin : job ∈ queued l) by (unfold queued; rewrite Hcur; set_solver).
    destruct (bool_decide_reflect (m_Type job = "cache_cleared"%string)) as [Hty|Hty].
    + destruct (cleared_linked _ _ _ _ _ _ _ _ _ _ _ _ _ _ _ _ _ Hs Hss Hn Hlk Hin Hty Hq) as (x & Hx & Hlk').
      by rewrite (touch_unique _ _ _ _ _ _ Ht Hx).
    + assert (Hty' : m_Type job = "identity_ack"%string).
      { pose proof (lk_queue _ _ _ _ _ _ _ _ _ _ Hlk) as Hf. rewrite Forall_forall in Hf. specialize (Hf _ Hin).
        revert Hf. unfold identity_job. rewrite bool_decide_false by done. by intros ?%bool_decide_eq_true. }
      destruct (confirm_linked _ _ _ _ _ _ _ _ _ _ _ _ _ _ _ _ _ Hs Hss Hn Hlk Hin Hty' Hq) as (x & Hx & Hlk').
      by rewrite (touch_unique _ _ _ _ _ _ Ht Hx).
  - intros Hr. assert (s' = y_ctl y ∧ d' = y_db y ∧ err = None ∧ queued l' = queued l ∧ cl_awaiting l' = cl_awaiting l)
      as (-> & -> & -> & Hqu & Haw).
    { unfold queued. rewrite Hcur. destruct (cl_identityJobs l) eqn:Hj; injection Hr as <- <- <- <-; cbn; by rewrite ?Hj, ?Hcur. }
    eapply (inv_loop y _ c ss ss); cbn; try done; [by apply touch_refl|].
    intros _ k Hk Hs Hn Hlk. eapply linked_jobs; [exact Hlk|exact Haw|by rewrite Hqu].
Qed.

Lemma inv_transmit y c ss m rest now :
  invariant y → cs_conns (y_ctl y) !! c = Some ss → ns_send ss = m :: rest →
  invariant ((if is_edge y c then y <| y_down := y_down y ++ [m] |> else y)
               <| y_ctl := update_conn (y_ctl y) c (transmitted now m rest) |>).
Proof.
  intros H Hss Hsend.
  assert (Ht : touch (y_ctl y) c ss (update_conn (y_ctl y) c (transmitted now m rest)) (transmitted now m rest ss))
    by (apply touch_update; [done|..]; unfold transmitted; by destruct (_ || _)).
  destruct Ht as [A B C D]. set (ss' := transmitted now m rest ss) in *.
  assert (Hpe : ns_pendingIdentity ss' = ns_pendingIdentity ss) by (unfold ss', transmitted; by destruct (_ || _)).
  assert (Hpd : pend (y_db y) ss') by (by eapply pend_mono, iv_pending).
  destruct (is_edge y c) eqn:He; (eapply (inv_conn y _ c ss ss'); cbn; try done;
    try (intros; apply evolves_refl); try apply (iv_db _ H)).
  - congruence.
  - intros k Hk Hs st l Hl Hlk. exists st, l. split; [done|]. destruct Hlk.
    assert (Hlist : (y_down y ++ [m]) ++ ns_send ss' = y_down y ++ ns_send ss)
      by (rewrite Hsend, <- app_assoc; unfold ss', transmitted; by destruct (_ || _)).
    constructor; auto.
    + congruence.
    + unfold ss', transmitted. by destruct (_ || _).
    + by rewrite Hlist.
    + revert lk_phase0. unfold link_of. rewrite Hlist. unfold ss', transmitted. by destruct (_ || _).
  - intros k Hk. by rewrite (is_edge_true _ _ _ Hk) in He.
Qed.

(** *** New connections *)

Lemma register_conns s c nodeID now c' :
  c' ≠ c → cs_conns (register s c nodeID now) !! c' =
    (λ r, if bool_decide (cs_sessions s !! nodeID = Some c') then r <| ns_cancelled := true |> else r) <$> cs_conns s !! c'.
Proof.
  intros Hne. unfold register. cbn. rewrite lookup_insert_ne by done.
  destruct (cs_sessions s !! nodeID) as [p|]; cbn; [|by destruct (cs_conns s !! c')].
  destruct (decide (p = c')) as [->|Hp].
  - rewrite lookup_alter_eq, bool_decide_true by done. done.
  - rewrite lookup_alter_ne, bool_decide_false by congruence. by destruct (cs_conns s !! c').
Qed.
Lemma register_sessions s c nodeID now : cs_sessions (register s c nodeID now) = <[nodeID := c]> (cs_sessions s).
Proof. unfold register. by destruct (cs_sessions s !! nodeID). Qed.
Lemma register_new s c nodeID now : cs_conns (register s c nodeID now) !! c = Some (new_session nodeID now).
Proof. unfold register. cbn. by rewrite lookup_insert_eq. Qed.

Lemma inv_register y y' nodeID now :
  invariant y → y_ctl y' = register (y_ctl y) (y_next y) nodeID now → y_next y' = S (y_next y) →
  y_loops y' = <[y_next y := (AwaitHello, new_loop)]> (y_loops y) → y_db y' = y_db y → y_tokens y' = y_tokens y →
  y_gone y' = y_gone y → (∀ c k, y_conn y' = Some (c, k) → (y_gone y ≤ c)%nat → is_Some (d_nodes (y_db y) !! n)) →
  edc_nodeID (y_client y') = n → (y_conn y' = None → edc_syncReady (y_client y') = false) →
  (y_conn y' = y_conn y ∧ y_client y' = y_client y ∧ y_store y' = y_store y ∧ y_down y' = y_down y ∧ y_up y' = y_up y) ∨
  (nodeID = n ∧ ∃ k, y_conn y' = Some (y_next y, k) ∧
     linked AwaitHello new_loop (new_session n now) (y_down y') (y_up y') k (edc_syncReady (y_client y')) (y_store y') (y_db y) (y_tokens y)) →
  invariant y'.
Proof.
  intros H Hctl Hnext Hloops Hdb Htok Hgo Hnode Hid Hoff Hcase.
  assert (Hold : ∀ c, is_Some (cs_conns (y_ctl y) !! c) → c ≠ y_next y) by (intros c Hc%(iv_next _ H); lia).
  assert (Hsame : ∀ c ss', c ≠ y_next y → cs_conns (y_ctl y') !! c = Some ss' → ∃ ss, cs_conns (y_ctl y) !! c = Some ss ∧
    session_like ss ss' ∧ (cs_sessions (y_ctl y) !! nodeID = Some c → ns_cancelled ss' = true)).
  { intros c ss' Hne. rewrite Hctl, register_conns by done. intros (ss & Hss & ->)%fmap_Some. exists ss. split; [done|].
    by case_bool_decide. }
  assert (Hkeep : ∀ c ss, cs_conns (y_ctl y) !! c = Some ss → ∃ ss', cs_conns (y_ctl y') !! c = Some ss' ∧ session_like ss ss').
  { intros c ss Hss. rewrite Hctl, register_conns by eauto. rewrite Hss. cbn. eexists. split; [done|].
    case_bool_decide; [apply cancel_like|apply session_like_refl]. }
  constructor; rewrite ?Hdb, ?Htok, ?Hnext, ?Hloops, ?Hgo; auto; try apply H.
  - intros m c. rewrite Hctl, register_sessions. destruct (decide (m = nodeID)) as [->|Hne].
    + rewrite lookup_insert_eq. intros [= <-]. rewrite register_new. by eexists.
    + rewrite lookup_insert_ne by done. intros (ss & Hss & Hm)%(iv_sessions _ H). destruct (Hkeep _ _ Hss) as (ss' & Hss' & L).
      rewrite Hctl in Hss'. exists ss'. split; [done|]. by rewrite (sl_node _ _ L).
  - intros c ss' Hl Hss'. rewrite Hctl, register_sessions. destruct (decide (c = y_next y)) as [->|Hne].
    + rewrite Hctl, register_new in Hss'. injection Hss' as <-. left. by rewrite lookup_insert_eq.
    + rewrite lookup_insert_ne in Hl by done. destruct (Hsame _ _ Hne Hss') as (ss & Hss & L & Hcan).
      destruct (iv_cancel _ H _ _ Hl Hss) as [Hs|Hs]; [|right; by apply L]. rewrite (sl_node _ _ L).
      destruct (decide (ns_nodeID ss = nodeID)) as [He|Hn]; [right; apply Hcan; congruence|]. left. by rewrite lookup_insert_ne.
  - intros c. destruct (decide (c = y_next y)) as [->|Hne]; [intros _; rewrite Hctl, register_new; eauto|].
    rewrite lookup_insert_ne by done. intros [ss Hss]%(iv_loops _ H). destruct (Hkeep _ _ Hss) as (ss' & Hss' & _). eauto.
  - intros c [ss' Hss']. destruct (decide (c = y_next y)) as [->|Hne]; [lia|].
    destruct (Hsame _ _ Hne Hss') as (ss & Hss & _). assert (c < y_next y)%nat by (apply (iv_next _ H); eauto). lia.
  - intros c k Hk. destruct Hcase as [(Hc & _)|(_ & k' & Hc & _)]; rewrite Hc in Hk; [apply (iv_conn _ H) in Hk; lia|].
    injection Hk as <- <-. lia.
  - intros c ss' Hss'. destruct (decide (c = y_next y)) as [->|Hne].
    + rewrite Hctl, register_new in Hss'. injection Hss' as <-. done.
    + destruct (Hsame _ _ Hne Hss') as (ss & Hss & L & _). eapply pend_mono; [done|by apply like_pending|by eapply iv_pending].
  - intros c k Hk. rewrite Hctl, register_sessions. destruct Hcase as [(Hc & Hcli & Hsto & Hdn & Hu)|(-> & k' & Hc & Hlk)]; rewrite Hc in Hk.
    + assert (Hne : c ≠ y_next y) by (apply (iv_conn _ H) in Hk; lia).
      destruct (decide (nodeID = n)) as [->|Hnn]; [rewrite lookup_insert_eq; congruence|].
      rewrite lookup_insert_ne by done. intros Hs Hg. destruct (iv_link _ H _ _ Hk Hs Hg) as (st & l & ss & Hl & Hss & Hlk).
      destruct (Hkeep _ _ Hss) as (ss' & Hss' & L). rewrite Hctl in Hss'. exists st, l, ss'. rewrite lookup_insert_ne by done.
      split_and!; [done|done|]. rewrite Hcli, Hsto, Hdn, Hu. by eapply linked_like.
    + injection Hk as <- <-. intros _ _. exists AwaitHello, new_loop, (new_session n now). rewrite lookup_insert_eq, register_new. done.
Qed.

Lemma linked_fresh e s d tokens now now' :
  edc_nodeID e = n → db_ok d → ""%string ∈ tokens →
  linked AwaitHello new_loop (new_session n now) [] [] (open_connection e now') false (resetIdentityCache s false) d tokens.
Proof.
  intros He Hok Ht. constructor; cbn; try done.
  - intros _. by eexists _, [].
  - split.
    + pose proof (ok_sequence d Hok). constructor; cbn; try done; try lia; set_solver.
    + left. constructor; cbn; auto.
Qed.

(** Without the node in the directory the connections count as gone. *)
Lemma inv_noted y : (d_nodes (y_db y) !! n = None → invariant (y <| y_gone := y_next y |>)) →
  (is_Some (d_nodes (y_db y) !! n) → invariant y) → invariant (noted n y).
Proof. unfold noted. destruct (d_nodes (y_db y) !! n); eauto. Qed.
Definition connected (y : System) (now : time) : System :=
  set_loop (y <| y_ctl := register (y_ctl y) (y_next y) n now |> <| y_next := S (y_next y) |>
              <| y_store := resetIdentityCache (y_store y) false |>
              <| y_conn := Some (y_next y, open_connection (y_client y) now) |> <| y_down := [] |> <| y_up := [] |>)
    (y_next y) AwaitHello new_loop.
Lemma inv_gone y g : invariant y → (∀ c k, y_conn y = Some (c, k) → (c < g)%nat) → invariant (y <| y_gone := g |>).
Proof. intros H Hg. destruct H. constructor; cbn; auto; intros c k Hk%Hg; intros; lia. Qed.
Lemma inv_connect y now : invariant y → y_conn y = None → invariant (noted n (connected y now)).
Proof.
  intros H Hnone. apply inv_noted.
  - intros Hd. apply (inv_register (y <| y_gone := S (y_next y) |>) _ n now); cbn; try done.
    + apply inv_gone; [done|]. intros c k Hk. congruence.
    + intros c k [= <- <-]. lia.
    + apply H.
    + right. split; [done|]. eexists. split; [done|]. rewrite (iv_off _ H Hnone). apply linked_fresh; apply H.
  - intros Hd. apply (inv_register y _ n now); cbn; try done; [apply H|].
    right. split; [done|]. eexists. split; [done|]. rewrite (iv_off _ H Hnone). apply linked_fresh; apply H.
Qed.

Lemma inv_restart y : invariant y → invariant (y <| y_ctl := NewControllerServer |> <| y_loops := ∅ |>).
Proof.
  intros H. destruct H. constructor; cbn; auto.
  - intros m c. by rewrite lookup_empty.
  - intros c ss. rewrite lookup_empty. by intros [].
  - intros c. rewrite lookup_empty. by intros [].
  - intros c. rewrite lookup_empty. by intros [].
  - intros c ss. by rewrite lookup_empty.
  - intros c k _. by rewrite lookup_empty.
Qed.

(** ** The steps of the edge keep the invariant *)

Lemma inv_edge y y' c k k' :
  invariant y → y_conn y = Some (c, k) → y_ctl y' = y_ctl y → y_db y' = y_db y → y_loops y' = y_loops y → y_next y' = y_next y →
  y_tokens y' = y_tokens y → y_gone y' = y_gone y → y_conn y' = Some (c, k') → edc_nodeID (y_client y') = edc_nodeID (y_client y) →
  (∀ st l ss, linked st l ss (y_down y) (y_up y) k (edc_syncReady (y_client y)) (y_store y) (y_db y) (y_tokens y) →
    linked st l ss (y_down y') (y_up y') k' (edc_syncReady (y_client y')) (y_store y') (y_db y) (y_tokens y)) →
  invariant y'.
Proof.
  intros H Hk Hctl Hdb Hloops Hnext Htok Hgo Hk' Hid Hlink. destruct H.
  constructor; rewrite ?Hctl, ?Hdb, ?Hloops, ?Hnext, ?Htok, ?Hid, ?Hk', ?Hgo; try done.
  - intros c0 k0 [= <- <-]. by eapply iv_node0.
  - intros c0 k0 [= <- <-]. by eapply iv_conn0.
  - intros c0 k0 [= <- <-] Hs Hg. destruct (iv_link0 _ _ Hk Hs Hg) as (st & l & ss & Hl & Hss & Hlk). exists st, l, ss. auto.
Qed.

Lemma inv_off y e s :
  invariant y → edc_nodeID e = n → edc_syncReady e = false →
  invariant (y <| y_client := e |> <| y_store := s |> <| y_conn := None |> <| y_down := [] |> <| y_up := [] |>).
Proof. intros H He Hs. destruct H. by constructor. Qed.

(** What the edge sends is appended, what it receives is taken from the front. *)
Lemma linked_edge st l ss down down' up up' k k' sync sync' store store' d tokens :
  linked st l ss down up k sync store d tokens → (∃ more, up' ++ ek_send k' = (up ++ ek_send k) ++ more) →
  (∃ taken, down = taken ++ down') → Forall good_job (jobs_of k') →
  phase n (link_of st l ss down' up' k' sync' store' d tokens) → linked st l ss down' up' k' sync' store' d tokens.
Proof.
  intros Hlk [more Hup] [taken Hdown] Hj Hph. destruct Hlk. constructor; auto.
  - intros Hst. destruct (lk_hello0 Hst) as (h & rest & Hh & Hp). rewrite Hup, Hh. by eexists h, _.
  - rewrite Hdown, <- app_assoc in lk_down0. by apply Forall_app in lk_down0 as [_ ?].
Qed.

Definition committed (k : EdgeConn) : bool := match ek_applying k with Some j => aj_committed j | None => false end.

(** Changes of the connection that do not concern the synchronization. *)
Record edge_like (k k' : EdgeConn) : Prop := mkEdgeLike {
  el_send : ∃ ms, ek_send k' = ek_send k ++ ms ∧ omap up_view ms = [];
  el_jobs : jobs_of k' = jobs_of k ∧ committed k' = committed k;
  el_epoch : ek_cacheSessionID k' = ek_cacheSessionID k ∧ ek_identityProtocol k' = ek_identityProtocol k;
  el_chunks : ek_chunkBuffer k' = ek_chunkBuffer k ∧ ek_chunkRevision k' = ek_chunkRevision k ∧
    ek_chunkIndex k' = ek_chunkIndex k ∧ ek_chunkTotal k' = ek_chunkTotal k;
  el_stopped : ek_recvStopped k' = ek_recvStopped k }.

Lemma edge_like_refl k : edge_like k k.
Proof. constructor; try done. exists []. by rewrite app_nil_r. Qed.
Lemma edge_like_trans k1 k2 k3 : edge_like k1 k2 → edge_like k2 k3 → edge_like k1 k3.
Proof.
  intros [(m1 & A1 & B1) C1 D1 E1 F1] [(m2 & A2 & B2) C2 D2 E2 F2]. constructor; try intuition congruence.
  exists (m1 ++ m2). rewrite A2, A1, app_assoc, omap_app, B1, B2. done.
Qed.
Lemma edge_like_fail k e : edge_like k (fail k e).
Proof. unfold fail. destruct (ek_failed k); [apply edge_like_refl|]. constructor; try done. exists []. by rewrite app_nil_r. Qed.
Lemma edge_like_send k m k' : up_view m = None → edge_send k m = inr k' → edge_like k k'.
Proof. intros Hv. unfold edge_send. case_bool_decide; [|done]. intros [= <-]. constructor; try done. exists [m]. cbn. by rewrite Hv. Qed.

Lemma linked_edge_like st l ss down up k k' sync store d tokens :
  edge_like k k' → linked st l ss down up k sync store d tokens → linked st l ss down up k' sync store d tokens.
Proof.
  intros [(ms & Hs & Hv) [Hj Hcm] [He1 He2] (Hc1 & Hc2 & Hc3 & Hc4) Hst] Hlk.
  eapply linked_edge; [exact Hlk| | | |].
  - exists ms. by rewrite Hs, app_assoc.
  - by exists [].
  - rewrite Hj. apply Hlk.
  - pose proof (lk_phase _ _ _ _ _ _ _ _ _ _ Hlk) as Hph. unfold committed in Hcm. unfold link_of in *.
    rewrite Hs, Hj, Hcm, He1, He2, Hc1, Hc2, Hc3, Hc4, Hst, (app_assoc up), (omap_app _ _ ms), Hv, app_nil_r. done.
Qed.

Lemma inv_edge_like y c k k' e :
  invariant y → y_conn y = Some (c, k) → edge_like k k' → edc_nodeID e = edc_nodeID (y_client y) →
  edc_syncReady e = edc_syncReady (y_client y) → invariant (y <| y_client := e |> <| y_conn := Some (c, k') |>).
Proof.
  intros H Hk L He Hs. eapply (inv_edge y); cbn; try done. intros st l ss Hlk. rewrite Hs. by eapply linked_edge_like.
Qed.

(** The job of the worker is given up. *)
Lemma fail_apply_fields k e : ∃ f, fail_apply k e = k <| ek_failed := f |> <| ek_applyStopped := true |> <| ek_applying := None |>.
Proof. unfold fail_apply, fail. destruct (ek_failed k) as [x|] eqn:Hf; [exists (Some x)|by eexists]. by destruct k; cbn in *; subst. Qed.

Lemma linked_drop_job st l ss down up k k' sync store store' d tokens j js :
  linked st l ss down up k sync store d tokens → same_cache store store' → jobs_of k = j :: js → jobs_of k' = js → ek_applying k' = None →
  ek_send k' = ek_send k → ek_cacheSessionID k' = ek_cacheSessionID k → ek_identityProtocol k' = ek_identityProtocol k →
  ek_chunkBuffer k' = ek_chunkBuffer k → ek_chunkRevision k' = ek_chunkRevision k →
  ek_chunkIndex k' = ek_chunkIndex k → ek_chunkTotal k' = ek_chunkTotal k → ek_recvStopped k' = ek_recvStopped k →
  linked st l ss down up k' sync store' d tokens.
Proof.
  intros Hlk Hst Hj Hj' Ha Hs He1 He2 Hc1 Hc2 Hc3 Hc4 Hr. eapply linked_edge; [by eapply linked_store| | | |].
  - exists []. by rewrite Hs, app_nil_r.
  - by exists [].
  - pose proof (lk_jobs _ _ _ _ _ _ _ _ _ _ Hlk) as Hf. rewrite Hj in Hf. rewrite Hj'. by apply Forall_cons in Hf as [_ ?].
  - pose proof (lk_phase _ _ _ _ _ _ _ _ _ _ Hlk) as Hph. apply (phase_store n _ store') in Hph; [|done].
    eapply phase_drop_job in Hph; [|cbn; rewrite Hj; done]. unfold link_of in *. cbn in Hph.
    rewrite Hs, Hj', Ha, He1, He2, Hc1, Hc2, Hc3, Hc4, Hr. exact Hph.
Qed.

Lemma same_cache_refl s : same_cache s s.
Proof. by constructor. Qed.
Lemma inv_apply y c k k' e s' :
  invariant y → y_conn y = Some (c, k) → edc_nodeID e = edc_nodeID (y_client y) →
  (∀ st l ss, linked st l ss (y_down y) (y_up y) k (edc_syncReady (y_client y)) (y_store y) (y_db y) (y_tokens y) →
    linked st l ss (y_down y) (y_up y) k' (edc_syncReady e) s' (y_db y) (y_tokens y)) →
  invariant (y <| y_client := e |> <| y_store := s' |> <| y_conn := Some (c, k') |>).
Proof. intros H Hk He Hl. by eapply (inv_edge y). Qed.

Lemma take_linked st l ss down up k sync store d tokens :
  linked st l ss down up k sync store d tokens → linked st l ss down up (apply_take k) sync store d tokens.
Proof.
  intros Hlk. unfold apply_take. destruct (ek_applyJobs k) as [job|] eqn:Hjob; [|done].
  destruct (ek_applying k) eqn:Happ; [done|]. destruct (ek_applyStopped k); [done|]. cbv zeta.
  set (k0 := k <| ek_applyJobs := None |>).
  assert (Hjobs : jobs_of k = [job]) by (unfold jobs_of; by rewrite Hjob, Happ).
  assert (Htaken : linked st l ss down up (k0 <| ek_applying := Some (mkJob job false 0) |>) sync store d tokens).
  { eapply linked_edge_like; [|exact Hlk]. constructor; try done; [exists []; by rewrite app_nil_r|].
    rewrite Hjobs. unfold committed, jobs_of. by rewrite Happ. }
  assert (Hfail : ∀ e, linked st l ss down up (fail_apply k0 e) sync store d tokens).
  { intros e. destruct (fail_apply_fields k0 e) as [f ->]. by eapply linked_drop_job. }
  destruct (reset_job job); [done|]. destruct (m_Payload job); try apply Hfail.
  destruct (Unmarshal _); [|apply Hfail]. case_bool_decide; [done|apply Hfail].
Qed.

Lemma progress_like e k : edge_like k (apply_progress e k).
Proof.
  unfold apply_progress. destruct (ek_applying k) as [job|] eqn:Ha; [|apply edge_like_refl].
  destruct (_ || _); [apply edge_like_refl|]. cbv zeta.
  set (k1 := k <| ek_applying := Some (job <| aj_progress := _ |>) |>).
  assert (H1 : edge_like k k1).
  { constructor; try done; [exists []; by rewrite app_nil_r|]. unfold jobs_of, committed. cbn. by rewrite Ha. }
  destruct (edge_send k1 _) as [err|k2] eqn:Hs; eapply edge_like_trans; [exact H1|apply edge_like_fail|exact H1|].
  by eapply edge_like_send in Hs.
Qed.

Lemma aux_like e k micros err report events run : edge_like k (handleAux e k micros err report events run).
Proof.
  unfold handleAux. destruct (ek_auxJobs k) as [|m jobs]; [apply edge_like_refl|]. cbv zeta.
  set (k0 := k <| ek_auxJobs := jobs |>).
  assert (H0 : edge_like k k0) by (constructor; try done; exists []; by rewrite app_nil_r).
  assert (Hsend : ∀ k1 m', edge_like k k1 → up_view m' = None →
    edge_like k (match edge_send k1 m' with inl err => (fail k1 err, false) | inr k2 => (k2, true) end).1).
  { intros k1 m' H1 Hv. destruct (edge_send k1 m') as [x|k2] eqn:Hs; cbn; (eapply edge_like_trans; [exact H1|]);
      [apply edge_like_fail|by eapply edge_like_send in Hs]. }
  destruct (m_Payload m) as [| | | | |command| |ids|]; try exact H0.
  - destruct (negb _); [exact H0|]. destruct (bool_decide _); [|by apply Hsend].
    destruct events as [x|[|ev evs]]; cbn [negb]; try by apply Hsend.
    pose proof (Hsend k0 ((message "event_batch" (edc_nodeID e)) <| m_Sequence := micros |> <| m_Payload := PEvents (ev :: evs) |>)
      H0 eq_refl) as H1. destruct (match edge_send k0 _ with inl _ => _ | inr _ => _ end) as [k1 sent]. cbn in H1.
    destruct sent; cbn [negb]; [by apply Hsend|done].
  - destruct (bool_decide _); [|exact H0]. destruct err; [|exact H0]. eapply edge_like_trans; [exact H0|apply edge_like_fail].
Qed.

Lemma jobs_applying k job : ek_applying k = Some job → jobs_of k = aj_message job :: option_list (ek_applyJobs k).
Proof. intros Ha. unfold jobs_of. by rewrite Ha. Qed.

(** The worker gives up its job. *)
Lemma linked_fail_apply st l ss down up k sync store store' d tokens job e :
  linked st l ss down up k sync store d tokens → same_cache store store' → ek_applying k = Some job →
  linked st l ss down up (fail_apply k e) sync store' d tokens.
Proof.
  intros Hlk Hs Ha. destruct (fail_apply_fields k e) as [f ->].
  eapply linked_drop_job; [exact Hlk|exact Hs|by apply jobs_applying|done..].
Qed.

(** The transaction of a job. *)
Lemma commit_linked st l ss down up k sync store d tokens now now' ok s' k' :
  linked st l ss down up k sync store d tokens → apply_commit julianday db_error store k now now' ok = (s', k') →
  linked st l ss down up k' sync s' d tokens.
Proof.
  intros Hlk. unfold apply_commit. destruct (ek_applying k) as [job|] eqn:Ha; [|by intros [= <- <-]].
  destruct (aj_committed job) eqn:Hcm; [by intros [= <- <-]|]. cbv zeta.
  set (k1 := k <| ek_applying := Some (job <| aj_committed := true |>) |>).
  assert (Hj := jobs_applying _ _ Ha). assert (Hj1 : jobs_of k1 = jobs_of k) by by rewrite Hj.
  assert (Hfail : ∀ e x, same_cache store x → linked st l ss down up (fail_apply k e) sync x d tokens)
    by (intros; by eapply linked_fail_apply).
  assert (Hsame := same_cache_refl store).
  assert (Hdone : ∀ x, phase n ((link_of st l ss down up k sync store d tokens) <| k_store := x |> <| k_committed := true |>) →
    linked st l ss down up k1 sync x d tokens).
  { intros x Hx. eapply linked_edge; [exact Hlk|exists []; by rewrite app_nil_r|by exists []|rewrite Hj1; apply Hlk|].
    unfold link_of. rewrite Hj1. exact Hx. }
  pose proof (lk_phase _ _ _ _ _ _ _ _ _ _ Hlk) as Hph.
  assert (Hkj : k_jobs (link_of st l ss down up k sync store d tokens) =
    job_view (aj_message job) :: (job_view <$> option_list (ek_applyJobs k))) by (cbn; by rewrite Hj).
  unfold job_view in Hkj at 1. destruct (reset_job (aj_message job)) eqn:Hr.
  - destruct ok; intros [= <- <-]; [|by apply Hfail]. apply Hdone. exact (phase_commit_reset n _ _ _ Hph Hkj).
  - destruct (m_Payload (aj_message job)) as [|payload| | | | | | |]; try by (intros [= <- <-]; apply Hfail).
    destruct (Unmarshal payload) as [q|] eqn:Hun; [|by intros [= <- <-]; apply Hfail].
    destruct (ApplyIdentitySnapshot _ _ _ _ _) as [err|s1] eqn:Happ; [by intros [= <- <-]; apply Hfail|].
    destruct ok; intros [= <- <-]; [|by apply Hfail]. apply Hdone.
    refine (phase_commit_snapshot n julianday _ _ _ _ _ q now now' s1 Hph Hkj _ Hun Happ). cbn. by rewrite Ha.
Qed.

(** The report of a job: the acknowledgement is queued, or the worker stops. *)
Lemma report_linked st l ss down up k k1 sync store d tokens job m x :
  linked st l ss down up k sync store d tokens → ek_applying k = Some job → up_view m = Some x →
  phase n ((link_of st l ss down up k sync store d tokens) <| k_jobs := job_view <$> option_list (ek_applyJobs k) |>
             <| k_committed := false |> <| k_up := omap up_view (up ++ ek_send k) ++ [x] |>) →
  (∃ r, k1 = k <| ek_locallyApplied := r |>) →
  linked st l ss down up (match edge_send k1 m with inl err => fail_apply k1 err | inr k => k <| ek_applying := None |> end)
    sync store d tokens.
Proof.
  intros Hlk Ha Hv Hph [r ->].
  assert (Hlk1 : linked st l ss down up (k <| ek_locallyApplied := r |>) sync store d tokens).
  { eapply linked_edge_like; [|exact Hlk]. constructor; try done. exists []. by rewrite app_nil_r. }
  unfold edge_send. case_bool_decide; [|by eapply linked_fail_apply; [exact Hlk1|apply same_cache_refl|exact Ha]].
  eapply linked_edge; [exact Hlk1|exists [m]; cbn; by rewrite app_assoc|by exists []| |].
  - pose proof (lk_jobs _ _ _ _ _ _ _ _ _ _ Hlk) as Hf. rewrite (jobs_applying _ _ Ha) in Hf. by apply Forall_cons in Hf as [_ ?].
  - unfold link_of in *. cbn in *. rewrite app_assoc, (omap_app _ _ [m]). cbn. rewrite Hv. exact Hph.
Qed.

Lemma inv_report y c k enforced e' k' :
  invariant y → y_conn y = Some (c, k) → apply_report (y_client y) k enforced = (e', k') →
  invariant (y <| y_client := e' |> <| y_conn := Some (c, k') |>).
Proof.
  intros H Hk. unfold apply_report. destruct (ek_applying k) as [job|] eqn:Ha;
    [|intros [= <- <-]; eapply inv_edge_like; [done|exact Hk|apply edge_like_refl|done..]].
  destruct (aj_committed job) eqn:Hcm; cbn [negb]; [|intros [= <- <-]; eapply inv_edge_like; [done|exact Hk|apply edge_like_refl|done..]].
  assert (Hkj : ∀ st l ss down up sync store d tokens, k_jobs (link_of st l ss down up k sync store d tokens) =
    job_view (aj_message job) :: (job_view <$> option_list (ek_applyJobs k))) by (intros; cbn; by rewrite (jobs_applying _ _ Ha)).
  assert (Hcom : ∀ st l ss down up sync store d tokens, k_committed (link_of st l ss down up k sync store d tokens) = true)
    by (intros; cbn; by rewrite Ha).
  unfold job_view in Hkj at 1. destruct (reset_job (aj_message job)) eqn:Hr.
  - intros [= <- <-]. eapply (inv_edge y); cbn; try done. intros st l ss Hlk.
    eapply report_linked; [exact Hlk|exact Ha|done| |by eexists].
    exact (phase_report_reset n _ _ _ (lk_phase _ _ _ _ _ _ _ _ _ _ Hlk) (Hkj _ _ _ _ _ _ _ _ _) (Hcom _ _ _ _ _ _ _ _ _)).
  - destruct enforced as [err|]; intros [= <- <-].
    + eapply (inv_edge y); cbn; try done. intros st l ss Hlk. eapply linked_fail_apply; [exact Hlk|apply same_cache_refl|exact Ha].
    + eapply (inv_edge y); cbn; try done; [by destruct (bool_decide _)|]. intros st l ss Hlk.
      assert (Hg : m_CacheProtocol (aj_message job) = 3).
      { pose proof (lk_jobs _ _ _ _ _ _ _ _ _ _ Hlk) as Hf. rewrite (jobs_applying _ _ Ha) in Hf. apply Forall_cons in Hf as [Hg _]. by apply Hg. }
      rewrite Hg. cbn. eapply report_linked; [exact Hlk|exact Ha|done| |by eexists].
      exact (phase_report_snapshot n _ _ _ _ _ (lk_phase _ _ _ _ _ _ _ _ _ _ Hlk) (Hkj _ _ _ _ _ _ _ _ _) (Hcom _ _ _ _ _ _ _ _ _)).
Qed.

(** *** The receive loop of the edge *)

Lemma fail_recv_fields k e : ∃ f, fail_recv k e = k <| ek_failed := f |> <| ek_recvStopped := true |>.
Proof. unfold fail_recv, fail. destruct (ek_failed k) as [x|] eqn:Hf; [exists (Some x)|by eexists]. by destruct k; cbn in *; subst. Qed.

(** The link after a message was received. *)
Record received (k k' : EdgeConn) : Prop := mkReceived {
  rc_send : ek_send k' = ek_send k;
  rc_jobs : ek_applying k' = ek_applying k ∧ ek_applyJobs k' = ek_applyJobs k;
  rc_epoch : ek_cacheSessionID k' = ek_cacheSessionID k ∧ ek_identityProtocol k' = ek_identityProtocol k }.

Section recv_linked.
Context (st : stage) (l : ConnectLoop) (ss : nodeSession) (down up : list Message) (store : Store) (d : ControllerDB).
Context (tokens : gset string).
Context (k : EdgeConn) (sync : bool) (m : Message).
Context (Hlk : linked st l ss (m :: down) up k sync store d tokens) (Hrun : ek_recvStopped k = false).

Lemma recv_phase : phase n (link_of st l ss (m :: down) up k sync store d tokens).
Proof using Hlk. apply Hlk. Qed.

(** The loop stops. *)
Lemma stop_linked k' (b : bool) :
  received k k' → ek_recvStopped k' = true →
  (down_view m = None → ek_chunkBuffer k' = ek_chunkBuffer k ∧ ek_chunkRevision k' = ek_chunkRevision k ∧
     ek_chunkIndex k' = ek_chunkIndex k ∧ ek_chunkTotal k' = ek_chunkTotal k) →
  linked st l ss down up k' (sync && b) store d tokens.
Proof using Hlk.
  intros [Hs [Ha Hj] [He1 He2]] Hst Hch. assert (Hjobs : jobs_of k' = jobs_of k) by (unfold jobs_of; by rewrite Ha, Hj).
  eapply linked_edge; [exact Hlk|exists []; by rewrite Hs, app_nil_r|by exists [m]|rewrite Hjobs; apply Hlk|].
  pose proof recv_phase as Hph. destruct (down_view m) as [x|] eqn:Hv.
  - eapply (phase_stop n _ x (omap down_view (down ++ ns_send ss)) (ek_chunkBuffer k') (ek_chunkRevision k') (ek_chunkIndex k') (ek_chunkTotal k') b) in Hph.
    + unfold link_of in *. cbn in Hph. rewrite Hs, Hjobs, Ha, He1, He2, Hst. exact Hph.
    + unfold link_of, k_down. cbn -[down_view]. by rewrite Hv.
  - apply phase_halt, (phase_unsync n _ b) in Hph. destruct (Hch eq_refl) as (Hc1 & Hc2 & Hc3 & Hc4).
    unfold link_of in *. cbn -[down_view] in Hph. rewrite Hv in Hph. rewrite Hs, Hjobs, Ha, He1, He2, Hst, Hc1, Hc2, Hc3, Hc4. exact Hph.
Qed.
Lemma fail_linked k1 e :
  received k k1 → ek_chunkBuffer k1 = ek_chunkBuffer k → ek_chunkRevision k1 = ek_chunkRevision k →
  ek_chunkIndex k1 = ek_chunkIndex k → ek_chunkTotal k1 = ek_chunkTotal k →
  linked st l ss down up (fail_recv k1 e) sync store d tokens.
Proof using Hlk.
  intros [Hs [Ha Hj] [He1 He2]] Hc1 Hc2 Hc3 Hc4. destruct (fail_recv_fields k1 e) as [f ->].
  rewrite <- (andb_true_r sync). by apply stop_linked.
Qed.

(** A message that does not concern the synchronization. *)
Lemma skip_linked k' (b : bool) :
  down_view m = None → edge_like k k' → linked st l ss down up k' (sync && b) store d tokens.
Proof using Hlk.
  intros Hv L. eapply linked_edge_like; [exact L|].
  eapply linked_edge; [exact Hlk|exists []; by rewrite app_nil_r|by exists [m]|apply Hlk|].
  pose proof recv_phase as Hph. apply (phase_unsync n _ b) in Hph.
  unfold link_of in *. cbn -[down_view] in Hph. rewrite Hv in Hph. exact Hph.
Qed.

Lemma down_head x : down_view m = Some x →
  k_down (link_of st l ss (m :: down) up k sync store d tokens) = x :: omap down_view (down ++ ns_send ss).
Proof. intros Hv. unfold link_of, k_down. cbn -[down_view]. by rewrite Hv. Qed.
Lemma head_good : good_down m.
Proof using Hlk. pose proof (lk_down _ _ _ _ _ _ _ _ _ _ Hlk) as Hg. by apply Forall_cons in Hg as [? _]. Qed.

Lemma confirmed_linked k' :
  m_Type m = "identity_confirmed"%string → edge_like k k' →
  linked st l ss down up k' (bool_decide (ek_identityProtocol k < 3) || m_SyncComplete m) store d tokens.
Proof using Hlk.
  intros Hty L. assert (Hv : down_view m = Some (Confirmed (m_CacheSessionID m) (m_Revision m) (m_SyncComplete m)))
    by (unfold down_view; by rewrite Hty).
  pose proof recv_phase as Hph. assert (Hne := phase_confirmed_edge n _ _ _ _ _ Hph (down_head _ Hv)).
  assert (Hp3 : ek_identityProtocol k = 3) by exact (cm_protocol _ (proj1 Hph) Hne). rewrite Hp3. cbn.
  eapply linked_edge_like; [exact L|].
  eapply linked_edge; [exact Hlk|exists []; by rewrite app_nil_r|by exists [m]|apply Hlk|].
  exact (phase_recv_confirmed n _ _ _ _ _ Hph (down_head _ Hv)).
Qed.

(** The epoch of a welcome, with or without room for the job. *)
Lemma welcome_linked k1 :
  m_Type m = "welcome"%string → received (k <| ek_cacheSessionID := m_CacheSessionID m |> <| ek_identityProtocol := 3 |>) k1 →
  ek_chunkBuffer k1 = [] → ek_chunkRevision k1 = ek_chunkRevision k → ek_chunkIndex k1 = ek_chunkIndex k →
  ek_chunkTotal k1 = ek_chunkTotal k → ek_recvStopped k1 = false →
  (∀ e, linked st l ss down up (fail_recv k1 e) false store d tokens) ∧
  linked st l ss down up (or_fail k1 (queueApply k1 ((message "cache_reset" "") <| m_CacheSessionID := m_CacheSessionID m |>)))
    false store d tokens.
Proof using Hlk Hrun.
  intros Hty [Hs [Ha Hj] [He1 He2]] Hc1 Hc2 Hc3 Hc4 Hr. cbn in *.
  assert (Hv : down_view m = Some (Welcome (m_CacheSessionID m))) by (unfold down_view; by rewrite Hty).
  assert (Hph := λ queued, phase_recv_welcome n _ _ _ queued recv_phase Hrun (down_head _ Hv)).
  assert (Hjobs : jobs_of k1 = jobs_of k) by (unfold jobs_of; by rewrite Ha, Hj).
  assert (Hfail : ∀ e, linked st l ss down up (fail_recv k1 e) false store d tokens).
  { intros e. destruct (fail_recv_fields k1 e) as [f ->].
    eapply linked_edge; [exact Hlk|exists []; cbn; by rewrite Hs, app_nil_r|by exists [m]| |].
    - change (Forall good_job (jobs_of k1)). rewrite Hjobs. apply Hlk.
    - specialize (Hph false). unfold link_of in *. cbn in *. change (jobs_of _) with (jobs_of k1) at 1.
      rewrite app_nil_r in Hph. rewrite Hs, Hjobs, Ha, He1, He2, Hc1, Hc2, Hc3, Hc4. exact Hph. }
  split; [done|]. unfold queueApply. destruct (ek_applyJobs k1) as [j|] eqn:Hjk; cbn [or_fail]; [apply Hfail|].
  set (job := (message _ _) <| m_CacheSessionID := _ |>).
  assert (Hjobs' : jobs_of (k1 <| ek_applyJobs := Some job |>) = jobs_of k ++ [job])
    by (rewrite <- Hjobs; unfold jobs_of; cbn; by rewrite Hjk, app_nil_r).
  eapply linked_edge; [exact Hlk|exists []; cbn; by rewrite Hs, app_nil_r|by exists [m]| |].
  - rewrite Hjobs'. apply Forall_app. split; [apply Hlk|]. apply Forall_singleton. by intros.
  - specialize (Hph true). unfold link_of in *. rewrite Hjobs', fmap_app. cbn in *.
    rewrite Hs, Ha, He1, He2, Hc1, Hc2, Hc3, Hc4, Hr. exact Hph.
Qed.

(** A fragment that passes the checks. *)
Lemma chunk_linked (e : EdgeClient) k1 chunk :
  m_Type m = "identity_chunk"%string → m_Payload m = PChunk chunk → m_CacheSessionID m = ek_cacheSessionID k →
  received k k1 → ek_chunkBuffer k1 = ek_chunkBuffer k → bad_chunk k1 m chunk = false → ek_recvStopped k1 = false →
  let k2 := k1 <| ek_chunkBuffer := ek_chunkBuffer k1 ++ ch_Data chunk |>
              <| ek_send := ek_send k1 ++ [(message "identity_chunk_ack" (edc_nodeID e)) <| m_CacheSessionID := ek_cacheSessionID k1 |>
                   <| m_Revision := m_Revision m |> <| m_Sequence := ek_chunkIndex k1 |>] |>
              <| ek_chunkIndex := ek_chunkIndex k1 + 1 |> in
  linked st l ss down up
    (if bool_decide (ek_chunkIndex k2 = ek_chunkTotal k2) then
       let job := snapshot_job (ek_identityProtocol k2) (ek_cacheSessionID k2) (m_Revision m) (ek_chunkBuffer k2) in
       let k := k2 <| ek_chunkBuffer := [] |> in or_fail k (queueApply k job)
     else k2) false store d tokens.
Proof using Hlk Hrun.
  intros Hty Hpay Hep [Hs [Ha Hj] [He1 He2]] Hc1 Hbad Hr k2.
  assert (Hv : down_view m = Some (Chunk (m_CacheSessionID m) (m_Revision m) (m_Sequence m) chunk))
    by (unfold down_view; by rewrite Hty, Hpay).
  pose proof recv_phase as Hph.
  destruct (phase_chunk_inv n _ _ _ _ _ _ Hph Hrun (down_head _ Hv) Hep) as (p & data & Ht & Hf & Hrest & Hpe & Hpr & Hps & Hd & ->).
  cbn in Hrest, Hpe, Hpr, Hps, Hd.
  assert (Hch : ek_chunkTotal k1 = ns_chunkTotal ss ∧ ek_chunkIndex k1 = ns_chunkIndex ss ∧ ek_chunkRevision k1 = ns_pendingRevision ss).
  { revert Hbad. unfold bad_chunk. cbn. rewrite !orb_false_iff, !negb_false_iff, !bool_decide_eq_true. intuition congruence. }
  destruct Hch as (Ht1 & Hi1 & Hr1).
  assert (Hjn : jobs_of k = []) by (pose proof (fl_jobs _ _ Hf) as Hx; cbn in Hx; by destruct (jobs_of k)).
  assert (Hjn' : ek_applying k = None ∧ ek_applyJobs k = None)
    by (revert Hjn; unfold jobs_of; by destruct (ek_applying k), (ek_applyJobs k)).
  destruct Hjn' as [Hja Hjj].
  assert (Hp3 : ek_identityProtocol k = 3).
  { apply (cm_protocol _ (proj1 Hph)). destruct (tr_epoch _ _ _ Ht) as [Hx Hy]. cbn in Hx, Hy |- *. congruence. }
  pose proof (phase_recv_chunk n _ p data (proj1 Hph) Ht Hf Hrun Hd) as Hnew. cbv zeta in Hnew.
  set (ack := (message _ _) <| m_CacheSessionID := _ |> <| m_Revision := _ |> <| m_Sequence := _ |>) in k2.
  assert (Hack : omap up_view (up ++ ek_send k ++ [ack]) =
    omap up_view (up ++ ek_send k) ++ [ChunkAck (ns_cacheSessionID ss) (ns_pendingRevision ss) (ns_chunkIndex ss)]).
  { rewrite app_assoc, omap_app. f_equal. unfold ack. cbn. unfold up_view. cbn. by rewrite He1, <- Hep, Hpe, Hpr, Hi1. }
  assert (Hdn : omap down_view (down ++ ns_send ss) = []) by exact Hrest.
  change (ek_chunkIndex k2) with (ek_chunkIndex k1 + 1). change (ek_chunkTotal k2) with (ek_chunkTotal k1).
  rewrite Hi1, Ht1. cbn in Hnew. destruct (bool_decide_reflect (ns_chunkIndex ss + 1 = ns_chunkTotal ss)) as [Hlast|Hlast].
  - cbv zeta. unfold queueApply. cbn [ek_applyJobs]. change (ek_applyJobs (k2 <| ek_chunkBuffer := [] |>)) with (ek_applyJobs k1).
    rewrite Hj, Hjj. cbn [or_fail].
    eapply linked_edge; [exact Hlk| |by exists [m]| |].
    + exists [ack]. cbn. by rewrite Hs, app_assoc.
    + unfold jobs_of. cbn. rewrite Ha, Hja. cbn. apply Forall_singleton. intros _. cbn. rewrite He2. eauto.
    + unfold link_of, jobs_of. cbn. rewrite Hs, Hack, Ha, Hja, Hdn, He1, He2, Ht1, Hi1, Hr1, Hc1, Hr.
      unfold link_of in Hnew. cbn in Hnew. rewrite Hja, Hrun in Hnew. unfold job_view. cbn. rewrite Hpr, <- Hep, Hpe. 
      rewrite <- Hep, Hpe in Hnew. exact Hnew.
  - eapply linked_edge; [exact Hlk| |by exists [m]| |].
    + exists [ack]. cbn. by rewrite Hs, app_assoc.
    + unfold jobs_of. cbn. by rewrite Ha, Hj, Hja, Hjj.
    + unfold link_of, jobs_of. cbn. rewrite Hs, Hack, Ha, Hj, Hja, Hjj, Hdn, He1, He2, Ht1, Hi1, Hr1, Hc1, Hr.
      unfold link_of in Hnew. cbn in Hnew. rewrite Hja, Hrun in Hnew. exact Hnew.
Qed.

Lemma recv_chunk_linked e k1 e' k' :
  received k k1 → ek_chunkBuffer k1 = ek_chunkBuffer k → ek_chunkRevision k1 = ek_chunkRevision k → ek_chunkIndex k1 = ek_chunkIndex k →
  ek_chunkTotal k1 = ek_chunkTotal k → ek_recvStopped k1 = false → edc_syncReady e = sync →
  m_Type m = "identity_chunk"%string → recv_chunk e k1 m = (e', k') →
  linked st l ss down up k' (edc_syncReady e') store d tokens.
Proof using Hlk Hrun.
  intros Hk1 Hc1 Hc2 Hc3 Hc4 Hr Hsy Hty. destruct Hk1 as [Hs [Ha Hj] [He1 He2]] eqn:HK. clear HK. unfold recv_chunk.
  destruct (proj1 (proj2 head_good) Hty) as [chunk Hpay]. rewrite Hpay.
  destruct (bool_decide (ek_identityProtocol k1 < 3)); cbn [orb]; [intros [= <- <-]; rewrite Hsy; by apply fail_linked|].
  destruct (bool_decide_reflect (m_CacheSessionID m = ek_cacheSessionID k1)) as [Hep|]; cbn [negb];
    [|intros [= <- <-]; rewrite Hsy; by apply fail_linked].
  destruct (bool_decide (ch_Index chunk = 0) && _); [intros [= <- <-]; rewrite Hsy; by apply fail_linked|].
  destruct (begin_chunks e k1 m chunk) as [e1 k2] eqn:Hb.
  assert (Hb2 : received k k2 ∧ ek_chunkBuffer k2 = ek_chunkBuffer k ∧ ek_recvStopped k2 = false ∧ edc_nodeID e1 = edc_nodeID e ∧
    edc_syncReady e1 = sync && negb (bool_decide (ch_Index chunk = 0))).
  { revert Hb. unfold begin_chunks. case_bool_decide; intros [= <- <-]; cbn; rewrite ?andb_false_r, ?andb_true_r; done. }
  destruct Hb2 as (Hk2 & Hbuf & Hst2 & Hid & Hsy1).
  assert (Hv : down_view m ≠ None) by (unfold down_view; by rewrite Hty, Hpay).
  assert (Hstop : ∀ k3 err, received k k3 → linked st l ss down up (fail_recv k3 err) (edc_syncReady e1) store d tokens).
  { intros k3 err [Hs3 [Ha3 Hj3] [He13 He23]]. rewrite Hsy1. destruct (fail_recv_fields k3 err) as [f ->]. by apply stop_linked. }
  destruct (bad_chunk k2 m chunk) eqn:Hbad; [intros [= <- <-]; by apply Hstop|]. cbv zeta.
  unfold edge_send. cbn [ek_send]. destruct (bool_decide (length _ < 128)%nat);
    [|intros [= <- <-]; apply Hstop; by destruct Hk2 as [? [] []]].
  assert (Hfalse : edc_syncReady e1 = false).
  { rewrite Hsy1. pose proof recv_phase as Hph.
    assert (Hv' : down_view m = Some (Chunk (m_CacheSessionID m) (m_Revision m) (m_Sequence m) chunk))
      by (unfold down_view; by rewrite Hty, Hpay).
    destruct (phase_chunk_inv n _ _ _ _ _ _ Hph Hrun (down_head _ Hv') ltac:(cbn; congruence))
      as (p & data & _ & Hf & _ & _ & _ & _ & _ & ->). destruct sync; [|done]. cbn.
    destruct (fl_sync _ _ Hf eq_refl) as [_ Hi]. cbn in Hi. by rewrite bool_decide_true. }
  assert (Hep' : m_CacheSessionID m = ek_cacheSessionID k) by congruence.
  pose proof (chunk_linked e1 k2 chunk Hty Hpay Hep' Hk2 Hbuf Hbad Hst2) as Hgoal. cbv zeta in Hgoal.
  match type of Hgoal with linked _ _ _ _ _ (if bool_decide ?P then _ else _) _ _ _ _ => destruct (decide P) as [HP|HP] end.
  - rewrite bool_decide_true in Hgoal by exact HP. rewrite bool_decide_true by exact HP. intros [= <- <-]. rewrite Hfalse. exact Hgoal.
  - rewrite bool_decide_false in Hgoal by exact HP. rewrite bool_decide_false by exact HP. intros [= <- <-]. rewrite Hfalse. exact Hgoal.
Qed.

Lemma recv_ack_linked e k1 e' k' :
  edge_like k k1 → received k k1 → edc_syncReady e = sync → ack_message m = true → recv_ack e k1 m = (e', k') →
  linked st l ss down up k' (edc_syncReady e') store d tokens.
Proof using Hlk Hrun.
  intros L Hk1 Hsy Hm. unfold recv_ack. cbv zeta.
  destruct (bool_decide_reflect (m_Type m = "welcome"%string)) as [Hw|Hw].
  - destruct (proj1 head_good Hw) as (ack & -> & Hp3). unfold recv_welcome. rewrite Hp3. cbn [bool_decide].
    rewrite (bool_decide_true (3 ≤ 3)) by lia.
    destruct L as [_ _ [He1 He2] (Hc1 & Hc2 & Hc3 & Hc4) Hst]. destruct Hk1 as [Hs [Ha Hj] _].
    set (k2 := k1 <| ek_identityProtocol := 3 |> <| ek_cacheSessionID := m_CacheSessionID m |> <| ek_chunkBuffer := [] |>).
    destruct (welcome_linked k2) as [Hfail Hq]; [done|by constructor|done|done|done|done|unfold k2; cbn; congruence|].
    set (e1 := if ha_ControllerFault ack && _ then _ else _).
    assert (Hgoal : ∀ k3 e2, linked st l ss down up k3 false store d tokens → edc_syncReady e2 = false →
      (if ek_recvStopped k3 then (e2, k3)
       else (if bool_decide (ha_ObservedAddress ack = ""%string)
             then if bool_decide (2 ≤ ha_IntervalSeconds ack ≤ 60) then e2 <| edc_heartbeatSeconds := ha_IntervalSeconds ack |> else e2
             else (if bool_decide (2 ≤ ha_IntervalSeconds ack ≤ 60) then e2 <| edc_heartbeatSeconds := ha_IntervalSeconds ack |> else e2)
                    <| edc_observed := ha_ObservedAddress ack :: edc_observed (if bool_decide (2 ≤ ha_IntervalSeconds ack ≤ 60)
                          then e2 <| edc_heartbeatSeconds := ha_IntervalSeconds ack |> else e2) |>, k3)) = (e', k') →
      linked st l ss down up k' (edc_syncReady e') store d tokens).
    { intros k3 e2 Hl3 He. destruct (ek_recvStopped k3); [intros [= <- <-]; by rewrite He|].
      destruct (bool_decide _), (bool_decide _); intros [= <- <-]; cbn; by rewrite He. }
    destruct (bool_decide (m_CacheSessionID m = ""%string)); apply Hgoal; [apply Hfail|done|exact Hq|done].
  - assert (Hv : down_view m = None).
    { unfold down_view. rewrite bool_decide_false by done. revert Hm. unfold ack_message.
      destruct (bool_decide_reflect (m_Type m = "heartbeat_ack"%string)) as [->|]; [done|].
      destruct (bool_decide_reflect (m_Type m = "controller_state"%string)) as [->|]; [done|].
      by rewrite bool_decide_false. }
    assert (Hskip : ∀ b : bool, linked st l ss down up k1 (sync && b) store d tokens) by (intros b; by apply skip_linked).
    assert (Hkeep : linked st l ss down up k1 sync store d tokens) by (rewrite <- (andb_true_r sync); apply Hskip).
    assert (Hlose : linked st l ss down up k1 false store d tokens) by (rewrite <- (andb_false_r sync); apply Hskip).
    destruct (m_Payload m) as [| | |ack| | | | |]; try (intros [= <- <-]; cbn; by rewrite Hsy).
    destruct (ha_ControllerFault ack && _), (ek_recvStopped k1), (bool_decide (2 ≤ ha_IntervalSeconds ack ≤ 60)),
      (bool_decide (ha_ObservedAddress ack = ""%string)); intros [= <- <-]; cbn; rewrite ?Hsy; done.
Qed.

Lemma recv_linked e now e' k' :
  edc_syncReady e = sync → recv e k now m = (e', k') → linked st l ss down up k' (edc_syncReady e') store d tokens.
Proof using Hlk Hrun.
  intros Hsy. unfold recv. rewrite Hrun. cbv zeta. set (k1 := k <| ek_lastReceived := now |>).
  assert (L : edge_like k k1) by (constructor; try done; exists []; by rewrite app_nil_r).
  assert (Hk1 : received k k1) by by constructor.
  assert (Hfail : ∀ err, linked st l ss down up (fail_recv k1 err) sync store d tokens) by (intros err; by apply fail_linked).
  destruct (negb _ && negb _); [intros [= <- <-]; rewrite Hsy; apply Hfail|].
  destruct (bool_decide_reflect (m_Type m = "identity_chunk"%string)) as [Hty|H1]; [by apply recv_chunk_linked|].
  rewrite (bool_decide_false (m_Type m = "identity_snapshot"%string)) by apply head_good.
  destruct (bool_decide_reflect (m_Type m = "identity_confirmed"%string)) as [Hty|H2].
  { unfold recv_confirmed. destruct (_ || _); [intros [= <- <-]; rewrite Hsy; apply Hfail|]. cbn.
    pose proof (confirmed_linked k1 Hty L) as Hg. destruct (_ && _); intros [= <- <-]; exact Hg. }
  destruct (ack_message m) eqn:Hack; [by apply recv_ack_linked|].
  assert (Hv : down_view m = None).
  { assert (Hw : m_Type m ≠ "welcome"%string) by (intros Hx; unfold ack_message in Hack; by rewrite Hx in Hack).
    unfold down_view. by rewrite !bool_decide_false. }
  assert (Hkeep : ∀ k2, edge_like k k2 → linked st l ss down up k2 sync store d tokens)
    by (intros k2 L2; rewrite <- (andb_true_r sync); by apply skip_linked).
  destruct (aux_message m); [|intros [= <- <-]; rewrite Hsy; by apply Hkeep].
  case_bool_decide; intros [= <- <-]; rewrite Hsy; [|apply Hfail].
  apply Hkeep. eapply edge_like_trans; [exact L|]. constructor; try done. exists []. by rewrite app_nil_r.
Qed.
End recv_linked.

Lemma recv_id e k now m e' k' : recv e k now m = (e', k') → edc_nodeID e' = edc_nodeID e.
Proof.
  unfold recv, recv_chunk, begin_chunks, recv_snapshot, recv_confirmed, recv_ack, recv_welcome.
  intros Hr. repeat case_match; simplify_eq; done.
Qed.

Lemma inv_recv y c k m rest now e' k' :
  invariant y → y_conn y = Some (c, k) → y_down y = m :: rest → ek_recvStopped k = false → recv (y_client y) k now m = (e', k') →
  invariant (y <| y_client := e' |> <| y_conn := Some (c, k') |> <| y_down := rest |>).
Proof.
  intros H Hk Hd Hrun Hr. eapply (inv_edge y); cbn; try done; [by eapply recv_id|].
  intros st l ss Hlk. rewrite Hd in Hlk. by eapply recv_linked.
Qed.

Lemma inv_send y c k m rest :
  invariant y → y_conn y = Some (c, k) → ek_send k = m :: rest →
  invariant (y <| y_conn := Some (c, k <| ek_send := rest |>) |> <| y_up := y_up y ++ [m] |>).
Proof.
  intros H Hk Hs. eapply (inv_edge y); cbn; try done. intros st l ss Hlk.
  assert (Hl : (y_up y ++ [m]) ++ rest = y_up y ++ ek_send k) by by rewrite Hs, <- app_assoc.
  eapply linked_edge; [exact Hlk|exists []; cbn; by rewrite Hl, app_nil_r|by exists []|apply Hlk|].
  pose proof (lk_phase _ _ _ _ _ _ _ _ _ _ Hlk) as Hph. unfold link_of in *. cbn. rewrite Hl. exact Hph.
Qed.

Lemma inv_store y s' : invariant y → same_cache (y_store y) s' → invariant (y <| y_store := s' |>).
Proof.
  intros H Hs. destruct H. constructor; cbn; auto. intros c k Hk Hse Hg.
  destruct (iv_link0 _ _ Hk Hse Hg) as (st & l & ss & Hl & Hss & Hlk). exists st, l, ss. split_and!; [done|done|]. by eapply linked_store.
Qed.

Lemma inv_client y e :
  invariant y → edc_nodeID e = edc_nodeID (y_client y) → edc_syncReady e = edc_syncReady (y_client y) → invariant (y <| y_client := e |>).
Proof.
  intros H He Hs. destruct H. constructor; cbn; rewrite ?He, ?Hs; auto.
Qed.

Lemma inv_after y e' s' delay delay' err reset msg :
  invariant y → after_connect (close_connection (y_client y)) (y_store y) delay err reset msg = (e', s', delay') →
  invariant (y <| y_client := e' |> <| y_store := s' |> <| y_conn := None |> <| y_down := [] |> <| y_up := [] |>).
Proof.
  intros H Hq. apply inv_off; [done|..]; revert Hq; unfold after_connect; destruct err, reset; intros [= <- <- <-]; cbn; try done; apply H.
Qed.

Lemma after_mutation_like s op known : ctl_like s (after_mutation s op known).
Proof.
  destruct known as [known|]; [|destruct op; apply ctl_like_refl].
  assert (H : ctl_like s (if known then NotifyUserIdentityChanged s 0 else ScheduleIdentityPush s))
    by (destruct known; [by apply ctl_like_same|apply schedule_like]).
  destruct op; first [exact H|apply schedule_blocked_like|apply ctl_like_refl].
Qed.

Lemma edge_like_heartbeat e k k' : edge_heartbeat e k = inr k' → edge_like k k'.
Proof.
  unfold edge_heartbeat. cbv zeta. intros Hs. eapply edge_like_trans; [|eapply edge_like_send; [|exact Hs]; done].
  constructor; try done. exists []. by rewrite app_nil_r.
Qed.
Lemma edge_like_capabilities e k e' k' : edge_capabilities e k = (e', inr k') → edge_like k k' ∧ edc_nodeID e' = edc_nodeID e ∧ edc_syncReady e' = edc_syncReady e.
Proof. unfold edge_capabilities. intros [= <- Hs]. split; [|done]. by eapply edge_like_send in Hs. Qed.

(** Without the node in the directory nothing is claimed of the connections. *)
Lemma inv_absent y d' :
  invariant y → db_ok d' → d_sequence (y_db y) ≤ d_sequence d' → invariant (y <| y_db := d' |> <| y_gone := y_next y |>).
Proof.
  intros H Hok Hseq. destruct H. constructor; cbn; auto.
  - intros c k Hk%iv_conn0 Hg. lia.
  - intros c ss Hss. eapply pend_mono; [exact Hseq|done|by eapply iv_pending0].
  - intros c k Hk%iv_conn0 _ Hg. lia.
Qed.

Lemma inv_admin y op d' known :
  invariant y → db_exec (y_db y) op = inr d' →
  invariant (noted n (y <| y_db := d' |> <| y_ctl := after_mutation (y_ctl y) op known |>)).
Proof.
  intros H Hx. assert (Hok := iv_db _ H). assert (Hok' : db_ok d') by by eapply db_exec_keeps.
  destruct (db_exec_frame _ _ _ Hok Hx) as [Hseq Hin]. apply inv_noted; cbn; intros Hd.
  - exact (inv_ctl (y <| y_db := d' |> <| y_gone := y_next y |>) (after_mutation (y_ctl y) op known)
      (inv_absent _ _ H Hok' Hseq) (after_mutation_like _ _ _)).
  - destruct (Hin n Hd) as [Hn Hdel].
    apply (inv_ctl (y <| y_db := d' |>)); [|apply after_mutation_like].
    apply inv_db; [done|done|by eapply db_exec_evolves].
Qed.

Lemma inv_other y d' : invariant y → db_ok d' → same_identity (y_db y) d' → invariant (y <| y_db := d' |>).
Proof.
  intros H Hok (Hu & Ht & Hg & Hp & Hdp & Ha & Hc & Hs & Hse & Hb & Hn). apply inv_db; [done|done|].
  assert (Hev : evolves n (y_db y) (d' <| d_nodes := d_nodes (y_db y) |>)).
  { apply evolves_same; [cbn; by rewrite Hs|cbn; by rewrite Hse|cbn; by rewrite Hc| |done].
    intros u. unfold db_view, CanAccessNode. cbn. by rewrite Hu, Ht, Hg, Hp, Hdp, Ha. }
  destruct Hev. constructor; [done..|]. rewrite <- !elem_of_dom. apply Hn.
Qed.

Lemma inv_step y y' : invariant y → step y y' → invariant y'.
Proof.
  intros H Hstep. destruct Hstep.
  - by apply inv_admin.
  - by apply inv_other.
  - apply inv_ctl; [done|apply ctl_exec_like].
  - by eapply inv_push.
  - eapply (inv_register y _ nodeID now); cbn; try done; [apply H|apply H|apply H|by left].
  - by eapply inv_hello.
  - by apply inv_epoch.
  - by eapply inv_welcome.
  - by eapply inv_sync.
  - by eapply inv_receive.
  - by eapply inv_awaiting.
  - by eapply inv_identity.
  - apply inv_ctl; [done|]. eapply enqueue_like; [|done]. by repeat split.
  - by eapply inv_transmit.
  - by apply inv_close.
  - by apply inv_restart.
  - by apply inv_connect.
  - by eapply inv_recv.
  - by eapply inv_send.
  - eapply (inv_edge y); cbn; try done. intros st l ss. apply take_linked.
  - eapply (inv_edge y); cbn; try done. intros st l ss. apply linked_edge_like, progress_like.
  - eapply (inv_edge y); cbn; try done. intros st l ss Hlk. by eapply commit_linked.
  - by eapply inv_report.
  - eapply (inv_edge y); cbn; try done. intros st l ss. apply linked_edge_like, aux_like.
  - eapply (inv_edge y); cbn; try done. intros st l ss. by eapply linked_edge_like, edge_like_heartbeat.
  - edestruct edge_like_capabilities as (L & He & Hs); [done|]. by eapply (inv_edge_like y).
  - by apply inv_client.
  - by eapply inv_after.
  - by apply inv_off.
  - by apply inv_store.
Qed.

(** ** Reachable states *)

(** The controller and the edge have just started. *)
Definition started (d : ControllerDB) (e : EdgeClient) (s : Store) : System :=
  mkSystem NewControllerServer d ∅ 0%nat {[""%string]} e s None [] [] 0%nat.

Lemma inv_started d e s :
  db_ok d → edc_nodeID e = n → edc_syncReady e = false → invariant (started d e s).
Proof. intros Hok He Hs. constructor; cbn; try done; try set_solver; try (intros ? [ss Hss]; by rewrite lookup_empty in Hss). Qed.

Lemma inv_reachable y0 y : invariant y0 → reachable y0 y → invariant y.
Proof. intros H0 Hr. induction Hr as [|y y' _ IH Hs]; [done|by eapply inv_step]. Qed.

(** The annotation counts connections that were opened. *)
Lemma or_close_gone y c err : y_gone (or_close y c err) = y_gone y ∧ y_next (or_close y c err) = y_next y.
Proof. by destruct err. Qed.
Lemma next_message_gone y c m y1 : next_message y c m y1 → y_gone y1 = y_gone y ∧ y_next y1 = y_next y.
Proof. by intros (up & -> & _)%next_message_inv. Qed.
Lemma noted_gone y : (y_gone y ≤ y_next y)%nat → (y_gone (noted n y) ≤ y_next (noted n y))%nat.
Proof. unfold noted. by destruct (d_nodes (y_db y) !! n). Qed.
Lemma gone_step y y' : step y y' → (y_gone y ≤ y_next y)%nat → (y_gone y' ≤ y_next y')%nat.
Proof.
  intros Hstep Hg.
  destruct Hstep; repeat match goal with H : next_message _ _ _ _ |- _ => apply next_message_gone in H as [??] end;
    try apply noted_gone; rewrite ?(proj1 (or_close_gone _ _ _)), ?(proj2 (or_close_gone _ _ _)); cbn; try case_match; cbn; lia.
Qed.
Lemma gone_reachable y0 y : (y_gone y0 ≤ y_next y0)%nat → reachable y0 y → (y_gone y ≤ y_next y)%nat.
Proof. intros H0 Hr. induction Hr as [|y y' _ IH Hs]; [done|by eapply gone_step]. Qed.

(** The query for the pending users misses none. *)
Lemma no_pending d m u : db_ok d → PendingNodeIdentityUsers d m (session_of d m) = [] → ¬ stale d m u.
Proof.
  intros Hok Hp (r & Hr & Hlt). unfold PendingNodeIdentityUsers in Hp.
  destruct (node_users d m _) as [|x xs] eqn:Hu; [|done]. clear Hp.
  assert (Hin : u ∈ node_users d m (dirty_row (session_of d m))); [|rewrite Hu in Hin; by apply not_elem_of_nil in Hin].
  unfold node_users. rewrite merge_sort_Permutation. apply list_elem_of_omap. exists ((u, m), r).
  split; [by apply elem_of_map_to_list|]. unfold dirty_row. cbn. destruct (ok_cache d Hok _ _ _ Hr) as [-> _].
  by rewrite !bool_decide_true.
Qed.

(** The connection of a running edge: it is the registered one, and the node has been
    in the directory of the controller ever since it was opened. *)
Definition current (y : System) (k : EdgeConn) : Prop :=
  ∃ c, y_conn y = Some (c, k) ∧ cs_sessions (y_ctl y) !! n = Some c ∧ (y_gone y ≤ c)%nat.

(** The second half of [deleteEdgeNode]: once [ForgetNode] has run, no connection is current. *)
Lemma forget_cuts y k : ¬ current (y <| y_ctl := ctl_exec (y_ctl y) (CtlForget n) |>) k.
Proof.
  intros (c & _ & Hs & _). revert Hs. cbn. unfold ForgetNode, DisconnectNode. cbn.
  destruct (cs_sessions (y_ctl y) !! n) as [c'|] eqn:Hc; cbn; [by rewrite lookup_delete_eq|congruence].
Qed.

Lemma synced_state d e s y k :
  db_ok d → edc_nodeID e = n → edc_syncReady e = false → reachable (started d e s) y →
  current y k → edc_syncReady (y_client y) = true →
  db_ok (y_db y) ∧ ∀ u, synced (y_db y) n (edge_view (y_store y) u) u.
Proof.
  intros Hok He Hs Hr (c & Hk & Hse & Hg) Hsync.
  assert (H := inv_reachable _ _ (inv_started _ _ s Hok He Hs) Hr). split; [apply H|]. intros u.
  destruct (iv_link _ H _ _ Hk Hse Hg) as (st & l & ss & _ & _ & Hlk).
  exact (phase_synced n _ u (lk_phase _ _ _ _ _ _ _ _ _ _ Hlk) Hsync).
Qed.

(** C1: an edge that reports itself synchronized over its current connection holds,
    for every user, exactly the account, tokens, policies and grants that the
    controller's database wants it to hold, unless the user is still pending in
    the node's durable index; whatever the interleaving of administrators'
    requests, pushes, other connections, broken connections, restarts and failing
    statements that led there.  A current connection is the registered one of the
    node, opened since the node was last added to the directory: [DeleteEdgeNode]
    removes the rows of the node before [ForgetNode] cuts its connection, and
    nothing is claimed in between. *)
Theorem synced_edge_exact d e s y k u :
  db_ok d → edc_nodeID e = n → edc_syncReady e = false → reachable (started d e s) y →
  current y k → edc_syncReady (y_client y) = true →
  edge_view (y_store y) u = db_view (y_db y) n u ∨ stale (y_db y) n u.
Proof. intros Hok He Hs Hr Hc Hsync. by destruct (synced_state _ _ _ _ _ Hok He Hs Hr Hc Hsync) as [_ [? _]%(λ H, H u)]. Qed.

(** C3: when moreover the durable index has no pending user of the node, the cache
    of the edge is the restriction of the controller's database to the node: the
    distributed system implements one shared table of identities. *)
Theorem quiescent_edge_refines d e s y k :
  db_ok d → edc_nodeID e = n → edc_syncReady e = false → reachable (started d e s) y →
  current y k → edc_syncReady (y_client y) = true → 
  PendingNodeIdentityUsers (y_db y) n (session_of (y_db y) n) = [] → ∀ u, edge_view (y_store y) u = db_view (y_db y) n u.
Proof.
  intros Hok He Hs Hr Hc Hsync Hp u.
  destruct (synced_state _ _ _ _ _ Hok He Hs Hr Hc Hsync) as [Hdb Hall]. destruct (Hall u) as [[?|Hst] _]; [done|].
  by destruct (no_pending _ n u Hdb Hp).
Qed.
End system.
