(* ===== verification/WireCodec.v ===== *)
(** * A concrete snapshot encoding

    The transfer treats the text of a snapshot as opaque bytes: [SnapshotCodec]
    states the two facts it relies on of [encoding/json].  This file shows that the
    interface can be implemented, with a self-delimiting encoding built from one
    instance per type; the examples of [ClusterRun] execute with it. *)
From Stdlib Require Import ZArith Lia String.
From stdpp Require Import list strings.
From S2P Require Import Prelude GoStrings Types DpiEngine DpiService EdgeStore ControllerLink.
Local Open Scope Z_scope.

Class Wire (A : Type) := {
  enc : A → list Z;
  dec : list Z → option (A * list Z);
  dec_enc : ∀ a rest, dec (enc a ++ rest) = Some (a, rest) }.

#[export] Program Instance wire_Z : Wire Z := {|
  enc z := [z];
  dec l := match l with z :: rest => Some (z, rest) | [] => None end |}.
Next Obligation. done. Qed.

#[export] Program Instance wire_prod {A B} `{Wire A, Wire B} : Wire (A * B) := {|
  enc p := enc p.1 ++ enc p.2;
  dec l := '(a, l) ← dec l; '(b, l) ← dec l; Some ((a, b), l) |}.
Next Obligation. intros A B HA HB [a b] rest. cbn. rewrite <- app_assoc, dec_enc. cbn. by rewrite dec_enc. Qed.

(** Through a bijection. *)
Program Definition wire_via {A B} `{Wire B} (f : A → B) (g : B → A) (Hgf : ∀ a, g (f a) = a) : Wire A := {|
  enc a := enc (f a);
  dec l := '(b, l) ← dec l; Some (g b, l) |}.
Next Obligation. intros A B HB f g Hgf a rest. cbn. rewrite dec_enc. cbn. by rewrite Hgf. Qed.

#[export] Program Instance wire_bool : Wire bool := wire_via (λ b : bool, if b then 1 else 0) (λ z, bool_decide (z = 1)) _.
Next Obligation. by intros []. Qed.

Fixpoint dec_list {A} `{Wire A} (n : nat) (l : list Z) : option (list A * list Z) :=
  match n with
  | O => Some ([], l)
  | S n => '(a, l) ← dec l; '(xs, l) ← dec_list n l; Some (a :: xs, l)
  end.
Lemma dec_list_enc {A} `{Wire A} (xs : list A) rest : dec_list (length xs) ((xs ≫= enc) ++ rest) = Some (xs, rest).
Proof. induction xs as [|x xs IH]; cbn; [done|]. rewrite <- app_assoc, dec_enc. cbn. by rewrite IH. Qed.
#[export] Program Instance wire_list {A} `{Wire A} : Wire (list A) := {|
  enc xs := Z.of_nat (length xs) :: (xs ≫= enc);
  dec l := match l with n :: l => dec_list (Z.to_nat n) l | [] => None end |}.
Next Obligation. intros A HA xs rest. cbn. rewrite Nat2Z.id. apply dec_list_enc. Qed.

#[export] Program Instance wire_option {A} `{Wire A} : Wire (option A) :=
  wire_via (λ o : option A, option_list o) (λ l, head l) _.
Next Obligation. by intros A HA []. Qed.
#[export] Program Instance wire_string : Wire string := wire_via bytes_of_string string_of_bytes string_of_bytes_of_string.

#[export] Program Instance wire_user : Wire SnapshotUser :=
  wire_via (λ u, (su_ID u, su_Username u, su_Role u, su_Status u, su_BanReason u))
           (λ '(a, b, c, d, e), mkSUser a b c d e) _.
Next Obligation. by intros []. Qed.
#[export] Program Instance wire_token : Wire SnapshotToken :=
  wire_via (λ t, (st_ID t, st_UserID t, st_Name t, st_TokenHash t, st_Status t, st_BanReason t, st_MaxProxyCount t, st_ExpiresAt t))
           (λ '(a, b, c, d, e, f, g, h), mkSToken a b c d e f g h) _.
Next Obligation. by intros []. Qed.
#[export] Program Instance wire_resource : Wire UserResourcePolicy :=
  wire_via (λ p, (rp_UserID p, rp_PortStart p, rp_PortEnd p, rp_MaxPorts p, rp_AllowedProtocols p, rp_Enabled p))
           (λ '(a, b, c, d, e, f), mkResourcePolicy a b c d e f) _.
Next Obligation. by intros []. Qed.
#[export] Program Instance wire_grant : Wire PortGrant :=
  wire_via (λ g, (g_ID g, g_TokenID g, g_Protocol g, g_RemotePortStart g, g_RemotePortEnd g, g_MaxCount g, g_Domain g, g_Subdomain g, g_Enabled g))
           (λ '(a, b, c, d, e, f, g, h, i), mkGrant a b c d e f g h i) _.
Next Obligation. by intros []. Qed.
#[export] Program Instance wire_policy : Wire Policy :=
  wire_via (λ p, (p_UserID p, p_Enabled p, p_Mode p, p_EnabledDetectors p, p_BlockOnAnyFinding p, p_AllowHTTP p, p_AllowTLS p,
                  p_AllowQUIC p, p_AllowEncryptedTunnel p, p_MaxInspectBytes p, p_TemporaryBlockTTL p, p_EncryptedTunnelMode p))
           (λ '(a, b, c, d, e, f, g, h, i, j, k, l), mkPolicy a b c d e f g h i j k l) _.
Next Obligation. by intros []. Qed.
#[export] Program Instance wire_blocked : Wire BlockedIP :=
  wire_via (λ b, (bi_IP b, bi_Reason b, bi_CreatedBy b, bi_CreatedAt b)) (λ '(a, b, c, d), mkBlockedIP a b c d) _.
Next Obligation. by intros []. Qed.
#[export] Program Instance wire_snapshot : Wire IdentitySnapshot :=
  wire_via (λ s, (Baseline s, BaselineEnd s, ReplaceBlockedIPs s, Incremental s, RemovedUserIDs s, NodeAccessEnforced s, Revision s,
                  Users s, Tokens s, Policies s, Grants_ s, DPIPolicies s, BlockedIPs s, RemovedBlockedIPs s))
           (λ '(a, b, c, d, e, f, g, h, i, j, k, l, m, n), mkSnapshot a b c d e f g h i j k l m n) _.
Next Obligation. by intros []. Qed.

Definition wire_marshal (s : IdentitySnapshot) : list Z := enc s.
Definition wire_unmarshal (l : list Z) : option IdentitySnapshot := match dec l with Some (s, []) => Some s | _ => None end.
Lemma wire_roundtrip s : wire_unmarshal (wire_marshal s) = Some s.
Proof. unfold wire_unmarshal, wire_marshal. pose proof (dec_enc s []) as H. rewrite app_nil_r in H. by rewrite H. Qed.
Lemma wire_nonempty s : wire_marshal s ≠ [].
Proof. by destruct s as [[] [] [] []]. Qed.
Definition wire_codec : SnapshotCodec := {|
  Marshal := wire_marshal; Unmarshal := wire_unmarshal;
  Unmarshal_Marshal := wire_roundtrip; Marshal_nonempty := wire_nonempty |}.
