(* ===== verification/ClusterRun.v ===== *)
(** * Executions of the controller and an edge

    The steps of [ClusterSync] as a function: an [action] names a step and the
    choices of the environment in it, [act] carries it out when it is possible, and
    every run of [act] is an execution of [step].  The examples run the whole
    synchronization, from the edge's hello to its first complete cache. *)
From Stdlib Require Import ZArith Lia Ascii String.
From stdpp Require Import gmap strings list fin_maps.
From S2P Require Import Prelude GoStrings Types DpiEngine DpiService EdgeStore EdgeIdentity ControllerDB IdentityPage DBInvariant IdentityView CacheIndex ControllerLink EdgeLink SyncPhase ClusterSync WireCodec.
Local Open Scope Z_scope.

Inductive action :=
  | Admin (op : db_op) (known : option bool)
  | Ctl (op : ctl_op)
  | Push (nodeID : string) (now : time) (id : option string) (sql : nat → bool)
  | Register (nodeID : string) (now : time)
  | Hello (c : nat) (m : Message)
  | Epoch (c : nat) (id : string)
  | SendWelcome (c : nat) (observed : string)
  | Sync (c : nat) (now : time) (sql : nat → bool)
  | Receive (c : nat) (now : time) (observed : string) (m : Message)
  | Awaiting (c : nat)
  | Identity (c : nat) (now : time) (sql : bool)
  | Transmit (c : nat) (now : time)
  | Close (c : nat)
  | Restart
  | EdgeConnect (now : time)
  | EdgeRecv (now : time)
  | EdgeSend
  | EdgeTake
  | EdgeProgress
  | EdgeCommit (now now' : time) (ok : bool)
  | EdgeReport (enforced : option edge_error)
  | EdgeHeartbeat
  | EdgeClose (delay : duration) (err : option string) (reset : bool) (msg : string).

Section run.
Context {codec : SnapshotCodec}.
Context (sql_error : store_error) (rand_error : string) (julianday : time → Z) (db_error : store_error).
Context (n : string).

(** The message that connection [c] delivers: the edge's next one, or any. *)
Definition take_message (y : System) (c : nat) (m : Message) : option (Message * System) :=
  if is_edge y c then match y_up y with m :: rest => Some (m, y <| y_up := rest |>) | [] => None end else Some (m, y).
Definition fresh_token (y : System) (id : option string) : bool :=
  match id with Some t => bool_decide (t ∉ y_tokens y) | None => true end.

Definition act (y : System) (a : action) : option System :=
  match a with
  | Admin op known =>
      match db_exec (y_db y) op with
      | inr d' => Some (noted n (y <| y_db := d' |> <| y_ctl := after_mutation (y_ctl y) op known |>))
      | inl _ => None
      end
  | Ctl op => Some (y <| y_ctl := ctl_exec (y_ctl y) op |>)
  | Push nodeID now id sql =>
      if fresh_token y id then
        let '(s', d') := pushNodeIdentity sql_error rand_error (y_ctl y) (y_db y) nodeID now id sql in
        Some ((drawn y id) <| y_ctl := s' |> <| y_db := d' |>)
      else None
  | Register nodeID now =>
      Some (set_loop (y <| y_ctl := register (y_ctl y) (y_next y) nodeID now |> <| y_next := S (y_next y) |>)
              (y_next y) AwaitHello new_loop)
  | Hello c m =>
      match y_loops y !! c, take_message y c m with
      | Some (AwaitHello, l), Some (m, y1) =>
          let '(s', err) := accept_hello (y_ctl y) c m in
          Some (or_close (set_loop (y1 <| y_ctl := s' |>) c AwaitEpoch l) c err)
      | _, _ => None
      end
  | Epoch c id =>
      match y_loops y !! c with
      | Some (AwaitEpoch, l) =>
          if fresh_token y (Some id)
          then Some (set_loop ((drawn y (Some id)) <| y_ctl := open_epoch (y_ctl y) c id |>) c (AwaitWelcome id) l) else None
      | _ => None
      end
  | SendWelcome c observed =>
      match y_loops y !! c with
      | Some (AwaitWelcome id, l) =>
          s' ← enqueue (y_ctl y) c (welcome_message (y_ctl y) c id observed);
          Some (set_loop (y <| y_ctl := s' |>) c (AwaitSync id) l)
      | _ => None
      end
  | Sync c now sql =>
      match y_loops y !! c with
      | Some (AwaitSync id, l) =>
          let '(s', d', err) := start_sync sql_error (y_ctl y) (y_db y) c now id sql in
          Some (or_close (set_loop (y <| y_ctl := s' |> <| y_db := d' |>) c Streaming l) c err)
      | _ => None
      end
  | Receive c now observed m =>
      match y_loops y !! c, take_message y c m with
      | Some (Streaming, l), Some (m, y1) =>
          match cl_awaiting l with
          | None => let '(s', l', err) := receive (y_ctl y) l c now observed m in
                    Some (or_close (set_loop (y1 <| y_ctl := s' |>) c Streaming l') c err)
          | Some _ => None
          end
      | _, _ => None
      end
  | Awaiting c =>
      match y_loops y !! c with
      | Some (Streaming, l) =>
          m ← cl_awaiting l; s' ← enqueue (y_ctl y) c m;
          Some (set_loop (y <| y_ctl := s' |>) c Streaming (l <| cl_awaiting := None |>))
      | _ => None
      end
  | Identity c now sql =>
      match y_loops y !! c with
      | Some (Streaming, l) =>
          let '(s', d', l', err) := identity_worker sql_error (y_ctl y) (y_db y) l c now sql in
          Some (or_close (set_loop (y <| y_ctl := s' |> <| y_db := d' |>) c Streaming l') c err)
      | _ => None
      end
  | Transmit c now =>
      ss ← cs_conns (y_ctl y) !! c;
      match ns_send ss with
      | m :: rest => Some ((if is_edge y c then y <| y_down := y_down y ++ [m] |> else y)
                             <| y_ctl := update_conn (y_ctl y) c (transmitted now m rest) |>)
      | [] => None
      end
  | Close c => Some (close y c)
  | Restart => Some (y <| y_ctl := NewControllerServer |> <| y_loops := ∅ |>)
  | EdgeConnect now =>
      match y_conn y with
      | None => Some (noted n (set_loop (y <| y_ctl := register (y_ctl y) (y_next y) n now |> <| y_next := S (y_next y) |>
                                   <| y_store := resetIdentityCache (y_store y) false |>
                                   <| y_conn := Some (y_next y, open_connection (y_client y) now) |>
                                   <| y_down := [] |> <| y_up := [] |>)
                         (y_next y) AwaitHello new_loop))
      | Some _ => None
      end
  | EdgeRecv now =>
      '(c, k) ← y_conn y;
      match y_down y, ek_recvStopped k with
      | m :: rest, false => let '(e', k') := recv (y_client y) k now m in
                            Some (y <| y_client := e' |> <| y_conn := Some (c, k') |> <| y_down := rest |>)
      | _, _ => None
      end
  | EdgeSend =>
      '(c, k) ← y_conn y;
      match ek_send k with
      | m :: rest => Some (y <| y_conn := Some (c, k <| ek_send := rest |>) |> <| y_up := y_up y ++ [m] |>)
      | [] => None
      end
  | EdgeTake => '(c, k) ← y_conn y; Some (y <| y_conn := Some (c, apply_take k) |>)
  | EdgeProgress => '(c, k) ← y_conn y; Some (y <| y_conn := Some (c, apply_progress (y_client y) k) |>)
  | EdgeCommit now now' ok =>
      '(c, k) ← y_conn y;
      let '(s', k') := apply_commit julianday db_error (y_store y) k now now' ok in
      Some (y <| y_store := s' |> <| y_conn := Some (c, k') |>)
  | EdgeReport enforced =>
      '(c, k) ← y_conn y;
      let '(e', k') := apply_report (y_client y) k enforced in Some (y <| y_client := e' |> <| y_conn := Some (c, k') |>)
  | EdgeHeartbeat =>
      '(c, k) ← y_conn y;
      match edge_heartbeat (y_client y) k with inr k' => Some (y <| y_conn := Some (c, k') |>) | inl _ => None end
  | EdgeClose delay err reset msg =>
      '(c, k) ← y_conn y;
      let '(e', s', _) := after_connect (close_connection (y_client y)) (y_store y) delay err reset msg in
      Some (y <| y_client := e' |> <| y_store := s' |> <| y_conn := None |> <| y_down := [] |> <| y_up := [] |>)
  end.

Abbreviation stepped := (step sql_error rand_error julianday db_error n).

Lemma take_message_next y c m m' y1 : take_message y c m = Some (m', y1) → next_message y c m' y1.
Proof.
  unfold take_message, next_message. destruct (is_edge y c); [|by intros [= <- <-]].
  destruct (y_up y) as [|x rest] eqn:Hu; [done|]. intros [= <- <-]. eauto.
Qed.
Lemma fresh_token_draw y id : fresh_token y id = true → draw y id.
Proof. unfold fresh_token, draw. destruct id; [|done]. intros H%bool_decide_eq_true t [= <-]. done. Qed.

Lemma act_step y a y' : act y a = Some y' → stepped y y'.
Proof.
  destruct a; cbn; intros H.
  - destruct (db_exec _ _) eqn:Hx; [done|]. injection H as <-. by constructor.
  - injection H as <-. constructor.
  - destruct (fresh_token y id) eqn:Hf; [|done]. destruct (pushNodeIdentity _ _ _ _ _ _ _ _) eqn:Hp. injection H as <-.
    eapply step_push; [by apply fresh_token_draw|done].
  - injection H as <-. constructor.
  - destruct (y_loops y !! c) as [[[] l]|] eqn:Hl; try done. destruct (take_message y c m) as [[m' y1]|] eqn:Ht; [|done].
    destruct (accept_hello _ _ _) eqn:Ha. injection H as <-. eapply step_hello; [done|by eapply take_message_next|done].
  - destruct (y_loops y !! c) as [[[] l]|] eqn:Hl; try done. destruct (bool_decide _) eqn:Hf; [|done]. injection H as <-.
    apply step_epoch; [done|by apply (fresh_token_draw y (Some id))].
  - destruct (y_loops y !! c) as [[[] l]|] eqn:Hl; try done. apply bind_Some in H as (s' & Hs & [= <-]). by eapply step_welcome.
  - destruct (y_loops y !! c) as [[[] l]|] eqn:Hl; try done. destruct (start_sync _ _ _ _ _ _ _) as [[s' d'] err] eqn:Hs.
    injection H as <-. by eapply step_sync.
  - destruct (y_loops y !! c) as [[[] l]|] eqn:Hl; try done. destruct (take_message y c m) as [[m' y1]|] eqn:Ht; [|done].
    destruct (cl_awaiting l) eqn:Ha; [done|]. destruct (receive _ _ _ _ _ _) as [[s' l'] err] eqn:Hr. injection H as <-.
    eapply step_receive; [done|done|by eapply take_message_next|done].
  - destruct (y_loops y !! c) as [[[] l]|] eqn:Hl; try done. apply bind_Some in H as (m & Hm & (s' & Hs & [= <-])%bind_Some).
    by eapply step_awaiting.
  - destruct (y_loops y !! c) as [[[] l]|] eqn:Hl; try done. destruct (identity_worker _ _ _ _ _ _ _) as [[[s' d'] l'] err] eqn:Hw.
    injection H as <-. by eapply step_identity.
  - apply bind_Some in H as (ss & Hss & H). destruct (ns_send ss) eqn:Hs; [done|]. injection H as <-. by eapply step_transmit.
  - injection H as <-. constructor.
  - injection H as <-. constructor.
  - destruct (y_conn y) eqn:Hc; [done|]. injection H as <-. by constructor.
  - apply bind_Some in H as ([c k] & Hk & H). destruct (y_down y) eqn:Hd, (ek_recvStopped k) eqn:Hr; try done.
    destruct (recv _ _ _ _) eqn:Hrc. injection H as <-. by eapply step_edge_recv.
  - apply bind_Some in H as ([c k] & Hk & H). destruct (ek_send k) eqn:Hs; [done|]. injection H as <-. by eapply step_edge_send.
  - apply bind_Some in H as ([c k] & Hk & [= <-]). by constructor.
  - apply bind_Some in H as ([c k] & Hk & [= <-]). by constructor.
  - apply bind_Some in H as ([c k] & Hk & H). destruct (apply_commit _ _ _ _ _ _ _) eqn:Hc. injection H as <-. by eapply step_edge_commit.
  - apply bind_Some in H as ([c k] & Hk & H). destruct (apply_report _ _ _) eqn:Hc. injection H as <-. by eapply step_edge_report.
  - apply bind_Some in H as ([c k] & Hk & H). destruct (edge_heartbeat _ _) eqn:Hc; [done|]. injection H as <-. by eapply step_edge_heartbeat.
  - apply bind_Some in H as ([c k] & Hk & H). destruct (after_connect _ _ _ _ _ _) as [[e' s'] d'] eqn:Hc. injection H as <-.
    by eapply step_edge_close.
Qed.

Fixpoint run (y : System) (plan : list action) : option System :=
  match plan with [] => Some y | a :: plan => y1 ← act y a; run y1 plan end.

Lemma run_reachable y0 y plan y' :
  reachable sql_error rand_error julianday db_error n y0 y → run y plan = Some y' →
  reachable sql_error rand_error julianday db_error n y0 y'.
Proof.
  revert y. induction plan as [|a plan IH]; cbn; intros y Hr H; [by injection H as <-|].
  apply bind_Some in H as (y1 & Ha%act_step & H). eapply IH; [|exact H]. by eapply reach_step.
Qed.
End run.

(** ** An execution *)

Definition all_sql : nat → bool := λ _, true.
Definition first_sync : list action :=
  [EdgeConnect 100; EdgeSend; Hello 0 (message "" ""); Epoch 0 "epoch-1"; SendWelcome 0 ""; Sync 0 101 all_sql;
   Transmit 0 102; EdgeRecv 102; EdgeTake; EdgeCommit 103 103 true; EdgeReport None; EdgeSend;
   Receive 0 104 "" (message "" ""); Identity 0 104 true; Identity 0 105 true;
   Push "edge-1" 106 None all_sql; Transmit 0 107; EdgeRecv 107; EdgeTake; EdgeProgress; EdgeCommit 108 108 true; EdgeReport None;
   EdgeSend; EdgeSend; EdgeSend; Receive 0 109 "" (message "" ""); Receive 0 109 "" (message "" "");
   Receive 0 109 "" (message "" ""); Identity 0 110 true; Identity 0 110 true; Transmit 0 111; EdgeRecv 111].
Definition demo_client : EdgeClient := NewEdgeClient "edge-1" "boot" "{}".
#[local] Existing Instance wire_codec.
Abbreviation demo_reachable := (reachable (ErrText "database") "rand" (λ _, 0) (ErrText "database") "edge-1" (started demo_db demo_client empty_store)).
Definition demo_run (plan : list action) : option System :=
  run (ErrText "database") "rand" (λ _, 0) (ErrText "database") "edge-1" (started demo_db demo_client empty_store) plan.
Definition demo_end (plan : list action) : System := default (started demo_db demo_client empty_store) (demo_run plan).
Definition demo_conn (plan : list action) : EdgeConn :=
  match y_conn (demo_end plan) with Some (_, k) => k | None => open_connection demo_client 0 end.

Lemma demo_end_reachable plan : demo_reachable (demo_end plan).
Proof.
  unfold demo_end, demo_run. destruct (run _ _ _ _ _ _ plan) as [y|] eqn:Hr; [|constructor].
  eapply run_reachable; [constructor|exact Hr].
Qed.
Lemma demo_current : current "edge-1" (demo_end first_sync) (demo_conn first_sync).
Proof. exists 0%nat. split_and!; [by vm_compute..|vm_compute; lia]. Qed.

(** The user is cached after the first synchronization. *)
Lemma synced_edge_exact_witness :
  edc_syncReady (y_client (demo_end first_sync)) = true ∧ is_Some (v_user (edge_view (y_store (demo_end first_sync)) 1)) ∧
  (edge_view (y_store (demo_end first_sync)) 1 = db_view (y_db (demo_end first_sync)) "edge-1" 1 ∨
   stale (y_db (demo_end first_sync)) "edge-1" 1).
Proof.
  split_and!; [by vm_compute|vm_compute; eauto|].
  eapply (synced_edge_exact _ _ _ _ "edge-1" demo_db demo_client empty_store _ (demo_conn first_sync) 1);
    [apply demo_db_ok|done|done|apply demo_end_reachable|apply demo_current|by vm_compute].
Defined.

Lemma quiescent_edge_refines_witness :
  is_Some (v_user (db_view (y_db (demo_end first_sync)) "edge-1" 1)) ∧
  edge_view (y_store (demo_end first_sync)) 1 = db_view (y_db (demo_end first_sync)) "edge-1" 1.
Proof.
  split; [vm_compute; eauto|].
  eapply (quiescent_edge_refines _ _ _ _ "edge-1" demo_db demo_client empty_store _ (demo_conn first_sync));
    [apply demo_db_ok|done|done|apply demo_end_reachable|apply demo_current|by vm_compute|by vm_compute].
Defined.

(** An administrator bans the user: the edge, still synchronized, holds the old
    status, and the user is pending in the index until the next push. *)
Example ban_is_pending :
  let y := demo_end (first_sync ++ [Admin (OpSetUserStatus 200 1 "banned" "abuse") (Some true)]) in
  edc_syncReady (y_client y) = true ∧ edge_view (y_store y) 1 ≠ db_view (y_db y) "edge-1" 1 ∧
  PendingNodeIdentityUsers (y_db y) "edge-1" "epoch-1" = [1].
Proof.
  split_and!; [by vm_compute| |by vm_compute].
  intros H. apply (f_equal (λ v, su_Status <$> v_user v)) in H. vm_compute in H. discriminate.
Qed.

(** An administrator deletes the node: its rows are gone while the edge, not yet cut
    off, still reports itself synchronized, and no user is pending; the connection
    is no longer a current one. *)
Example deletion_before_forgetting :
  let y := demo_end (first_sync ++ [Admin (OpDeleteNode "edge-1") None]) in
  edc_syncReady (y_client y) = true ∧ cs_sessions (y_ctl y) !! "edge-1"%string = Some 0%nat ∧
  edge_view (y_store y) 1 ≠ db_view (y_db y) "edge-1" 1 ∧ PendingNodeIdentityUsers (y_db y) "edge-1" "epoch-1" = [] ∧
  ∀ k, ¬ current "edge-1" y k.
Proof.
  split_and!; [by vm_compute..| |by vm_compute|].
  - intros H. apply (f_equal (λ v, su_Status <$> v_user v)) in H. vm_compute in H. discriminate.
  - intros k (c & Hk & _ & Hg). vm_compute in Hk, Hg. injection Hk as <- _. lia.
Qed.
