(* ===== verification/ClusterLive.v ===== *)
(** * Synchronization can always complete

    From every reachable state of [ClusterSync] in which the node is in the
    directory, the steps of the protocol alone, with a responsive database and network, lead to a synchronized edge: the edge
    reconnects, discards its cache under a new epoch, and the pages of the
    baseline are transferred, applied and confirmed one after the other until the
    last one.  No page is refused, no acknowledgement is taken for a wrong one,
    and the cursor grows with each page, so the transfer ends. *)
From Stdlib Require Import ZArith Lia Ascii String.
From stdpp Require Import gmap strings list fin_maps sorting.
From S2P Require Import Prelude GoStrings Types DpiEngine DpiService EdgeStore EdgeIdentity ControllerDB IdentityPage DBInvariant IdentityView CacheIndex BaselineApply ControllerLink EdgeLink SyncPhase ClusterSync WireCodec ClusterRun.
Local Open Scope Z_scope.

(** What the synchronization of the edge's current connection depends on. *)
Record Focus := mkFocus {
  f_stage : stage; f_loop : ConnectLoop; f_ss : nodeSession; f_client : EdgeClient; f_conn : EdgeConn;
  f_store : Store; f_db : ControllerDB; f_down : list Message; f_up : list Message }.
#[export] Instance eta_focus : Eta Focus := λ r,
  mkFocus (f_stage r) (f_loop r) (f_ss r) (f_client r) (f_conn r) (f_store r) (f_db r) (f_down r) (f_up r).

#[local] Arguments ApplyIdentitySnapshot : simpl never.

(** ** The database during a baseline *)

(** The tables that a view is made of. *)
Definition same_identities (d d' : ControllerDB) : Prop :=
  d_users d' = d_users d ∧ d_tokens d' = d_tokens d ∧ d_policies d' = d_policies d ∧ d_grants d' = d_grants d ∧
  d_dpi_policies d' = d_dpi_policies d ∧ d_access d' = d_access d ∧ d_user_seq d' = d_user_seq d.
(** No user of the node is pending. *)
Definition clean (d : ControllerDB) (n : string) : Prop :=
  ∀ u r, d_cache d !! (u, n) = Some r → nc_desired r ≤ nc_applied r.

Lemma same_view d d' n u : same_identities d d' → db_view d' n u = db_view d n u.
Proof. intros (Hu & Ht & Hp & Hg & Hd & Ha & _). unfold db_view, CanAccessNode. by rewrite Hu, Ht, Hp, Hg, Hd, Ha. Qed.

Lemma clean_pending d n e : clean d n → PendingNodeIdentityUsers d n e = [].
Proof.
  intros Hcl. unfold PendingNodeIdentityUsers. replace (node_users d n (dirty_row e)) with (@nil Z); [done|].
  symmetry. apply elem_of_nil_inv. intros u Hu. unfold node_users in Hu. rewrite merge_sort_Permutation in Hu.
  apply list_elem_of_omap in Hu as ([[v m] r] & Hin%elem_of_map_to_list & Hu). cbn in Hu.
  destruct (bool_decide_reflect (m = n)) as [->|]; [|done]. cbn in Hu. unfold dirty_row in Hu. apply Hcl in Hin.
  by rewrite (bool_decide_false (nc_applied r < _)), andb_false_r in Hu by lia.
Qed.

Lemma read_page_succeeds d n cursor : ∃ page, ReadNodeIdentityPage d n cursor None 64 = inr page.
Proof. unfold ReadNodeIdentityPage. cbn -[take page_candidates]. destruct (bool_decide (take _ _ = [])); by eexists. Qed.

Lemma lock_succeeds d n e b : d_sessions d !! n = Some (e, b) → lockCacheSession d n e = inr tt.
Proof. intros H. unfold lockCacheSession. rewrite H. by rewrite bool_decide_true. Qed.

(** A page is prepared and, once the edge has it, confirmed. *)
Lemma page_database d n e b cursor page :
  db_ok d → clean d n → d_sessions d !! n = Some (e, b) → ReadNodeIdentityPage d n cursor None 64 = inr page →
  let revision := d_sequence d + 1 in
  let d1 := d <| d_sequence := revision |> in
  let p := page_snapshot revision true page (ListBlockedInboundIPs d1) in
  NextIdentityRevision d = inr (d1, revision) ∧ ∃ d2 d3,
    PrepareNodeIdentityCache d1 n e revision (touched_users p) = inr d2 ∧
    ConfirmNodeIdentityCache d2 0 n e revision (su_ID <$> Users p) (RemovedUserIDs p) false = inr d3 ∧
    same_identities d d3 ∧ db_ok d3 ∧ clean d3 n ∧ d_sessions d3 = d_sessions d ∧ d_sequence d3 = revision.
Proof.
  intros Hok Hcl Hses Hpage. cbn zeta. set (revision := d_sequence d + 1). set (d1 := d <| d_sequence := revision |>).
  set (p := page_snapshot _ _ _ _).
  assert (Hnext : NextIdentityRevision d = inr (d1, revision)).
  { unfold NextIdentityRevision. rewrite bool_decide_false; [done|]. pose proof (ok_sequence d Hok). lia. }
  split; [done|]. destruct (baseline_page d n cursor page revision (ListBlockedInboundIPs d1) Hok Hpage) as (_ & Hrm & _).
  fold p in Hrm. assert (Hprep : ∃ d2, PrepareNodeIdentityCache d1 n e revision (touched_users p) = inr d2).
  { unfold PrepareNodeIdentityCache. rewrite (lock_succeeds d1 n e b) by done. by eexists. }
  destruct Hprep as [d2 Hprep]. exists d2. assert (Hprep' := Hprep). apply prepare_inv in Hprep' as (He & Hd2 & Hc2).
  assert (Hconf : ∃ d3, ConfirmNodeIdentityCache d2 0 n e revision (su_ID <$> Users p) (RemovedUserIDs p) false = inr d3).
  { unfold ConfirmNodeIdentityCache. rewrite (lock_succeeds d2 n e b) by (by rewrite Hd2). by eexists. }
  destruct Hconf as [d3 Hconf]. exists d3. assert (Hok1 : db_ok d1) by (by eapply next_revision_ok).
  assert (Hrev : 0 < revision) by (pose proof (ok_sequence d Hok); unfold revision; lia).
  assert (Hok2 : db_ok d2) by (eapply prepare_ok; [exact Hok1| |exact Hprep]; cbn; lia).
  assert (Hconf' := Hconf). apply confirm_page_inv in Hconf' as (_ & Hd3 & Hc3); [|done|rewrite Hrm; intros u Hu; by apply not_elem_of_nil in Hu].
  split_and!; try done.
  - rewrite Hd3, Hd2. done.
  - eapply confirm_ok; [exact Hok2| |exact Hconf]. rewrite Hd2. cbn. lia.
  - intros u r. rewrite Hc3, Hrm. destruct (bool_decide_reflect (u ∈ su_ID <$> Users p ∧ n = n)) as [[Hu _]|Hu].
    + intros (r0 & Hr0 & ->)%fmap_Some. apply (ok_cache d2 Hok2) in Hr0 as (_ & _ & Hde). rewrite Hd2 in Hde. cbn in *. lia.
    + rewrite bool_decide_false by (intros [H _]; by apply not_elem_of_nil in H). rewrite Hc2. unfold touched_users. rewrite Hrm.
      rewrite bool_decide_false by done. apply Hcl.
  - by rewrite Hd3, Hd2.
  - by rewrite Hd3, Hd2.
Qed.

Section live.
Context {codec : SnapshotCodec}.
Context (sql_error : store_error) (rand_error : string) (julianday : time → Z) (db_error : store_error).
Context (n : string).

Abbreviation run := (run sql_error rand_error julianday db_error n).
Abbreviation act := (act sql_error rand_error julianday db_error n).

(** The steps of the two programs over connection [c] of the node: the loops of the
    connection at the controller, the pushes to the node, and the edge.  The requests
    of administrators, the other operations of the cluster server, restarts, and
    connections that begin or end are none of them. *)
Definition protocol_action (c : nat) (a : action) : bool :=
  match a with
  | Push nodeID _ _ _ => bool_decide (nodeID = n)
  | Hello c' _ | Epoch c' _ | SendWelcome c' _ | Sync c' _ _ | Receive c' _ _ _ | Awaiting c' | Identity c' _ _ | Transmit c' _ =>
      bool_decide (c' = c)
  | EdgeRecv _ | EdgeSend | EdgeTake | EdgeProgress | EdgeCommit _ _ _ | EdgeReport _ | EdgeHeartbeat => true
  | Admin _ _ | Ctl _ | Register _ _ | Close _ | Restart | EdgeConnect _ | EdgeClose _ _ _ _ => false
  end.

(** A plan of such steps leads from every state of [P] to one of [Q]. *)
Definition leads (c : nat) (P Q : System → Prop) : Prop :=
  ∀ y, P y → ∃ plan y', Forall (λ a, protocol_action c a = true) plan ∧ run y plan = Some y' ∧ Q y'.

(** The edge's connection is number [c] of the controller. *)
Record at_focus (c : nat) (F : Focus) (y : System) : Prop := mkAt {
  at_conn : y_conn y = Some (c, f_conn F);
  at_loop : y_loops y !! c = Some (f_stage F, f_loop F);
  at_session : cs_conns (y_ctl y) !! c = Some (f_ss F);
  at_current : cs_sessions (y_ctl y) !! n = Some c ∧ (y_gone y ≤ c)%nat;
  at_node : ns_nodeID (f_ss F) = n ∧ edc_nodeID (f_client F) = n;
  at_suspect : cs_databaseSuspect (y_ctl y) = false;
  at_client : y_client y = f_client F;
  at_store : y_store y = f_store F;
  at_db : y_db y = f_db F;
  at_down : y_down y = f_down F;
  at_up : y_up y = f_up F;
  at_blank : ""%string ∈ y_tokens y }.

Lemma run_app y plan plan' y' : run y plan = Some y' → run y (plan ++ plan') = run y' plan'.
Proof.
  revert y. induction plan as [|a plan IH]; cbn; intros y H; [by injection H as ->|].
  apply bind_Some in H as (y1 & -> & H). cbn. by apply IH.
Qed.
Lemma leads_trans c P Q R : leads c P Q → leads c Q R → leads c P R.
Proof.
  intros H1 H2 y (plan & y1 & Hp1 & Hr1 & (plan' & y2 & Hp2 & Hr2 & HR)%H2)%H1. exists (plan ++ plan'), y2.
  rewrite (run_app _ _ _ _ Hr1). split; [by apply Forall_app|done].
Qed.
Lemma leads_mono c P Q R : leads c P Q → (∀ y, Q y → R y) → leads c P R.
Proof. intros H HQ y (plan & y' & Hp & Hr & HR)%H. exists plan, y'. auto. Qed.
Lemma leads_act c P Q : (∀ y, P y → ∃ a, protocol_action c a = true ∧ ∃ y', act y a = Some y' ∧ Q y') → leads c P Q.
Proof. intros H y (a & Hp & y' & Ha & HQ)%H. exists [a], y'. cbn. rewrite Ha. by repeat constructor. Qed.
Lemma leads_at c F Q y :
  at_focus c F y → leads c (at_focus c F) Q → ∃ plan y', Forall (λ a, protocol_action c a = true) plan ∧ run y plan = Some y' ∧ Q y'.
Proof. intros Hy H. by apply H. Qed.
Lemma leads_focus c F Q :
  (ns_nodeID (f_ss F) = n → edc_nodeID (f_client F) = n → leads c (at_focus c F) Q) → leads c (at_focus c F) Q.
Proof. intros H y Hy. destruct (at_node _ _ _ Hy). by apply H. Qed.

(** ** Steps *)

Ltac focused H :=
  destruct H as [Hc Hl Hs [Hcur Hgo] [Hn He] Hsu Hcl Hst Hdb Hdo Hup Hbl];
  cbn [ClusterRun.act]; unfold take_message, is_edge; rewrite ?Hc, ?Hl, ?Hs, ?Hcl, ?Hst, ?Hdb, ?Hdo, ?Hup; cbn [mbind option_bind];
  rewrite ?(bool_decide_true (_ = _) eq_refl).
(** The next step of the plan. *)
Ltac acts a := exists a; split; [cbn; by rewrite ?bool_decide_true by done|].
(** The conditions that the context decides. *)
Ltac decides :=
  repeat match goal with
    |- context [bool_decide ?P] =>
      first [rewrite (bool_decide_true P) by (done || lia) | rewrite (bool_decide_false P) by (done || lia)]
  end; cbn [negb andb orb].
Ltac settle :=
  constructor; cbn; rewrite ?lookup_insert_eq, ?lookup_alter_eq; try done; try congruence; try set_solver.

Section steps.
Context (c : nat) (F : Focus).
Abbreviation here := (at_focus c F).
Abbreviation there := (at_focus c).

Lemma lead_edge_send m rest :
  ek_send (f_conn F) = m :: rest →
  leads c here (there (F <| f_conn := (f_conn F) <| ek_send := rest |> |> <| f_up := f_up F ++ [m] |>)).
Proof. intros Hm. apply leads_act. intros y H. acts EdgeSend. focused H. rewrite Hm. eexists. split; [reflexivity|]. settle. Qed.

Lemma lead_transmit m rest :
  ns_send (f_ss F) = m :: rest →
  leads c here (there (F <| f_ss := transmitted 0 m rest (f_ss F) |> <| f_down := f_down F ++ [m] |>)).
Proof.
  intros Hm. apply leads_act. intros y H. acts (Transmit c 0). focused H. rewrite Hm. eexists. split; [reflexivity|].
  settle; [by rewrite Hs|]. split; [|done]. unfold transmitted. by destruct (_ || _).
Qed.

(** *** The handshake *)

Lemma lead_hello m rest :
  f_stage F = AwaitHello → f_up F = m :: rest → m_Type m = "hello"%string → m_NodeID m = n → m_CacheProtocol m = 3 →
  m_BootID m ≠ ""%string → slen (m_BootID m) ≤ 128 →
  leads c here (there (F <| f_stage := AwaitEpoch |> <| f_up := rest |>
    <| f_ss := (f_ss F) <| ns_bootID := m_BootID m |> <| ns_cacheProtocol := 3 |>
                 <| ns_admissionProtocol := m_AdmissionProtocol m |> <| ns_capabilities := m_Capabilities m |> |>)).
Proof.
  intros Hst0 Hm Hty Hid Hpr Hb Hlen. apply leads_act. intros y H. acts (Hello c m). focused H. rewrite Hst0, Hm.
  unfold accept_hello. rewrite (conn_some _ _ _ Hs), Hty, Hid, Hn, Hpr. rewrite !bool_decide_true by done. cbn [negb orb andb].
  rewrite (bool_decide_false (128 < _)), (bool_decide_false (m_BootID m = _)) by (done || lia). cbn [andb].
  eexists. split; [reflexivity|]. settle. by rewrite Hs.
Qed.

Lemma lead_epoch :
  f_stage F = AwaitEpoch →
  leads c here (λ y, ∃ id, id ≠ ""%string ∧
    there (F <| f_stage := AwaitWelcome id |> <| f_ss := (f_ss F) <| ns_cacheSessionID := id |> |>) y).
Proof.
  intros Hst0. apply leads_act. intros y H. set (id := stdpp.base.fresh (y_tokens y) : string).
  assert (Hfresh : id ∉ y_tokens y) by apply is_fresh. acts (Epoch c id). focused H. rewrite Hst0. unfold fresh_token.
  rewrite bool_decide_true by done. eexists. split; [reflexivity|]. exists id. split; [congruence|]. settle.
  by rewrite Hs.
Qed.

Lemma lead_welcome id :
  f_stage F = AwaitWelcome id → ns_send (f_ss F) = [] → ns_cacheProtocol (f_ss F) = 3 →
  leads c here (λ y, ∃ ack, ha_IdentityProtocol ack = 3 ∧
    there (F <| f_stage := AwaitSync id |>
      <| f_ss := (f_ss F) <| ns_send := [(message "welcome" n) <| m_CacheSessionID := id |> <| m_Payload := PAck ack |>] |> |>) y).
Proof.
  intros Hst0 Hse Hpr. apply leads_act. intros y H. acts (SendWelcome c ""). focused H. rewrite Hst0.
  unfold enqueue, welcome_message, try_send. rewrite (conn_some _ _ _ Hs), Hse, Hpr, Hn. cbn -[HeartbeatInterval].
  eexists. split; [reflexivity|]. eexists. split; [|settle; by rewrite Hs]. done.
Qed.

Lemma lead_sync id :
  f_stage F = AwaitSync id → ns_cacheProtocol (f_ss F) = 3 →
  leads c here (there (F <| f_stage := Streaming |> <| f_ss := (f_ss F) <| ns_syncStarted := 0 |> |>)).
Proof.
  intros Hst0 Hpr. apply leads_act. intros y H. acts (Sync c 0 all_sql). focused H. rewrite Hst0.
  unfold start_sync. rewrite (conn_some _ _ _ Hs), Hpr. cbn. eexists. split; [reflexivity|]. settle. by rewrite Hs.
Qed.

(** *** The edge *)

Lemma lead_edge_recv m rest e' k' :
  f_down F = m :: rest → ek_recvStopped (f_conn F) = false → recv (f_client F) (f_conn F) 0 m = (e', k') →
  leads c here (there (F <| f_client := e' |> <| f_conn := k' |> <| f_down := rest |>)).
Proof.
  intros Hm Hrun Hr. apply leads_act. intros y H. acts (EdgeRecv 0). focused H. rewrite Hm, Hrun, Hr.
  eexists. split; [reflexivity|]. settle. split; [done|]. by rewrite (recv_id _ _ _ _ _ _ Hr).
Qed.

Lemma lead_edge_take : leads c here (there (F <| f_conn := apply_take (f_conn F) |>)).
Proof. apply leads_act. intros y H. acts EdgeTake. focused H. eexists. split; [reflexivity|]. settle. Qed.

Lemma lead_edge_commit s' k' :
  apply_commit julianday db_error (f_store F) (f_conn F) 0 0 true = (s', k') →
  leads c here (there (F <| f_store := s' |> <| f_conn := k' |>)).
Proof.
  intros Hcm. apply leads_act. intros y H. acts (EdgeCommit 0 0 true). focused H. rewrite Hcm.
  eexists. split; [reflexivity|]. settle.
Qed.

Lemma lead_edge_report e' k' :
  apply_report (f_client F) (f_conn F) None = (e', k') → edc_nodeID e' = n →
  leads c here (there (F <| f_client := e' |> <| f_conn := k' |>)).
Proof.
  intros Hcm Hid. apply leads_act. intros y H. acts (EdgeReport None). focused H. rewrite Hcm.
  eexists. split; [reflexivity|]. settle.
Qed.

(** *** The receive loop and the identity worker of the controller *)

Lemma touch_focus s now m :
  cs_conns s !! c = Some (f_ss F) → cs_sessions s !! n = Some c → ns_nodeID (f_ss F) = n → m_Capabilities m = ""%string →
  touch_session s c now m = update_conn s c (λ r, r <| ns_lastHeartbeat := now |>).
Proof.
  intros Hs Hcur Hn Hcap. unfold touch_session, registered. rewrite (conn_some _ _ _ Hs), Hn, Hcur, bool_decide_true by done.
  by rewrite Hcap.
Qed.

(** A report of the apply worker is queued for the identity worker. *)
Lemma lead_receive_job m rest :
  f_stage F = Streaming → cl_awaiting (f_loop F) = None → cl_identityJobs (f_loop F) = [] → f_up F = m :: rest →
  identity_job m = true → m_NodeID m = n → m_Capabilities m = ""%string →
  leads c here (λ y, ∃ l,
    there (F <| f_loop := l |> <| f_up := rest |> <| f_ss := (f_ss F) <| ns_lastHeartbeat := 0 |> |>) y ∧
    cl_identityJobs l = [m] ∧ cl_identityCurrent l = cl_identityCurrent (f_loop F) ∧ cl_awaiting l = None).
Proof.
  intros Hst0 Haw Hjobs Hm Hjob Hid Hcap. apply leads_act. intros y H. acts (Receive c 0 "" m). focused H.
  rewrite Hst0, Hm, Haw. unfold receive. rewrite (conn_some _ _ _ Hs), Hn, Hid, bool_decide_true by done. cbn [negb].
  rewrite touch_focus by done. unfold identity_job in Hjob. unfold progress_message, telemetry_message.
  assert (Hty : m_Type m = "cache_cleared"%string ∨ m_Type m = "identity_ack"%string).
  { apply orb_true_iff in Hjob as [?%bool_decide_eq_true|?%bool_decide_eq_true]; auto. }
  destruct Hty as [Hty|Hty]; unfold identity_job; rewrite Hty, Hjobs; decides.
  all: change (bool_decide (length (@nil Message) < 128)%nat) with true; cbn [andb app].
  all: destruct (_ || _ || _); cbn; (eexists; split; [reflexivity|]); eexists; (split; [settle; [by rewrite Hst0|by rewrite Hs]|]); cbn.
  all: by destruct (cl_touchJobs (f_loop F)).
Qed.

(** The session after the acknowledgement of its current fragment. *)
Definition acked (ss : nodeSession) : nodeSession :=
  ss <| ns_lastHeartbeat := 0 |> <| ns_syncStarted := 0 |> <| ns_chunkIndex := ns_chunkIndex ss + 1 |>.
Lemma lead_receive_ack m rest ss' :
  f_stage F = Streaming → cl_awaiting (f_loop F) = None → f_up F = m :: rest →
  m_Type m = "identity_chunk_ack"%string → m_NodeID m = n → m_Capabilities m = ""%string →
  m_CacheSessionID m = ns_cacheSessionID (f_ss F) → m_Revision m = ns_pendingRevision (f_ss F) →
  m_Sequence m = ns_chunkIndex (f_ss F) → ns_appliedRevision (f_ss F) < ns_pendingRevision (f_ss F) →
  ns_cacheProtocol (f_ss F) = 3 → is_Some (ns_pendingIdentity (f_ss F)) → ns_chunkIndex (f_ss F) < ns_chunkTotal (f_ss F) →
  (if bool_decide (ns_chunkIndex (f_ss F) + 1 < ns_chunkTotal (f_ss F)) then sendIdentityChunkLocked (acked (f_ss F))
   else (acked (f_ss F), None)) = (ss', None) →
  leads c here (λ y, ∃ l, there (F <| f_loop := l |> <| f_up := rest |> <| f_ss := ss' |>) y ∧
    cl_identityJobs l = cl_identityJobs (f_loop F) ∧ cl_identityCurrent l = cl_identityCurrent (f_loop F) ∧ cl_awaiting l = None).
Proof.
  intros Hst0 Haw Hm Hty Hid Hcap Hep Hrev Hseq Hlt Hpr [p Hp] Hix Hnext. apply leads_act. intros y H.
  acts (Receive c 0 "" m). focused H.
  rewrite Hst0, Hm, Haw. unfold receive. rewrite (conn_some _ _ _ Hs), Hn, Hid, bool_decide_true by done. cbn [negb].
  rewrite touch_focus by done. unfold progress_message, telemetry_message, identity_job. rewrite Hty. decides.
  set (s1 := update_conn _ _ _). set (ss1 := (f_ss F) <| ns_lastHeartbeat := 0 |>).
  assert (Hs1 : cs_conns s1 !! c = Some ss1) by (cbn; rewrite lookup_alter_eq, Hs; done).
  assert (Hack : acceptIdentityProgress s1 c 0 m = (update_conn s1 c (λ _, ss'), None)).
  { unfold acceptIdentityProgress, registered. rewrite !(conn_some _ _ _ Hs1). cbn [cs_sessions s1 update_conn upd]. cbn -[sendIdentityChunkLocked].
    rewrite Hn, Hcur, Hep, Hty, Hrev, Hseq, Hp, Hpr. decides.
    destruct (bool_decide _) eqn:Hb; [|by injection Hnext as <-].
    change (sendIdentityChunkLocked _) with (sendIdentityChunkLocked (acked (f_ss F))). by rewrite Hnext. }
  assert (Hid' : ns_nodeID ss' = n).
  { destruct (bool_decide _); [|by injection Hnext as <-]. by apply chunk_send_fields in Hnext as [send ->]. }
  rewrite Hack. destruct (_ || _ || _); cbn; (eexists; split; [reflexivity|]); eexists;
    (split; [settle; [by rewrite Hst0|by rewrite Hs]|]); cbn.
  all: by destruct (cl_touchJobs (f_loop F)).
Qed.

Lemma lead_identity_take m :
  f_stage F = Streaming → cl_identityCurrent (f_loop F) = None → cl_identityJobs (f_loop F) = [m] →
  leads c here (there (F <| f_loop := (f_loop F) <| cl_identityJobs := [] |> <| cl_identityCurrent := Some m |> |>)).
Proof.
  intros Hst0 Hcur0 Hj. apply leads_act. intros y H. acts (Identity c 0 true). focused H. rewrite Hst0.
  unfold identity_worker. rewrite Hcur0, Hj. cbn. eexists. split; [reflexivity|]. settle.
Qed.

(** The reset is confirmed: the baseline starts. *)
Definition baseline_session (ss : nodeSession) : nodeSession :=
  ss <| ns_cacheReady := true |> <| ns_needsFull := false |> <| ns_baselineActive := true |>
     <| ns_baselineCursor := 0 |> <| ns_pendingRevision := 0 |> <| ns_appliedRevision := 0 |>
     <| ns_pendingIdentity := None |> <| ns_blockedIPs := ∅ |> <| ns_syncStarted := 0 |>.
Lemma lead_identity_cleared m :
  f_stage F = Streaming → cl_identityCurrent (f_loop F) = Some m → m_Type m = "cache_cleared"%string →
  m_CacheSessionID m = ns_cacheSessionID (f_ss F) → ns_cacheProtocol (f_ss F) = 3 → ns_cacheReady (f_ss F) = false →
  leads c here (there (F <| f_loop := (f_loop F) <| cl_identityCurrent := None |> |> <| f_ss := baseline_session (f_ss F) |>
    <| f_db := ResetNodeIdentityCache (f_db F) n (ns_cacheSessionID (f_ss F)) (ns_bootID (f_ss F)) |>)).
Proof.
  intros Hst0 Hcur0 Hty Hep Hpr Hrd. apply leads_act. intros y H. acts (Identity c 0 true). focused H. rewrite Hst0.
  unfold identity_worker, acceptCacheCleared, registered. rewrite Hcur0, (conn_some _ _ _ Hs), Hn, Hcur, Hty, Hep, Hpr, Hrd.
  decides. cbn -[ResetNodeIdentityCache]. eexists. split; [reflexivity|]. settle. by rewrite Hs.
Qed.

(** The acknowledgement of the pending page. *)
Lemma lead_identity_confirm m p d' :
  f_stage F = Streaming → cl_identityCurrent (f_loop F) = Some m → m_Type m = "identity_ack"%string →
  m_CacheSessionID m = ns_cacheSessionID (f_ss F) → ns_cacheProtocol (f_ss F) = 3 →
  ns_pendingIdentity (f_ss F) = Some p → Revision p = m_Revision m → ns_appliedRevision (f_ss F) < Revision p →
  ns_chunkIndex (f_ss F) = ns_chunkTotal (f_ss F) → ns_send (f_ss F) = [] → Baseline p = true →
  ConfirmNodeIdentityCache (f_db F) 0 n (ns_cacheSessionID (f_ss F)) (Revision p) (su_ID <$> Users p) (RemovedUserIDs p) false = inr d' →
  leads c here (there (F <| f_loop := (f_loop F) <| cl_identityCurrent := None |> |> <| f_db := d' |>
    <| f_ss := (confirmed_session p (Revision p) (f_ss F)) <| ns_send :=
         [(message "identity_confirmed" n) <| m_Revision := Revision p |> <| m_CacheSessionID := ns_cacheSessionID (f_ss F) |>
            <| m_SyncComplete := BaselineEnd p |>] |> |>)).
Proof.
  intros Hst0 Hcur0 Hty Hep Hpr Hp Hrev Hlt Hix Hse Hb Hcf. apply leads_act. intros y H. acts (Identity c 0 true). focused H.
  rewrite Hst0. unfold identity_worker, confirmIdentity, registered.
  rewrite Hcur0, (conn_some _ _ _ Hs), Hn, Hcur, Hty, Hep, Hpr, <- Hrev, Hp, Hix, Hb, andb_false_r, Hcf. decides.
  unfold try_send, confirmed_session. rewrite Hb. cbn. rewrite Hse, Hn. decides. cbn.
  eexists. split; [reflexivity|]. settle. by rewrite Hs.
Qed.

(** The next page of the baseline. *)
Definition page_session (ss : nodeSession) (page : NodeIdentityPage) (p : IdentitySnapshot) : nodeSession :=
  ss <| ns_pendingCursor := np_LastID page |> <| ns_pendingRevision := Revision p |> <| ns_pendingIdentity := Some p |>
     <| ns_syncStarted := 0 |> <| ns_applyProgress := 0 |> <| ns_pendingPayload := Marshal p |> <| ns_chunkIndex := 0 |>
     <| ns_chunkTotal := chunk_count (Marshal p) |>.
Lemma lead_push page d1 revision d2 data :
  let ss := f_ss F in
  let p := page_snapshot revision true page (ListBlockedInboundIPs d1) in
  ns_cacheSessionID ss ≠ ""%string → ns_appliedRevision ss = ns_pendingRevision ss → ns_cacheReady ss = true →
  ns_baselineActive ss = true → ns_cacheProtocol ss = 3 → ns_send ss = [] →
  ReadNodeIdentityPage (f_db F) n (ns_baselineCursor ss) None 64 = inr page → NextIdentityRevision (f_db F) = inr (d1, revision) →
  PrepareNodeIdentityCache d1 n (ns_cacheSessionID ss) revision (touched_users p) = inr d2 →
  chunk_data (Marshal p) 0 = Some data →
  leads c here (there (F <| f_db := d2 |>
    <| f_ss := (page_session ss page p) <| ns_send := [chunk_message (page_session ss page p) data] |> |>)).
Proof.
  intros ss p Hep Hap Hrd Hba Hpr Hse Hpage Hnext Hprep Hdata. apply leads_act. intros y H.
  acts (Push n 0 None all_sql). focused H. unfold fresh_token, pushNodeIdentity. rewrite Hsu, Hcur, (conn_some _ _ _ Hs).
  fold ss. rewrite Hap, Hrd, Hba, Hpr. decides. cbn [andb negb all_sql]. rewrite !andb_false_r. cbn [andb orb].
  unfold identityPageMessage. rewrite (conn_some _ _ _ Hs). fold ss in Hn |- *. rewrite Hba, Hn, Hpage, Hnext. cbn [andb negb].
  rewrite andb_false_r. fold p. set (s1 := update_conn _ _ _).
  assert (Hs1 : cs_conns s1 !! c = Some (ss <| ns_pendingCursor := np_LastID page |>)) by (cbn; by rewrite lookup_alter_eq, Hs).
  assert (Hq : enqueueIdentity sql_error s1 d1 c 0 true (snapshot_message n revision p) =
    (update_conn s1 c (λ _, (page_session ss page p) <| ns_send := [chunk_message (page_session ss page p) data] |>), d2, None)).
  { unfold enqueueIdentity, registered. cbn [m_Payload snapshot_message upd message]. rewrite !(conn_some _ _ _ Hs1).
    rewrite Unmarshal_Marshal. cbn [negb]. change (ns_nodeID (_ <| _ := _ |>)) with (ns_nodeID ss).
    change (cs_sessions s1) with (cs_sessions (y_ctl y)). change (ns_cacheSessionID (_ <| _ := _ |>)) with (ns_cacheSessionID ss).
    change (m_Revision (snapshot_message n revision p)) with revision. rewrite Hn, Hcur, Hprep. decides.
    change (negb (Incremental p) && negb (Baseline p)) with false. cbv iota.
    change (ns_cacheProtocol (_ <| _ := _ |>)) with (ns_cacheProtocol ss). rewrite Hpr. decides.
    change (sendIdentityChunkLocked _) with (sendIdentityChunkLocked (page_session ss page p)).
    unfold sendIdentityChunkLocked. change (chunk_data _ _) with (chunk_data (Marshal p) 0). rewrite Hdata.
    unfold try_send. change (ns_send (page_session ss page p)) with (ns_send ss). rewrite Hse. done. }
  unfold all_sql. cbn [negb]. rewrite Hq. cbn [fst]. eexists. split; [reflexivity|]. settle. by rewrite Hs.
Qed.
End steps.

(** ** Fragments *)

Definition idle_loop (l : ConnectLoop) : Prop :=
  cl_identityJobs l = [] ∧ cl_identityCurrent l = None ∧ cl_awaiting l = None.
(** The edge waits for messages of the epoch. *)
Record waiting (epoch : string) (k : EdgeConn) : Prop := mkWaiting {
  wt_send : ek_send k = [];
  wt_protocol : ek_identityProtocol k = 3;
  wt_epoch : ek_cacheSessionID k = epoch;
  wt_applying : ek_applying k = None;
  wt_running : ek_applyStopped k = false ∧ ek_recvStopped k = false }.
(** It has the first [i] fragments of the payload. *)
Record buffered (revision : Z) (payload : bytes) (i : Z) (k : EdgeConn) : Prop := mkBuffered {
  bf_buffer : ek_chunkBuffer k = sent_prefix payload i;
  bf_jobs : ek_applyJobs k = None;
  bf_progress : 0 < i → ek_chunkRevision k = revision ∧ ek_chunkIndex k = i ∧ ek_chunkTotal k = chunk_count payload }.

Definition ack_message (epoch : string) (revision i : Z) : Message :=
  (message "identity_chunk_ack" n) <| m_CacheSessionID := epoch |> <| m_Revision := revision |> <| m_Sequence := i |>.

Lemma begin_fragment e k epoch revision payload i data m :
  edc_nodeID e = n → waiting epoch k → buffered revision payload i k → 0 ≤ i → m_Revision m = revision →
  ∃ e' k', begin_chunks e k m (mkChunk i (chunk_count payload) data) = (e', k') ∧ edc_nodeID e' = n ∧
    waiting epoch k' ∧ ek_chunkBuffer k' = sent_prefix payload i ∧ ek_applyJobs k' = None ∧
    ek_chunkRevision k' = revision ∧ ek_chunkIndex k' = i ∧ ek_chunkTotal k' = chunk_count payload.
Proof.
  intros He [Hse Hpr Hep Hap Hrun] [Hbf Hjb Hpg] Hi Hrev. unfold begin_chunks. cbn [ch_Index ch_Total].
  destruct (bool_decide_reflect (i = 0)) as [->|Hne]; (do 2 eexists; split; [reflexivity|]).
  - split_and!; try done; by constructor.
  - destruct Hpg as (? & ? & ?); [lia|]. by split_and!.
Qed.

Lemma recv_fragment e k epoch revision payload i data ss :
  edc_nodeID e = n → waiting epoch k → buffered revision payload i k → 0 ≤ i < chunk_count payload →
  chunk_data payload i = Some data → ns_nodeID ss = n → ns_pendingRevision ss = revision → ns_chunkIndex ss = i →
  ns_cacheSessionID ss = epoch → ns_chunkTotal ss = chunk_count payload →
  ∃ e' k', recv e k 0 (chunk_message ss data) = (e', k') ∧ ek_send k' = [ack_message epoch revision i] ∧
    waiting epoch (k' <| ek_send := [] |>) ∧
    if bool_decide (i + 1 = chunk_count payload)
    then ek_chunkBuffer k' = [] ∧ ek_applyJobs k' = Some (snapshot_job 3 epoch revision payload)
    else buffered revision payload (i + 1) k'.
Proof.
  intros He [Hse Hpr Hep Hap [Has Hrs]] [Hbf Hjb Hpg] Hi Hdata Hn Hrev Hix Hses Htot.
  destruct (chunk_data_spec payload i Hi) as (data' & Hdata' & Hlen & Hpre). assert (data' = data) as -> by congruence. clear Hdata'.
  set (m := chunk_message ss data). set (k0 := k <| ek_lastReceived := 0 |>).
  assert (Hchunk : m_Payload m = PChunk (mkChunk i (chunk_count payload) data)) by (unfold m; cbn; by rewrite Hix, Htot).
  assert (Hrecv : recv e k 0 m = recv_chunk e k0 m).
  { unfold recv. rewrite Hrs. change (m_NodeID m) with (ns_nodeID ss). rewrite Hn, He. decides. by rewrite andb_false_r. }
  rewrite Hrecv. unfold recv_chunk. rewrite Hchunk. change (m_CacheSessionID m) with (ns_cacheSessionID ss).
  assert (Hk0 : waiting epoch k0) by (by constructor). assert (Hb0 : buffered revision payload i k0) by (by constructor).
  destruct (begin_fragment e k0 epoch revision payload i data m) as (e1 & k1 & -> & He1 & [Hse1 Hpr1 Hep1 Hap1 Hrun1] & Hbf1 & Hjb1 & Hrev1 & Hix1 & Htot1);
    [done|done|done|lia|done|].
  rewrite (wt_protocol _ _ Hk0), (wt_epoch _ _ Hk0), Hses. decides. rewrite (bf_buffer _ _ _ _ Hb0). cbn [ch_Index].
  assert (Hfirst : bool_decide (i = 0) && bool_decide (0 < len (sent_prefix payload i)) = false).
  { destruct (bool_decide_reflect (i = 0)) as [->|]; [|done]. by rewrite sent_prefix_0. }
  assert (Hgood : bad_chunk k1 m (mkChunk i (chunk_count payload) data) = false).
  { unfold bad_chunk. cbn [ch_Index ch_Total ch_Data]. change (m_Sequence m) with (ns_chunkIndex ss).
    change (m_Revision m) with (ns_pendingRevision ss). rewrite Hix, Hrev, Hrev1, Hix1, Htot1. by decides. }
  rewrite Hfirst, Hgood. unfold edge_send. rewrite bool_decide_true by (cbn; rewrite Hse1; cbn; lia). cbn -[m]. rewrite Hse1.
  rewrite Hbf1, Hix1, Htot1, Hpre, Hpr1, Hep1, He1. change (m_Revision m) with (ns_pendingRevision ss). rewrite Hrev.
  destruct (bool_decide_reflect (i + 1 = chunk_count payload)) as [Hend|Hmore].
  - unfold queueApply. cbn. rewrite Hjb1. cbn. do 2 eexists. split; [reflexivity|]. rewrite Hend, sent_prefix_all.
    by split_and!.
  - do 2 eexists. split; [reflexivity|]. split_and!; [done|by constructor..].
Qed.

(** The controller has sent fragment [i] of page [p]. *)
Record sending (epoch : string) (p : IdentitySnapshot) (last i : Z) (ss : nodeSession) : Prop := mkSending {
  sd_epoch : ns_cacheSessionID ss = epoch;
  sd_protocol : ns_cacheProtocol ss = 3 ∧ ns_cacheReady ss = true;
  sd_cursor : ns_pendingCursor ss = last;
  sd_revision : ns_pendingRevision ss = Revision p ∧ ns_appliedRevision ss < Revision p;
  sd_pending : ns_pendingIdentity ss = Some p;
  sd_payload : ns_pendingPayload ss = Marshal p;
  sd_chunk : ns_chunkIndex ss = i ∧ ns_chunkTotal ss = chunk_count (Marshal p) }.

Section transfer.
Context (c : nat) (epoch : string) (p : IdentitySnapshot) (last : Z) (s : Store) (d : ControllerDB).
Abbreviation payload := (Marshal p).

(** Fragment [i] is in the channel; [i] is the number of fragments once the last
    one has been acknowledged. *)
Record transfer (i : Z) (F : Focus) : Prop := mkTransfer {
  tr_stage : f_stage F = Streaming;
  tr_loop : idle_loop (f_loop F);
  tr_flow : f_down F = [] ∧ f_up F = [];
  tr_session : sending epoch p last i (f_ss F);
  tr_waiting : waiting epoch (f_conn F);
  tr_state : f_store F = s ∧ f_db F = d;
  tr_edge :
    if bool_decide (i = chunk_count payload)
    then ns_send (f_ss F) = [] ∧ ek_chunkBuffer (f_conn F) = [] ∧
         ek_applyJobs (f_conn F) = Some (snapshot_job 3 epoch (Revision p) payload)
    else buffered (Revision p) payload i (f_conn F) ∧
         ∃ data, chunk_data payload i = Some data ∧ ns_send (f_ss F) = [chunk_message (f_ss F) data] }.

Lemma transfer_fragment i F :
  0 ≤ i < chunk_count payload → transfer i F → leads c (at_focus c F) (λ y, ∃ F', at_focus c F' y ∧ transfer (i + 1) F').
Proof.
  intros Hi [Hst (Hjo & Hcu & Haw) [Hdo Hup] [Hep [Hpr Hrd] Hla [Hrv Hap] Hpe Hpa [Hix Hto]] Hwt [Hs Hd] Hed].
  rewrite (bool_decide_false (i = _)) in Hed by lia. destruct Hed as (Hbf & data & Hdata & Hse).
  apply leads_focus. intros Hn He. destruct F as [st l ss e k s0 d0 down up]. cbn in * |-. subst st s0 d0 down up.
  eapply leads_trans; [by apply lead_transmit|]. cbn -[transmitted].
  destruct (recv_fragment e k epoch (Revision p) payload i data ss) as (e' & k' & Hr & Hack & Hw & Hb); try done.
  eapply leads_trans; [eapply lead_edge_recv; [reflexivity|apply Hwt|exact Hr]|]. cbn -[transmitted].
  eapply leads_trans; [by apply lead_edge_send|]. cbn -[transmitted].
  change (transmitted 0 (chunk_message ss data) [] ss) with (ss <| ns_send := [] |> <| ns_syncStarted := 0 |>).
  set (ss1 := ss <| ns_send := [] |> <| ns_syncStarted := 0 |>).
  assert (Hnext : ∃ ss', (if bool_decide (ns_chunkIndex ss1 + 1 < ns_chunkTotal ss1) then sendIdentityChunkLocked (acked ss1)
                          else (acked ss1, None)) = (ss', None) ∧ sending epoch p last (i + 1) ss' ∧
    if bool_decide (i + 1 = chunk_count payload) then ns_send ss' = []
    else ∃ data, chunk_data payload (i + 1) = Some data ∧ ns_send ss' = [chunk_message ss' data]).
  { cbn -[acked sendIdentityChunkLocked]. rewrite Hix, Hto. destruct (bool_decide_reflect (i + 1 = chunk_count payload)) as [Hend|Hmore].
    - rewrite bool_decide_false by lia. eexists. split; [reflexivity|]. split; [|done]. constructor; cbn; try done. by rewrite Hix.
    - rewrite bool_decide_true by lia. destruct (chunk_data_spec payload (i + 1)) as (data' & Hdata' & _); [lia|].
      unfold sendIdentityChunkLocked. cbn -[chunk_message]. rewrite Hpa, Hix, Hdata'. cbn -[chunk_message].
      eexists. split; [reflexivity|]. split; [constructor; cbn; try done; by rewrite Hix|]. by exists data'. }
  destruct Hnext as (ss' & Hnext & Hsend & Hch).
  eapply leads_mono; [eapply lead_receive_ack; try exact Hnext; try reflexivity; cbn; try done; try lia; try congruence; by rewrite Hpe|].
  intros y (l' & Hy & Hj' & Hc' & Ha'). cbn in Hj', Hc'. eexists. split; [exact Hy|].
  constructor; cbn; try done; [unfold idle_loop; split_and!; congruence|].
  destruct (bool_decide_reflect (i + 1 = chunk_count payload)); [by destruct Hb|]. split; [|done].
  by destruct Hb; constructor.
Qed.

Lemma transfer_all i F :
  0 ≤ i ≤ chunk_count payload → transfer i F →
  leads c (at_focus c F) (λ y, ∃ F', at_focus c F' y ∧ transfer (chunk_count payload) F').
Proof.
  remember (Z.to_nat (chunk_count payload - i)) as k eqn:Hk. revert i F Hk.
  induction k as [|k IH]; intros i F Hk Hi Ht.
  - intros y Hy. exists [], y. split_and!; [done|done|]. exists F. by replace (chunk_count payload) with i by lia.
  - eapply leads_trans; [apply (transfer_fragment i); [lia|done]|].
    intros y (F' & Hy & Ht'). apply (IH (i + 1) F'); [lia|lia|done|done].
Qed.

(** ** Application and confirmation *)

(** Between two pages. *)
Record between (cursor : Z) (s : Store) (d : ControllerDB) (F : Focus) : Prop := mkBetween {
  bt_stage : f_stage F = Streaming;
  bt_loop : idle_loop (f_loop F);
  bt_flow : f_down F = [] ∧ f_up F = [];
  bt_waiting : waiting epoch (f_conn F);
  bt_empty : ek_chunkBuffer (f_conn F) = [] ∧ ek_applyJobs (f_conn F) = None;
  bt_epoch : ns_cacheSessionID (f_ss F) = epoch;
  bt_protocol : ns_cacheProtocol (f_ss F) = 3 ∧ ns_cacheReady (f_ss F) = true;
  bt_send : ns_send (f_ss F) = [];
  bt_cursor : ns_baselineCursor (f_ss F) = cursor;
  bt_applied : ns_appliedRevision (f_ss F) = ns_pendingRevision (f_ss F) ∧ ns_pendingRevision (f_ss F) ≤ d_sequence d;
  bt_state : f_store F = s ∧ f_db F = d }.

Definition identity_ack (revision : Z) : Message :=
  (message "identity_ack" n) <| m_Revision := revision |> <| m_CacheSessionID := epoch |>.

(** The apply worker commits the page and reports it. *)
Lemma apply_page F s' :
  transfer (chunk_count payload) F → ApplyIdentitySnapshot julianday s 0 0 (inr p) = inr s' →
  leads c (at_focus c F) (λ y, ∃ F' e k, F' = F <| f_store := s' |> <| f_client := e |> <| f_conn := k |> <| f_up := [identity_ack (Revision p)] |> ∧
    at_focus c F' y ∧ waiting epoch k ∧ ek_chunkBuffer k = [] ∧ ek_applyJobs k = None ∧ ek_locallyApplied k = Revision p).
Proof.
  intros [Hst Hlo [Hdo Hup] Hss [Hse Hpr Hep Hap [Has Hrs]] [Hs Hd] Hed] Happ. rewrite bool_decide_true in Hed by done.
  destruct Hed as (Hsnd & Hbuf & Hjob). apply leads_focus. intros Hn He.
  destruct F as [st l ss e k s0 d0 down up]. cbn in * |-. subst st s0 d0 down up.
  eapply leads_trans; [apply lead_edge_take|]. cbn -[apply_take].
  set (j := mkJob (snapshot_job 3 epoch (Revision p) payload) false 0).
  assert (Htake : apply_take k = k <| ek_applyJobs := None |> <| ek_applying := Some j |>).
  { unfold apply_take. rewrite Hjob, Hap, Has. cbn. rewrite Unmarshal_Marshal. by decides. }
  rewrite Htake. eapply leads_trans; [eapply lead_edge_commit; unfold apply_commit; cbn; by rewrite Unmarshal_Marshal, Happ|].
  set (k1 := k <| ek_applyJobs := None |> <| ek_applying := Some j |> <| ek_applying := Some (j <| aj_committed := true |>) |>).
  assert (Hrep : apply_report e k1 None =
    (e, k1 <| ek_locallyApplied := Revision p |> <| ek_send := [identity_ack (Revision p)] |> <| ek_applying := None |>)).
  { unfold apply_report, edge_send. cbn. rewrite Hse. change (reset_job _) with false. rewrite (bool_decide_false (3 < 2)), He by lia. done. }
  eapply leads_trans; [eapply lead_edge_report; [exact Hrep|done]|].
  eapply leads_trans; [eapply lead_edge_send; reflexivity|].
  intros y Hy. exists [], y. split_and!; [done|done|]. do 3 eexists. split; [reflexivity|].
  split; [exact Hy|]. cbn. by split_and!.
Qed.

Lemma confirm_page F s' d' :
  transfer (chunk_count payload) F → ApplyIdentitySnapshot julianday s 0 0 (inr p) = inr s' → Baseline p = true →
  Revision p ≤ d_sequence d' →
  ConfirmNodeIdentityCache d 0 n epoch (Revision p) (su_ID <$> Users p) (RemovedUserIDs p) false = inr d' →
  leads c (at_focus c F) (λ y, ∃ F', at_focus c F' y ∧ between last s' d' F' ∧
    ns_baselineActive (f_ss F') = negb (BaselineEnd p) ∧ edc_syncReady (f_client F') = BaselineEnd p).
Proof.
  intros Ht Happ Hb Hseq Hcf. eapply leads_trans; [by apply apply_page|].
  intros y0 (F' & e & k & -> & Hy0 & Hw & Hbuf & Hjob & Hloc). apply (leads_at _ _ _ _ Hy0). clear y0 Hy0.
  destruct Ht as [Hst (Hjo & Hcu & Haw) [Hdo Hup] [Hep [Hpr Hrd] Hla [Hrv Hap] Hpe Hpa [Hix Hto]] _ [Hs Hd] Hed].
  rewrite bool_decide_true in Hed by done. destruct Hed as (Hsnd & _).
  apply leads_focus. cbn. intros Hn He. destruct F as [st l ss e0 k0 s0 d0 down up]. cbn in * |-. subst st s0 d0 down up.
  eapply leads_trans; [eapply lead_receive_job; try reflexivity; try done|]. cbn.
  intros y0 (l1 & Hy0 & Hj1 & Hc1 & Ha1). 
  apply (leads_at _ _ _ _ Hy0). clear y0 Hy0.
  eapply leads_trans; [eapply lead_identity_take; cbn; [done|congruence|done]|].
  eapply leads_trans; [eapply (lead_identity_confirm _ _ (identity_ack (Revision p)) p d'); cbn; try done; congruence|]. cbn.
  eapply leads_trans; [eapply lead_transmit; reflexivity|].
  set (m := _ <| m_SyncComplete := BaselineEnd p |>).
  assert (Hrecv : ∃ e', recv e k 0 m = (e', k <| ek_lastReceived := 0 |>) ∧ edc_syncReady e' = BaselineEnd p).
  { destruct Hw as [Hwse Hwpr Hwep Hwap [Hwas Hwrs]]. unfold recv. rewrite Hwrs. change (m_NodeID m) with n. rewrite He.
    decides. rewrite andb_false_r. unfold recv_confirmed. cbn -[m]. cbn. rewrite Hep, Hwep, Hloc, Hwpr. decides. cbn.
    eexists. split; [reflexivity|]. by destruct (BaselineEnd p && _). }
  destruct Hrecv as (e' & Hrecv & Hsync).
  eapply leads_mono; [eapply lead_edge_recv; [reflexivity|apply Hw|exact Hrecv]|].
  intros y1 Hy1. eexists. split; [exact Hy1|]. unfold confirmed_session. rewrite Hb.
  split; [|split; [done|by rewrite <- Hsync]]. destruct Hw. constructor; cbn; try done.
  assert (Htr : ∀ r, transmitted 0 m [] r = r <| ns_send := [] |>) by done. rewrite !Htr. cbn. by rewrite Hrv.
Qed.
End transfer.

(** ** Pages *)

(** The edge holds the users up to the cursor as the database wants them. *)
Record holds (d0 : ControllerDB) (epoch : string) (cursor : Z) (s : Store) (d : ControllerDB) : Prop := mkHolds {
  ho_same : same_identities d0 d;
  ho_ok : db_ok d;
  ho_clean : clean d n;
  ho_session : ∃ boot, d_sessions d !! n = Some (epoch, boot);
  ho_closed : edge_closed s;
  ho_view : ∀ u, edge_view s u = if bool_decide (u ≤ cursor) then db_view d0 n u else empty_view;
  ho_window : identityResetPending s = true;
  ho_last : ∀ previous, last_revision s = Some previous → previous ≤ d_sequence d }.

(** The edge is synchronized and nothing is pending for it. *)
Definition synchronized (d0 : ControllerDB) (y : System) : Prop :=
  (∃ k, current n y k) ∧ edc_syncReady (y_client y) = true ∧ same_identities d0 (y_db y) ∧
  PendingNodeIdentityUsers (y_db y) n (session_of (y_db y) n) = [] ∧
  ∀ u, edge_view (y_store y) u = db_view (y_db y) n u.

Lemma last_id_bound d cursor page :
  db_ok d → ReadNodeIdentityPage d n cursor None 64 = inr page → np_LastID page ≤ Z.max cursor (d_user_seq d).
Proof.
  intros Hok (_ & _ & ->)%read_page_inv. cbn. destruct (last _) as [u|] eqn:Hu; cbn; [|lia].
  apply last_Some_elem_of, candidates_ok in Hu as [Hs _]. apply (ok_user_ids d Hok) in Hs. lia.
Qed.

(** The edge after a page. *)
Lemma page_view_edge d0 epoch cursor s d page revision blocked s' :
  holds d0 epoch cursor s d → ReadNodeIdentityPage d n cursor None 64 = inr page →
  let p := page_snapshot revision true page blocked in
  ApplyIdentitySnapshot julianday s 0 0 (inr p) = inr s' →
  edge_closed s' ∧ ∀ u, edge_view s' u = if np_End page || bool_decide (u ≤ np_LastID page) then db_view d0 n u else empty_view.
Proof.
  intros [Hsame Hok _ _ Hcl Hview _ _] Hpage p Happ.
  destruct (baseline_page d n cursor page revision blocked Hok Hpage) as (Hmsg & Hrm & Hle & _ & Husers & Hothers). fold p in Hmsg, Hrm, Husers, Hothers.
  destruct (Apply_view julianday s 0 0 p s' 0 Hmsg Hcl Happ) as (Hcl' & _). split; [done|]. intros u.
  destruct (Apply_view julianday s 0 0 p s' u Hmsg Hcl Happ) as (_ & Hin & Hout). unfold touched_users in Hout. rewrite Hrm in Hout.
  destruct (decide (u ∈ su_ID <$> Users p)) as [Hu|Hu].
  - destruct (Husers u Hu) as [Hbd Hv]. rewrite Hin, Hv, <- (same_view _ _ _ _ Hsame).
    + by rewrite bool_decide_true, orb_true_r by lia.
    + destruct (revoke_tables (Tokens p) s) as (? & ? & ? & ? & ?).
      change (prepared s p) with (foldl revoke_rotated s (Tokens p)). by rewrite (edge_view_ext s), Hview, bool_decide_false by (done || lia).
  - rewrite Hout, Hview by done. destruct (bool_decide_reflect (u ≤ cursor)).
    + by rewrite bool_decide_true, orb_true_r by lia.
    + destruct (np_End page || bool_decide (u ≤ np_LastID page)) eqn:Hb; [|done]. rewrite <- (same_view _ _ _ _ Hsame). symmetry.
      apply Hothers; [lia| |done]. apply orb_true_iff in Hb as [?|?%bool_decide_eq_true]; auto.
Qed.

Lemma Apply_last s p s' : ApplyIdentitySnapshot julianday s 0 0 (inr p) = inr s' → last_revision s' = Some (Revision p).
Proof. intros (_ & s1 & _ & ->)%Apply_inv. unfold finish. by destruct (complete p), (Incremental p). Qed.

Lemma same_identities_trans d0 d d' : same_identities d0 d → same_identities d d' → same_identities d0 d'.
Proof. intros (? & ? & ? & ? & ? & ? & ?) (? & ? & ? & ? & ? & ? & ?). unfold same_identities. split_and!; congruence. Qed.

(** The push of a page starts its transfer. *)
Lemma push_transfer c epoch cursor s d F page d2 :
  let revision := d_sequence d + 1 in
  let d1 := d <| d_sequence := revision |> in
  let p := page_snapshot revision true page (ListBlockedInboundIPs d1) in
  epoch ≠ ""%string → between epoch cursor s d F → ns_baselineActive (f_ss F) = true →
  ReadNodeIdentityPage d n cursor None 64 = inr page → NextIdentityRevision d = inr (d1, revision) →
  PrepareNodeIdentityCache d1 n epoch revision (touched_users p) = inr d2 →
  leads c (at_focus c F) (λ y, ∃ F', at_focus c F' y ∧ transfer epoch p (np_LastID page) s d2 0 F').
Proof.
  intros revision d1 p Hne [Hst Hlo [Hdo Hup] Hw [Hbuf Hjob] Hep [Hpr Hrd] Hse Hcu [Hap Hseq] [Hs Hd]] Hact Hpage Hnext Hprep.
  pose proof (chunk_count_pos _ (Marshal_nonempty p)) as Hpos.
  destruct (chunk_data_spec (Marshal p) 0) as (data & Hdata & _); [lia|].
  eapply leads_mono; [eapply (lead_push c F page d1 revision d2 data); rewrite ?Hd, ?Hep, ?Hcu; done|].
  intros y Hy. eexists. split; [exact Hy|].
  constructor; cbn -[page_snapshot chunk_message page_session]; try done.
  - by constructor; cbn; try done; [split; [done|unfold revision; lia]].
  - rewrite bool_decide_false by lia. split; [constructor; [done|done|lia]|by exists data].
Qed.

(** One page; the last one ends the synchronization. *)
Lemma page_round c epoch d0 cursor s d F :
  epoch ≠ ""%string → between epoch cursor s d F → ns_baselineActive (f_ss F) = true → holds d0 epoch cursor s d →
  leads c (at_focus c F) (λ y, synchronized d0 y ∨ ∃ F' cursor' s' d', at_focus c F' y ∧ between epoch cursor' s' d' F' ∧
    ns_baselineActive (f_ss F') = true ∧ holds d0 epoch cursor' s' d' ∧ cursor < cursor' ≤ Z.max cursor (d_user_seq d0)).
Proof.
  intros Hne Hbt Hact Hh. assert (Hh' := Hh). destruct Hh' as [Hsame Hok Hclean [boot Hses] Hcl Hview Hwin Hlast].
  destruct (read_page_succeeds d n cursor) as [page Hpage].
  destruct (page_database d n epoch boot cursor page Hok Hclean Hses Hpage)
    as (Hnext & d2 & d3 & Hprep & Hconf & Hsame3 & Hok3 & Hclean3 & Hses3 & Hseq3).
  eapply leads_trans; [by eapply push_transfer|].
  set (revision := d_sequence d + 1) in *. set (p := page_snapshot revision true page _) in *.
  assert (Hpos : 0 < revision) by (pose proof (ok_sequence d Hok); unfold revision; lia).
  destruct (baseline_page_applies julianday d n cursor page s revision (ListBlockedInboundIPs (d <| d_sequence := revision |>)) 0 0) as [s' Happ]; try done.
  { intros u. rewrite Hview. case_bool_decide; [right|by left]. by rewrite (same_view _ _ _ _ Hsame). }
  { intros previous ?%Hlast. unfold revision. lia. }
  fold p in Happ. destruct (page_view_edge _ _ _ _ _ _ _ _ _ Hh Hpage Happ) as [Hcl' Hview'].
  intros y (F1 & Hy & Ht). apply (leads_at _ _ _ _ Hy). clear y Hy.
  eapply leads_trans; [apply (transfer_all c epoch p (np_LastID page) s d2 0); [pose proof (chunk_count_pos _ (Marshal_nonempty p)); lia|exact Ht]|]. clear F1 Ht.
  intros y (F1 & Hy & Ht). apply (leads_at _ _ _ _ Hy). clear y Hy.
  eapply leads_mono; [eapply confirm_page; [exact Ht|exact Happ|done| |exact Hconf]; by rewrite Hseq3|].
  intros y (F2 & Hy & Hbt2 & Hact2 & Hsync2). change (BaselineEnd p) with (np_End page) in Hact2, Hsync2.
  assert (Hsame0 := same_identities_trans _ _ _ Hsame Hsame3).
  destruct (np_End page) eqn:Hend; [left|right].
  - destruct Hy, (bt_state _ _ _ _ _ Hbt2) as [Hs2 Hd2]. unfold synchronized. rewrite at_client0, at_store0, at_db0, Hs2, Hd2.
    split_and!; [by exists (f_conn F2), c|done|done|by apply clean_pending|]. intros u. rewrite Hview'. symmetry. by apply same_view.
  - exists F2, (np_LastID page), s', d3.
    destruct (baseline_page d n cursor page revision [] Hok Hpage) as (_ & _ & _ & Hmv & _).
    split_and!; try done; [constructor; try done|by apply Hmv|].
    + exists boot. by rewrite Hses3.
    + rewrite (Apply_pending _ _ _ _ _ _ Happ). unfold complete. cbn. by rewrite Hend.
    + rewrite (Apply_last _ _ _ Happ), Hseq3. by intros previous [= <-].
    + destruct Hsame as (_ & _ & _ & _ & _ & _ & <-). by apply last_id_bound.
Qed.

(** The cursor grows with each page and stays below the largest user id. *)
Lemma pages c epoch d0 cursor s d F :
  epoch ≠ ""%string → between epoch cursor s d F → ns_baselineActive (f_ss F) = true → holds d0 epoch cursor s d →
  leads c (at_focus c F) (synchronized d0).
Proof.
  intros Hne. remember (Z.to_nat (d_user_seq d0 - cursor)) as k eqn:Hk. revert cursor s d F Hk.
  induction (lt_wf k) as [k _ IH]. intros cursor s d F Hk Hbt Hact Hh.
  eapply leads_trans; [by eapply page_round|].
  intros y [Hy|(F' & cursor' & s' & d' & Hy & Hbt' & Hact' & Hh' & Hc)]; [by exists [], y|].
  apply (leads_at _ _ _ _ Hy). eapply (IH (Z.to_nat (d_user_seq d0 - cursor'))); [lia|done..].
Qed.

(** ** The handshake *)

(** The edge gives up its connection, if it has one, the health check of the
    controller finds the database again, and the edge connects. *)
Definition reconnect (y : System) : list action :=
  (if y_conn y is Some _ then [EdgeClose 0 None true ""] else []) ++ [Ctl (CtlFault 0 false); EdgeConnect 0].
Lemma reconnected y :
  edc_nodeID (y_client y) = n → ""%string ∈ y_tokens y → is_Some (d_nodes (y_db y) !! n) → (y_gone y ≤ y_next y)%nat →
  edc_bootID (y_client y) ≠ ""%string → slen (edc_bootID (y_client y)) ≤ 128 →
  ∃ y' e s, run y (reconnect y) = Some y' ∧ edc_nodeID e = n ∧ edc_bootID e ≠ ""%string ∧ slen (edc_bootID e) ≤ 128 ∧
    at_focus (y_next y) (mkFocus AwaitHello new_loop (new_session n 0) e (open_connection e 0) s (y_db y) [] []) y'.
Proof.
  intros Hid Hbl [node Hnode] Hg Hb Hlen.
  assert (Hoff : ∃ y1, run y (if y_conn y is Some _ then [EdgeClose 0 None true ""] else []) = Some y1 ∧
    y_conn y1 = None ∧ y_db y1 = y_db y ∧ edc_nodeID (y_client y1) = n ∧ ""%string ∈ y_tokens y1 ∧
    edc_bootID (y_client y1) ≠ ""%string ∧ slen (edc_bootID (y_client y1)) ≤ 128 ∧ y_next y1 = y_next y ∧ y_gone y1 = y_gone y).
  { destruct (y_conn y) as [[c k]|] eqn:Hk; [|by exists y]. cbn. rewrite Hk. cbn. by eexists. }
  destruct Hoff as (y1 & Hrun & Hno & Hdb1 & Hid1 & Hbl1 & Hb1 & Hlen1 & Hnx & Hgo).
  unfold reconnect. rewrite (run_app _ _ _ _ Hrun). cbn -[register]. rewrite Hno. cbn -[register].
  unfold noted. cbn -[register]. rewrite Hdb1, Hnode. cbn -[register].
  eexists _, _, _. split; [reflexivity|]. split_and!; [exact Hid1|exact Hb1|exact Hlen1|]. rewrite <- Hnx.
  constructor; cbn -[register]; try done.
  - apply lookup_insert_eq.
  - apply register_new.
  - rewrite register_sessions. split; [apply lookup_insert_eq|lia].
  - unfold register. destruct (cs_sessions _ !! n); done.
Qed.

Definition reset_message (epoch : string) : Message := (message "cache_reset" "") <| m_CacheSessionID := epoch |>.
Definition welcomed (epoch : string) (k : EdgeConn) : EdgeConn :=
  k <| ek_lastReceived := 0 |> <| ek_identityProtocol := 3 |> <| ek_cacheSessionID := epoch |> <| ek_chunkBuffer := [] |>
    <| ek_applyJobs := Some (reset_message epoch) |>.
Lemma recv_welcome_ok e k epoch ack :
  edc_nodeID e = n → epoch ≠ ""%string → ha_IdentityProtocol ack = 3 → ek_recvStopped k = false → ek_applyJobs k = None →
  ∃ e', recv e k 0 ((message "welcome" n) <| m_CacheSessionID := epoch |> <| m_Payload := PAck ack |>) = (e', welcomed epoch k).
Proof.
  intros He Hne Hpr Hrs Hj. unfold recv. rewrite Hrs. cbn. rewrite He. decides. rewrite andb_false_r.
  unfold recv_ack, recv_welcome, queueApply. cbn. rewrite Hpr. decides. cbn. rewrite Hj. cbn. rewrite Hrs.
  eexists. reflexivity.
Qed.

(** The edge discards its cache under the new epoch and reports it. *)
Lemma lead_reset c F epoch :
  ek_applyJobs (f_conn F) = Some (reset_message epoch) → ek_applying (f_conn F) = None → ek_applyStopped (f_conn F) = false →
  ek_send (f_conn F) = [] → f_up F = [] →
  leads c (at_focus c F) (at_focus c (F <| f_store := resetIdentityCache (f_store F) false |>
    <| f_conn := (f_conn F) <| ek_applyJobs := None |> <| ek_locallyApplied := 0 |> |>
    <| f_up := [(message "cache_cleared" n) <| m_CacheSessionID := epoch |>] |>)).
Proof.
  intros Hj Hap Has Hse Hup. apply leads_focus. intros Hn He. destruct F as [st l ss e k s d down up]. cbn in * |-. subst up.
  set (j := mkJob (reset_message epoch) false 0). set (k1 := k <| ek_applyJobs := None |> <| ek_applying := Some j |>).
  set (k2 := k1 <| ek_applying := Some (j <| aj_committed := true |>) |>).
  eapply leads_trans; [apply lead_edge_take|]. cbn -[apply_take].
  replace (apply_take k) with k1 by (unfold apply_take; rewrite Hj, Hap, Has; done).
  eapply leads_trans; [eapply (lead_edge_commit _ _ (resetIdentityCache s false) k2); done|]. cbn -[resetIdentityCache].
  assert (Hrep : apply_report e k2 None = (e, k2 <| ek_locallyApplied := 0 |>
    <| ek_send := [(message "cache_cleared" n) <| m_CacheSessionID := epoch |>] |> <| ek_applying := None |>)).
  { unfold apply_report, edge_send. cbn. rewrite Hse, He. done. }
  eapply leads_trans; [eapply lead_edge_report; [exact Hrep|done]|].
  eapply leads_mono; [eapply lead_edge_send; reflexivity|].
  intros y Hy. destruct k. cbn in *. subst. exact Hy.
Qed.

Lemma holds_start s d epoch boot : db_ok d → holds d epoch 0 (resetIdentityCache s false) (ResetNodeIdentityCache d n epoch boot).
Proof.
  intros Hok. constructor; cbn -[resetIdentityCache ResetNodeIdentityCache]; try done.
  - by apply reset_ok.
  - intros u r. by rewrite reset_lookup, bool_decide_true.
  - exists boot. apply lookup_insert_eq.
  - intros u. rewrite empty_cache_view by done. case_bool_decide as Hu; [|done]. unfold db_view.
    destruct (d_users d !! u) as [usr|] eqn:Husr; [|done]. assert (Hid := ok_user_ids d Hok u). rewrite Husr in Hid.
    specialize (Hid (ex_intro _ usr eq_refl)). lia.
Qed.

(** The session before its first page. *)
Record new_epoch (epoch : string) (s : Store) (d : ControllerDB) (F : Focus) : Prop := mkNewEpoch {
  ne_loop : idle_loop (f_loop F);
  ne_ss : ns_cacheSessionID (f_ss F) = epoch ∧ ns_cacheProtocol (f_ss F) = 3 ∧ ns_cacheReady (f_ss F) = false ∧ ns_send (f_ss F) = [];
  ne_running : ek_applyStopped (f_conn F) = false ∧ ek_recvStopped (f_conn F) = false;
  ne_idle : ek_send (f_conn F) = [] ∧ ek_applying (f_conn F) = None;
  ne_flow : f_down F = [] ∧ f_up F = [];
  ne_state : f_store F = s ∧ f_db F = d }.

Lemma epoch_drawn c e s d :
  edc_nodeID e = n → edc_bootID e ≠ ""%string → slen (edc_bootID e) ≤ 128 →
  leads c (at_focus c (mkFocus AwaitHello new_loop (new_session n 0) e (open_connection e 0) s d [] []))
    (λ y, ∃ epoch F, epoch ≠ ""%string ∧ at_focus c F y ∧ new_epoch epoch s d F ∧ f_stage F = AwaitWelcome epoch ∧
      ek_applyJobs (f_conn F) = None).
Proof.
  intros He Hb Hlen.
  eapply leads_trans; [eapply lead_edge_send; reflexivity|].
  eapply leads_trans; [eapply lead_hello; cbn; try reflexivity; done|].
  eapply leads_mono; [apply lead_epoch; reflexivity|].
  intros y (epoch & Hne & Hy). exists epoch. eexists. split; [done|]. split; [exact Hy|]. split; [by constructor|done].
Qed.

Lemma reset_announced c epoch s d F :
  epoch ≠ ""%string → new_epoch epoch s d F → f_stage F = AwaitWelcome epoch → ek_applyJobs (f_conn F) = None →
  leads c (at_focus c F) (λ y, ∃ F', at_focus c F' y ∧ new_epoch epoch s d F' ∧ f_stage F' = Streaming ∧
    ek_applyJobs (f_conn F') = Some (reset_message epoch) ∧ ek_identityProtocol (f_conn F') = 3 ∧
    ek_cacheSessionID (f_conn F') = epoch ∧ ek_chunkBuffer (f_conn F') = []).
Proof.
  intros Hne [Hlo (Hep & Hpr & Hrd & Hse) [Has Hrs] [Hks Hka] [Hdo Hup] [Hs Hd]] Hst Hj. apply leads_focus. intros Hn He.
  destruct F as [st l ss e k s0 d0 down up]. cbn in * |-. subst st s0 d0 down up.
  eapply leads_trans; [eapply lead_welcome; done|].
  intros y (ack & Hack & Hy). apply (leads_at _ _ _ _ Hy). clear y Hy.
  eapply leads_trans; [eapply lead_sync; done|].
  eapply leads_trans; [eapply lead_transmit; reflexivity|].
  destruct (recv_welcome_ok e k epoch ack) as [e' Hrecv]; try done.
  eapply leads_mono; [eapply lead_edge_recv; [reflexivity|done|exact Hrecv]|].
  intros y Hy. eexists. split; [exact Hy|]. split; [by constructor|done].
Qed.

(** The handshake up to the start of the baseline. *)
Lemma handshake c epoch s d F :
  new_epoch epoch s d F → f_stage F = Streaming → ek_applyJobs (f_conn F) = Some (reset_message epoch) →
  ek_identityProtocol (f_conn F) = 3 → ek_cacheSessionID (f_conn F) = epoch → ek_chunkBuffer (f_conn F) = [] → db_ok d →
  leads c (at_focus c F) (λ y, ∃ F' s' d', at_focus c F' y ∧ between epoch 0 s' d' F' ∧
      ns_baselineActive (f_ss F') = true ∧ holds d epoch 0 s' d').
Proof.
  intros [(Hlj & Hlc & Hla) (Hep & Hpr & Hrd & Hse) [Has Hrs] [Hks Hka] [Hdo Hup] [Hs Hd]] Hst Hj Hkp Hke Hkb Hok.
  assert (Hseq := ok_sequence d Hok). destruct F as [st l ss e k s0 d0 down up]. cbn in * |-. subst st s0 d0 down up.
  eapply leads_trans; [eapply (lead_reset c _ epoch); done|].
  eapply leads_trans; [eapply lead_receive_job; cbn; try reflexivity; done|].
  intros y (l' & Hy & Hj' & Hc & Ha). apply (leads_at _ _ _ _ Hy). clear y Hy. cbn in Hc. rewrite Hlc in Hc.
  eapply leads_trans; [eapply lead_identity_take; cbn; [done|exact Hc|exact Hj']|].
  eapply leads_mono; [eapply lead_identity_cleared; cbn; try reflexivity; done|].
  intros y Hy. eexists. exists (resetIdentityCache s false), (ResetNodeIdentityCache d n epoch (ns_bootID ss)).
  split; [exact Hy|]. cbn in Hep. split; [|split; [done|by apply holds_start]].
  constructor; cbn -[resetIdentityCache ResetNodeIdentityCache]; try done.
  by rewrite Hep.
Qed.

(** C2: from every reachable state in which the node is in the directory, whatever
    was lost, refused or interrupted before, the two programs can bring the edge to a
    complete and exact cache: once the edge has reconnected and the controller has
    its database back, there is a finite sequence of steps over the new connection
    alone, none of them a request of an administrator, a restart, another connection
    or another operation of the cluster server, after which the edge is synchronized
    over its current connection, the identities are those of before, no user of the
    node is pending, and the edge holds for every user exactly what the database
    wants.  The sequence ends because the cursor of the baseline grows with every
    page.  The edge has a boot id of at most 128 bytes, which its hello needs. *)
Theorem synchronization_completes d e s y :
  db_ok d → edc_nodeID e = n → edc_syncReady e = false →
  reachable sql_error rand_error julianday db_error n (started d e s) y → is_Some (d_nodes (y_db y) !! n) →
  edc_bootID (y_client y) ≠ ""%string → slen (edc_bootID (y_client y)) ≤ 128 →
  ∃ plan y', Forall (λ a, protocol_action (y_next y) a = true) plan ∧ run y (reconnect y ++ plan) = Some y' ∧
    synchronized (y_db y) y'.
Proof.
  intros Hok He Hs Hr Hn Hb Hlen. assert (Hinv := inv_reachable _ _ _ _ _ _ _ (inv_started _ _ _ s Hok He Hs) Hr).
  assert (Hg : (y_gone y ≤ y_next y)%nat) by by eapply gone_reachable; [|exact Hr].
  destruct (reconnected y) as (y1 & e1 & s1 & Hrun & He1 & Hb1 & Hlen1 & Hy1); try done; try apply Hinv.
  enough (∃ plan y', Forall (λ a, protocol_action (y_next y) a = true) plan ∧ run y1 plan = Some y' ∧ synchronized (y_db y) y')
    as (plan & y' & Hp & Hr' & Hy') by (exists plan, y'; by rewrite (run_app _ _ _ _ Hrun)).
  apply (leads_at _ _ _ _ Hy1).
  eapply leads_trans; [by apply epoch_drawn|].
  intros y2 (epoch & F & Hne & Hy2 & Hnew & Hst & Hj). apply (leads_at _ _ _ _ Hy2).
  eapply leads_trans; [by eapply reset_announced|].
  intros y3 (F3 & Hy3 & Hnew3 & Hst3 & Hj3 & Hp3 & He3 & Hb3). apply (leads_at _ _ _ _ Hy3).
  eapply leads_trans; [eapply handshake; try done; apply Hinv|].
  intros y4 (F4 & s4 & d4 & Hy4 & Hbt & Hact & Hh). apply (leads_at _ _ _ _ Hy4). by eapply pages.
Qed.
End live.

(** The user of the example has been banned and the ban is pending. *)
Lemma synchronization_completes_witness :
  let y := demo_end (first_sync ++ [Admin (OpSetUserStatus 200 1 "banned" "abuse") (Some true)]) in
  stale (y_db y) "edge-1" 1 ∧
  ∃ plan y', Forall (λ a, protocol_action "edge-1" (y_next y) a = true) plan ∧
    ClusterRun.run (codec := wire_codec) (ErrText "database") "rand" (λ _, 0) (ErrText "database") "edge-1" y (reconnect y ++ plan) = Some y' ∧
    synchronized "edge-1" (y_db y) y'.
Proof.
  cbv zeta. split; [eexists; split; [vm_compute; reflexivity|vm_compute; reflexivity]|].
  eapply (synchronization_completes _ _ _ _ "edge-1" demo_db demo_client empty_store);
    [apply demo_db_ok|done|done|apply demo_end_reachable|vm_compute; eauto| |]; by vm_compute.
Defined.
